(* ===== verification/_CoqProject ===== *)
-Q . S2P
Prelude.v
Words.v
Text.v
Sysdep.v
LinkedList.v
BitMap.v
SectorIO.v
FileHdr.v
OpenFile.v
Stub.v
Directory.v
FileSys.v
FsTest.v
FsPrint.v
Machine.v
MipsSim.v
MipsArith.v
Execute.v
Interrupt.v
Pending.v
Disk.v
DiskFile.v
Threads.v
SchedInv.v
Kernel.v
AddrSpace.v
Coff.v
Flat.v
KernelSteps.v
Locks.v
Programs.v
Console.v
Network.v
Devices.v
Solo.v
SynchConsole.v
UserThread.v
Post.v
System.v
Exception.v
Debug.v
SynchDisk.v
Calls.v
Booted.v
Output.v
Input.v
Closing.v
ConsoleTest.v
UserProgram.v
TestPrograms.v
Tests.v
Dump.v
Interp.v
Out.v
