(* ===== verification/Prelude.v ===== *)
(** * Nachos: verification library

    The program is the Nachos teaching operating system (src/code/, C++): a kernel with
    threads, semaphores, a file system, address spaces, user threads and system calls,
    together with the machine it runs on, simulated in the same process - a MIPS
    processor, an interrupt controller with simulated time, a disk, a console, a timer and
    a network - and the tools of src/code/bin/: two converters of object files, a
    disassembler and a lister, and a stand-alone interpreter.

    ** Conventions

    A definition keeps the name of the function it models and takes and returns the state
    the function reads and writes. An operation is a function of type [ST S A] (this
    file): from a state to a result and a new state, or to a [failure], one for each way
    the program stops: a violated ASSERT, an access out of an array, an arithmetic trap of
    the host, an exception of [new], exit. Integers are [Z] with the wrap-around of
    their C type written out (Words.v: [int32], [uint32], [int8]); arrays are lists,
    indexed by [arr_get] and [arr_set], which fail out of range. What uninitialised memory
    holds is a variable called [garbage]. The host is 32-bit two's complement and little
    endian (HOST_IS_BIG_ENDIAN not set). A loop whose end the code does not make evident
    takes fuel; the theorems about it give an amount that is enough.

    ** The files, and the code they model

    Generic parts:
    - Prelude: results, the state monad, arrays, counting loops, tactics;
    - Words: C integers, the macros of threads/utility.h, byte order of
      machine/translate.cc; Text: what printf makes of numbers;
    - Sysdep: files of the host, and the functions of machine/sysdep.cc over them;
    - LinkedList: threads/list.cc, as cells in a heap, and as sequences. The other files
      use the sequences;
    - BitMap: userprog/bitmap.cc, as 32-bit words, and as a set.

    File system:
    - SectorIO: the class [SectorDevice], what filesys/ wants of the disk;
    - FileHdr, OpenFile, Directory, FileSys: the files of filesys/ of the same names, each
      on the one before; FsPrint: what they print of themselves; FsTest: filesys/fstest.cc,
      their client;
    - Stub: the classes of FILESYS_STUB, over files of the host.

    Processor:
    - Machine: machine/machine.cc, translate.cc: registers, memory, translation;
    - MipsSim: machine/mipssim.cc: decoding and OneInstruction; MipsArith: what its
      bit-level code computes;
    - Execute: bin/execute.c with int.h, instr.h, encode.h: the other simulator;
    - Dump: bin/d.c, opstrings.c, disasm.c: the disassembler; Interp: the program around
      Execute, of bin/main.c, system.c and the printing of execute.c; Out: the listing of
      bin/out.c.

    Kernel and devices:
    - Interrupt: machine/interrupt.cc, stats.cc, with the handlers of interrupts as a
      class ([Handlers]); Pending: invariants through ticks;
    - Disk, Console, Network: machine/disk.cc, console.cc, network.cc. A device is a
      function of the clock and of its state; what it asks of the interrupt controller is
      a list of [act]. DiskFile: the disk over its UNIX file;
    - Threads: threads/thread.cc, scheduler.cc, synch.cc and the end of interrupt.cc. The
      host stack of a thread that is switched out is a list of [frame]s, the calls it has
      to return from; [resume] returns from the innermost one, [request] starts a call;
    - SchedInv, Kernel, KernelSteps: the invariant of Threads, that every step keeps it,
      and what follows of whole runs; Locks: Acquire and Release over runs;
    - Programs: kernel code that calls Threads and uses what the calls return;
    - Devices: machine/timer.cc, and which kernel handler each device calls. It is an
      instance of [Handlers] and discharges [DeviceLaws], the laws Kernel is proved
      against;
    - Solo: one thread at work with a device while the others sleep: the class [Duty] says
      what the device owes the thread, a [Frame] what else is kept meanwhile, and the lemmas
      follow a request from Acquire through the wait for the interrupt to Release;
    - SynchDisk: filesys/synchdisk.cc, on Disk and Threads: an instance of [SectorDevice], and
      its [Duty];
    - SynchConsole: userprog/synchconsole.cc; Post: network/post.cc, threads/synchlist.cc;
    - AddrSpace: userprog/addrspace.cc; Coff: bin/coff2noff.c, which makes the files
      AddrSpace loads; Flat: bin/coff2flat.c, which came before it; UserThread:
      userprog/userthread.cc; Exception: userprog/exception.cc and its helpers in
      threads/system.cc, Machine::Run, and StartProcess of userprog/progtest.cc;
    - Calls: a system call from the instruction of the program to the next, around what the
      call does; Output and Input: the display and the keyboard as two [Duty]s, each a
      [Frame] of the other, and what the calls that print and read do; Closing: the end of
      the console, whose destructor yields until the poll has stopped; Booted: a machine to
      start from, for the witnesses;
    - UserProgram: the machine a user program sees, which all of this implements;
      TestPrograms: the programs of test/, what they compute and the calls they make;
    - Debug: Machine::Debugger, and what the machine and the kernel print;
    - ConsoleTest: the console tests of userprog/progtest.cc; Tests: threads/threadtest.cc,
      network/nettest.cc, and the arguments of threads/main.cc;
    - System: threads/system.cc: the state Initialize leaves, and the theorems about runs
      from it. The file system Initialize makes is FileSys.new_FileSystem, which SynchDisk
      runs on the booted machine.

    ** What the theorems show

    - Data structures: lists, bitmaps, directories, open files implement sequences, sets,
      finite maps and byte arrays, through any sequence of operations ([*_refines_*],
      [List_implements_spec]); SortedInsert sorts stably.
    - File system: formatting, then any operations and restarts, is a finite map from
      names to byte arrays with an account of free sectors
      ([FileSystem_refines_map]), as long as files have at most 3840 bytes and requests stay in
      range, on any [SectorDevice], and so on the simulated disk with
      its interrupts ([FileSystem_on_simulated_disk], [SynchDisk_serves]), which keeps
      the sectors in its UNIX file ([disk_file_refines]). An open file over UNIX is one over
      the Nachos disk to a program that stays inside it ([OpenFiles_agree]). A UNIX file of
      that size copied in is printed as it was ([Copy_then_Print]).
    - Processor: an instruction keeps the machine well formed and writes writable frames
      only ([OneInstruction_safe]); the TLB and the page table give an access the frame of its
      page or the exception for what is wrong ([Translate_confines]); multiplication, overflow,
      unaligned stores are those of the architecture; the two simulators agree
      ([switch_agrees]); the names and operands of the disassembler tell instructions apart
      ([same_line_same_effect]).
    - Time: the clock delivers exactly what is due, in order ([OneTick_delivers],
      [Idle_advances]); a disk request takes the time of its seek, rotation and transfer, or
      of a rotation when the track buffer has the sector ([ComputeLatency_correct]).
    - Kernel: any interleaving of any threads and interrupts keeps every thread where its
      status says and fails no assertion ([kernel_invariant]); locks exclude; no wake-up is
      lost; the ready list is served in order; user threads keep their registers.
    - User programs: whatever a program alone on the machine does, instructions and calls
      that print and read, the kernel and the devices do, and nothing of interrupts, sleep
      and switches shows but the end of a delayed load ([kernel_runs_program]), down to the
      end of Nachos at Exit or Halt ([program_completes]); the calls
      take the next of what is typed ([reading_calls]) and show what they are given
      ([printing_calls]), and a number put by one program is got by another
      ([PutInt_GetInt]); test/sort.c sorts ([bubble_sorts]).
    - Programs and system calls: an object file converted and loaded puts its sections at
      their addresses ([coff2noff_loads], [new_AddrSpace_loads]), a flat file is the memory
      of its program ([coff2flat_image]); stacks of user threads are disjoint; mail arrives
      as it was sent.
    - Faults of the code, as theorems about what it does instead: strings of PutString, LWL
      ([unaligned_load]); files over thirty sectors, nine-character names, the performance
      test, the shell and the console tests, as lemmas.

    ** Bounds and fuel

    Simulated memory, disk geometry and table sizes are the constants of the code. The
    walks of lists take the number of cells as fuel; the loop that delivers interrupts,
    one turn more than are pending ([check_all_ok]); the loops of fstest.cc, the length of
    the file; the copy of a user string, the size of memory, since every turn reads another
    byte ([copy_from_loop_ok]). A program of Programs.v runs for a number of steps;
    [SynchDisk_serves] and [printing_calls] say how many a request needs, [reading_calls]
    that there are enough, since it depends on when the user types. The loop of
    the stand-alone interpreter has no end but exit, so its fuel is the length of the run.
    Runs of the kernel are of any length: their theorems are by induction on the steps,
    and liveness is stated of a run that stops and of the number of context switches.

    ** Not modelled

    - The messages of DEBUG, at most functions, and those of the tools on stderr; hprint of
      bin/execute.c, which prints [double]s.
    - machine/sysdep.cc beyond files, and threads/switch.S: the host's sockets, signals and
      pages. Delay, PollFile and PollSocket appear in the devices as what the host is to
      answer; SWITCH is the change of current thread in Threads.v, and host stacks are the
      frames. The stack fence of a thread is not there: frames do not overflow.
    - A second console: the model has one. The tests of userprog/progtest.cc make one beside
      that of Initialize; on the standard input that fails an assertion
      ([second_console_fails]), and their loops are followed on a machine that has no other.
    - The host's library of object files and its numbers of system calls, which bin/disasm.c,
      main.c, system.c and out.c are written against, are parameters, and so is what getc gives
      the loaders of main.c and disasm.c, which read a file they have closed; how out.c reads its
      input, in the structs of headers that are not in the repository, is left out.
    - Deleting memory of the host: destructors that do only that.
    - Condition variables: the code has stubs that fail an assertion, so a post office
      cannot be constructed; Post.v models its operations up to that. *)
From Stdlib Require Export ZArith Lia.
From stdpp Require Export base list numbers option sorting gmap.

#[global] Open Scope Z_scope.

(** ** Outcomes of C++ code *)

(** How a C++ operation can fail to return normally. [AssertFailure] is a
    violated [ASSERT] (utility.h: print and [Abort]); [MemoryFault] is an access
    outside an array, which C++ leaves undefined; [ArithFault] is an integer
    division the host traps on; [Thrown] is an exception leaving the function
    ([std::bad_alloc]); [Exited] is [Exit(code)];
    [OutOfFuel] marks a loop whose bound was chosen too small. *)
Inductive failure : Type :=
  | AssertFailure
  | MemoryFault
  | ArithFault
  | Thrown
  | Exited (code : Z)
  | OutOfFuel.

Inductive res (A : Type) : Type :=
  | Ok (a : A)
  | Fail (f : failure).
Arguments Ok {A} a.
Arguments Fail {A} f.

#[global] Instance failure_eq_dec : EqDecision failure.
Proof. solve_decision. Defined.

Definition res_bind {A B} (m : res A) (k : A → res B) : res B :=
  match m with Ok a => k a | Fail f => Fail f end.

(** [ASSERT(b)] *)
Definition ASSERT (b : bool) : res unit := if b then Ok tt else Fail AssertFailure.

(** [a[i]] and [a[i] = v] on an array: out of range is a [MemoryFault]. *)
Definition arr_get {A} (a : list A) (i : Z) : res A :=
  if decide (0 ≤ i) then
    match a !! Z.to_nat i with Some x => Ok x | None => Fail MemoryFault end
  else Fail MemoryFault.

Definition arr_set {A} (a : list A) (i : Z) (v : A) : res (list A) :=
  if decide (0 ≤ i < Z.of_nat (length a)) then Ok (<[Z.to_nat i := v]> a)
  else Fail MemoryFault.

(** ** State passing with failure *)

Definition ST (S A : Type) : Type := S → res (A * S).

Definition st_ret {S A} (a : A) : ST S A := λ s, Ok (a, s).
Definition st_bind {S A B} (m : ST S A) (k : A → ST S B) : ST S B :=
  λ s, match m s with Ok (a, s') => k a s' | Fail f => Fail f end.
Definition st_lift {S A} (r : res A) : ST S A :=
  λ s, match r with Ok a => Ok (a, s) | Fail f => Fail f end.
Definition st_get {S} : ST S S := λ s, Ok (s, s).
Definition st_put {S} (s' : S) : ST S unit := λ _, Ok (tt, s').
Definition st_fail {S A} (f : failure) : ST S A := λ _, Fail f.

Declare Scope nachos_scope.
Delimit Scope nachos_scope with nachos.
Notation "'let?' x ':=' m 'in' k" := (res_bind m (λ x, k))
  (at level 10, x binder, m at level 100, k at level 200) : nachos_scope.
Notation "'let*' x ':=' m 'in' k" := (st_bind m (λ x, k))
  (at level 10, x binder, m at level 100, k at level 200) : nachos_scope.
#[global] Open Scope nachos_scope.

Section Outcomes.
Context {S A B : Type}.

Lemma res_bind_Ok_inv (m : res A) (k : A → res B) b :
  res_bind m k = Ok b → ∃ a, m = Ok a ∧ k a = Ok b.
Proof. destruct m; simpl; [eauto | done]. Qed.

Lemma st_bind_Ok (m : ST S A) (k : A → ST S B) s a s' :
  m s = Ok (a, s') → st_bind m k s = k a s'.
Proof. intros H. unfold st_bind. by rewrite H. Qed.

Lemma st_lift_Ok (r : res A) (a : A) (s : S) : r = Ok a → st_lift r s = Ok (a, s).
Proof. by intros ->. Qed.

Lemma st_lift_Ok_inv (r : res A) (a : A) (s s' : S) : st_lift r s = Ok (a, s') → r = Ok a ∧ s' = s.
Proof. unfold st_lift. destruct r; [by intros [= -> ->]|done]. Qed.

Lemma st_lift_Fail (r : res A) (s : S) f : r = Fail f → st_lift r s = Fail f.
Proof. by intros ->. Qed.

Lemma st_bind_Fail (m : ST S A) (k : A → ST S B) s f :
  m s = Fail f → st_bind m k s = Fail f.
Proof. intros H. unfold st_bind. by rewrite H. Qed.

Lemma st_bind_Ok_inv (m : ST S A) (k : A → ST S B) s r :
  st_bind m k s = Ok r → ∃ a s', m s = Ok (a, s') ∧ k a s' = Ok r.
Proof. unfold st_bind. destruct (m s) as [[a s']|f]; [eauto | done]. Qed.

Lemma ASSERT_true b : b = true → ASSERT b = Ok tt.
Proof. by intros ->. Qed.

Lemma ASSERT_Ok_inv b u : ASSERT b = Ok u → b = true.
Proof. by destruct b. Qed.

Lemma arr_get_lookup (a : list A) i x :
  0 ≤ i → a !! Z.to_nat i = Some x → arr_get a i = Ok x.
Proof. intros Hi H. unfold arr_get. rewrite decide_True by done. by rewrite H. Qed.

Lemma arr_get_Ok_inv (a : list A) i x :
  arr_get a i = Ok x → 0 ≤ i ∧ a !! Z.to_nat i = Some x.
Proof. unfold arr_get. case_decide; [destruct (a !! _) | ]; naive_solver. Qed.

Lemma arr_get_in (a : list A) i :
  0 ≤ i < Z.of_nat (length a) → ∃ x, arr_get a i = Ok x ∧ a !! Z.to_nat i = Some x.
Proof.
  intros Hi. destruct (lookup_lt_is_Some_2 a (Z.to_nat i)) as [x Hx]; [lia|].
  exists x. split; [by apply arr_get_lookup; [lia|] | done].
Qed.

Lemma arr_get_out (a : list A) i :
  ¬ (0 ≤ i < Z.of_nat (length a)) → arr_get a i = Fail MemoryFault.
Proof.
  intros Hi. unfold arr_get. case_decide; [|done].
  rewrite lookup_ge_None_2; [done | lia].
Qed.

Lemma arr_set_in (a : list A) i v :
  0 ≤ i < Z.of_nat (length a) → arr_set a i v = Ok (<[Z.to_nat i := v]> a).
Proof. intros Hi. unfold arr_set. by rewrite decide_True. Qed.

Lemma arr_set_out (a : list A) i v :
  ¬ (0 ≤ i < Z.of_nat (length a)) → arr_set a i v = Fail MemoryFault.
Proof. intros Hi. unfold arr_set. by rewrite decide_False. Qed.
End Outcomes.

(** ** Counting loops *)

(** [for (i = lo; i < hi; i++) body(i)], the state of the loop threaded. *)
Fixpoint st_iter {S} (l : list Z) (body : Z → ST S unit) : ST S unit :=
  match l with
  | [] => st_ret tt
  | i :: l => st_bind (body i) (λ _, st_iter l body)
  end.
Definition st_for {S} (lo hi : Z) (body : Z → ST S unit) : ST S unit :=
  st_iter (seqZ lo (hi - lo)) body.

Section Loops.
Context {S : Type}.

Lemma st_for_done lo hi (body : Z → ST S unit) s :
  hi ≤ lo → st_for lo hi body s = Ok (tt, s).
Proof. intros H. unfold st_for. by rewrite seqZ_nil by lia. Qed.

Lemma st_for_step lo hi (body : Z → ST S unit) s :
  lo < hi →
  st_for lo hi body s = st_bind (body lo) (λ _, st_for (lo + 1) hi body) s.
Proof.
  intros H. unfold st_for. rewrite seqZ_cons by lia. simpl.
  by replace (Z.pred (hi - lo)) with (hi - (lo + 1)) by lia.
Qed.

Lemma st_iter_app l1 l2 (body : Z → ST S unit) s :
  st_iter (l1 ++ l2) body s = st_bind (st_iter l1 body) (λ _, st_iter l2 body) s.
Proof.
  revert s. induction l1 as [|i l1 IH]; intros s; [done|]. simpl. unfold st_bind in *.
  destruct (body i s) as [[[] s']|f]; [apply IH | done].
Qed.

(** The loop rule: an invariant that the body re-establishes at [i + 1]. *)
Lemma st_for_inv (P : Z → S → Prop) lo hi (body : Z → ST S unit) s :
  lo ≤ hi → P lo s →
  (∀ i s, lo ≤ i < hi → P i s → ∃ s', body i s = Ok (tt, s') ∧ P (i + 1) s') →
  ∃ s', st_for lo hi body s = Ok (tt, s') ∧ P hi s'.
Proof.
  intros Hle. remember (Z.to_nat (hi - lo)) as n eqn:Hn.
  revert lo s Hle Hn. induction n as [|n IH]; intros lo s Hle Hn HP Hb.
  - rewrite st_for_done by lia. replace hi with lo by lia. eauto.
  - destruct (Hb lo s) as (s1 & H1 & HP1); [lia | done |].
    rewrite st_for_step by lia. unfold st_bind. rewrite H1.
    apply IH; [lia | lia | done |]. intros i s2 Hi. apply Hb. lia.
Qed.
End Loops.

(** Run the next statement of a [let*] block whose outcome is known. *)
Ltac st_step H := rewrite (st_bind_Ok _ _ _ _ _ H); cbv beta iota.
Ltac st_step_lift H := rewrite (st_bind_Ok _ _ _ _ _ (st_lift_Ok _ _ _ H)); cbv beta iota.

(** Split every successful bind of the context into its two halves. *)
Ltac inv_binds :=
  repeat match goal with
  | H : st_bind _ _ _ = Ok _ |- _ =>
      let a := fresh "a" in let s := fresh "s" in
      let H1 := fresh "Hm" in let H2 := fresh "Hk" in
      apply st_bind_Ok_inv in H as (a & s & H1 & H2)
  | H : res_bind _ _ = Ok _ |- _ =>
      let a := fresh "a" in let H1 := fresh "Hm" in let H2 := fresh "Hk" in
      apply res_bind_Ok_inv in H as (a & H1 & H2)
  | H : Ok _ = Ok _ |- _ => injection H as H; subst
  | H : Fail _ = Ok _ |- _ => discriminate H
  | H : Ok _ = Fail _ |- _ => discriminate H
  | H : ASSERT _ = Ok _ |- _ => apply ASSERT_Ok_inv in H
  end.

(** Lookups of the key [i] in a map with the key [j] inserted. *)
Ltac upd_cases i j :=
  destruct (decide (i = j)) as [->|?];
  [rewrite ?lookup_insert_eq in * | rewrite ?lookup_insert_ne in * by done].

Lemma seqZ_snoc m n : 0 ≤ n → seqZ m (n + 1) = seqZ m n ++ [m + n].
Proof. intros H. rewrite seqZ_app by lia. f_equal. Qed.

Lemma filter_none {A} (P : A → Prop) `{!∀ x, Decision (P x)} l :
  (∀ x, x ∈ l → ¬ P x) → filter P l = [].
Proof.
  induction l as [|x l IH]; intros Hn; [done|].
  rewrite filter_cons_False by (apply Hn; set_solver). apply IH. set_solver.
Qed.

Lemma filter_all {A} (P : A → Prop) `{!∀ x, Decision (P x)} l :
  Forall P l → filter P l = l.
Proof. induction 1 as [|x l Hx Hl IH]; [done|]. by rewrite filter_cons_True, IH. Qed.

(** ** Lists as memory *)

Create Rewrite HintDb len.

(** [splice l i d] is [l] with the bytes from [i] on overwritten by [d]. *)
Definition splice {A} (l : list A) (i : nat) (d : list A) : list A :=
  take i l ++ d ++ drop (i + length d) l.

(** [slice l i n] is the [n] elements of [l] from [i] on. *)
Definition slice {A} (l : list A) (i n : nat) : list A := take n (drop i l).

Section Splices.
Context {A : Type}.
Implicit Types (l d : list A) (i j n : nat).

Lemma length_splice l i d :
  (i + length d ≤ length l)%nat → length (splice l i d) = length l.
Proof.
  intros H. unfold splice. rewrite !length_app, length_take, length_drop. lia.
Qed.

Lemma length_slice l i n :
  (i + n ≤ length l)%nat → length (slice l i n) = n.
Proof. intros H. unfold slice. rewrite length_take, length_drop. lia. Qed.

Lemma lookup_slice l i n j :
  (j < n)%nat → slice l i n !! j = l !! (i + j)%nat.
Proof. intros H. unfold slice. rewrite lookup_take_lt by done. apply lookup_drop. Qed.

Lemma lookup_splice l i d j :
  (i + length d ≤ length l)%nat →
  splice l i d !! j =
    if decide (i ≤ j < i + length d)%nat then d !! (j - i)%nat else l !! j.
Proof.
  intros H. unfold splice. case_decide as Hj.
  - rewrite lookup_app_r by (rewrite length_take; lia).
    rewrite length_take, lookup_app_l by lia. f_equal; lia.
  - destruct (decide (j < i)%nat).
    + rewrite lookup_app_l by (rewrite length_take; lia). by rewrite lookup_take_lt.
    + rewrite lookup_app_r by (rewrite length_take; lia).
      rewrite lookup_app_r by (rewrite length_take; lia).
      rewrite lookup_drop, length_take. f_equal. lia.
Qed.

Lemma slice_splice_same l i d :
  (i + length d ≤ length l)%nat → slice (splice l i d) i (length d) = d.
Proof.
  intros H. apply list_eq; intros j. destruct (decide (j < length d)%nat).
  - rewrite lookup_slice, lookup_splice by lia. rewrite decide_True by lia. f_equal; lia.
  - rewrite !lookup_ge_None_2; try done; [lia|].
    rewrite length_slice; [lia|]. rewrite length_splice; lia.
Qed.

Lemma splice_all l d : length d = length l → splice l 0 d = d.
Proof.
  intros H. unfold splice. rewrite take_0, drop_ge by lia. by rewrite app_nil_r.
Qed.

Lemma slice_all l n : length l = n → slice l 0 n = l.
Proof. intros <-. unfold slice. by rewrite drop_0, take_ge. Qed.

Lemma splice_nil l i : splice l i [] = l.
Proof. unfold splice. simpl. by rewrite Nat.add_0_r, take_drop. Qed.
End Splices.

#[export] Hint Rewrite @length_splice @length_slice using lia : len.
#[export] Hint Rewrite @length_app @length_take @length_drop @length_replicate
  @length_insert @length_fmap @length_seq : len.

(** Decide list length goals. *)
Ltac len := autorewrite with len in *; try lia.
