(* ===== verification/Words.v ===== *)
(** * C++ integers, the macros of utility.h and byte order

    The machine integers of the host (x86: 32-bit two's complement [int] and
    [unsigned], little endian), the rounding macros of
    src/code/threads/utility.h, and the word/byte conversions through which
    structures reach the simulated disk and the simulated memory. *)
From S2P Require Import Prelude.

(** ** Wrapping *)

(** Value of [z] converted to [int] / [unsigned int] / [char] / [unsigned char]. *)
Definition int32 (z : Z) : Z := (z + 2147483648) mod 4294967296 - 2147483648.
Definition uint32 (z : Z) : Z := z mod 4294967296.
Definition uint16 (z : Z) : Z := z mod 65536.
Definition uint8 (z : Z) : Z := z mod 256.
Definition int8 (z : Z) : Z := (z + 128) mod 256 - 128.

Definition is_int32 (z : Z) : Prop := -2147483648 ≤ z < 2147483648.
Definition is_uint32 (z : Z) : Prop := 0 ≤ z < 4294967296.
Definition is_byte (z : Z) : Prop := 0 ≤ z < 256.

Lemma int32_range z : is_int32 (int32 z).
Proof. unfold int32, is_int32. pose proof (Z.mod_pos_bound (z + 2147483648) 4294967296). lia. Qed.

Lemma uint32_range z : is_uint32 (uint32 z).
Proof. apply Z.mod_pos_bound. lia. Qed.

Lemma uint8_range z : is_byte (uint8 z).
Proof. apply Z.mod_pos_bound. lia. Qed.

Lemma int32_id z : is_int32 z → int32 z = z.
Proof. unfold int32, is_int32. intros. rewrite Z.mod_small; lia. Qed.

Lemma uint32_id z : is_uint32 z → uint32 z = z.
Proof. apply Z.mod_small. Qed.

Lemma int32_uint32 z : int32 (uint32 z) = int32 z.
Proof. unfold int32, uint32. by rewrite Zplus_mod_idemp_l. Qed.

Lemma uint32_int32 z : uint32 (int32 z) = uint32 z.
Proof.
  unfold int32, uint32. rewrite Zminus_mod_idemp_l. f_equal. lia.
Qed.

Lemma int32_cong z : ∃ k, int32 z = z + k * 4294967296.
Proof.
  exists (- ((z + 2147483648) / 4294967296)). unfold int32.
  pose proof (Z.div_mod (z + 2147483648) 4294967296). lia.
Qed.

Lemma int32_int32 z : int32 (int32 z) = int32 z.
Proof. apply int32_id, int32_range. Qed.

#[export] Hint Resolve int32_range uint32_range uint8_range : core.
Create Rewrite HintDb words.
#[export] Hint Rewrite int32_int32 int32_uint32 uint32_int32 : words.

(** ** Macros of utility.h *)

(** [(n) / (s)] and [((n) / (s)) + ((((n) % (s)) > 0) ? 1 : 0)], with C's
    truncating division. *)
Definition divRoundDown (n s : Z) : Z := Z.quot n s.
Definition divRoundUp (n s : Z) : Z :=
  Z.quot n s + (if Z.rem n s >? 0 then 1 else 0).

Lemma divRoundDown_nonneg n s : 0 ≤ n → 0 < s → divRoundDown n s = n / s.
Proof. intros. apply Z.quot_div_nonneg; lia. Qed.

Lemma divRoundUp_nonneg n s : 0 ≤ n → 0 < s → divRoundUp n s = (n + s - 1) / s.
Proof.
  intros Hn Hs. unfold divRoundUp. rewrite Z.quot_div_nonneg, Z.rem_mod_nonneg by lia.
  pose proof (Z.div_mod n s ltac:(lia)) as Hd.
  pose proof (Z.mod_pos_bound n s Hs) as Hm.
  destruct (Z.gtb_spec (n mod s) 0).
  - apply Z.div_unique with (n mod s - 1); nia.
  - apply Z.div_unique with (s - 1); nia.
Qed.

(** The rounded-up quotient is the least number of [s]-sized blocks holding [n]. *)
Lemma divRoundUp_spec n s k :
  0 ≤ n → 0 < s → (divRoundUp n s ≤ k ↔ n ≤ k * s).
Proof.
  intros Hn Hs. rewrite divRoundUp_nonneg by done.
  pose proof (Z.div_mod (n + s - 1) s ltac:(lia)).
  pose proof (Z.mod_pos_bound (n + s - 1) s Hs). split; intros; nia.
Qed.

(** ** Little-endian layout *)

Fixpoint le_bytes (n : nat) (z : Z) : list Z :=
  match n with
  | O => []
  | S n' => uint8 z :: le_bytes n' (z / 256)
  end.

Fixpoint le_val (bs : list Z) : Z :=
  match bs with
  | [] => 0
  | b :: bs' => b + 256 * le_val bs'
  end.

Lemma length_le_bytes n z : length (le_bytes n z) = n.
Proof. revert z; induction n; intros; simpl; auto. Qed.
#[export] Hint Rewrite length_le_bytes : len.

Lemma le_bytes_range n z : Forall is_byte (le_bytes n z).
Proof. revert z; induction n; intros; simpl; constructor; auto. Qed.

Lemma le_val_bytes n z : le_val (le_bytes n z) = z mod 256 ^ Z.of_nat n.
Proof.
  revert z; induction n as [|n IH]; intros z; simpl le_bytes; simpl le_val.
  - rewrite Z.mod_1_r. done.
  - rewrite IH, Nat2Z.inj_succ, Z.pow_succ_r by lia.
    rewrite Z.rem_mul_r by (try lia; apply Z.pow_pos_nonneg; lia). done.
Qed.

Lemma le_val_range bs : Forall is_byte bs → 0 ≤ le_val bs < 256 ^ Z.of_nat (length bs).
Proof.
  induction 1 as [|b bs Hb _ IH]; simpl; [lia|].
  rewrite Nat2Z.inj_succ, Z.pow_succ_r by lia. unfold is_byte in Hb. lia.
Qed.

Lemma le_bytes_val bs : Forall is_byte bs → le_bytes (length bs) (le_val bs) = bs.
Proof.
  induction 1 as [|b bs Hb _ IH]; simpl; [done|]. unfold is_byte in Hb. f_equal.
  - unfold uint8. rewrite (Z.mul_comm 256), Z.mod_add by lia. apply Z.mod_small; lia.
  - replace ((b + 256 * le_val bs) / 256) with (le_val bs); [done|].
    rewrite (Z.mul_comm 256), Z.div_add by lia. rewrite Z.div_small; lia.
Qed.

(** An [int] as the 4 bytes the host stores, and back. *)
Definition int_bytes (z : Z) : list Z := le_bytes 4 z.
Definition bytes_int (bs : list Z) : Z := int32 (le_val bs).
Definition bytes_uint (bs : list Z) : Z := uint32 (le_val bs).

Lemma bytes_int_bytes z : is_int32 z → bytes_int (int_bytes z) = z.
Proof.
  intros H. unfold bytes_int, int_bytes. rewrite le_val_bytes.
  change (256 ^ Z.of_nat 4) with 4294967296. fold (uint32 z).
  by rewrite int32_uint32, int32_id.
Qed.

Lemma bytes_uint_bytes z : is_uint32 z → bytes_uint (int_bytes z) = z.
Proof.
  intros H. unfold bytes_uint, int_bytes. rewrite le_val_bytes.
  change (256 ^ Z.of_nat 4) with 4294967296. fold (uint32 z).
  by rewrite !uint32_id.
Qed.

(** An array of [int]s as memory, and back. *)
Definition ints_bytes (l : list Z) : list Z := l ≫= int_bytes.

Fixpoint chunk4 (n : nat) (bs : list Z) : list (list Z) :=
  match n with
  | O => []
  | S n' => take 4 bs :: chunk4 n' (drop 4 bs)
  end.

Definition bytes_ints (n : nat) (bs : list Z) : list Z := bytes_int <$> chunk4 n bs.
Definition bytes_uints (n : nat) (bs : list Z) : list Z := bytes_uint <$> chunk4 n bs.

Lemma length_chunk4 n bs : length (chunk4 n bs) = n.
Proof. revert bs; induction n; intros; simpl; auto. Qed.

Lemma length_ints_bytes l : length (ints_bytes l) = (4 * length l)%nat.
Proof. induction l; simpl; [done|]. unfold ints_bytes in *. lia. Qed.

Lemma length_bytes_ints n bs : length (bytes_ints n bs) = n.
Proof. unfold bytes_ints. by rewrite length_fmap, length_chunk4. Qed.

Lemma length_bytes_uints n bs : length (bytes_uints n bs) = n.
Proof. unfold bytes_uints. by rewrite length_fmap, length_chunk4. Qed.
#[export] Hint Rewrite length_chunk4 length_ints_bytes length_bytes_ints length_bytes_uints : len.

Lemma chunk4_ints l rest : chunk4 (length l) (ints_bytes l ++ rest) = int_bytes <$> l.
Proof. induction l as [|z l IH]; simpl; [done|]. f_equal. apply IH. Qed.

Lemma ints_bytes_lookup l n x : l !! n = Some x → take 4 (drop (4 * n) (ints_bytes l)) = int_bytes x.
Proof.
  revert n. induction l as [|y l IH]; intros n Hn; [done|].
  change (ints_bytes (y :: l)) with (int_bytes y ++ ints_bytes l). destruct n as [|n].
  - injection Hn as ->. by apply take_app_length'.
  - rewrite drop_app_ge by (unfold int_bytes; rewrite length_le_bytes; lia).
    unfold int_bytes at 1. rewrite length_le_bytes. replace (4 * S n - 4)%nat with (4 * n)%nat by lia. by apply IH.
Qed.

Lemma bytes_ints_bytes l rest :
  Forall is_int32 l → bytes_ints (length l) (ints_bytes l ++ rest) = l.
Proof.
  intros H. unfold bytes_ints. rewrite chunk4_ints, <- list_fmap_compose.
  rewrite <- (list_fmap_id l) at 2. apply list_fmap_ext. intros i x Hx. simpl.
  apply bytes_int_bytes. by eapply Forall_lookup_1.
Qed.

Lemma bytes_uints_bytes l rest :
  Forall is_uint32 l → bytes_uints (length l) (ints_bytes l ++ rest) = l.
Proof.
  intros H. unfold bytes_uints. rewrite chunk4_ints, <- list_fmap_compose.
  rewrite <- (list_fmap_id l) at 2. apply list_fmap_ext. intros i x Hx. simpl.
  apply bytes_uint_bytes. by eapply Forall_lookup_1.
Qed.

(** ** Byte order of the simulated machine (translate.cc) *)

(** The bodies under [HOST_IS_BIG_ENDIAN]: swap the bytes. *)
Definition swap32 (word : Z) : Z :=
  Z.lor (Z.lor (Z.lor (Z.land (Z.shiftr word 24) 0xff)
                      (Z.land (Z.shiftr word 8) 0xff00))
               (Z.land (Z.shiftl word 8) 0xff0000))
        (Z.land (Z.shiftl word 24) 0xff000000).
Definition swap16 (shortword : Z) : Z :=
  Z.lor (Z.land (Z.shiftl shortword 8) 0xff00) (Z.land (Z.shiftr shortword 8) 0xff).

Definition WordToHost (big_endian : bool) (word : Z) : Z :=
  if big_endian then swap32 word else word.
Definition ShortToHost (big_endian : bool) (shortword : Z) : Z :=
  if big_endian then swap16 shortword else shortword.
Definition WordToMachine (big_endian : bool) (word : Z) : Z := WordToHost big_endian word.
Definition ShortToMachine (big_endian : bool) (shortword : Z) : Z :=
  ShortToHost big_endian shortword.

(** ** Bit operations on [int]s *)

Lemma is_int32_shiftr z : is_int32 z ↔ Z.shiftr z 31 = 0 ∨ Z.shiftr z 31 = -1.
Proof.
  rewrite Z.shiftr_div_pow2 by lia. change (2 ^ 31) with 2147483648. unfold is_int32.
  pose proof (Z.div_mod z 2147483648 ltac:(lia)).
  pose proof (Z.mod_pos_bound z 2147483648 ltac:(lia)). lia.
Qed.

Lemma is_int32_land a b : is_int32 a → is_int32 b → is_int32 (Z.land a b).
Proof.
  rewrite !is_int32_shiftr, Z.shiftr_land. by intros [-> | ->] [-> | ->]; auto.
Qed.

Lemma is_int32_lor a b : is_int32 a → is_int32 b → is_int32 (Z.lor a b).
Proof.
  rewrite !is_int32_shiftr, Z.shiftr_lor. by intros [-> | ->] [-> | ->]; auto.
Qed.

Lemma is_int32_lxor a b : is_int32 a → is_int32 b → is_int32 (Z.lxor a b).
Proof.
  rewrite !is_int32_shiftr, Z.shiftr_lxor. by intros [-> | ->] [-> | ->]; auto.
Qed.

Lemma is_int32_lnot a : is_int32 a → is_int32 (Z.lnot a).
Proof. unfold is_int32, Z.lnot. lia. Qed.

Lemma is_int32_shr a n : is_int32 a → 0 ≤ n → is_int32 (Z.shiftr a n).
Proof.
  unfold is_int32. intros Ha Hn. rewrite Z.shiftr_div_pow2 by done.
  pose proof (Z.pow_pos_nonneg 2 n ltac:(lia) Hn) as Hp.
  pose proof (Z.div_mod a (2 ^ n) ltac:(lia)). pose proof (Z.mod_pos_bound a (2 ^ n) Hp). nia.
Qed.

Lemma is_int32_small z : 0 ≤ z < 2147483648 → is_int32 z.
Proof. unfold is_int32. lia. Qed.

(** Masking with [2^n - 1] keeps the low [n] bits. *)
Lemma land_ones_range z n : 0 ≤ n → 0 ≤ Z.land z (Z.ones n) < 2 ^ n.
Proof.
  intros Hn. rewrite Z.land_ones by done. apply Z.mod_pos_bound, Z.pow_pos_nonneg; lia.
Qed.

#[export] Hint Resolve is_int32_land is_int32_lor is_int32_lxor is_int32_lnot : core.

(** ** Numbers in print *)

(** What printf makes of [%d] and a number that is not negative: its decimal digits before
    [l]; ten are enough for an [int]. *)
Fixpoint digits (fuel : nat) (n : Z) (l : list Z) : list Z :=
  match fuel with
  | 0%nat => l
  | S fuel =>
      let l := 48 + n mod 10 :: l in
      if n <? 10 then l else digits fuel (n / 10) l
  end.
