(* ===== verification/Text.v ===== *)
(** * Text that is printed

    What printf makes of numbers and strings. Text is a list of character codes. *)
From stdpp Require Import strings.
From S2P Require Import Prelude Words.

Abbreviation text := (list Z).
Definition str (s : string) : text := (λ a, Z.of_N (Ascii.N_of_ascii a)) <$> String.list_ascii_of_string s.

Definition tab : text := [9].
Definition comma : text := [44].

(** What printf makes of [%x] and [%08x]. *)
Definition hex_digit (d : Z) : Z := if d <? 10 then 48 + d else 87 + d.
Fixpoint hex_digits (fuel : nat) (n : Z) (l : text) : text :=
  match fuel with
  | 0%nat => l
  | S fuel =>
      let l := hex_digit (n mod 16) :: l in
      if n <? 16 then l else hex_digits fuel (n / 16) l
  end.
Definition hex (z : Z) : text := hex_digits 8 (uint32 z) [].
Definition hex8 (z : Z) : text := replicate (8 - length (hex z)) 48 ++ hex z.

(** [%d] *)
Definition dec (z : Z) : text := if z <? 0 then 45 :: digits 10 (- z) [] else digits 10 z [].

(** [%6d]: a width, filled up from the left. *)
Definition pad (width : nat) (l : text) : text := replicate (width - length l) 32 ++ l.

Definition newline : text := [10].
