(* ===== verification/Sysdep.v ===== *)
(** * The files of the host (machine/sysdep.cc)

    What the simulated devices and the tools ask of UNIX: files by name, and open files as
    bytes with an offset. The calls of POSIX are first, on a state of the host; the
    functions of sysdep.cc, which check what the calls return, are over them. *)
From S2P Require Import Prelude Words.

(** ** An open file *)

Record Fd := mkFd { offset : Z; bytes : list Z }.

(** [lseek(fd, off, SEEK_SET)]: a negative offset is refused and moves nothing. *)
Definition lseek (off : Z) (f : Fd) : Fd := if off <? 0 then f else mkFd off (bytes f).

(** What [read] gives of [n] bytes. *)
Definition fd_read (n : Z) (f : Fd) : list Z * Fd :=
  let got := take (Z.to_nat n) (drop (Z.to_nat (offset f)) (bytes f)) in
  (got, mkFd (offset f + Z.of_nat (length got)) (bytes f)).

(** [write]; a hole before the offset reads as zeros. *)
Definition fd_write (data : list Z) (f : Fd) : Fd :=
  let off := Z.to_nat (offset f) in
  mkFd (offset f + Z.of_nat (length data))
    (take off (bytes f ++ replicate off 0) ++ data ++ drop (off + length data) (bytes f)).

Module Sysdep.

(** ** The calls of POSIX *)

(** The directory, the files it names, and the descriptors: a file and an offset each. A
    file that has lost its name is still there for those that have it open. *)
Record Host := mkHost {
  names : gmap (list Z) nat;
  nodes : list (list Z);
  fds : list (option (nat * Z)) }.

(** What a descriptor is open on. *)
Definition entry_at (fd : Z) (h : Host) : option (nat * Z) :=
  if fd <? 0 then None else mjoin (fds h !! Z.to_nat fd).
Definition view (fd : Z) (h : Host) : option Fd :=
  e ← entry_at fd h; b ← nodes h !! e.1; Some (mkFd e.2 b).

(** The offset and the bytes behind a descriptor, changed. *)
Definition set_view (fd : Z) (f : Fd) (h : Host) : Host :=
  match entry_at fd h with
  | Some (i, _) =>
      mkHost (names h) (<[i := bytes f]> (nodes h)) (<[Z.to_nat fd := Some (i, offset f)]> (fds h))
  | None => h
  end.

(** The lowest descriptor not in use. *)
Fixpoint free_fd (l : list (option (nat * Z))) : nat :=
  match l with
  | Some _ :: l => S (free_fd l)
  | _ => 0
  end.

Definition new_fd (i : nat) (h : Host) : Z * Host :=
  let n := free_fd (fds h) in
  (Z.of_nat n,
   mkHost (names h) (nodes h)
     (if (n <? length (fds h))%nat then <[n := Some (i, 0)]> (fds h) else fds h ++ [Some (i, 0)])).

Section Host.
(** What the host lets be opened or made, and how long it lets a file become. *)
Context (permits : list Z → bool) (room : Z).

(** [open(name, O_RDWR)], with [O_CREAT|O_TRUNC] if [create]. *)
Definition open (nm : list Z) (create : bool) (h : Host) : Z * Host :=
  if negb (permits nm) then (-1, h)
  else
    match names h !! nm with
    | Some i =>
        new_fd i (if create then mkHost (names h) (<[i := []]> (nodes h)) (fds h) else h)
    | None =>
        if create then
          let i := length (nodes h) in
          new_fd i (mkHost (<[nm := i]> (names h)) (nodes h ++ [[]]) (fds h))
        else (-1, h)
    end.

Definition close (fd : Z) (h : Host) : Z * Host :=
  match entry_at fd h with
  | Some _ => (0, mkHost (names h) (nodes h) (<[Z.to_nat fd := None]> (fds h)))
  | None => (-1, h)
  end.

Definition unlink (nm : list Z) (h : Host) : Z * Host :=
  match names h !! nm with
  | Some _ => (0, mkHost (delete nm (names h)) (nodes h) (fds h))
  | None => (-1, h)
  end.

(** The bytes that come, and how many. *)
Definition read (fd n : Z) (h : Host) : list Z * Z * Host :=
  match view fd h with
  | Some f => let r := fd_read n f in (r.1, Z.of_nat (length r.1), set_view fd r.2 h)
  | None => ([], -1, h)
  end.

(** As much as there is room for; nothing at all is an error, unless nothing is asked. *)
Definition write (fd : Z) (data : list Z) (h : Host) : Z * Host :=
  match view fd h with
  | Some f =>
      match data with
      | [] => (0, h)
      | _ =>
          let fits := take (Z.to_nat (room - offset f)) data in
          match fits with
          | [] => (-1, h)
          | _ => (Z.of_nat (length fits), set_view fd (fd_write fits f) h)
          end
      end
  | None => (-1, h)
  end.

Inductive whence := SEEK_SET | SEEK_CUR | SEEK_END.
Definition lseek (fd off : Z) (wh : whence) (h : Host) : Z * Host :=
  match view fd h with
  | Some f =>
      let pos := match wh with
                 | SEEK_SET => off
                 | SEEK_CUR => offset f + off
                 | SEEK_END => Z.of_nat (length (bytes f)) + off
                 end in
      if pos <? 0 then (-1, h) else (pos, set_view fd (mkFd pos (bytes f)) h)
  | None => (-1, h)
  end.

(** ** The functions of sysdep.cc *)

Definition OpenForWrite (nm : list Z) : ST Host Z := λ h,
  let r := open nm true h in
  let? _ := ASSERT (r.1 >=? 0) in
  Ok r.

Definition OpenForReadWrite (nm : list Z) (crashOnError : bool) : ST Host Z := λ h,
  let r := open nm false h in
  let? _ := ASSERT (negb crashOnError || (r.1 >=? 0)) in
  Ok r.

(** A negative count is a huge one for [read] and [write]: undefined. *)
Definition Read (fd nBytes : Z) : ST Host (list Z) := λ h,
  if nBytes <? 0 then Fail MemoryFault
  else
    let r := read fd nBytes h in
    let? _ := ASSERT (r.1.2 =? nBytes) in
    Ok (r.1.1, r.2).

(** The bytes and the result. *)
Definition ReadPartial (fd nBytes : Z) : ST Host (list Z * Z) := λ h,
  if nBytes <? 0 then Fail MemoryFault else Ok (read fd nBytes h).

Definition WriteFile (fd : Z) (buffer : list Z) (nBytes : Z) : ST Host unit := λ h,
  if (nBytes <? 0) || (Z.of_nat (length buffer) <? nBytes) then Fail MemoryFault
  else
    let r := write fd (take (Z.to_nat nBytes) buffer) h in
    let? _ := ASSERT (r.1 =? nBytes) in
    Ok (tt, r.2).

(** The result of [lseek] is put into an [int]. *)
Definition Lseek (fd off : Z) (wh : whence) : ST Host unit := λ h,
  let r := lseek fd off wh h in
  let? _ := ASSERT (int32 r.1 >=? 0) in
  Ok (tt, r.2).

Definition Tell (fd : Z) : ST Host Z := λ h,
  let r := lseek fd 0 SEEK_CUR h in Ok (int32 r.1, r.2).

Definition Close (fd : Z) : ST Host unit := λ h,
  let r := close fd h in
  let? _ := ASSERT (r.1 >=? 0) in
  Ok (tt, r.2).

(** [bool Unlink]: what [unlink] returns, so true if it failed. *)
Definition Unlink (nm : list Z) : ST Host bool := λ h,
  let r := unlink nm h in Ok (negb (r.1 =? 0), r.2).
End Host.

(** ** Facts *)

Section Facts.
Context (permits : list Z → bool) (room : Z).
Implicit Types (h : Host) (f : Fd) (fd : Z).

Lemma view_inv fd h f :
  view fd h = Some f →
  ∃ i, 0 ≤ fd ∧ fds h !! Z.to_nat fd = Some (Some (i, offset f)) ∧ nodes h !! i = Some (bytes f).
Proof.
  unfold view, entry_at. intros ([i o] & He & (b & Hb & [= <-])%bind_Some)%bind_Some. exists i.
  destruct (Z.ltb_spec fd 0); [done|]. split; [done|]. simpl in *. split; [|done].
  destruct (fds h !! Z.to_nat fd) as [x|]; simpl in He; [by subst | done].
Qed.

Lemma view_intro fd h i o b :
  0 ≤ fd → fds h !! Z.to_nat fd = Some (Some (i, o)) → nodes h !! i = Some b →
  view fd h = Some (mkFd o b).
Proof.
  intros Hfd Ho Hb. unfold view, entry_at. rewrite (proj2 (Z.ltb_ge fd 0)) by done.
  rewrite Ho. simpl. by rewrite Hb.
Qed.

Lemma set_view_run fd h f f' :
  view fd h = Some f →
  ∃ i, 0 ≤ fd ∧ fds h !! Z.to_nat fd = Some (Some (i, offset f)) ∧ nodes h !! i = Some (bytes f) ∧
    set_view fd f' h =
      mkHost (names h) (<[i := bytes f']> (nodes h)) (<[Z.to_nat fd := Some (i, offset f')]> (fds h)).
Proof.
  intros (i & Hfd & Ho & Hb)%view_inv. exists i. split_and!; [done..|].
  unfold set_view, entry_at. rewrite (proj2 (Z.ltb_ge fd 0)) by done. by rewrite Ho.
Qed.

Lemma set_view_eq fd h f f' : view fd h = Some f → view fd (set_view fd f' h) = Some f'.
Proof.
  intros (i & Hfd & Ho & Hb & ->)%(set_view_run _ _ _ f'). destruct f' as [o b].
  apply (view_intro fd _ i); [done | |]; cbn [fds nodes];
    apply list_lookup_insert_eq; by eapply lookup_lt_Some.
Qed.

Lemma set_view_twice fd h f f1 f2 :
  view fd h = Some f → set_view fd f2 (set_view fd f1 h) = set_view fd f2 h.
Proof.
  intros Hv. destruct (set_view_run fd h f f1 Hv) as (i & Hfd & Ho & _ & E1).
  destruct (set_view_run fd h f f2 Hv) as (j & _ & Ho' & _ & E2). simplify_eq.
  destruct (set_view_run fd (set_view fd f1 h) f1 f2) as (k & _ & Ho' & _ & ->);
    [by eapply set_view_eq|].
  rewrite E2. rewrite E1 in Ho' |- *. cbn [names nodes fds] in *.
  rewrite list_lookup_insert_eq in Ho' by by eapply lookup_lt_Some. simplify_eq.
  by rewrite !list_insert_insert_eq.
Qed.

Lemma set_view_id fd h f : view fd h = Some f → set_view fd f h = h.
Proof.
  intros (i & _ & Ho & Hb & ->)%(set_view_run _ _ _ f). destruct h as [nm ns fs]. cbn [names nodes fds] in *.
  by rewrite !list_insert_id.
Qed.

(** A file keeps its name through what is done to its bytes. *)
Definition named (nm : list Z) (fd : Z) (h : Host) : Prop :=
  ∃ i o, entry_at fd h = Some (i, o) ∧ names h !! nm = Some i.

Lemma named_view nm fd h f :
  named nm fd h → view fd h = Some f → ∃ i, names h !! nm = Some i ∧ nodes h !! i = Some (bytes f).
Proof.
  intros (i & o & He & Hn) Hv. unfold view in Hv. rewrite He in Hv. simpl in Hv.
  apply bind_Some in Hv as (b & Hb & [= <-]). eauto.
Qed.

Lemma named_set_view nm fd h f f' :
  view fd h = Some f → named nm fd h → named nm fd (set_view fd f' h).
Proof.
  intros Hv (i & o & He & Hn). destruct (set_view_run fd h f f' Hv) as (j & Hfd & Ho & Hb & ->).
  unfold named, entry_at in *. rewrite (proj2 (Z.ltb_ge fd 0)) in * by done. cbn [names nodes fds].
  rewrite Ho in He. simpl in He. simplify_eq. exists i, (offset f'). split; [|done].
  rewrite list_lookup_insert_eq by by eapply lookup_lt_Some. done.
Qed.

(** What each function does to the view. *)
Lemma Lseek_ok fd h f off :
  view fd h = Some f → 0 ≤ off → is_int32 off →
  Lseek fd off SEEK_SET h = Ok (tt, set_view fd (mkFd off (bytes f)) h).
Proof.
  intros Hv Ho Hi. unfold Lseek, lseek. rewrite Hv, (proj2 (Z.ltb_ge off 0)) by done.
  cbn [fst snd]. rewrite int32_id by done. by rewrite ASSERT_true by (apply Z.geb_le; lia).
Qed.

Lemma ReadPartial_ok fd h f n :
  view fd h = Some f → 0 ≤ n →
  let got := slice (bytes f) (Z.to_nat (offset f)) (Z.to_nat n) in
  ReadPartial fd n h = Ok ((got, Z.of_nat (length got)),
                           set_view fd (mkFd (offset f + Z.of_nat (length got)) (bytes f)) h).
Proof.
  intros Hv Hn got. unfold ReadPartial. rewrite (proj2 (Z.ltb_ge n 0)) by done.
  unfold read. by rewrite Hv.
Qed.

Lemma host_Read_ok fd h f n :
  view fd h = Some f → 0 ≤ n → 0 ≤ offset f → offset f + n ≤ Z.of_nat (length (bytes f)) →
  Read fd n h = Ok (slice (bytes f) (Z.to_nat (offset f)) (Z.to_nat n),
                    set_view fd (mkFd (offset f + n) (bytes f)) h).
Proof.
  intros Hv Hn Ho Hl. pose proof (ReadPartial_ok fd h f n Hv Hn) as E.
  unfold Read, ReadPartial in *. rewrite (proj2 (Z.ltb_ge n 0)) in * by done.
  injection E as E. rewrite E. cbn [fst snd]. rewrite length_slice by lia.
  rewrite Z2Nat.id by done. by rewrite ASSERT_true by (apply Z.eqb_eq; lia).
Qed.

(** A write leaves the file with the bytes in place, longer if they reach past its end. *)
Definition put (data : list Z) (off : Z) (b : list Z) : list Z :=
  match data with [] => b | _ => bytes (fd_write data (mkFd off b)) end.

Lemma put_inside data off b :
  0 ≤ off → off + Z.of_nat (length data) ≤ Z.of_nat (length b) →
  put data off b = splice b (Z.to_nat off) data.
Proof.
  intros Ho Hl. destruct data as [|x data]; simpl; [by rewrite splice_nil|].
  unfold splice. by rewrite take_app_le by (simpl in *; lia).
Qed.

Lemma WriteFile_ok fd h f buffer n :
  view fd h = Some f → 0 ≤ n ≤ Z.of_nat (length buffer) → (0 < n → offset f + n ≤ room) →
  WriteFile room fd buffer n h =
    Ok (tt, set_view fd (mkFd (offset f + n) (put (take (Z.to_nat n) buffer) (offset f) (bytes f))) h).
Proof.
  intros Hv Hn Hl. unfold WriteFile.
  rewrite (proj2 (Z.ltb_ge n 0)), (proj2 (Z.ltb_ge _ n)) by lia. cbn [orb].
  unfold write. rewrite Hv. pose proof (length_take buffer (Z.to_nat n)) as Hlen.
  destruct (take (Z.to_nat n) buffer) as [|x d] eqn:E; cbn [length] in Hlen.
  - assert (n = 0) as -> by lia. cbn. rewrite Z.add_0_r. f_equal. f_equal. symmetry. apply set_view_id.
    by destruct f.
  - rewrite take_ge by (simpl; lia). cbn [fst snd].
    rewrite ASSERT_true by (apply Z.eqb_eq; simpl; lia). cbn [res_bind].
    unfold fd_write, put. cbn [offset bytes]. do 4 f_equal. simpl. lia.
Qed.

Lemma seek_end fd h f :
  view fd h = Some f → Z.of_nat (length (bytes f)) < 2 ^ 31 →
  (let* _ := Lseek fd 0 SEEK_END in Tell fd) h =
    Ok (Z.of_nat (length (bytes f)), set_view fd (mkFd (Z.of_nat (length (bytes f))) (bytes f)) h).
Proof.
  intros Hv Hl. set (n := Z.of_nat (length (bytes f))) in *.
  assert (is_int32 n) by (unfold is_int32; lia). unfold st_bind, Lseek, lseek. rewrite Hv.
  fold n. rewrite Z.add_0_r, (proj2 (Z.ltb_ge n 0)) by lia. cbn [fst snd].
  rewrite int32_id, ASSERT_true by (done || (apply Z.geb_le; lia)). cbn [res_bind].
  unfold Tell, lseek. erewrite set_view_eq by done. cbn [offset bytes].
  rewrite Z.add_0_r, (proj2 (Z.ltb_ge n 0)) by lia. cbn [fst snd]. rewrite int32_id by done.
  by erewrite set_view_twice by done.
Qed.

(** What opening gives. *)
Lemma free_fd_lookup l : (free_fd l <= length l)%nat.
Proof. induction l as [|[x|] l IH]; simpl; lia. Qed.

Lemma new_fd_ok i h b fd h' :
  nodes h !! i = Some b → new_fd i h = (fd, h') →
  0 ≤ fd ∧ view fd h' = Some (mkFd 0 b) ∧ entry_at fd h' = Some (i, 0) ∧
  names h' = names h ∧ nodes h' = nodes h.
Proof.
  intros Hb. unfold new_fd. intros [= <- <-]. set (n := free_fd (fds h)).
  pose proof (free_fd_lookup (fds h)) as Hn. fold n in Hn.
  assert (E : (if (n <? length (fds h))%nat then <[n := Some (i, 0)]> (fds h)
               else fds h ++ [Some (i, 0)]) !! n = Some (Some (i, 0))).
  { destruct (Nat.ltb_spec n (length (fds h))); [by apply list_lookup_insert_eq|].
    rewrite lookup_app_r by lia. by replace (n - length (fds h))%nat with 0%nat by lia. }
  split_and!; try done; [lia | |].
  - apply (view_intro _ _ i); [lia | | done]. cbn [fds]. by rewrite Nat2Z.id.
  - unfold entry_at. rewrite (proj2 (Z.ltb_ge _ 0)), Nat2Z.id by lia. cbn [fds]. by rewrite E.
Qed.

Lemma open_existing nm h i b crash :
  permits nm = true → names h !! nm = Some i → nodes h !! i = Some b →
  ∃ fd h', OpenForReadWrite permits nm crash h = Ok (fd, h') ∧ 0 ≤ fd ∧
    view fd h' = Some (mkFd 0 b) ∧ named nm fd h'.
Proof.
  intros Hp Hn Hb. unfold OpenForReadWrite, open. rewrite Hp, Hn. cbn [negb].
  destruct (new_fd i h) as [fd h'] eqn:E. destruct (new_fd_ok _ _ _ _ _ Hb E) as (Hfd & Hv & He & Hnm & _).
  exists fd, h'. cbn [fst]. rewrite ASSERT_true by (apply orb_true_iff; right; apply Z.geb_le; lia).
  split_and!; try done. exists i, 0. by rewrite Hnm.
Qed.

Lemma open_missing nm h :
  names h !! nm = None → OpenForReadWrite permits nm false h = Ok (-1, h).
Proof. intros Hn. unfold OpenForReadWrite, open. rewrite Hn. by destruct (permits nm). Qed.

Lemma OpenForWrite_ok nm h :
  permits nm = true → (∀ i, names h !! nm = Some i → (i < length (nodes h))%nat) →
  ∃ fd h', OpenForWrite permits nm h = Ok (fd, h') ∧ 0 ≤ fd ∧ view fd h' = Some (mkFd 0 []) ∧ named nm fd h'.
Proof.
  intros Hp Hwf. unfold OpenForWrite, open. rewrite Hp. cbn [negb].
  set (i := match names h !! nm with Some i => i | None => length (nodes h) end).
  set (h1 := match names h !! nm with
             | Some i => mkHost (names h) (<[i := []]> (nodes h)) (fds h)
             | None => mkHost (<[nm := length (nodes h)]> (names h)) (nodes h ++ [[]]) (fds h) end).
  assert (nodes h1 !! i = Some [] ∧ names h1 !! nm = Some i) as [Hb Hn1].
  { unfold h1, i. destruct (names h !! nm) as [j|] eqn:E; cbn [nodes names].
    - split; [apply list_lookup_insert_eq; eauto | done].
    - split; [by rewrite lookup_app_r, Nat.sub_diag by lia | by simplify_map_eq]. }
  assert (E : match names h !! nm with
              | Some i => new_fd i (mkHost (names h) (<[i := []]> (nodes h)) (fds h))
              | None => new_fd (length (nodes h))
                  (mkHost (<[nm := length (nodes h)]> (names h)) (nodes h ++ [[]]) (fds h)) end = new_fd i h1).
  { unfold h1, i. by destruct (names h !! nm). }
  cbn zeta. rewrite E. destruct (new_fd i h1) as [fd h'] eqn:E1.
  destruct (new_fd_ok _ _ _ _ _ Hb E1) as (Hfd & Hv & He & Hnm & _).
  exists fd, h'. cbn [fst]. rewrite ASSERT_true by (apply Z.geb_le; lia).
  split_and!; try done. exists i, 0. by rewrite Hnm.
Qed.
End Facts.
End Sysdep.
