(* ===== verification/LinkedList.v ===== *)
(** * Singly-linked lists (src/code/threads/list.h, list.cc)

    The pointer structure the code manipulates (cells in a heap, the [first] and
    [last] pointers), its operations, and the proof that they implement operations
    on plain sequences of (key, item) pairs. The rest of the library uses the
    sequences. *)
From S2P Require Import Prelude.

Abbreviation ptr := positive (only parsing).

(** ** The specification: a list is the sequence of its (key, item) pairs *)
Section Spec.
Context {A : Type}.
Implicit Types (xs : list (Z * A)).

Definition spec_append (x : A) xs : list (Z * A) := xs ++ [(0, x)].
Definition spec_prepend (x : A) xs : list (Z * A) := (0, x) :: xs.

(** Before the first element with a greater key. *)
Fixpoint spec_sorted_insert (x : A) (k : Z) xs : list (Z * A) :=
  match xs with
  | [] => [(k, x)]
  | (k', y) :: t => if k <? k' then (k, x) :: xs else (k', y) :: spec_sorted_insert x k t
  end.

Definition key_le (a b : Z * A) : Prop := a.1 ≤ b.1.

Lemma spec_sorted_insert_perm x k xs : spec_sorted_insert x k xs ≡ₚ (k, x) :: xs.
Proof.
  induction xs as [|[k' y] t IH]; simpl; [done|]. destruct (k <? k'); [done|].
  rewrite IH. apply Permutation_swap.
Qed.

(** The new element goes after every element whose key is not greater: elements
    of equal keys leave in the order they came. *)
Lemma spec_sorted_insert_split x k xs :
  Sorted key_le xs →
  ∃ l r, xs = l ++ r ∧ spec_sorted_insert x k xs = l ++ (k, x) :: r ∧
    Forall (λ a, a.1 ≤ k) l ∧ Forall (λ a, k < a.1) r.
Proof.
  intros Hs. apply Sorted_StronglySorted in Hs; [|intros ???; unfold key_le; lia].
  induction Hs as [|[k' y] t _ IH Hhd]; simpl.
  - exists [], []. naive_solver.
  - destruct (Z.ltb_spec k k').
    + exists [], ((k', y) :: t). repeat split; auto. constructor; [simpl; lia|].
      eapply Forall_impl; [exact Hhd|]. unfold key_le; simpl; lia.
    + destruct IH as (l & r & -> & -> & Hl & Hr). exists ((k', y) :: l), r.
      repeat split; auto.
Qed.

Lemma spec_sorted_insert_sorted x k xs :
  Sorted key_le xs → Sorted key_le (spec_sorted_insert x k xs).
Proof.
  intros Hs. induction Hs as [|[k' y] t Hs IH Hhd]; simpl.
  { repeat constructor. }
  destruct (Z.ltb_spec k k').
  - constructor; [by constructor|]. constructor. unfold key_le; simpl; lia.
  - constructor; [done|]. destruct t as [|[k2 z] t]; simpl.
    + constructor. unfold key_le; simpl; lia.
    + destruct (k <? k2); constructor; unfold key_le; simpl; [lia|].
      by inversion Hhd.
Qed.
End Spec.

(** ** The cells *)

(** class ListElement; an item is never NULL. *)
Record ListElement (A : Type) := mkElement { next : option ptr; key : Z; item : A }.
Arguments mkElement {A} next key item.
Arguments next {A} _.
Arguments key {A} _.
Arguments item {A} _.

(** class List *)
Record List := mkList { first : option ptr; last_ : option ptr }.

Abbreviation heap A := (gmap positive (ListElement A)).
Abbreviation lstate A := (heap A * List)%type.

Section Cells.
Context {A : Type}.

(** [new ListElement(itemPtr, sortKey)] *)
Definition new_ListElement (itemPtr : A) (sortKey : Z) (h : heap A) : ptr * heap A :=
  let e := fresh (dom h : gset positive) in
  (e, <[e := mkElement None sortKey itemPtr]> h).

Definition deref (h : heap A) (p : option ptr) : res (ListElement A) :=
  match p with
  | Some a => match h !! a with Some c => Ok c | None => Fail MemoryFault end
  | None => Fail MemoryFault
  end.

(** [p->next = q] *)
Definition set_next (h : heap A) (p q : option ptr) : res (heap A) :=
  match p with
  | Some a =>
      match h !! a with
      | Some c => Ok (<[a := mkElement q (key c) (item c)]> h)
      | None => Fail MemoryFault
      end
  | None => Fail MemoryFault
  end.

Definition new_List : List := mkList None None.

Definition IsEmpty (l : List) : bool := bool_decide (first l = None).

Definition Append (it : A) (st : lstate A) : res (lstate A) :=
  let '(h, l) := st in
  let '(element, h) := new_ListElement it 0 h in
  if IsEmpty l then Ok (h, mkList (Some element) (Some element))
  else
    let? h := set_next h (last_ l) (Some element) in
    Ok (h, mkList (first l) (Some element)).

Definition Prepend (it : A) (st : lstate A) : res (lstate A) :=
  let '(h, l) := st in
  let '(element, h) := new_ListElement it 0 h in
  if IsEmpty l then Ok (h, mkList (Some element) (Some element))
  else
    let? h := set_next h (Some element) (first l) in
    Ok (h, mkList (Some element) (last_ l)).

(** The [for] loop of SortedInsert: [Some p] when the element goes after [p]. *)
Fixpoint sorted_walk (fuel : nat) (h : heap A) (sortKey : Z) (ptr : option ptr)
    : res (option (option positive)) :=
  match fuel with
  | O => Fail OutOfFuel
  | S fuel =>
      let? c := deref h ptr in
      match next c with
      | None => Ok None
      | Some n =>
          let? cn := deref h (Some n) in
          if sortKey <? key cn then Ok (Some ptr)
          else sorted_walk fuel h sortKey (Some n)
      end
  end.

Definition SortedInsert (it : A) (sortKey : Z) (st : lstate A) : res (lstate A) :=
  let '(h, l) := st in
  let '(element, h) := new_ListElement it sortKey h in
  if IsEmpty l then Ok (h, mkList (Some element) (Some element))
  else
    let? cf := deref h (first l) in
    if sortKey <? key cf then
      let? h := set_next h (Some element) (first l) in
      Ok (h, mkList (Some element) (last_ l))
    else
      let? w := sorted_walk (S (size h)) h sortKey (first l) in
      match w with
      | Some p =>
          let? c := deref h p in
          let? h := set_next h (Some element) (next c) in
          let? h := set_next h p (Some element) in
          Ok (h, l)
      | None =>
          let? h := set_next h (last_ l) (Some element) in
          Ok (h, mkList (first l) (Some element))
      end.

(** The returned pair is the item and, for a non-NULL [keyPtr], the key. *)
Definition SortedRemove (st : lstate A) : res (option (A * Z) * lstate A) :=
  let '(h, l) := st in
  if IsEmpty l then Ok (None, st)
  else
    let? element := deref h (first l) in
    let l' :=
      if bool_decide (first l = last_ l) then mkList None None
      else mkList (next element) (last_ l) in
    let h' := match first l with Some a => delete a h | None => h end in
    Ok (Some (item element, key element), (h', l')).

Definition Remove (st : lstate A) : res (option A * lstate A) :=
  let? r := SortedRemove st in
  Ok (fst <$> r.1, r.2).

(** [func] is applied to every item in order, threading its effect on [S]. *)
Fixpoint Mapcar_loop {S} (fuel : nat) (func : A → S → S) (h : heap A)
    (ptr : option ptr) (s : S) : res S :=
  match ptr with
  | None => Ok s
  | Some _ =>
      match fuel with
      | O => Fail OutOfFuel
      | Datatypes.S fuel =>
          let? c := deref h ptr in
          Mapcar_loop fuel func h (next c) (func (item c) s)
      end
  end.

Definition Mapcar {S} (func : A → S → S) (st : lstate A) (s : S) : res S :=
  Mapcar_loop (size st.1) func st.1 (first st.2) s.

(** [while (Remove () != NULL);] *)
Fixpoint delete_List (fuel : nat) (st : lstate A) : res (lstate A) :=
  match fuel with
  | O => Fail OutOfFuel
  | S fuel =>
      let? r := Remove st in
      match r.1 with
      | None => Ok r.2
      | Some _ => delete_List fuel r.2
      end
  end.
End Cells.

(** ** Representation *)
Section Repr.
Context {A : Type}.
Implicit Types (h : heap A) (ns : list (ptr * (Z * A))) (o : option ptr).

(** Following [next] from [o] runs through the cells [ns] and ends at NULL. *)
Fixpoint chain h o ns : Prop :=
  match ns with
  | [] => o = None
  | (p, (k, x)) :: ns' =>
      o = Some p ∧ ∃ nx, h !! p = Some (mkElement nx k x) ∧ chain h nx ns'
  end.

(** [l] is the list of the cells [ns]: pairwise distinct, [last_] the last one. *)
Definition repr h (l : List) ns : Prop :=
  chain h (first l) ns ∧ NoDup ns.*1 ∧ last_ l = last ns.*1.

Lemma chain_frame h h' o ns :
  (∀ p, p ∈ ns.*1 → h' !! p = h !! p) → chain h o ns → chain h' o ns.
Proof.
  revert o. induction ns as [|[p [k x]] ns IH]; intros o Hh; simpl; [done|].
  intros (-> & nx & Hp & Hc). split; [done|]. exists nx. split.
  - rewrite Hh; [done|]. simpl. set_solver.
  - apply IH; [|done]. intros q Hq. apply Hh. simpl. set_solver.
Qed.

Lemma chain_dom h o ns p : chain h o ns → p ∈ ns.*1 → p ∈ (dom h : gset positive).
Proof.
  revert o. induction ns as [|[q [k x]] ns IH]; intros o; simpl.
  - intros _ Hp. by apply not_elem_of_nil in Hp.
  - intros (_ & nx & Hq & Hc) Hp. apply elem_of_cons in Hp as [-> | Hp]; [|eauto].
    apply elem_of_dom. eauto.
Qed.

(** A chain splits at any of its cells. *)
Lemma chain_middle h o ns1 p k x ns2 :
  chain h o (ns1 ++ (p, (k, x)) :: ns2) →
  ∃ nx, h !! p = Some (mkElement nx k x) ∧ chain h nx ns2.
Proof.
  revert o. induction ns1 as [|[q [kq y]] ns1 IH]; intros o; simpl.
  - intros (_ & nx & ? & ?); eauto.
  - intros (_ & nx & _ & Hc). eauto.
Qed.

(** Linking a new cell [e] after the cell [p]. *)
Lemma chain_link h h' o ns1 p k x ns2 e ke xe nx :
  chain h o (ns1 ++ (p, (k, x)) :: ns2) →
  NoDup (ns1 ++ (p, (k, x)) :: ns2).*1 →
  h !! p = Some (mkElement nx k x) →
  h' !! p = Some (mkElement (Some e) k x) →
  h' !! e = Some (mkElement nx ke xe) →
  (∀ q, q ≠ p → q ≠ e → h' !! q = h !! q) →
  e ∉ (ns1 ++ (p, (k, x)) :: ns2).*1 →
  chain h' o (ns1 ++ (p, (k, x)) :: (e, (ke, xe)) :: ns2).
Proof.
  revert o. induction ns1 as [|[q [kq y]] ns1 IH]; intros o; simpl.
  - intros (-> & nx' & Hp & Hc) Hnd Hp' Hp1 He Hq Hne.
    rewrite Hp in Hp'. injection Hp' as ->. apply NoDup_cons in Hnd as [Hpn Hnd].
    split; [done|]. exists (Some e). repeat split; [done|]. exists nx. split; [done|].
    eapply chain_frame; [|done]. intros r Hr. apply Hq; set_solver.
  - intros (-> & nx' & Hp & Hc) Hnd Hp' Hp1 He Hq Hne.
    apply NoDup_cons in Hnd as [Hpn Hnd]. split; [done|]. exists nx'. split.
    + rewrite Hq; [done| |].
      * rewrite fmap_app in Hpn. simpl in Hpn. set_solver.
      * set_solver.
    + apply (IH nx'); try done. by apply not_elem_of_cons in Hne as [_ ?].
Qed.

Lemma deref_chain h o p k x ns :
  chain h o ((p, (k, x)) :: ns) → ∃ nx, deref h o = Ok (mkElement nx k x) ∧
    o = Some p ∧ h !! p = Some (mkElement nx k x) ∧ chain h nx ns.
Proof. intros (-> & nx & Hp & Hc). exists nx. simpl. by rewrite Hp. Qed.

Lemma repr_empty h l ns : repr h l ns → IsEmpty l = bool_decide (ns = []).
Proof.
  intros (Hc & _ & _). unfold IsEmpty. destruct ns as [|[p [k x]] ns]; simpl in Hc.
  - by rewrite Hc.
  - destruct Hc as (-> & _). done.
Qed.

Lemma fresh_not_in h o ns : chain h o ns → fresh (dom h : gset positive) ∉ ns.*1.
Proof. intros Hc Hin. apply (chain_dom _ _ _ _ Hc) in Hin.
  by apply (is_fresh (dom h : gset positive)).
Qed.

Lemma repr_singleton h l ns e k x :
  repr h l ns → ns = [] →
  repr (<[e := mkElement None k x]> h) (mkList (Some e) (Some e)) [(e, (k, x))].
Proof.
  intros _ _. split; [|split]; simpl; [|repeat constructor; set_solver|done].
  split; [done|]. exists None. by simplify_map_eq.
Qed.

Lemma repr_prepend h l ns e k x :
  repr h l ns → ns ≠ [] → e ∉ ns.*1 →
  repr (<[e := mkElement (first l) k x]> h) (mkList (Some e) (last_ l))
       ((e, (k, x)) :: ns).
Proof.
  intros (Hc & Hnd & Hl) Hne He. split; [|split]; simpl.
  - split; [done|]. exists (first l). simplify_map_eq. split; [done|].
    eapply chain_frame; [|done]. intros p Hp. apply lookup_insert_ne. set_solver.
  - constructor; done.
  - rewrite Hl. destruct ns; simpl; [done|]. by destruct (ns.*1).
Qed.

Lemma repr_append h l ns1 p kp xp e k x :
  repr h l (ns1 ++ [(p, (kp, xp))]) → e ∉ (ns1 ++ [(p, (kp, xp))]).*1 →
  repr (<[p := mkElement (Some e) kp xp]> (<[e := mkElement None k x]> h))
       (mkList (first l) (Some e)) ((ns1 ++ [(p, (kp, xp))]) ++ [(e, (k, x))]).
Proof.
  intros (Hc & Hnd & Hl) He. rewrite <- app_assoc. simpl.
  assert (p ≠ e) by (rewrite fmap_app in He; simpl in He; set_solver).
  destruct (chain_middle _ _ _ _ _ _ _ Hc) as (nx & Hp & Hnx). simpl in Hnx. subst nx.
  split; [|split]; simpl.
  - eapply chain_link; try done.
    + by simplify_map_eq.
    + by simplify_map_eq.
    + intros q ? ?. by simplify_map_eq.
  - rewrite fmap_app in *. simpl in *. apply NoDup_app in Hnd as (H1 & H2 & H3).
    apply NoDup_app. repeat split; [done | set_solver |].
    repeat constructor; set_solver.
  - rewrite fmap_app. simpl. by rewrite (last_app_cons (ns1.*1)).
Qed.

(** ** The operations implement the specification *)

(** A result list whose other cells are those of the old heap. *)
Definition refines h ns (r : res (lstate A)) (xs : list (Z * A)) : Prop :=
  ∃ h' l' ns', r = Ok (h', l') ∧ repr h' l' ns' ∧ ns'.*2 = xs ∧
    (∀ q, q ∉ ns.*1 → q ∉ ns'.*1 → h' !! q = h !! q).

Lemma set_next_last h l ns1 p kp xp e k x :
  repr h l (ns1 ++ [(p, (kp, xp))]) → e ∉ (ns1 ++ [(p, (kp, xp))]).*1 →
  set_next (<[e := mkElement None k x]> h) (last_ l) (Some e) =
    Ok (<[p := mkElement (Some e) kp xp]> (<[e := mkElement None k x]> h)).
Proof.
  intros (Hc & Hnd & Hl) He. rewrite Hl, fmap_app. simpl. rewrite last_snoc. simpl.
  assert (e ≠ p) by (rewrite fmap_app in He; simpl in He; set_solver).
  destruct (chain_middle _ _ _ _ _ _ _ Hc) as (nx & Hp & _).
  by rewrite lookup_insert_ne, Hp by done.
Qed.

Lemma append_element_refines h l ns x k :
  repr h l ns → ns ≠ [] →
  let e := fresh (dom h : gset positive) in
  refines h ns
    (let? h := set_next (<[e := mkElement None k x]> h) (last_ l) (Some e) in
     Ok (h, mkList (first l) (Some e))) (ns.*2 ++ [(k, x)]).
Proof.
  intros Hr Hne e. destruct ns as [|[p [kp xp]] ns1 _] using rev_ind; [done|].
  assert (He : e ∉ (ns1 ++ [(p, (kp, xp))]).*1) by (by eapply fresh_not_in, Hr).
  rewrite (set_next_last _ _ _ _ _ _ _ _ _ Hr He). simpl.
  do 3 eexists. split; [done|]. split; [by apply repr_append|]. split.
  - by rewrite !fmap_app.
  - intros q Hq Hq'. rewrite !fmap_app in *. simpl in *.
    rewrite !lookup_insert_ne; set_solver.
Qed.

Lemma prepend_element_refines h l ns x k :
  repr h l ns → ns ≠ [] →
  let e := fresh (dom h : gset positive) in
  refines h ns
    (let? h := set_next (<[e := mkElement None k x]> h) (Some e) (first l) in
     Ok (h, mkList (Some e) (last_ l))) ((k, x) :: ns.*2).
Proof.
  intros Hr Hne e. simpl. rewrite lookup_insert_eq. simpl. rewrite insert_insert_eq.
  assert (He : e ∉ ns.*1) by (by eapply fresh_not_in, Hr).
  do 3 eexists. split; [done|]. split; [by apply repr_prepend|]. split; [done|].
  intros q Hq Hq'. simpl in Hq'. rewrite lookup_insert_ne; set_solver.
Qed.

Lemma singleton_refines h l ns x k :
  repr h l ns → ns = [] →
  let e := fresh (dom h : gset positive) in
  refines h ns (Ok (<[e := mkElement None k x]> h, mkList (Some e) (Some e))) [(k, x)].
Proof.
  intros Hr -> e. do 3 eexists. split; [done|].
  split; [by eapply repr_singleton|]. split; [done|].
  intros q Hq Hq'. simpl in Hq'. rewrite lookup_insert_ne; set_solver.
Qed.
End Repr.

Section Refinement.
Context {A : Type}.
Implicit Types (h : heap A) (ns : list (ptr * (Z * A))).

Lemma chain_size h o ns : chain h o ns → NoDup ns.*1 → (length ns ≤ size h)%nat.
Proof.
  intros Hc Hnd. rewrite <- (length_fmap fst ns).
  rewrite <- (size_list_to_set (C := gset positive) ns.*1) by done.
  rewrite <- (size_dom (D := gset positive) h). apply subseteq_size.
  intros p Hp. apply elem_of_list_to_set in Hp. by eapply chain_dom.
Qed.

(** [Append] puts the item at the end. *)
Lemma Append_refines h l ns x :
  repr h l ns → refines h ns (Append x (h, l)) (spec_append x ns.*2).
Proof.
  intros Hr. unfold Append, new_ListElement. rewrite (repr_empty _ _ _ Hr).
  case_bool_decide as Hns.
  - subst ns. by apply (singleton_refines h l []).
  - by eapply append_element_refines.
Qed.

(** [Prepend] puts it at the front. *)
Lemma Prepend_refines h l ns x :
  repr h l ns → refines h ns (Prepend x (h, l)) (spec_prepend x ns.*2).
Proof.
  intros Hr. unfold Prepend, new_ListElement. rewrite (repr_empty _ _ _ Hr).
  case_bool_decide as Hns.
  - subst ns. by apply (singleton_refines h l []).
  - by eapply prepend_element_refines.
Qed.

(** The walk finds the cell after which the specification inserts. *)
Lemma sorted_walk_spec fuel h o p kp xp ns x k :
  chain h o ((p, (kp, xp)) :: ns) → kp ≤ k → (S (length ns) ≤ fuel)%nat →
  let all := (p, (kp, xp)) :: ns in
  (sorted_walk fuel h k o = Ok None ∧
     spec_sorted_insert x k all.*2 = all.*2 ++ [(k, x)]) ∨
  (∃ ns1 q kq xq ns2, all = ns1 ++ (q, (kq, xq)) :: ns2 ∧ ns2 ≠ [] ∧
     sorted_walk fuel h k o = Ok (Some (Some q)) ∧
     spec_sorted_insert x k all.*2 = ns1.*2 ++ (kq, xq) :: (k, x) :: ns2.*2).
Proof.
  revert o p kp xp fuel. induction ns as [|[n [kn xn]] ns IH];
    intros o p kp xp fuel Hc Hk Hfuel; (destruct fuel as [|fuel]; [simpl in Hfuel; lia|]);
    apply deref_chain in Hc as (nx & Hd & -> & Hp & Hc).
  - left. simpl in Hc |- *. rewrite Hp. simpl. subst nx.
    split; [done|]. destruct (Z.ltb_spec k kp); [lia|done].
  - pose proof Hc as Hc'. apply deref_chain in Hc' as (nx' & Hdn & -> & Hn & _).
    simpl in Hdn |- *. rewrite Hp. simpl. rewrite Hdn. simpl.
    destruct (Z.ltb_spec k kp); [lia|]. destruct (Z.ltb_spec k kn).
    + right. exists [], p, kp, xp, ((n, (kn, xn)) :: ns). done.
    + destruct (IH (Some n) n kn xn fuel Hc ltac:(lia) ltac:(simpl in Hfuel; lia))
        as [[Hw Hs] | (ns1 & q & kq & xq & ns2 & Heq & Hne & Hw & Hs)];
        simpl in Hs; destruct (Z.ltb_spec k kn); try lia.
      * left. rewrite Hw. split; [done|]. by rewrite Hs.
      * right. exists ((p, (kp, xp)) :: ns1), q, kq, xq, ns2.
        simpl. rewrite Heq, Hw, Hs. done.
Qed.

Lemma link_after_refines h l ns1 q kq xq ns2 x k :
  repr h l (ns1 ++ (q, (kq, xq)) :: ns2) → ns2 ≠ [] →
  let e := fresh (dom h : gset positive) in
  let h1 := <[e := mkElement None k x]> h in
  refines h (ns1 ++ (q, (kq, xq)) :: ns2)
    (let? c := deref h1 (Some q) in
     let? h := set_next h1 (Some e) (next c) in
     let? h := set_next h (Some q) (Some e) in
     Ok (h, l)) (ns1.*2 ++ (kq, xq) :: (k, x) :: ns2.*2).
Proof.
  intros Hr Hne e h1.
  assert (He : e ∉ (ns1 ++ (q, (kq, xq)) :: ns2).*1) by (by eapply fresh_not_in, Hr).
  destruct Hr as (Hc & Hnd & Hl).
  destruct (chain_middle _ _ _ _ _ _ _ Hc) as (nx & Hq & Hc2).
  assert (e ≠ q) by (rewrite fmap_app in He; simpl in He; set_solver).
  unfold h1. simpl. rewrite lookup_insert_ne, Hq by done. simpl.
  rewrite lookup_insert_eq. simpl. rewrite insert_insert_eq.
  rewrite lookup_insert_ne, Hq by done. simpl.
  do 2 eexists. exists (ns1 ++ (q, (kq, xq)) :: (e, (k, x)) :: ns2).
  split; [done|]. split; [split; [|split]|split].
  - eapply chain_link; try done; [by simplify_map_eq | by simplify_map_eq |].
    intros r ? ?. by simplify_map_eq.
  - rewrite fmap_app in *. simpl in *.
    apply NoDup_app in Hnd as (H1 & H2 & H3). apply NoDup_cons in H3 as [H3 H4].
    apply NoDup_app. repeat split; [done | set_solver |].
    constructor; [set_solver|]. constructor; [set_solver|done].
  - rewrite Hl. destruct ns2 as [|[r [kr xr]] ns2 _] using rev_ind; [done|].
    rewrite !fmap_app. simpl. rewrite !fmap_app. simpl.
    rewrite !(last_app_cons ns1.*1), !last_cons. by rewrite !last_snoc.
  - by rewrite fmap_app.
  - intros r Hr1 Hr2. rewrite fmap_app in *. simpl in *.
    rewrite !lookup_insert_ne; set_solver.
Qed.

(** [SortedInsert] puts the item before the first greater key. *)
Lemma SortedInsert_refines h l ns x k :
  repr h l ns → refines h ns (SortedInsert x k (h, l)) (spec_sorted_insert x k ns.*2).
Proof.
  intros Hr. unfold SortedInsert, new_ListElement. rewrite (repr_empty _ _ _ Hr).
  case_bool_decide as Hns.
  { subst ns. by apply (singleton_refines h l []). }
  destruct ns as [|[p [kp xp]] ns]; [done|].
  set (e := fresh (dom h : gset positive)).
  assert (He : e ∉ ((p, (kp, xp)) :: ns).*1) by (by eapply fresh_not_in, Hr).
  assert (Hc1 : chain (<[e := mkElement None k x]> h) (first l) ((p, (kp, xp)) :: ns)).
  { eapply chain_frame, Hr. intros q Hq. apply lookup_insert_ne. set_solver. }
  pose proof Hc1 as Hd. apply deref_chain in Hd as (nx & Hd & _ & _ & _).
  rewrite Hd. cbn [res_bind key]. destruct (Z.ltb_spec k kp).
  - simpl. destruct (Z.ltb_spec k kp); [|lia].
    by apply (prepend_element_refines h l ((p, (kp, xp)) :: ns)).
  - pose proof (chain_size _ _ _ (proj1 Hr) (proj1 (proj2 Hr))).
    assert (h !! e = None).
    { apply not_elem_of_dom. apply (is_fresh (dom h : gset positive)). }
    destruct (sorted_walk_spec (S (size (<[e := mkElement None k x]> h))) _ _ _ _ _ _ x k
      Hc1 ltac:(lia)) as [[Hw Hs] | (ns1 & q & kq & xq & ns2 & Heq & Hne & Hw & Hs)].
    + rewrite map_size_insert_None by done. simpl in *. lia.
    + rewrite Hw. cbn [res_bind]. rewrite Hs. by apply append_element_refines.
    + rewrite Hw. cbn [res_bind]. rewrite Hs. rewrite Heq in Hr |- *.
      by apply link_after_refines.
Qed.
(** [SortedRemove] takes the front cell off and frees it. *)
Lemma SortedRemove_refines h l p k x ns :
  repr h l ((p, (k, x)) :: ns) →
  ∃ l', SortedRemove (h, l) = Ok (Some (x, k), (delete p h, l')) ∧
    repr (delete p h) l' ns.
Proof.
  intros Hr. unfold SortedRemove. rewrite (repr_empty _ _ _ Hr), bool_decide_false by done.
  destruct Hr as (Hc & Hnd & Hl). pose proof Hc as Hd.
  apply deref_chain in Hd as (nx & -> & -> & Hp & Hc2). cbn [res_bind item key next].
  simpl in Hnd. apply NoDup_cons in Hnd as [Hpn Hnd].
  eexists. split; [done|].
  assert (Hc3 : chain (delete p h) nx ns).
  { eapply chain_frame; [|done]. intros q Hq. apply lookup_delete_ne. set_solver. }
  destruct ns as [|[q [kq y]] ns].
  - simpl in Hl. rewrite Hl, bool_decide_true by done. split; [done|]. by split.
  - rewrite bool_decide_false; [by split|].
    rewrite Hl. intros Heq. simpl in Heq.
    assert (p ∈ q :: ns.*1); [|done].
    apply list_elem_of_lookup. exists (length ns.*1).
    by rewrite Heq, last_lookup.
Qed.

Lemma SortedRemove_empty h l : repr (A:=A) h l [] → SortedRemove (h, l) = Ok (None, (h, l)).
Proof. intros Hr. unfold SortedRemove. by rewrite (repr_empty _ _ _ Hr). Qed.

(** [Mapcar] calls the function on the items from first to last. *)
Lemma Mapcar_loop_spec {S} (func : A → S → S) fuel h o ns s :
  chain h o ns → (length ns ≤ fuel)%nat →
  Mapcar_loop fuel func h o s = Ok (foldl (λ s kx, func kx.2 s) s ns.*2).
Proof.
  revert o fuel s. induction ns as [|[p [k x]] ns IH]; intros o fuel s Hc Hf.
  - simpl in Hc. subst o. by destruct fuel.
  - apply deref_chain in Hc as (nx & Hd & -> & Hp & Hc). simpl in Hf.
    destruct fuel as [|fuel]; [lia|]. simpl. rewrite Hp. simpl. rewrite (IH nx); [done|done|lia].
Qed.

Lemma Mapcar_spec {S} (func : A → S → S) h l ns s :
  repr h l ns → Mapcar func (h, l) s = Ok (foldl (λ s kx, func kx.2 s) s ns.*2).
Proof. intros (Hc & Hnd & _). apply Mapcar_loop_spec; [done|]. by eapply chain_size. Qed.

(** The destructor terminates and frees exactly the cells of the list. *)
Lemma delete_List_spec fuel h l ns :
  repr h l ns → (length ns < fuel)%nat →
  ∃ h', delete_List fuel (h, l) = Ok (h', mkList None None) ∧
    (∀ q, h' !! q = if decide (q ∈ ns.*1) then None else h !! q).
Proof.
  revert h l fuel. induction ns as [|[p [k x]] ns IH]; intros h l fuel Hr Hf;
    (destruct fuel as [|fuel]; [simpl in Hf; lia|]); simpl; unfold Remove.
  - rewrite SortedRemove_empty by done. simpl. exists h. split.
    + destruct Hr as (Hc & _ & Hl). destruct l. simpl in *. by subst.
    + done.
  - destruct (SortedRemove_refines _ _ _ _ _ _ Hr) as (l' & -> & Hr'). simpl.
    destruct (IH _ _ fuel Hr') as (h' & -> & Hh'); [simpl in Hf; lia|].
    exists h'. split; [done|]. intros q. rewrite Hh'.
    destruct (decide (q = p)) as [-> | Hne].
    + rewrite (decide_True (P := p ∈ p :: _)) by set_solver.
      case_decide; [done|]. apply lookup_delete_eq.
    + rewrite lookup_delete_ne by done. do 2 case_decide; set_solver.
Qed.
End Refinement.

(** ** Any client run *)
Section Client.
Context {A : Type}.

Inductive list_op : Type :=
  | OpAppend (x : A)
  | OpPrepend (x : A)
  | OpSortedInsert (x : A) (k : Z)
  | OpRemove
  | OpSortedRemove.

(** The item (and key) an operation returns, and the new list. *)
Definition list_step (o : list_op) (st : lstate A) : res (option A * option Z * lstate A) :=
  match o with
  | OpAppend x => let? st := Append x st in Ok (None, None, st)
  | OpPrepend x => let? st := Prepend x st in Ok (None, None, st)
  | OpSortedInsert x k => let? st := SortedInsert x k st in Ok (None, None, st)
  | OpRemove => let? r := Remove st in Ok (r.1, None, r.2)
  | OpSortedRemove =>
      let? r := SortedRemove st in Ok (fst <$> r.1, snd <$> r.1, r.2)
  end.

Definition spec_step (o : list_op) (xs : list (Z * A))
    : option A * option Z * list (Z * A) :=
  match o with
  | OpAppend x => (None, None, spec_append x xs)
  | OpPrepend x => (None, None, spec_prepend x xs)
  | OpSortedInsert x k => (None, None, spec_sorted_insert x k xs)
  | OpRemove => (snd <$> head xs, None, tail xs)
  | OpSortedRemove => (snd <$> head xs, fst <$> head xs, tail xs)
  end.

Fixpoint list_run (os : list list_op) (st : lstate A)
    : res (list (option A * option Z) * lstate A) :=
  match os with
  | [] => Ok ([], st)
  | o :: os =>
      let? r := list_step o st in
      let? rs := list_run os r.2 in
      Ok (r.1 :: rs.1, rs.2)
  end.

Fixpoint spec_run (os : list list_op) (xs : list (Z * A))
    : list (option A * option Z) * list (Z * A) :=
  match os with
  | [] => ([], xs)
  | o :: os =>
      let r := spec_step o xs in
      let rs := spec_run os r.2 in
      (r.1 :: rs.1, rs.2)
  end.

Lemma list_step_simulates o h l ns :
  repr h l ns →
  ∃ h' l' ns', list_step o (h, l) = Ok ((spec_step o ns.*2).1, (h', l')) ∧
    repr h' l' ns' ∧ ns'.*2 = (spec_step o ns.*2).2.
Proof.
  intros Hr. destruct o as [x|x|x k| |]; cbn [list_step spec_step fst snd].
  - destruct (Append_refines _ _ _ x Hr) as (h' & l' & ns' & -> & ? & ? & _); simpl; eauto 8.
  - destruct (Prepend_refines _ _ _ x Hr) as (h' & l' & ns' & -> & ? & ? & _); simpl; eauto 8.
  - destruct (SortedInsert_refines _ _ _ x k Hr) as (h' & l' & ns' & -> & ? & ? & _);
      simpl; eauto 8.
  - unfold Remove. destruct ns as [|[p [k x]] ns].
    + rewrite SortedRemove_empty by done. simpl. eauto 8.
    + destruct (SortedRemove_refines _ _ _ _ _ _ Hr) as (l' & -> & ?). simpl. eauto 8.
  - destruct ns as [|[p [k x]] ns].
    + rewrite SortedRemove_empty by done. simpl. eauto 8.
    + destruct (SortedRemove_refines _ _ _ _ _ _ Hr) as (l' & -> & ?). simpl. eauto 8.
Qed.

Lemma list_run_simulates os h l ns :
  repr h l ns →
  ∃ h' l' ns', list_run os (h, l) = Ok ((spec_run os ns.*2).1, (h', l')) ∧
    repr h' l' ns' ∧ ns'.*2 = (spec_run os ns.*2).2.
Proof.
  revert h l ns. induction os as [|o os IH]; intros h l ns Hr; simpl; [eauto 8|].
  destruct (list_step_simulates o _ _ _ Hr) as (h' & l' & ns' & -> & Hr' & Heq). simpl.
  destruct (IH _ _ _ Hr') as (h2 & l2 & ns2 & -> & Hr2 & Heq2). simpl.
  rewrite Heq in *. eauto 8.
Qed.

(** C26. Starting from an empty list, every sequence of operations on the linked
    cells runs without touching a dead or NULL cell and returns the items and
    keys the sequence-level specification returns. *)
Theorem List_implements_spec (os : list list_op) :
  ∃ h l ns, list_run os (∅, new_List) = Ok ((spec_run os []).1, (h, l)) ∧
    repr h l ns ∧ ns.*2 = (spec_run os []).2.
Proof. apply (list_run_simulates os ∅ new_List []). repeat split. constructor. Qed.

Lemma spec_run_app os1 os2 xs :
  spec_run (os1 ++ os2) xs =
    ((spec_run os1 xs).1 ++ (spec_run os2 (spec_run os1 xs).2).1,
     (spec_run os2 (spec_run os1 xs).2).2).
Proof.
  revert xs. induction os1 as [|o os1 IH]; intros xs; cbn [app spec_run fst snd]; [apply surjective_pairing|].
  rewrite IH. done.
Qed.

Lemma spec_drain xs :
  spec_run (replicate (length xs) OpSortedRemove) xs =
    ((λ kx, (Some kx.2, Some kx.1)) <$> xs, []).
Proof. induction xs as [|[k x] xs IH]; [done|]. cbn. by rewrite IH. Qed.

Lemma spec_inserts (kxs acc : list (Z * A)) :
  Sorted key_le acc →
  let r := spec_run ((λ kx, OpSortedInsert kx.2 kx.1) <$> kxs) acc in
  r.1 = replicate (length kxs) (None, None) ∧ Sorted key_le r.2 ∧ r.2 ≡ₚ acc ++ kxs ∧
  ∀ k, filter (λ kx, kx.1 = k) r.2 = filter (λ kx, kx.1 = k) (acc ++ kxs).
Proof.
  revert acc. induction kxs as [|[k x] kxs IH]; intros acc Hs; simpl.
  { rewrite app_nil_r. done. }
  destruct (IH _ (spec_sorted_insert_sorted x k acc Hs)) as (H0 & H1 & H2 & H3).
  split; [by f_equal|]. split; [done|]. split.
  - rewrite H2, spec_sorted_insert_perm. simpl. apply Permutation_middle.
  - intros k0. rewrite H3.
    destruct (spec_sorted_insert_split x k acc Hs) as (l & r & -> & -> & Hl & Hr).
    rewrite !filter_app, !filter_cons. simpl.
    case_decide as Hk; [|by rewrite <- !app_assoc].
    simpl in Hk. subst k0. rewrite <- !app_assoc. f_equal. simpl.
    enough (filter (λ kx : Z * A, kx.1 = k) r = []) as -> by done.
    clear -Hr. induction Hr as [|a r Ha Hr IH]; [done|].
    rewrite filter_cons_False; [done|lia].
Qed.

(** C34. Items put into an empty list of cells by [SortedInsert] and taken out again by
    as many [SortedRemove] come out as a stable sort of the input: in increasing key
    order, none lost or duplicated, and those of equal keys first in first out; no dead
    cell is touched on the way and the list is empty at the end. *)
Theorem SortedInsert_stable_sort (kxs : list (Z * A)) :
  ∃ h l out,
    list_run (((λ kx, OpSortedInsert kx.2 kx.1) <$> kxs) ++ replicate (length kxs) OpSortedRemove)
      (∅, new_List) =
      Ok (replicate (length kxs) (None, None) ++ ((λ kx, (Some kx.2, Some kx.1)) <$> out), (h, l)) ∧
    repr h l [] ∧ Sorted key_le out ∧ out ≡ₚ kxs ∧
    ∀ k, filter (λ kx, kx.1 = k) out = filter (λ kx, kx.1 = k) kxs.
Proof.
  destruct (spec_inserts kxs [] (Sorted_nil _)) as (H0 & H1 & H2 & H3).
  destruct (list_run_simulates (((λ kx, OpSortedInsert kx.2 kx.1) <$> kxs) ++
      replicate (length kxs) OpSortedRemove) ∅ new_List []) as (h & l & ns & E & Hr & Hns).
  { repeat split. constructor. }
  change (([] : list (ptr * (Z * A))).*2) with ([] : list (Z * A)) in *.
  rewrite spec_run_app in E, Hns. set (out := (spec_run _ []).2) in *.
  assert (Hl : length kxs = length out) by (by rewrite (Permutation_length H2)).
  rewrite Hl, spec_drain in Hns. rewrite Hl, spec_drain, <- Hl, H0 in E.
  exists h, l, out. split; [exact E|]. split; [|done]. apply fmap_nil_inv in Hns. by subst ns.
Qed.
End Client.
Arguments list_op : clear implicits.
