(* ===== verification/BitMap.v ===== *)
(** * Bitmaps (src/code/userprog/bitmap.h, bitmap.cc)

    An array of 32-bit words addressed bit by bit, and the proof that its operations
    are those of a set of numbers below [numBits]. *)
From S2P Require Import Prelude Words.

Definition BitsInWord : Z := 32.

(** class BitMap *)
Record BitMap := mkBitMap { numBits : Z; numWords : Z; map : list Z }.

(** [1 << k] as the unsigned operand of [|] and [&]. *)
Definition bit_mask (k : Z) : Z := uint32 (int32 (Z.shiftl 1 k)).

Definition word_of (which : Z) : Z := Z.quot which BitsInWord.
Definition pos_of (which : Z) : Z := Z.rem which BitsInWord.

Definition in_range (which : Z) (bm : BitMap) : bool :=
  (which >=? 0) && (which <? numBits bm).

Definition Mark (which : Z) : ST BitMap unit := λ bm,
  let? _ := ASSERT (in_range which bm) in
  let? w := arr_get (map bm) (word_of which) in
  let? m := arr_set (map bm) (word_of which) (Z.lor w (bit_mask (pos_of which))) in
  Ok (tt, mkBitMap (numBits bm) (numWords bm) m).

Definition Clear (which : Z) : ST BitMap unit := λ bm,
  let? _ := ASSERT (in_range which bm) in
  let? w := arr_get (map bm) (word_of which) in
  let? m := arr_set (map bm) (word_of which)
              (Z.land w (uint32 (Z.lnot (int32 (Z.shiftl 1 (pos_of which)))))) in
  Ok (tt, mkBitMap (numBits bm) (numWords bm) m).

Definition Test (which : Z) (bm : BitMap) : res bool :=
  let? _ := ASSERT (in_range which bm) in
  let? w := arr_get (map bm) (word_of which) in
  Ok (negb (Z.land w (bit_mask (pos_of which)) =? 0)).

(** [garbage i] is what [new unsigned int[n]] left in word [i]. *)
Definition new_BitMap (garbage : nat → Z) (nitems : Z) : res BitMap :=
  let nw := divRoundUp nitems BitsInWord in
  if nw <? 0 then Fail Thrown
  else
    let bm := mkBitMap nitems nw ((λ i, uint32 (garbage i)) <$> seq 0 (Z.to_nat nw)) in
    let? r := st_for 0 nitems Clear bm in
    Ok r.2.

(** The loop of Find over the indices [l]. *)
Fixpoint Find_loop (l : list Z) : ST BitMap Z := λ bm,
  match l with
  | [] => Ok (-1, bm)
  | i :: l =>
      let? t := Test i bm in
      if negb t then let? r := Mark i bm in Ok (i, r.2)
      else Find_loop l bm
  end.

Definition Find : ST BitMap Z := λ bm, Find_loop (seqZ 0 (numBits bm)) bm.

(** The local [count] is the state of the loop. *)
Definition NumClear (bm : BitMap) : res Z :=
  let? r := st_for 0 (numBits bm) (λ i count,
              let? t := Test i bm in
              Ok (tt, if negb t then count + 1 else count)) 0 in
  Ok r.2.

(** The numbers Print writes. *)
Definition Print (bm : BitMap) : res (list Z) :=
  let? r := st_for 0 (numBits bm) (λ i out,
              let? t := Test i bm in
              Ok (tt, if t then out ++ [i] else out)) [] in
  Ok r.2.

(** ** The set a bitmap stands for *)

Definition wf (bm : BitMap) : Prop :=
  0 ≤ numBits bm ∧ numWords bm = divRoundUp (numBits bm) BitsInWord ∧
  length (map bm) = Z.to_nat (numWords bm) ∧ Forall is_uint32 (map bm).

Definition bit_at (m : list Z) (i : Z) : bool :=
  match m !! Z.to_nat (i / 32) with
  | Some w => Z.testbit w (i mod 32)
  | None => false
  end.

Definition marked (bm : BitMap) : gset Z :=
  list_to_set (filter (λ i, bit_at (map bm) i = true) (seqZ 0 (numBits bm))).

Lemma elem_of_marked bm i :
  i ∈ marked bm ↔ 0 ≤ i < numBits bm ∧ bit_at (map bm) i = true.
Proof.
  unfold marked. rewrite elem_of_list_to_set, list_elem_of_filter, elem_of_seqZ.
  split; intros [? ?]; split; try done; lia.
Qed.

(** ** Bits of words *)

Lemma bit_mask_testbit k j : 0 ≤ k < 32 → 0 ≤ j → Z.testbit (bit_mask k) j = (j =? k).
Proof.
  intros Hk Hj. unfold bit_mask. rewrite uint32_int32, Z.shiftl_1_l. unfold uint32.
  change 4294967296 with (2 ^ 32).
  rewrite Z.mod_small by (split; [lia | apply Z.pow_lt_mono_r; lia]).
  rewrite Z.pow2_bits_eqb by lia. apply Z.eqb_sym.
Qed.

Lemma clear_mask_testbit k j :
  0 ≤ k < 32 → 0 ≤ j < 32 →
  Z.testbit (uint32 (Z.lnot (int32 (Z.shiftl 1 k)))) j = negb (j =? k).
Proof.
  intros Hk Hj. unfold uint32. change 4294967296 with (2 ^ 32).
  rewrite Z.mod_pow2_bits_low, Z.lnot_spec by lia. f_equal.
  rewrite <- (Z.mod_pow2_bits_low _ 32) by lia. change (2 ^ 32) with 4294967296.
  fold (uint32 (int32 (Z.shiftl 1 k))). fold (bit_mask k). apply bit_mask_testbit; lia.
Qed.

Lemma land_mask_zero w k : 0 ≤ k < 32 → (Z.land w (bit_mask k) =? 0) = negb (Z.testbit w k).
Proof.
  intros Hk. destruct (Z.testbit w k) eqn:Hw; simpl.
  - apply Z.eqb_neq. intros H0. apply (f_equal (λ z, Z.testbit z k)) in H0.
    rewrite Z.land_spec, bit_mask_testbit, Hw, Z.eqb_refl, Z.bits_0 in H0 by lia. done.
  - apply Z.eqb_eq, Z.bits_inj'. intros j Hj.
    rewrite Z.land_spec, bit_mask_testbit, Z.bits_0 by lia.
    destruct (Z.eqb_spec j k); subst; [by rewrite Hw | by rewrite andb_false_r].
Qed.

(** A number with no bit above 31 is a 32-bit word. *)
Lemma is_uint32_bits w : 0 ≤ w → (∀ j, 32 ≤ j → Z.testbit w j = false) → is_uint32 w.
Proof.
  intros Hw Hb. split; [done|]. change 4294967296 with (2 ^ 32).
  assert (w = w mod 2 ^ 32) as ->; [|by apply Z.mod_pos_bound].
  apply Z.bits_inj'. intros j Hj. destruct (decide (j < 32)).
  - by rewrite Z.mod_pow2_bits_low by lia.
  - rewrite Z.mod_pow2_bits_high, Hb by lia. done.
Qed.

Lemma is_uint32_high w j : is_uint32 w → 32 ≤ j → Z.testbit w j = false.
Proof.
  intros Hw Hj. rewrite <- (Z.mod_small w (2 ^ 32)) by apply Hw.
  apply Z.mod_pow2_bits_high. lia.
Qed.

Lemma is_uint32_lor a b : is_uint32 a → is_uint32 b → is_uint32 (Z.lor a b).
Proof.
  intros Ha Hb. apply is_uint32_bits.
  - apply Z.lor_nonneg. unfold is_uint32 in *; lia.
  - intros j Hj. rewrite Z.lor_spec, !is_uint32_high by done. done.
Qed.

Lemma is_uint32_land a b : is_uint32 a → is_uint32 b → is_uint32 (Z.land a b).
Proof.
  intros Ha Hb. apply is_uint32_bits.
  - apply Z.land_nonneg. unfold is_uint32 in *; lia.
  - intros j Hj. rewrite Z.land_spec, !is_uint32_high by done. done.
Qed.

(** ** The operations on well-formed bitmaps *)
Section Operations.
Implicit Types (bm : BitMap).

Lemma word_of_in bm which :
  wf bm → 0 ≤ which < numBits bm →
  word_of which = which / 32 ∧ pos_of which = which mod 32 ∧
  0 ≤ which / 32 < Z.of_nat (length (map bm)).
Proof.
  intros (Hn & Hw & Hl & _) Hi. unfold word_of, pos_of, BitsInWord in *.
  rewrite Z.quot_div_nonneg, Z.rem_mod_nonneg by lia.
  rewrite divRoundUp_nonneg in Hw by lia.
  assert (0 ≤ which / 32 < numWords bm); [|lia].
  rewrite Hw. split; [apply Z.div_pos; lia|].
  pose proof (Z.div_mod which 32). pose proof (Z.mod_pos_bound which 32).
  pose proof (Z.div_mod (numBits bm + 32 - 1) 32).
  pose proof (Z.mod_pos_bound (numBits bm + 32 - 1) 32). lia.
Qed.

Lemma in_range_true bm i : in_range i bm = true ↔ 0 ≤ i < numBits bm.
Proof. unfold in_range. rewrite andb_true_iff, Z.geb_le, Z.ltb_lt. done. Qed.

Lemma same_slot i j : 0 ≤ i → 0 ≤ j → i / 32 = j / 32 → i mod 32 = j mod 32 → i = j.
Proof. intros. pose proof (Z.div_mod i 32). pose proof (Z.div_mod j 32). lia. Qed.

(** Writing one word changes only the bits of that word. *)
Lemma bit_at_insert m i w j :
  0 ≤ i → 0 ≤ j → i / 32 < Z.of_nat (length m) →
  bit_at (<[Z.to_nat (i / 32) := w]> m) j =
    if decide (j / 32 = i / 32) then Z.testbit w (j mod 32) else bit_at m j.
Proof.
  intros Hi Hj Hl. unfold bit_at.
  pose proof (Z.div_pos i 32). pose proof (Z.div_pos j 32). case_decide as Heq.
  - rewrite Heq, list_lookup_insert_eq by lia. done.
  - rewrite list_lookup_insert_ne by lia. done.
Qed.

(** An update of the word of bit [i] that sets bit [i] to [b] and keeps the rest. *)
Lemma update_bit bm i w w' b :
  wf bm → 0 ≤ i < numBits bm →
  map bm !! Z.to_nat (i / 32) = Some w → is_uint32 w' →
  (∀ j, 0 ≤ j < 32 → Z.testbit w' j = if j =? i mod 32 then b else Z.testbit w j) →
  let bm' := mkBitMap (numBits bm) (numWords bm) (<[Z.to_nat (i / 32) := w']> (map bm)) in
  wf bm' ∧ ∀ j, 0 ≤ j → bit_at (map bm') j = if j =? i then b else bit_at (map bm) j.
Proof.
  intros Hwf Hi Hw Hw' Hb bm'. pose proof (word_of_in _ _ Hwf Hi) as (_ & _ & Hlen).
  destruct Hwf as (Hn & Hnw & Hl & Hf). split.
  - repeat split; simpl; [done | done | by rewrite length_insert |].
    by apply Forall_insert.
  - intros j Hj. simpl. rewrite bit_at_insert by lia.
    pose proof (Z.mod_pos_bound j 32 ltac:(lia)).
    destruct (decide (j / 32 = i / 32)) as [Heq|Hne].
    + rewrite Hb by done. destruct (Z.eqb_spec (j mod 32) (i mod 32)) as [Hm|Hm].
      * rewrite (same_slot j i) by (try done; lia). by rewrite Z.eqb_refl.
      * rewrite (proj2 (Z.eqb_neq j i)) by congruence. unfold bit_at. by rewrite Heq, Hw.
    + rewrite (proj2 (Z.eqb_neq j i)) by congruence. done.
Qed.

Lemma word_at bm i :
  wf bm → 0 ≤ i < numBits bm →
  ∃ w, arr_get (map bm) (word_of i) = Ok w ∧ map bm !! Z.to_nat (i / 32) = Some w ∧
       is_uint32 w.
Proof.
  intros Hwf Hi. destruct (word_of_in _ _ Hwf Hi) as (-> & _ & Hlen).
  destruct (arr_get_in _ _ Hlen) as (w & Hg & Hw). exists w. repeat split; try done.
  all: destruct Hwf as (_ & _ & _ & Hf); by apply (Forall_lookup_1 _ _ _ _ Hf Hw).
Qed.

Lemma Test_bit bm i :
  wf bm → 0 ≤ i < numBits bm → Test i bm = Ok (bit_at (map bm) i).
Proof.
  intros Hwf Hi. unfold Test. rewrite (proj2 (in_range_true bm i)) by done. simpl.
  destruct (word_at _ _ Hwf Hi) as (w & -> & Hw & _).
  destruct (word_of_in _ _ Hwf Hi) as (_ & -> & _). simpl.
  rewrite land_mask_zero by (apply Z.mod_pos_bound; lia).
  rewrite negb_involutive. unfold bit_at. by rewrite Hw.
Qed.

Lemma Test_marked bm i :
  wf bm → 0 ≤ i < numBits bm → Test i bm = Ok (bool_decide (i ∈ marked bm)).
Proof.
  intros Hwf Hi. rewrite Test_bit by done. f_equal. symmetry.
  destruct (bit_at (map bm) i) eqn:Hb.
  - apply bool_decide_true, elem_of_marked. done.
  - apply bool_decide_false. rewrite elem_of_marked. intros [_ ?]. congruence.
Qed.

Lemma marked_update bm bm' i b :
  numBits bm' = numBits bm → 0 ≤ i < numBits bm →
  (∀ j, 0 ≤ j → bit_at (map bm') j = if j =? i then b else bit_at (map bm) j) →
  marked bm' = if b then {[i]} ∪ marked bm else marked bm ∖ {[i]}.
Proof.
  intros Hn Hi Hb. apply set_eq. intros j. rewrite elem_of_marked, Hn.
  assert (Hj : 0 ≤ j < numBits bm ∧ bit_at (map bm') j = true ↔
    (j = i ∧ b = true) ∨ (j ≠ i ∧ j ∈ marked bm)).
  { rewrite elem_of_marked. split.
    - intros [Hr Hbj]. rewrite Hb in Hbj by lia. destruct (Z.eqb_spec j i); naive_solver.
    - intros [[-> ->] | (Hne & Hr & Hbj)]; (split; [lia|]); rewrite Hb by lia.
      + by rewrite Z.eqb_refl.
      + by rewrite (proj2 (Z.eqb_neq j i)). }
  rewrite Hj. destruct b; [|set_solver].
  destruct (decide (j = i)); set_solver.
Qed.

Lemma Mark_ok bm i :
  wf bm → 0 ≤ i < numBits bm →
  ∃ bm', Mark i bm = Ok (tt, bm') ∧ wf bm' ∧ numBits bm' = numBits bm ∧
    marked bm' = {[i]} ∪ marked bm.
Proof.
  intros Hwf Hi. unfold Mark. rewrite (proj2 (in_range_true bm i)) by done. simpl.
  destruct (word_at _ _ Hwf Hi) as (w & -> & Hw & Hu). simpl.
  destruct (word_of_in _ _ Hwf Hi) as (-> & -> & Hlen). rewrite arr_set_in by done. simpl.
  pose proof (Z.mod_pos_bound i 32 ltac:(lia)) as Hk.
  destruct (update_bit bm i w (Z.lor w (bit_mask (i mod 32))) true Hwf Hi Hw) as [H1 H2].
  - apply is_uint32_lor; [done | apply uint32_range].
  - intros j Hj. rewrite Z.lor_spec, bit_mask_testbit by lia.
    destruct (j =? i mod 32); by rewrite ?orb_true_r, ?orb_false_r.
  - eexists. repeat split; try apply H1; try done.
    by apply (marked_update bm _ i true).
Qed.

Lemma Clear_ok bm i :
  wf bm → 0 ≤ i < numBits bm →
  ∃ bm', Clear i bm = Ok (tt, bm') ∧ wf bm' ∧ numBits bm' = numBits bm ∧
    marked bm' = marked bm ∖ {[i]}.
Proof.
  intros Hwf Hi. unfold Clear. rewrite (proj2 (in_range_true bm i)) by done. simpl.
  destruct (word_at _ _ Hwf Hi) as (w & -> & Hw & Hu). simpl.
  destruct (word_of_in _ _ Hwf Hi) as (-> & -> & Hlen). rewrite arr_set_in by done. simpl.
  pose proof (Z.mod_pos_bound i 32 ltac:(lia)) as Hk.
  match goal with |- context [Z.land w ?m] =>
    destruct (update_bit bm i w (Z.land w m) false Hwf Hi Hw) as [H1 H2] end.
  - apply is_uint32_land; [done | apply uint32_range].
  - intros j Hj. rewrite Z.land_spec, clear_mask_testbit by lia.
    destruct (j =? i mod 32); simpl; by rewrite ?andb_true_r, ?andb_false_r.
  - eexists. repeat split; try apply H1; try done.
    by apply (marked_update bm _ i false).
Qed.

(** Out of range every access is a failed assertion. *)
Lemma out_of_range_asserts bm i :
  ¬ (0 ≤ i < numBits bm) →
  Mark i bm = Fail AssertFailure ∧ Clear i bm = Fail AssertFailure ∧
  Test i bm = Fail AssertFailure.
Proof.
  intros Hi. assert (in_range i bm = false) as H.
  { destruct (in_range i bm) eqn:E; [|done]. by apply in_range_true in E. }
  unfold Mark, Clear, Test. by rewrite H.
Qed.

Lemma new_BitMap_ok garbage n :
  0 ≤ n → ∃ bm, new_BitMap garbage n = Ok bm ∧ wf bm ∧ numBits bm = n ∧ marked bm = ∅.
Proof.
  intros Hn. unfold new_BitMap.
  assert (0 ≤ divRoundUp n BitsInWord) as Hw.
  { unfold BitsInWord. rewrite divRoundUp_nonneg by lia. apply Z.div_pos; lia. }
  rewrite (proj2 (Z.ltb_ge _ _)) by done.
  match goal with |- context [st_for _ _ _ ?b] => set (bm0 := b) end.
  assert (Hwf0 : wf bm0).
  { repeat split; simpl; try done.
    - by rewrite length_fmap, length_seq.
    - apply Forall_fmap, Forall_forall. intros. apply uint32_range. }
  destruct (st_for_inv (λ i bm, wf bm ∧ numBits bm = n ∧ ∀ j, j ∈ marked bm → i ≤ j)
              0 n Clear bm0) as (bm & -> & Hwf & Hnb & Hm).
  - lia.
  - split; [done|]. split; [done|]. intros j Hj. apply elem_of_marked in Hj. lia.
  - intros i bm Hi (Hwf & Hnb & Hm).
    destruct (Clear_ok bm i Hwf) as (bm' & -> & Hwf' & Hnb' & Hm'); [lia|].
    eexists. split; [done|]. split; [done|]. split; [lia|]. intros j Hj.
    rewrite Hm' in Hj. apply elem_of_difference in Hj as [Hj Hne].
    rewrite elem_of_singleton in Hne. pose proof (Hm j Hj). lia.
  - exists bm. repeat split; try done; try apply Hwf. apply set_eq. intros j. split.
    + intros Hj. pose proof (Hm j Hj). apply elem_of_marked in Hj. lia.
    + set_solver.
Qed.
End Operations.

Section Searching.
Implicit Types (bm : BitMap).

Lemma Find_loop_ok bm lo n :
  wf bm → 0 ≤ lo → lo + n ≤ numBits bm → 0 ≤ n →
  (∃ i bm', Find_loop (seqZ lo n) bm = Ok (i, bm') ∧ lo ≤ i < lo + n ∧ i ∉ marked bm ∧
     (∀ j, lo ≤ j < i → j ∈ marked bm) ∧
     wf bm' ∧ numBits bm' = numBits bm ∧ marked bm' = {[i]} ∪ marked bm) ∨
  (Find_loop (seqZ lo n) bm = Ok (-1, bm) ∧ ∀ j, lo ≤ j < lo + n → j ∈ marked bm).
Proof.
  intros Hwf Hlo Hn Hpos. remember (Z.to_nat n) as k eqn:Hk.
  revert lo n Hlo Hn Hpos Hk. induction k as [|k IH]; intros lo n Hlo Hn Hpos Hk.
  { right. rewrite seqZ_nil by lia. simpl. split; [done | lia]. }
  rewrite seqZ_cons by lia. simpl. rewrite Test_marked by (try done; lia). simpl.
  case_bool_decide as Hm; simpl.
  - destruct (IH (Z.succ lo) (Z.pred n)) as [(i & bm' & H1 & Hi & Hni & Hj & H)|(H1 & Hj)]; try lia.
    + left. exists i, bm'. repeat split; try done; try lia; try apply H.
      intros j Hij. destruct (decide (j = lo)); [by subst | apply Hj; lia].
    + right. split; [done|]. intros j Hij.
      destruct (decide (j = lo)); [by subst | apply Hj; lia].
  - left. destruct (Mark_ok bm lo Hwf) as (bm' & -> & Hwf' & Hnb & Hm'); [lia|].
    exists lo, bm'. simpl. repeat split; try done; try lia; try apply Hwf'.
Qed.

(** Find: the lowest free number, which it marks; or -1 when there is none. *)
Lemma Find_ok bm :
  wf bm →
  (∃ i bm', Find bm = Ok (i, bm') ∧ 0 ≤ i < numBits bm ∧ i ∉ marked bm ∧
     (∀ j, 0 ≤ j < i → j ∈ marked bm) ∧
     wf bm' ∧ numBits bm' = numBits bm ∧ marked bm' = {[i]} ∪ marked bm) ∨
  (Find bm = Ok (-1, bm) ∧ ∀ j, 0 ≤ j < numBits bm → j ∈ marked bm).
Proof.
  intros Hwf. apply (Find_loop_ok bm 0 (numBits bm)); try done; try lia.
  apply Hwf.
Qed.

(** The numbers a bitmap has clear. *)
Definition free bm : gset Z := list_to_set (seqZ 0 (numBits bm)) ∖ marked bm.

Lemma elem_of_free bm i : i ∈ free bm ↔ 0 ≤ i < numBits bm ∧ i ∉ marked bm.
Proof.
  unfold free. rewrite elem_of_difference, elem_of_list_to_set, elem_of_seqZ.
  split; intros [? ?]; split; try done; lia.
Qed.

Lemma size_free bm :
  size (free bm) = length (filter (λ j, j ∉ marked bm) (seqZ 0 (numBits bm))).
Proof.
  rewrite <- (size_list_to_set (C := gset Z)) by apply NoDup_filter, NoDup_seqZ.
  f_equal. apply set_eq. intros i.
  rewrite elem_of_free, elem_of_list_to_set, list_elem_of_filter, elem_of_seqZ.
  split; intros [? ?]; split; try done; lia.
Qed.

(** The local [count] after the indices below [i]. *)
Definition count_below bm (i : Z) : Z :=
  Z.of_nat (length (filter (λ j, j ∉ marked bm) (seqZ 0 i))).

Lemma count_below_step bm i :
  0 ≤ i → count_below bm (i + 1) =
    (if bool_decide (i ∈ marked bm) then count_below bm i else count_below bm i + 1).
Proof.
  intros Hi. unfold count_below.
  rewrite seqZ_snoc, filter_app, filter_cons, filter_nil by done.
  change (0 + i) with i. case_bool_decide as Hm.
  - rewrite decide_False by tauto. by rewrite app_nil_r.
  - rewrite decide_True by done. rewrite length_app. simpl. lia.
Qed.

Lemma NumClear_ok bm : wf bm → NumClear bm = Ok (Z.of_nat (size (free bm))).
Proof.
  intros Hwf. unfold NumClear. rewrite size_free. fold (count_below bm (numBits bm)).
  match goal with |- context [st_for _ _ ?b _] =>
    destruct (st_for_inv (λ i c, c = count_below bm i) 0 (numBits bm) b 0)
      as (s & -> & ->) end; [apply Hwf | done | | done].
  intros i c Hi ->. rewrite Test_marked by (try done; lia). simpl.
  eexists. split; [done|]. rewrite count_below_step by lia.
  by case_bool_decide.
Qed.

(** Print writes the marked numbers in increasing order. *)
Lemma Print_ok bm :
  wf bm → Print bm = Ok (filter (λ i, i ∈ marked bm) (seqZ 0 (numBits bm))).
Proof.
  intros Hwf. unfold Print.
  match goal with |- context [st_for _ _ ?b _] =>
    destruct (st_for_inv (λ i out, out = filter (λ i, i ∈ marked bm) (seqZ 0 i))
                0 (numBits bm) b []) as (s & -> & ->) end;
    [apply Hwf | done | | done].
  intros i out Hi ->. rewrite Test_marked by (try done; lia). simpl.
  eexists. split; [done|].
  rewrite seqZ_snoc, filter_app, filter_cons, filter_nil by lia. change (0 + i) with i.
  case_bool_decide.
  - by rewrite decide_True.
  - rewrite decide_False by done. by rewrite app_nil_r.
Qed.

Lemma size_free_mark bm bm' i :
  numBits bm' = numBits bm → i ∈ free bm → marked bm' = {[i]} ∪ marked bm →
  (size (free bm') = size (free bm) - 1)%nat ∧ free bm' = free bm ∖ {[i]}.
Proof.
  intros Hn Hi Hm.
  assert (free bm' = free bm ∖ {[i]}) as E.
  { unfold free. rewrite Hn, Hm. set_solver. }
  split; [|done]. rewrite E, size_difference by set_solver.
  by rewrite size_singleton.
Qed.
End Searching.

(** ** The bytes of the map, as transferred to and from a file *)
Section Bytes.
Implicit Types (bm : BitMap).

Definition map_bytes bm : list Z := ints_bytes (map bm).

(** Overwrite the first bytes of [map] with [data]. *)
Definition load_bytes (data : list Z) bm : BitMap :=
  mkBitMap (numBits bm) (numWords bm)
    (bytes_uints (length (map bm)) (splice (map_bytes bm) 0 data)).

Lemma length_map_bytes bm : wf bm → Z.of_nat (length (map_bytes bm)) = numWords bm * 4.
Proof.
  intros (Hn & Hw & Hl & _). unfold map_bytes. rewrite length_ints_bytes, Hl.
  assert (0 ≤ numWords bm); [|lia].
  rewrite Hw. unfold BitsInWord. rewrite divRoundUp_nonneg by lia. apply Z.div_pos; lia.
Qed.

Lemma load_map_bytes bm bm' :
  wf bm → wf bm' → numBits bm' = numBits bm → load_bytes (map_bytes bm) bm' = bm.
Proof.
  intros Hwf Hwf' Hn.
  assert (numWords bm' = numWords bm) as Hw.
  { destruct Hwf as (_ & -> & _), Hwf' as (_ & -> & _). by rewrite Hn. }
  assert (length (map bm') = length (map bm)) as Hl.
  { destruct Hwf as (_ & _ & -> & _), Hwf' as (_ & _ & -> & _). by rewrite Hw. }
  unfold load_bytes. rewrite splice_all, Hn, Hw, Hl.
  - rewrite <- (app_nil_r (map_bytes bm)). unfold map_bytes.
    rewrite bytes_uints_bytes by apply Hwf. by destruct bm.
  - unfold map_bytes. rewrite !length_ints_bytes. lia.
Qed.

Lemma map_bytes_range bm : Forall is_byte (map_bytes bm).
Proof.
  unfold map_bytes, ints_bytes. apply Forall_forall. intros b Hb.
  apply list_elem_of_bind in Hb as (z & Hb & _).
  by apply (proj1 (Forall_forall _ _) (le_bytes_range 4 z)).
Qed.
End Bytes.

(** ** Properties *)
Section Properties.
Implicit Types (bm : BitMap).

(** A client's requests on a bitmap of [n] bits. *)
Inductive bm_op := OpMark (i : Z) | OpClear (i : Z) | OpTest (i : Z) | OpFind | OpNumClear.

Definition bm_step (o : bm_op) : ST BitMap Z := λ bm,
  match o with
  | OpMark i => let? r := Mark i bm in Ok (0, r.2)
  | OpClear i => let? r := Clear i bm in Ok (0, r.2)
  | OpTest i => let? b := Test i bm in Ok (Z.b2z b, bm)
  | OpFind => Find bm
  | OpNumClear => let? c := NumClear bm in Ok (c, bm)
  end.

Fixpoint bm_run (os : list bm_op) : ST BitMap (list Z) := λ bm,
  match os with
  | [] => Ok ([], bm)
  | o :: os =>
      let? r := bm_step o bm in
      let? rs := bm_run os r.2 in
      Ok (r.1 :: rs.1, rs.2)
  end.

(** The same requests on the set of marked numbers below [n]. *)
Definition set_step (n : Z) (o : bm_op) (X : gset Z) : res (Z * gset Z) :=
  let inside i := (0 <=? i) && (i <? n) in
  match o with
  | OpMark i => let? _ := ASSERT (inside i) in Ok (0, {[i]} ∪ X)
  | OpClear i => let? _ := ASSERT (inside i) in Ok (0, X ∖ {[i]})
  | OpTest i => let? _ := ASSERT (inside i) in Ok (Z.b2z (bool_decide (i ∈ X)), X)
  | OpFind =>
      match filter (λ i, i ∉ X) (seqZ 0 n) with
      | [] => Ok (-1, X)
      | i :: _ => Ok (i, {[i]} ∪ X)
      end
  | OpNumClear => Ok (Z.of_nat (length (filter (λ i, i ∉ X) (seqZ 0 n))), X)
  end.

Fixpoint set_run (n : Z) (os : list bm_op) (X : gset Z) : res (list Z * gset Z) :=
  match os with
  | [] => Ok ([], X)
  | o :: os =>
      let? r := set_step n o X in
      let? rs := set_run n os r.2 in
      Ok (r.1 :: rs.1, rs.2)
  end.

(** The outcome of the detailed run, seen through [marked]. *)
Definition matches {A} (n : Z) (r : res (A * BitMap)) (s : res (A * gset Z)) : Prop :=
  match r, s with
  | Ok (a, bm), Ok (b, X) => a = b ∧ wf bm ∧ numBits bm = n ∧ marked bm = X
  | Fail f, Fail g => f = g
  | _, _ => False
  end.

Lemma in_range_inside bm i : in_range i bm = (0 <=? i) && (i <? numBits bm).
Proof. unfold in_range. by rewrite Z.geb_leb. Qed.

Lemma head_filter_seqZ (P : Z → Prop) `{!∀ i, Decision (P i)} n i :
  0 ≤ i < n → P i → (∀ j, 0 ≤ j < i → ¬ P j) → ∃ t, filter P (seqZ 0 n) = i :: t.
Proof.
  intros Hi HP Hlt. replace n with (i + (n - i)) by lia. rewrite seqZ_app by lia.
  rewrite filter_app. assert (filter P (seqZ 0 i) = []) as ->.
  { apply filter_none. intros j Hj. apply elem_of_seqZ in Hj.
    apply Hlt. lia. }
  rewrite (seqZ_cons (0 + i)) by lia. rewrite filter_cons_True by done.
  simpl. eauto.
Qed.

Lemma bm_step_matches o bm :
  wf bm → matches (numBits bm) (bm_step o bm) (set_step (numBits bm) o (marked bm)).
Proof.
  intros Hwf. destruct o as [i|i|i| |]; simpl; rewrite <- ?in_range_inside.
  - destruct (in_range i bm) eqn:Hr; [|unfold Mark; by rewrite Hr].
    apply in_range_true in Hr. destruct (Mark_ok _ _ Hwf Hr) as (bm' & -> & ?). simpl. tauto.
  - destruct (in_range i bm) eqn:Hr; [|unfold Clear; by rewrite Hr].
    apply in_range_true in Hr. destruct (Clear_ok _ _ Hwf Hr) as (bm' & -> & ?). simpl. tauto.
  - destruct (in_range i bm) eqn:Hr; [|unfold Test; by rewrite Hr].
    apply in_range_true in Hr. rewrite Test_marked by done. done.
  - destruct (Find_ok _ Hwf) as [(i & bm' & -> & Hi & Hni & Hlt & ? & ? & ?) | [-> Hall]].
    + destruct (head_filter_seqZ (λ j, j ∉ marked bm) (numBits bm) i) as [t ->];
        try done. { intros j Hj. specialize (Hlt j Hj). tauto. }
    + assert (filter (λ j, j ∉ marked bm) (seqZ 0 (numBits bm)) = []) as ->; [|done].
      apply filter_none. intros j Hj. apply elem_of_seqZ in Hj.
      specialize (Hall j). intros Hn. apply Hn, Hall. lia.
  - rewrite NumClear_ok by done. simpl. by rewrite size_free.
Qed.

(** C27. From construction on, a bitmap of [n] bits answers every sequence of
    Mark, Clear, Test, Find and NumClear as a set of numbers below [n] would: Find
    returns and marks the least free number or returns -1 with nothing changed,
    NumClear counts the free numbers, and a number out of range stops the run with
    a failed assertion at the same request. The words the allocation left in the
    map do not show. *)
Theorem BitMap_refines_set (garbage : nat → Z) (n : Z) (os : list bm_op) :
  0 ≤ n →
  matches n (let? bm := new_BitMap garbage n in bm_run os bm) (set_run n os ∅).
Proof.
  intros Hn. destruct (new_BitMap_ok garbage n Hn) as (bm & -> & Hwf & <- & <-). simpl.
  clear Hn. revert bm Hwf. induction os as [|o os IH]; intros bm Hwf; simpl; [done|].
  pose proof (bm_step_matches o bm Hwf) as H. unfold matches in H at 1.
  destruct (bm_step o bm) as [[a bm']|f], (set_step (numBits bm) o (marked bm)) as [[b X]|g];
    try done; simpl in *.
  destruct H as (-> & Hwf' & <- & <-). specialize (IH bm' Hwf').
  destruct (bm_run os bm') as [[? ?]|?], (set_run (numBits bm') os (marked bm')) as [[? ?]|?];
    simpl in *; naive_solver.
Qed.

Lemma BitMap_refines_set_witness :
  0 ≤ 70 ∧ matches 70 (let? bm := new_BitMap (λ _, 4294967295) 70 in
                        bm_run [OpFind; OpMark 33; OpFind; OpTest 33; OpClear 0; OpFind;
                                OpNumClear; OpMark 70] bm)
             (set_run 70 [OpFind; OpMark 33; OpFind; OpTest 33; OpClear 0; OpFind;
                          OpNumClear; OpMark 70] ∅).
Proof. split; [lia | apply (BitMap_refines_set (λ _, 4294967295) 70)]; lia. Defined.
End Properties.
