(* ===== verification/SectorIO.v ===== *)
(** * The interface between the file system and the synchronous disk

    What src/code/filesys/filehdr.cc, openfile.cc and filesys.cc use of the global
    [synchDisk]: reading and writing one whole sector. A [SectorDevice] promises
    that a sector reads as what was last written to it and that nothing else moves.
    The file system is proved against this class; SynchDisk.v discharges it from the
    simulated disk, its interrupts and the semaphore and lock of synchdisk.cc. *)
From S2P Require Import Prelude Words.

(** disk.h *)
Definition SectorSize : Z := 128.
Definition SectorsPerTrack : Z := 32.
Definition NumTracks : Z := 32.
Definition NumSectors : Z := SectorsPerTrack * NumTracks.

Definition valid_sector (n : Z) : Prop := 0 ≤ n < NumSectors.

Class SectorDevice (W : Type) := {
  ReadSector : Z → ST W (list Z);
  WriteSector : Z → list Z → ST W unit;
  (** what sector [n] holds, and the states in which requests may be issued *)
  sector : W → Z → list Z;
  ready : W → Prop;
  sector_length w n : ready w → valid_sector n → length (sector w n) = Z.to_nat SectorSize;
  ReadSector_ok w n :
    ready w → valid_sector n →
    ∃ w', ReadSector n w = Ok (sector w n, w') ∧ ready w' ∧ ∀ m, sector w' m = sector w m;
  WriteSector_ok w n d :
    ready w → valid_sector n → length d = Z.to_nat SectorSize →
    ∃ w', WriteSector n d w = Ok (tt, w') ∧ ready w' ∧
      ∀ m, sector w' m = if decide (m = n) then d else sector w m;
}.

(** Two device states that hold the same data. *)
Definition same_disk {W} `{SectorDevice W} (w w' : W) : Prop := ∀ m, sector w' m = sector w m.

#[export] Instance same_disk_equiv {W} `{SectorDevice W} : Equivalence (same_disk (W := W)).
Proof.
  split.
  - intros w m. done.
  - intros w w' Hs m. by rewrite Hs.
  - intros w1 w2 w3 H12 H23 m. by rewrite H23, H12.
Qed.

(** ** A device that is just its sectors *)

Definition mem_read (n : Z) : ST (list (list Z)) (list Z) := λ w,
  let? d := arr_get w n in Ok (d, w).
Definition mem_write (n : Z) (d : list Z) : ST (list (list Z)) unit := λ w,
  let? w := arr_set w n d in Ok (tt, w).
Definition mem_sector (w : list (list Z)) (n : Z) : list Z :=
  if decide (0 ≤ n) then default [] (w !! Z.to_nat n) else [].
Definition mem_ready (w : list (list Z)) : Prop :=
  length w = Z.to_nat NumSectors ∧ Forall (λ d, length d = Z.to_nat SectorSize) w.

(** A blank one. *)
Definition mem_blank : list (list Z) := replicate (Z.to_nat NumSectors) (replicate 128 0).

#[export] Program Instance mem_device : SectorDevice (list (list Z)) := {
  ReadSector := mem_read;
  WriteSector := mem_write;
  sector := mem_sector;
  ready := mem_ready;
}.
Next Obligation.
  intros w n (Hl & Hf) Hn. unfold valid_sector in Hn. unfold mem_sector.
  rewrite decide_True by lia.
  destruct (lookup_lt_is_Some_2 w (Z.to_nat n)) as [d Hd]; [lia|].
  rewrite Hd. simpl. by apply (Forall_lookup_1 _ _ _ _ Hf Hd).
Qed.
Next Obligation.
  intros w n Hr Hn. unfold valid_sector in Hn. destruct Hr as (Hl & Hf) eqn:E.
  unfold mem_read, mem_sector. destruct (arr_get_in w n) as (d & -> & Hd); [lia|].
  exists w. rewrite decide_True, Hd by lia. done.
Qed.
Next Obligation.
  intros w n d (Hl & Hf) Hn Hd. unfold valid_sector in Hn. unfold mem_write.
  rewrite arr_set_in by lia. simpl. eexists. split; [done|]. split.
  - split; [by rewrite length_insert | by apply Forall_insert].
  - intros m. unfold mem_sector. case_decide as Hm.
    + case_decide as Heq.
      * subst. by rewrite list_lookup_insert_eq by lia.
      * by rewrite list_lookup_insert_ne by lia.
    + rewrite decide_False by lia. done.
Qed.

Lemma mem_blank_ready : ready mem_blank.
Proof. split; [by vm_compute|]. apply Forall_replicate. by vm_compute. Qed.
