(* ===== verification/FileHdr.v ===== *)
(** * File headers (src/code/filesys/filehdr.h, filehdr.cc)

    The i-node of a file: its length and the table of its data sectors, how space is
    allocated to it from the free map, and its image in one disk sector. *)
From S2P Require Import Prelude Words BitMap SectorIO.

(** filehdr.h: [(SectorSize - 2 * sizeof(int)) / sizeof(int)] *)
Definition NumDirect : Z := (SectorSize - 2 * 4) / 4.
Definition MaxFileSize : Z := NumDirect * SectorSize.

(** class FileHeader *)
Record FileHeader := mkFileHeader {
  numBytes : Z;
  numSectors : Z;
  dataSectors : list Z
}.

(** [new FileHeader]: no constructor, the members hold what the memory held. *)
Definition new_FileHeader (garbage : nat → Z) : FileHeader :=
  mkFileHeader (int32 (garbage 0%nat)) (int32 (garbage 1%nat))
    ((λ i, int32 (garbage (2 + i)%nat)) <$> seq 0 (Z.to_nat NumDirect)).

(** The object as the bytes of a sector, and back. *)
Definition hdr_bytes (h : FileHeader) : list Z :=
  ints_bytes (numBytes h :: numSectors h :: dataSectors h).
Definition hdr_of_bytes (bs : list Z) : FileHeader :=
  match bytes_ints (2 + Z.to_nat NumDirect) bs with
  | nb :: ns :: ds => mkFileHeader nb ns ds
  | _ => mkFileHeader 0 0 []
  end.

(** The header and the free map are threaded together. *)
Definition Allocate (fileSize : Z) : ST (FileHeader * BitMap) bool := λ s,
  let '(h, freeMap) := s in
  let h := mkFileHeader fileSize (divRoundUp fileSize SectorSize) (dataSectors h) in
  let? nc := NumClear freeMap in
  if nc <? numSectors h then Ok (false, (h, freeMap))
  else
    let? r := st_for 0 (numSectors h) (λ i s,
      let '(h, freeMap) := s in
      let? f := Find freeMap in
      let? ds := arr_set (dataSectors h) i f.1 in
      Ok (tt, (mkFileHeader (numBytes h) (numSectors h) ds, f.2))) (h, freeMap) in
    Ok (true, r.2).

Definition Deallocate (h : FileHeader) : ST BitMap unit := λ freeMap,
  st_for 0 (numSectors h) (λ i freeMap,
    let? s := arr_get (dataSectors h) i in
    let? t := Test s freeMap in
    let? _ := ASSERT t in
    Clear s freeMap) freeMap.

Definition ByteToSector (offset : Z) (h : FileHeader) : res Z :=
  arr_get (dataSectors h) (Z.quot offset SectorSize).

Definition FileLength (h : FileHeader) : Z := numBytes h.

Section Device.
Context {W : Type} `{SectorDevice W}.

Definition Hdr_FetchFrom (sector : Z) : ST W FileHeader := λ w,
  let? r := ReadSector sector w in
  Ok (hdr_of_bytes r.1, r.2).

Definition Hdr_WriteBack (sector : Z) (h : FileHeader) : ST W unit :=
  WriteSector sector (hdr_bytes h).
End Device.

(** ** Facts *)

(** A header of the right shape for the file system: its sectors are in the table,
    on the disk and pairwise distinct. *)
Definition hdr_sectors (h : FileHeader) : list Z :=
  take (Z.to_nat (numSectors h)) (dataSectors h).

Record hdr_wf (h : FileHeader) : Prop := {
  hdr_len : 0 ≤ numBytes h;
  hdr_ns : numSectors h = divRoundUp (numBytes h) SectorSize;
  hdr_max : numSectors h ≤ NumDirect;
  hdr_table : length (dataSectors h) = Z.to_nat NumDirect;
  hdr_valid : Forall valid_sector (hdr_sectors h);
  hdr_nodup : NoDup (hdr_sectors h);
  hdr_ints : Forall is_int32 (dataSectors h)
}.

Lemma hdr_ns_nonneg h : hdr_wf h → 0 ≤ numSectors h.
Proof.
  intros [Hl -> _ _ _ _ _]. unfold SectorSize. rewrite divRoundUp_nonneg by lia.
  apply Z.div_pos; lia.
Qed.

Lemma length_hdr_sectors h : hdr_wf h → Z.of_nat (length (hdr_sectors h)) = numSectors h.
Proof.
  intros Hwf. pose proof (hdr_ns_nonneg _ Hwf). destruct Hwf as [_ _ Hm Ht _ _ _].
  unfold hdr_sectors. rewrite length_take, Ht. lia.
Qed.

(** The sectors hold the file, with less than a sector to spare. *)
Lemma hdr_bytes_fit h :
  hdr_wf h → numBytes h ≤ numSectors h * SectorSize < numBytes h + SectorSize.
Proof.
  intros [Hl -> _ _ _ _ _]. unfold SectorSize.
  rewrite divRoundUp_nonneg by lia.
  pose proof (Z.div_mod (numBytes h + 128 - 1) 128 ltac:(lia)).
  pose proof (Z.mod_pos_bound (numBytes h + 128 - 1) 128 ltac:(lia)). lia.
Qed.

Lemma hdr_max_bytes h : hdr_wf h → numBytes h ≤ MaxFileSize.
Proof.
  intros Hwf. pose proof (hdr_bytes_fit _ Hwf). destruct Hwf as [_ _ Hm _ _ _ _].
  unfold MaxFileSize, NumDirect, SectorSize in *. lia.
Qed.

Lemma ByteToSector_ok h i :
  hdr_wf h → 0 ≤ i < numSectors h →
  ∃ s, ByteToSector (i * SectorSize) h = Ok s ∧ hdr_sectors h !! Z.to_nat i = Some s ∧
       valid_sector s.
Proof.
  intros Hwf Hi. destruct Hwf as [_ _ Hm Ht Hv _ _].
  unfold ByteToSector. unfold SectorSize. rewrite Z.quot_mul by lia.
  destruct (arr_get_in (dataSectors h) i) as (s & -> & Hs); [lia|].
  exists s. assert (hdr_sectors h !! Z.to_nat i = Some s) as Hs'.
  { unfold hdr_sectors. by rewrite lookup_take_lt by lia. }
  repeat split; try done; by apply (Forall_lookup_1 _ _ _ _ Hv Hs').
Qed.

Lemma length_hdr_bytes h :
  length (dataSectors h) = Z.to_nat NumDirect → length (hdr_bytes h) = Z.to_nat SectorSize.
Proof. intros Hl. unfold hdr_bytes. rewrite length_ints_bytes. simpl. rewrite Hl. done. Qed.

(** What WriteBack stores, FetchFrom reads back. *)
Lemma hdr_of_hdr_bytes h :
  length (dataSectors h) = Z.to_nat NumDirect →
  is_int32 (numBytes h) → is_int32 (numSectors h) → Forall is_int32 (dataSectors h) →
  hdr_of_bytes (hdr_bytes h) = h.
Proof.
  intros Hl Hb Hs Hd. unfold hdr_of_bytes, hdr_bytes.
  rewrite <- (app_nil_r (ints_bytes _)).
  change (2 + Z.to_nat NumDirect)%nat with (S (S (Z.to_nat NumDirect))).
  rewrite <- Hl. change (S (S (length (dataSectors h))))
    with (length (numBytes h :: numSectors h :: dataSectors h)).
  rewrite bytes_ints_bytes by (constructor; [done | by constructor]). by destruct h.
Qed.

Lemma hdr_roundtrip h : hdr_wf h → hdr_of_bytes (hdr_bytes h) = h.
Proof.
  intros Hwf. pose proof (hdr_ns_nonneg _ Hwf). pose proof (hdr_max_bytes _ Hwf) as Hmb.
  destruct Hwf as [Hl Hn Hm Ht _ _ Hi].
  change MaxFileSize with 3840 in Hmb. change NumDirect with 30 in Hm.
  apply hdr_of_hdr_bytes; unfold is_int32; try done; lia.
Qed.

(** ** Allocation *)
Section Allocation.
Context (n : Z).

(** The header and the map in the middle of Allocate, [i] sectors handed out. *)
Record allocating (fileSize : Z) (fm0 : BitMap) (i : Z) (s : FileHeader * BitMap) : Prop := {
  al_bytes : numBytes s.1 = fileSize;
  al_ns : numSectors s.1 = divRoundUp fileSize SectorSize;
  al_table : length (dataSectors s.1) = Z.to_nat NumDirect;
  al_ints : Forall is_int32 (dataSectors s.1);
  al_wf : wf s.2;
  al_bits : numBits s.2 = n;
  al_nodup : NoDup (take (Z.to_nat i) (dataSectors s.1));
  al_free : Forall (λ x, x ∈ free fm0) (take (Z.to_nat i) (dataSectors s.1));
  al_marked : marked s.2 = marked fm0 ∪ list_to_set (take (Z.to_nat i) (dataSectors s.1));
  al_size : Z.of_nat (size (free s.2)) = Z.of_nat (size (free fm0)) - i
}.

Lemma take_insert_snoc {A} (l : list A) (i : nat) x :
  (i < length l)%nat → take (S i) (<[i:=x]> l) = take i l ++ [x].
Proof.
  intros Hi. rewrite (take_S_r _ _ x) by by rewrite list_lookup_insert_eq.
  by rewrite take_insert_ge by lia.
Qed.

Lemma allocating_step fileSize fm0 i s :
  n ≤ NumSectors → numBits fm0 = n →
  0 ≤ i < NumDirect → i < Z.of_nat (size (free fm0)) →
  allocating fileSize fm0 i s →
  ∃ f bm ds, Find s.2 = Ok (f, bm) ∧ arr_set (dataSectors s.1) i f = Ok ds ∧
    allocating fileSize fm0 (i + 1) (mkFileHeader (numBytes s.1) (numSectors s.1) ds, bm).
Proof.
  intros Hns Hn0 Hi Hsz [Hb Hn Ht Hin Hwf Hbits Hnd Hfree Hm Hsize].
  destruct (Find_ok s.2 Hwf) as [(f & bm & -> & Hf & Hnf & _ & Hwf' & Hb' & Hm') | [_ Hall]].
  2: { exfalso. assert (size (free s.2) = 0%nat) as E; [|lia].
       apply size_empty_iff. intros x. rewrite elem_of_free. set_solver. }
  assert (f ∈ free fm0) as Hff.
  { apply elem_of_free. rewrite Hm in Hnf. split; [lia | set_solver]. }
  destruct (size_free_mark s.2 bm f Hb') as [Hsf _]; [by apply elem_of_free | done |].
  assert (0 < Z.of_nat (size (free s.2))) by lia.
  exists f, bm, (<[Z.to_nat i := f]> (dataSectors s.1)).
  split; [done|]. split; [apply arr_set_in; lia|].
  assert (take (Z.to_nat (i + 1)) (<[Z.to_nat i := f]> (dataSectors s.1))
          = take (Z.to_nat i) (dataSectors s.1) ++ [f]) as Htk.
  { replace (Z.to_nat (i + 1)) with (S (Z.to_nat i)) by lia.
    apply take_insert_snoc. lia. }
  assert (f ∉ take (Z.to_nat i) (dataSectors s.1)) as Hnew by (rewrite Hm in Hnf; set_solver).
  split; simpl; rewrite ?Htk; try done.
  - by rewrite length_insert.
  - apply Forall_insert; [done|]. unfold is_int32. change NumSectors with 1024 in Hns. lia.
  - lia.
  - apply NoDup_app. repeat split; [done | | apply NoDup_singleton].
    intros x Hx ->%list_elem_of_singleton. done.
  - apply Forall_app. split; [done|]. by apply Forall_singleton.
  - rewrite Hm', Hm, list_to_set_app_L. simpl. set_solver.
  - lia.
Qed.

Lemma Allocate_no_space h fm fileSize :
  wf fm → Z.of_nat (size (free fm)) < divRoundUp fileSize SectorSize →
  Allocate fileSize (h, fm) =
    Ok (false, (mkFileHeader fileSize (divRoundUp fileSize SectorSize) (dataSectors h), fm)).
Proof.
  intros Hwf Hsz. unfold Allocate. simpl. rewrite NumClear_ok by done. simpl.
  by rewrite (proj2 (Z.ltb_lt _ _)).
Qed.

Lemma Allocate_ok h fm fileSize :
  n ≤ NumSectors → wf fm → numBits fm = n →
  length (dataSectors h) = Z.to_nat NumDirect → Forall is_int32 (dataSectors h) →
  0 ≤ fileSize ≤ MaxFileSize →
  divRoundUp fileSize SectorSize ≤ Z.of_nat (size (free fm)) →
  ∃ h' fm', Allocate fileSize (h, fm) = Ok (true, (h', fm')) ∧
    hdr_wf h' ∧ numBytes h' = fileSize ∧ wf fm' ∧ numBits fm' = n ∧
    Forall (λ x, x ∈ free fm) (hdr_sectors h') ∧
    marked fm' = marked fm ∪ list_to_set (hdr_sectors h').
Proof.
  intros Hn Hwf Hnb Hl Hi Hs Hsz. unfold Allocate. simpl. rewrite NumClear_ok by done. simpl.
  rewrite (proj2 (Z.ltb_ge _ _)) by done.
  assert (Hns : 0 ≤ divRoundUp fileSize SectorSize ≤ NumDirect).
  { split.
    - unfold SectorSize. rewrite divRoundUp_nonneg by lia. apply Z.div_pos; lia.
    - apply divRoundUp_spec; [lia | done |]. apply Hs. }
  match goal with |- context [st_for _ _ ?b ?s0] =>
    destruct (st_for_inv (allocating fileSize fm) 0 (divRoundUp fileSize SectorSize) b s0)
      as ([h' fm'] & -> & HP) end.
  - lia.
  - split; simpl; try done; [apply NoDup_nil_2 | set_solver | lia].
  - intros i [h1 fm1] Hii HP.
    destruct (allocating_step fileSize fm i (h1, fm1)) as (f & bm & ds & H1 & H2 & H3);
      try done; try lia.
    simpl in *. rewrite H1. simpl. rewrite H2. simpl. eauto.
  - destruct HP as [Hb Hn' Ht Hin Hwf' Hbits Hnd Hfree Hm Hsize]. simpl in *.
    rewrite <- Hn' in Hnd, Hfree, Hm.
    exists h', fm'. split; [done|]. split; [|done].
    split; try done; [lia | congruence | lia |].
    eapply Forall_impl; [exact Hfree|]. intros x Hx. apply elem_of_free in Hx as [Hx _].
    unfold valid_sector. lia.
Qed.

(** Clearing the sectors of a file one after the other. *)
Lemma Deallocate_ok h fm :
  numBits fm = n → n = NumSectors → hdr_wf h → wf fm →
  (∀ x, x ∈ hdr_sectors h → x ∈ marked fm) →
  ∃ fm', Deallocate h fm = Ok (tt, fm') ∧ wf fm' ∧ numBits fm' = n ∧
    marked fm' = marked fm ∖ list_to_set (hdr_sectors h).
Proof.
  intros Hn HnS Hh Hwf Hmk. pose proof (hdr_ns_nonneg _ Hh) as Hns.
  pose proof (length_hdr_sectors _ Hh) as Hlen. unfold Deallocate.
  match goal with |- context [st_for _ _ ?b _] =>
    destruct (st_for_inv (λ i bm, wf bm ∧ numBits bm = n ∧
        marked bm = marked fm ∖ list_to_set (take (Z.to_nat i) (hdr_sectors h)))
      0 (numSectors h) b fm) as (fm' & -> & HP) end.
  - lia.
  - split; [done|]. split; [done|]. simpl. set_solver.
  - intros i bm Hi (Hw & Hb & Hm).
    destruct (lookup_lt_is_Some_2 (hdr_sectors h) (Z.to_nat i)) as [s Hs]; [lia|].
    assert (valid_sector s) as Hv.
    { destruct Hh. by apply (Forall_lookup_1 _ _ _ _ hdr_valid0 Hs). }
    assert (arr_get (dataSectors h) i = Ok s) as ->.
    { apply arr_get_lookup; [lia|]. unfold hdr_sectors in Hs.
      rewrite lookup_take_lt in Hs by lia. done. }
    assert (s ∈ marked bm) as Hsm.
    { rewrite Hm. apply elem_of_difference. split.
      - apply Hmk, list_elem_of_lookup. eauto.
      - rewrite elem_of_list_to_set, list_elem_of_lookup. intros [j Hj].
        apply lookup_take_Some in Hj as [Hj Hlt].
        destruct Hh. pose proof (NoDup_lookup _ _ _ _ hdr_nodup0 Hs Hj). lia. }
    unfold valid_sector in Hv. simpl. rewrite Test_marked, bool_decide_true by (done || lia).
    simpl. destruct (Clear_ok bm s Hw) as (bm' & -> & Hw' & Hb' & Hm'); [lia|].
    eexists. split; [done|]. split; [done|]. split; [lia|].
    replace (Z.to_nat (i + 1)) with (S (Z.to_nat i)) by lia.
    rewrite (take_S_r _ _ s) by done. rewrite Hm', Hm, list_to_set_app_L. simpl. set_solver.
  - exists fm'. split; [done|]. rewrite take_ge in HP by lia. done.
Qed.

(** A file of more than [NumDirect] sectors: Allocate has no check, and the
    loop runs past the end of [dataSectors]. *)
Lemma Allocate_overflow h fm fileSize :
  n ≤ NumSectors → wf fm → numBits fm = n →
  length (dataSectors h) = Z.to_nat NumDirect → Forall is_int32 (dataSectors h) →
  MaxFileSize < fileSize →
  divRoundUp fileSize SectorSize ≤ Z.of_nat (size (free fm)) →
  Allocate fileSize (h, fm) = Fail MemoryFault.
Proof.
  intros Hn Hwf Hnb Hl Hi Hs Hsz. unfold Allocate. simpl. rewrite NumClear_ok by done. simpl.
  rewrite (proj2 (Z.ltb_ge _ _)) by done.
  assert (Hns : NumDirect < divRoundUp fileSize SectorSize).
  { destruct (decide (divRoundUp fileSize SectorSize ≤ NumDirect)) as [H|H]; [|lia].
    change MaxFileSize with 3840 in Hs. change NumDirect with 30 in *.
    apply divRoundUp_spec in H; [|lia|done]. unfold SectorSize in H. lia. }
  unfold st_for.
  replace (divRoundUp fileSize SectorSize - 0)
    with (NumDirect + (divRoundUp fileSize SectorSize - NumDirect)) by lia.
  rewrite seqZ_app by (try done; lia). rewrite st_iter_app.
  match goal with |- context [st_bind (st_iter (seqZ 0 NumDirect) ?b) _ ?s0] =>
    destruct (st_for_inv (allocating fileSize fm) 0 NumDirect b s0)
      as ([h' fm'] & Hloop & HP) end.
  - done.
  - split; simpl; try done; [apply NoDup_nil_2 | set_solver | lia].
  - intros i [h1 fm1] Hii HP.
    destruct (allocating_step fileSize fm i (h1, fm1)) as (f & bm & ds & H1 & H2 & H3);
      try done; try lia.
    simpl in *. rewrite H1. simpl. rewrite H2. simpl. eauto.
  - unfold st_for in Hloop. change (NumDirect - 0) with NumDirect in Hloop.
    rewrite (st_bind_Ok _ _ _ _ _ Hloop). rewrite seqZ_cons by lia. simpl.
    unfold st_bind. destruct HP as [_ _ Ht _ Hwf' _ _ _ _ Hsize]. simpl in *.
    destruct (Find_ok fm' Hwf') as [(f & bm & -> & _) | [-> _]]; simpl;
      rewrite arr_set_out; rewrite ?Ht; try done; change NumDirect with 30; lia.
Qed.
End Allocation.
