(* ===== verification/OpenFile.v ===== *)
(** * Open files (src/code/filesys/openfile.h, openfile.cc)

    Reading and writing any range of a file through a device that only moves whole
    sectors, proved to read a slice and to overwrite a slice of the file's bytes.
    [garbage] is what [new char[n]] leaves in a buffer. *)
From S2P Require Import Prelude Words BitMap SectorIO FileHdr.

(** class OpenFile *)
Record OpenFile := mkOpenFile { hdr : FileHeader; seekPosition : Z }.

(** ** Buffers *)

(** [new char[n]] *)
Definition new_buf (garbage : nat → Z) (n : Z) : res (list Z) :=
  if n <? 0 then Fail Thrown
  else Ok ((λ i, uint8 (garbage i)) <$> seq 0 (Z.to_nat n)).

(** [bcopy (&buf[off], into, n)]: the bytes read. *)
Definition bcopy_from (buf : list Z) (off n : Z) : res (list Z) :=
  if decide (0 ≤ off ∧ 0 ≤ n ∧ off + n ≤ Z.of_nat (length buf))
  then Ok (slice buf (Z.to_nat off) (Z.to_nat n)) else Fail MemoryFault.

(** [bcopy (from, &buf[off], n)] with [d] the [n] bytes at [from]. *)
Definition bcopy_to (buf : list Z) (off : Z) (d : list Z) : res (list Z) :=
  if decide (0 ≤ off ∧ off + Z.of_nat (length d) ≤ Z.of_nat (length buf))
  then Ok (splice buf (Z.to_nat off) d) else Fail MemoryFault.

Section Device.
Context {W : Type} `{SectorDevice W} (garbage : nat → Z).

Definition new_OpenFile (sector : Z) : ST W OpenFile := λ w,
  let? r := Hdr_FetchFrom sector w in
  Ok (mkOpenFile r.1 0, r.2).

Definition Seek (position : Z) (f : OpenFile) : OpenFile := mkOpenFile (hdr f) position.

(** The sectors from [firstSector] to [lastSector], into [buf]. *)
Definition read_sectors (h : FileHeader) (firstSector lastSector : Z)
    : ST (list Z * W) unit :=
  st_for firstSector (lastSector + 1) (λ i s,
    let '(buf, w) := s in
    let? sec := ByteToSector (i * SectorSize) h in
    let? r := ReadSector sec w in
    let? buf := bcopy_to buf ((i - firstSector) * SectorSize) r.1 in
    Ok (tt, (buf, r.2))).

Definition write_sectors (h : FileHeader) (firstSector lastSector : Z) (buf : list Z)
    : ST W unit :=
  st_for firstSector (lastSector + 1) (λ i w,
    let? sec := ByteToSector (i * SectorSize) h in
    let? d := bcopy_from buf ((i - firstSector) * SectorSize) SectorSize in
    WriteSector sec d w).

(** The bytes copied to [into]; the function returns their number. *)
Definition ReadAt (h : FileHeader) (numBytes position : Z) : ST W (list Z) := λ w,
  let fileLength := FileLength h in
  if (numBytes <=? 0) || (position >=? fileLength) then Ok ([], w)
  else
    let numBytes :=
      if int32 (position + numBytes) >? fileLength then fileLength - position else numBytes in
    let firstSector := divRoundDown position SectorSize in
    let lastSector := divRoundDown (position + numBytes - 1) SectorSize in
    let numSectors := 1 + lastSector - firstSector in
    let? buf := new_buf garbage (numSectors * SectorSize) in
    let? r := read_sectors h firstSector lastSector (buf, w) in
    let '(buf, w) := r.2 in
    let? out := bcopy_from buf (position - firstSector * SectorSize) numBytes in
    Ok (out, w).

(** [from] points at the bytes [from]. *)
Definition WriteAt (h : FileHeader) (from : list Z) (numBytes position : Z) : ST W Z := λ w,
  let fileLength := FileLength h in
  if (numBytes <=? 0) || (position >=? fileLength) then Ok (0, w)
  else
    let numBytes :=
      if int32 (position + numBytes) >? fileLength then fileLength - position else numBytes in
    let firstSector := divRoundDown position SectorSize in
    let lastSector := divRoundDown (position + numBytes - 1) SectorSize in
    let numSectors := 1 + lastSector - firstSector in
    let? buf := new_buf garbage (numSectors * SectorSize) in
    let firstAligned := position =? firstSector * SectorSize in
    let lastAligned := position + numBytes =? (lastSector + 1) * SectorSize in
    let? r :=
      (if negb firstAligned then
         let? r := ReadAt h SectorSize (firstSector * SectorSize) w in
         let? buf := bcopy_to buf 0 r.1 in
         Ok (buf, r.2)
       else Ok (buf, w)) in
    let? r :=
      (if negb lastAligned && (negb (firstSector =? lastSector) || firstAligned) then
         let? r' := ReadAt h SectorSize (lastSector * SectorSize) r.2 in
         let? buf := bcopy_to r.1 ((lastSector - firstSector) * SectorSize) r'.1 in
         Ok (buf, r'.2)
       else Ok r) in
    let '(buf, w) := r in
    let? d := bcopy_from from 0 numBytes in
    let? buf := bcopy_to buf (position - firstSector * SectorSize) d in
    let? r := write_sectors h firstSector lastSector buf w in
    Ok (numBytes, r.2).

Definition Read (f : OpenFile) (numBytes : Z) : ST W (list Z * OpenFile) := λ w,
  let? r := ReadAt (hdr f) numBytes (seekPosition f) w in
  let result := Z.of_nat (length r.1) in
  Ok ((r.1, mkOpenFile (hdr f) (int32 (seekPosition f + result))), r.2).

Definition Write (f : OpenFile) (from : list Z) (numBytes : Z) : ST W (Z * OpenFile) := λ w,
  let? r := WriteAt (hdr f) from numBytes (seekPosition f) w in
  let result := r.1 in
  Ok ((result, mkOpenFile (hdr f) (int32 (seekPosition f + result))), r.2).

Definition Length (f : OpenFile) : Z := FileLength (hdr f).
End Device.

(** ** Buffers: facts *)

Lemma new_buf_ok garbage n :
  0 ≤ n → ∃ buf, new_buf garbage n = Ok buf ∧ length buf = Z.to_nat n.
Proof.
  intros Hn. unfold new_buf. rewrite (proj2 (Z.ltb_ge _ _)) by done.
  eexists. split; [done|]. by rewrite length_fmap, length_seq.
Qed.

Lemma bcopy_from_ok buf off n :
  0 ≤ off → 0 ≤ n → off + n ≤ Z.of_nat (length buf) →
  bcopy_from buf off n = Ok (slice buf (Z.to_nat off) (Z.to_nat n)).
Proof. intros. unfold bcopy_from. by rewrite decide_True. Qed.

Lemma bcopy_to_ok buf off d :
  0 ≤ off → off + Z.of_nat (length d) ≤ Z.of_nat (length buf) →
  bcopy_to buf off d = Ok (splice buf (Z.to_nat off) d).
Proof. intros. unfold bcopy_to. by rewrite decide_True. Qed.

(** ** The bytes of a file *)
Section Contents.
Context {W : Type} `{SectorDevice W} (garbage : nat → Z).
Implicit Types (h : FileHeader) (w : W).

(** The byte [j] of the sectors of the file, and the file itself. *)
Definition byte_at w h (j : nat) : Z :=
  match hdr_sectors h !! (j / 128)%nat with
  | Some s => default 0 (sector w s !! (j mod 128)%nat)
  | None => 0
  end.
Definition contents w h : list Z := byte_at w h <$> seq 0 (Z.to_nat (numBytes h)).

Lemma length_contents w h : length (contents w h) = Z.to_nat (numBytes h).
Proof. unfold contents. by rewrite length_fmap, length_seq. Qed.

Lemma lookup_contents w h j :
  (j < Z.to_nat (numBytes h))%nat → contents w h !! j = Some (byte_at w h j).
Proof.
  intros Hj. unfold contents. by rewrite list_lookup_fmap, lookup_seq_lt by done.
Qed.

Lemma byte_at_sector w h i k s :
  hdr_sectors h !! i = Some s → (k < 128)%nat →
  byte_at w h (i * 128 + k) = default 0 (sector w s !! k).
Proof.
  intros Hs Hk. unfold byte_at.
  rewrite Nat.div_add_l, Nat.div_small, Nat.add_0_r, Hs by lia.
  by rewrite Nat.add_comm, Nat.Div0.mod_add, Nat.mod_small by lia.
Qed.

Lemma contents_same w w' h : same_disk w w' → contents w' h = contents w h.
Proof.
  intros Hs. unfold contents. apply list_fmap_ext. intros i x _. unfold byte_at.
  destruct (hdr_sectors h !! _); [|done]. by rewrite Hs.
Qed.

(** The buffer [buf] agrees with the file bytes from byte [lo] on, on the bytes
    [from, to). *)
Definition holds w h (lo from to : nat) (buf : list Z) : Prop :=
  ∀ k, (from ≤ k < to)%nat → buf !! k = Some (byte_at w h (lo + k)).

Lemma holds_splice w h lo a b c buf d :
  holds w h lo a b buf → (b + length d ≤ length buf)%nat → c = (b + length d)%nat →
  (∀ k, (k < length d)%nat → d !! k = Some (byte_at w h (lo + b + k))) →
  holds w h lo a c (splice buf b d).
Proof.
  intros Hh Hlen -> Hd k Hk. rewrite lookup_splice by done. case_decide.
  - rewrite Hd by lia. do 2 f_equal. lia.
  - apply Hh. lia.
Qed.

Lemma read_sectors_ok h first_ last_ buf w :
  hdr_wf h → ready w → 0 ≤ first_ ≤ last_ + 1 → last_ < numSectors h →
  length buf = Z.to_nat ((last_ + 1 - first_) * SectorSize) →
  ∃ buf' w', read_sectors h first_ last_ (buf, w) = Ok (tt, (buf', w')) ∧
    ready w' ∧ same_disk w w' ∧ length buf' = length buf ∧
    holds w h (Z.to_nat (first_ * 128)) 0 (length buf) buf'.
Proof.
  intros Hh Hr Hfl Hl Hb. unfold read_sectors. unfold SectorSize in *.
  match goal with |- context [st_for _ _ ?b _] =>
    destruct (st_for_inv (λ i s, ready s.2 ∧ same_disk w s.2 ∧ length s.1 = length buf ∧
        holds w h (Z.to_nat (first_ * 128)) 0 (Z.to_nat ((i - first_) * 128)) s.1)
      first_ (last_ + 1) b (buf, w)) as ([buf' w'] & -> & HP) end.
  - lia.
  - simpl. repeat split; try done. intros k Hk. lia.
  - intros i [b1 w1] Hi (Hr1 & Hs1 & Hlb & Hh1). simpl in *.
    destruct (ByteToSector_ok h i Hh) as (s & Hbs & Hs & Hv); [lia|].
    unfold SectorSize in Hbs. rewrite Hbs. simpl.
    destruct (ReadSector_ok w1 s Hr1 Hv) as (w2 & -> & Hr2 & Hs2). simpl.
    assert (length (sector w1 s) = 128%nat) as Hls by by apply sector_length.
    rewrite bcopy_to_ok by lia. simpl. eexists. split; [done|]. simpl.
    split; [done|]. split; [by etrans|]. split; [rewrite length_splice; lia|].
    eapply holds_splice; [done | lia | lia |].
    intros k Hk. rewrite Hls in Hk.
    replace (Z.to_nat (first_ * 128) + Z.to_nat ((i - first_) * 128) + k)%nat
      with (Z.to_nat i * 128 + k)%nat by lia.
    rewrite (byte_at_sector w h _ k s Hs Hk), <- Hs1.
    destruct (lookup_lt_is_Some_2 (sector w1 s) k) as [x Hx]; [lia|]. by rewrite Hx.
  - exists buf', w'. split; [done|]. simpl in HP. rewrite <- Hb in HP. tauto.
Qed.

(** The file range a request of [n] bytes at [position] touches. *)
Definition clip h (n position : Z) : Z :=
  if (n <=? 0) || (position >=? numBytes h) then 0
  else Z.min n (numBytes h - position).

Lemma clip_spec h n position :
  0 ≤ position → is_int32 (position + n) →
  (if int32 (position + n) >? numBytes h then numBytes h - position else n)
  = Z.min n (numBytes h - position).
Proof. intros Hp Hi. rewrite int32_id by done. destruct (Z.gtb_spec (position + n) (numBytes h)); lia. Qed.

(** First and last sector of a non-empty range inside the file. *)
Lemma range_sectors h position n :
  hdr_wf h → 0 ≤ position → 0 < n → position + n ≤ numBytes h →
  let f := divRoundDown position SectorSize in
  let l := divRoundDown (position + n - 1) SectorSize in
  0 ≤ f ≤ l ∧ l < numSectors h ∧
  f * 128 ≤ position < f * 128 + 128 ∧ l * 128 < position + n ≤ l * 128 + 128.
Proof.
  intros Hh Hp Hn Hb. pose proof (hdr_bytes_fit _ Hh) as Hfit. unfold SectorSize in *. cbv zeta.
  rewrite !divRoundDown_nonneg by lia.
  pose proof (Z.div_mod position 128 ltac:(lia)). pose proof (Z.mod_pos_bound position 128 ltac:(lia)).
  pose proof (Z.div_mod (position + n - 1) 128 ltac:(lia)).
  pose proof (Z.mod_pos_bound (position + n - 1) 128 ltac:(lia)). lia.
Qed.

Lemma ReadAt_ok h n position w :
  hdr_wf h → ready w → 0 ≤ position → is_int32 (position + n) →
  ∃ w', ReadAt garbage h n position w
          = Ok (slice (contents w h) (Z.to_nat position) (Z.to_nat n), w') ∧
    ready w' ∧ same_disk w w'.
Proof.
  intros Hh Hr Hp Hi. unfold ReadAt, FileLength.
  destruct (Z.leb_spec n 0) as [Hn|Hn]; simpl.
  { exists w. unfold slice. replace (Z.to_nat n) with 0%nat by lia. done. }
  destruct (Z.geb_spec position (numBytes h)) as [Hpl|Hpl]; simpl.
  { exists w. unfold slice. rewrite drop_ge, take_nil by (rewrite length_contents; lia). done. }
  rewrite clip_spec by done. set (m := Z.min n (numBytes h - position)).
  destruct (range_sectors h position m) as (Hf & Hl & Hpf & Hpl'); [done | done | lia | lia |].
  set (f := divRoundDown position SectorSize) in *.
  set (l := divRoundDown (position + m - 1) SectorSize) in *.
  destruct (new_buf_ok garbage ((1 + l - f) * SectorSize)) as (buf & -> & Hlb);
    [unfold SectorSize; lia|]. simpl.
  destruct (read_sectors_ok h f l buf w Hh Hr) as (buf' & w' & -> & Hr' & Hs & Hlb' & Hc);
    [lia | done | rewrite Hlb; f_equal; lia |].
  simpl. unfold SectorSize in *. rewrite bcopy_from_ok by lia. simpl.
  exists w'. split; [|done]. do 2 f_equal. apply list_eq. intros k.
  destruct (decide (k < Z.to_nat m)%nat) as [Hk|Hk].
  - rewrite lookup_slice, Hc by lia. rewrite lookup_slice by lia.
    rewrite lookup_contents by lia. do 2 f_equal. lia.
  - rewrite !lookup_ge_None_2; [done | |].
    + unfold slice. rewrite length_take, length_drop, length_contents. lia.
    + unfold slice. rewrite length_take. lia.
Qed.

(** The sectors of the file after the loop of WriteAt. *)
Lemma write_sectors_ok h first_ last_ buf w :
  hdr_wf h → ready w → 0 ≤ first_ ≤ last_ + 1 → last_ < numSectors h →
  Z.of_nat (length buf) = (last_ + 1 - first_) * SectorSize →
  ∃ w', write_sectors h first_ last_ buf w = Ok (tt, w') ∧ ready w' ∧
    (∀ s, s ∉ hdr_sectors h → sector w' s = sector w s) ∧
    ∀ k s, hdr_sectors h !! k = Some s →
      sector w' s = if decide (first_ ≤ Z.of_nat k < last_ + 1)
                    then slice buf (Z.to_nat ((Z.of_nat k - first_) * 128)) 128
                    else sector w s.
Proof.
  intros Hh Hr Hfl Hl Hb. unfold write_sectors. unfold SectorSize in *.
  match goal with |- context [st_for _ _ ?b _] =>
    destruct (st_for_inv (λ i w1, ready w1 ∧
        (∀ s, s ∉ hdr_sectors h → sector w1 s = sector w s) ∧
        ∀ k s, hdr_sectors h !! k = Some s →
          sector w1 s = if decide (first_ ≤ Z.of_nat k < i)
                        then slice buf (Z.to_nat ((Z.of_nat k - first_) * 128)) 128
                        else sector w s)
      first_ (last_ + 1) b w) as (w' & -> & HP) end.
  - lia.
  - repeat split; try done. intros k s Hk. by rewrite decide_False by lia.
  - intros i w1 Hi (Hr1 & Hout & Hin).
    destruct (ByteToSector_ok h i Hh) as (s & Hbs & Hs & Hv); [lia|].
    unfold SectorSize in Hbs. rewrite Hbs. simpl.
    rewrite bcopy_from_ok by lia. simpl. change (Z.to_nat 128) with 128%nat.
    destruct (WriteSector_ok w1 s (slice buf (Z.to_nat ((i - first_) * 128)) 128) Hr1 Hv)
      as (w2 & -> & Hr2 & Hs2); [rewrite length_slice; [done | lia]|].
    exists w2. split; [done|]. split; [done|]. split.
    + intros s' Hs'. rewrite Hs2, decide_False; [by apply Hout|].
      intros ->. apply Hs'. apply list_elem_of_lookup. eauto.
    + intros k s' Hk. rewrite Hs2. destruct (decide (s' = s)) as [->|Hne].
      * assert (k = Z.to_nat i) as -> by (destruct Hh; by eapply NoDup_lookup).
        rewrite decide_True by lia. do 2 f_equal. lia.
      * rewrite (Hin k s' Hk).
        assert (k ≠ Z.to_nat i) by (intros ->; congruence).
        destruct (decide (first_ ≤ Z.of_nat k < i)).
        -- by rewrite decide_True by lia.
        -- by rewrite decide_False by lia.
  - exists w'. done.
Qed.

(** ... and its bytes. *)
Lemma written_byte_at h first_ last_ buf w w' j :
  hdr_wf h → 0 ≤ first_ → Z.of_nat (length buf) = (last_ + 1 - first_) * 128 →
  (∀ k s, hdr_sectors h !! k = Some s →
      sector w' s = if decide (first_ ≤ Z.of_nat k < last_ + 1)
                    then slice buf (Z.to_nat ((Z.of_nat k - first_) * 128)) 128
                    else sector w s) →
  Z.of_nat j < numBytes h →
  byte_at w' h j =
    if decide (first_ * 128 ≤ Z.of_nat j < (last_ + 1) * 128)
    then default 0 (buf !! (j - Z.to_nat (first_ * 128))%nat) else byte_at w h j.
Proof.
  intros Hh Hf Hb Hw Hj. unfold byte_at.
  pose proof (hdr_bytes_fit _ Hh) as Hfit. pose proof (length_hdr_sectors _ Hh) as Hlen.
  unfold SectorSize in Hfit.
  pose proof (Nat.div_mod j 128 ltac:(lia)). pose proof (Nat.mod_upper_bound j 128 ltac:(lia)).
  destruct (lookup_lt_is_Some_2 (hdr_sectors h) (j / 128)%nat) as [s Hs]; [lia|].
  rewrite Hs, (Hw _ _ Hs).
  destruct (decide (first_ ≤ Z.of_nat (j / 128) < last_ + 1)).
  - rewrite decide_True by lia. rewrite lookup_slice by done. do 2 f_equal. lia.
  - by rewrite decide_False by lia.
Qed.

Lemma slice_contents_lookup w h lo n k :
  (k < n)%nat → (lo + k < Z.to_nat (numBytes h))%nat →
  slice (contents w h) lo n !! k = Some (byte_at w h (lo + k)).
Proof. intros Hk Hj. by rewrite lookup_slice, lookup_contents. Qed.

Lemma length_slice_contents w h lo n :
  length (slice (contents w h) lo n) = (n `min` (Z.to_nat (numBytes h) - lo))%nat.
Proof. unfold slice. by rewrite length_take, length_drop, length_contents. Qed.

(** [if (b) ReadAt(&buf[off], SectorSize, i * SectorSize)]: the bytes of the file
    there, and nothing else of [buf], change. *)
Lemma fill_sector h (b : bool) i off buf w :
  hdr_wf h → ready w → 0 ≤ i < numSectors h →
  0 ≤ off → off + 128 ≤ Z.of_nat (length buf) →
  ∃ w' buf', (if b then
                let? r := ReadAt garbage h SectorSize (i * SectorSize) w in
                let? buf := bcopy_to buf off r.1 in Ok (buf, r.2)
              else Ok (buf, w)) = Ok (buf', w') ∧
    ready w' ∧ same_disk w w' ∧ length buf' = length buf ∧
    ∀ k, (k < length buf)%nat →
      buf' !! k = if decide (b = true ∧ off ≤ Z.of_nat k < off + 128 ∧
                             i * 128 + (Z.of_nat k - off) < numBytes h)
                  then Some (byte_at w h (Z.to_nat (i * 128 + (Z.of_nat k - off))))
                  else buf !! k.
Proof.
  intros Hh Hr Hi Ho Hol. destruct b.
  2: { eexists _, _. split; [done|]. by repeat split. }
  pose proof (hdr_max_bytes _ Hh). pose proof (hdr_bytes_fit _ Hh).
  pose proof (hdr_max _ Hh) as Hm. change NumDirect with 30 in Hm.
  change MaxFileSize with 3840 in *. unfold SectorSize in *.
  destruct (ReadAt_ok h 128 (i * 128) w Hh Hr) as (w' & -> & Hr' & Hs);
    [lia | unfold is_int32; lia |]. simpl. change (Z.to_nat 128) with 128%nat.
  pose proof (length_slice_contents w h (Z.to_nat (i * 128)) 128) as Hls.
  rewrite bcopy_to_ok by lia. simpl. eexists _, _. split; [done|].
  split; [done|]. split; [done|]. split; [rewrite length_splice; lia|].
  intros k Hk. rewrite lookup_splice by lia. case_decide as Hd.
  - rewrite decide_True by lia. rewrite slice_contents_lookup by lia. do 2 f_equal. lia.
  - rewrite decide_False; [done|]. intros (_ & ? & ?). apply Hd. lia.
Qed.

Lemma WriteAt_ok h from n position w :
  hdr_wf h → ready w → 0 ≤ position → is_int32 (position + n) →
  n ≤ Z.of_nat (length from) →
  ∃ w', WriteAt garbage h from n position w = Ok (clip h n position, w') ∧ ready w' ∧
    contents w' h = splice (contents w h) (Z.to_nat position)
                           (take (Z.to_nat (clip h n position)) from) ∧
    ∀ s, s ∉ hdr_sectors h → sector w' s = sector w s.
Proof.
  intros Hh Hr Hp Hi Hfrom. unfold WriteAt, FileLength, clip.
  destruct (Z.leb_spec n 0) as [Hn|Hn]; simpl.
  { exists w. change (Z.to_nat 0) with 0%nat. by rewrite take_0, splice_nil. }
  destruct (Z.geb_spec position (numBytes h)) as [Hpl|Hpl]; simpl.
  { exists w. change (Z.to_nat 0) with 0%nat. by rewrite take_0, splice_nil. }
  rewrite clip_spec by done. set (m := Z.min n (numBytes h - position)).
  destruct (range_sectors h position m) as (Hf & Hl & Hpf & Hpl'); [done | done | lia | lia |].
  set (f := divRoundDown position SectorSize) in *.
  set (l := divRoundDown (position + m - 1) SectorSize) in *.
  destruct (new_buf_ok garbage ((1 + l - f) * SectorSize)) as (buf & -> & Hlb);
    [unfold SectorSize; lia|]. cbn [res_bind].
  destruct (fill_sector h (negb (position =? f * SectorSize)) f 0 buf w)
    as (w1 & buf1 & -> & Hr1 & Hs1 & Hlb1 & Hc1);
    [done | done | lia | lia | unfold SectorSize in *; lia |]. cbn [res_bind fst snd].
  destruct (fill_sector h (negb (position + m =? (l + 1) * SectorSize) &&
               (negb (f =? l) || (position =? f * SectorSize))) l
              ((l - f) * SectorSize) buf1 w1)
    as (w2 & buf2 & -> & Hr2 & Hs2 & Hlb2 & Hc2);
    [done | done | lia | unfold SectorSize in *; lia | unfold SectorSize in *; lia |].
  cbn [res_bind fst snd]. rewrite bcopy_from_ok by lia. cbn [res_bind].
  assert (Hd : length (slice from 0 (Z.to_nat m)) = Z.to_nat m) by (apply length_slice; lia).
  change (Z.to_nat 0) with 0%nat. unfold SectorSize in *.
  rewrite bcopy_to_ok by lia. cbn [res_bind].
  set (buf3 := splice buf2 _ _).
  assert (Hlb3 : length buf3 = length buf2) by (apply length_splice; lia).
  destruct (write_sectors_ok h f l buf3 w2 Hh Hr2) as (w' & -> & Hr' & Hout & Hin);
    [lia | done | unfold SectorSize; lia |]. cbn [res_bind snd].
  exists w'. split; [done|]. split; [done|]. split.
  2: { intros s Hs. by rewrite Hout, Hs2, Hs1. }
  apply list_eq. intros j. change (take (Z.to_nat m) from) with (slice from 0 (Z.to_nat m)).
  destruct (decide (j < Z.to_nat (numBytes h))%nat) as [Hj|Hj].
  2: { rewrite !lookup_ge_None_2; [done | |].
       - rewrite length_splice; rewrite length_contents; lia.
       - rewrite length_contents; lia. }
  assert (Hbw : byte_at w2 h j = byte_at w h j).
  { assert (contents w2 h = contents w h) as E.
    { rewrite (contents_same w1), (contents_same w); done. }
    apply (f_equal (λ c, c !! j)) in E. rewrite !lookup_contents in E by done. congruence. }
  rewrite lookup_contents by done.
  rewrite (written_byte_at h f l buf3 w2 w' j Hh) by (done || lia).
  rewrite lookup_splice by (rewrite length_contents; lia).
  destruct (decide (f * 128 ≤ Z.of_nat j < (l + 1) * 128)) as [Hjr|Hjr];
    (match goal with |- context [decide (Z.to_nat position ≤ j < ?e)%nat] =>
       destruct (decide (Z.to_nat position ≤ j < e)%nat) as [Hjp|Hjp] end);
    rewrite ?lookup_contents by done; try lia; [| |by rewrite Hbw].

  - unfold buf3. rewrite lookup_splice by lia. rewrite decide_True by lia.
    destruct (lookup_lt_is_Some_2 (slice from 0 (Z.to_nat m)) (j - Z.to_nat position)%nat)
      as [x Hx]; [lia|].
    rewrite Hx. replace (j - Z.to_nat (f * 128) - Z.to_nat (position - f * 128))%nat
      with (j - Z.to_nat position)%nat by lia. by rewrite Hx.
  - unfold buf3. rewrite lookup_splice by lia. rewrite decide_False by lia.
    assert (Hfile : byte_at w1 h j = byte_at w h j).
    { unfold byte_at. destruct (hdr_sectors h !! _); [by rewrite Hs1 | done]. }
    rewrite Hc2 by lia. match goal with |- context [decide ?P] =>
      destruct (decide P) as [Hd2|Hd2] end.
    + replace (Z.to_nat _) with j by lia. by rewrite Hfile.
    + rewrite Hc1 by lia. rewrite decide_True.
      { replace (Z.to_nat _) with j by lia. done. }
      destruct (Z.eqb_spec position (f * 128)), (Z.eqb_spec (position + m) ((l + 1) * 128)),
        (Z.eqb_spec f l); simpl in *; (split; [first [done | exfalso; apply Hd2; lia | lia] |]); lia.
Qed.
End Contents.

(** ** An open file as an array of bytes *)
Section Refinement.
Context {W : Type} `{SectorDevice W} (garbage : nat → Z).

Inductive file_op :=
  | FSeek (position : Z)
  | FRead (n : Z)
  | FWrite (d : list Z) (n : Z)
  | FReadAt (n position : Z)
  | FWriteAt (d : list Z) (n position : Z)
  | FLength.

(** The bytes and the count an operation gives back. *)
Definition file_step (o : file_op) (f : OpenFile) : ST W ((list Z * Z) * OpenFile) := λ w,
  match o with
  | FSeek p => Ok (([], 0, Seek p f), w)
  | FRead n =>
      let? r := Read garbage f n w in
      Ok ((r.1.1, Z.of_nat (length r.1.1), r.1.2), r.2)
  | FWrite d n => let? r := Write garbage f d n w in Ok (([], r.1.1, r.1.2), r.2)
  | FReadAt n p =>
      let? r := ReadAt garbage (hdr f) n p w in Ok ((r.1, Z.of_nat (length r.1), f), r.2)
  | FWriteAt d n p => let? r := WriteAt garbage (hdr f) d n p w in Ok (([], r.1, f), r.2)
  | FLength => Ok (([], Length f, f), w)
  end.

Fixpoint file_run (os : list file_op) (f : OpenFile) : ST W (list (list Z * Z) * OpenFile) :=
  λ w,
  match os with
  | [] => Ok (([], f), w)
  | o :: os =>
      let? r := file_step o f w in
      let? rs := file_run os r.1.2 r.2 in
      Ok ((r.1.1 :: rs.1.1, rs.1.2), rs.2)
  end.

(** A request within the contract: a position and an end that are [int]s, and as
    many bytes supplied as are to be written. *)
Definition req_ok (n position : Z) : bool :=
  (0 <=? position) && (-2147483648 <=? position + n) && (position + n <? 2147483648).

Definition spec_read (data : list Z) (n position : Z) : list Z :=
  slice data (Z.to_nat position) (Z.to_nat n).
Definition spec_count (data : list Z) (n position : Z) : Z :=
  Z.max 0 (Z.min n (Z.of_nat (length data) - position)).
Definition spec_write (data d : list Z) (n position : Z) : list Z :=
  splice data (Z.to_nat position) (take (Z.to_nat (spec_count data n position)) d).

Definition spec_step (o : file_op) (st : list Z * Z) : option ((list Z * Z) * (list Z * Z)) :=
  let '(data, pos) := st in
  match o with
  | FSeek p => Some (([], 0), (data, p))
  | FRead n =>
      if req_ok n pos then
        let r := spec_read data n pos in
        Some ((r, Z.of_nat (length r)), (data, pos + Z.of_nat (length r)))
      else None
  | FWrite d n =>
      if req_ok n pos && (n <=? Z.of_nat (length d)) then
        let c := spec_count data n pos in
        Some (([], c), (spec_write data d n pos, pos + c))
      else None
  | FReadAt n p =>
      if req_ok n p then
        let r := spec_read data n p in Some ((r, Z.of_nat (length r)), (data, pos))
      else None
  | FWriteAt d n p =>
      if req_ok n p && (n <=? Z.of_nat (length d)) then
        Some (([], spec_count data n p), (spec_write data d n p, pos))
      else None
  | FLength => Some (([], Z.of_nat (length data)), (data, pos))
  end.

Fixpoint spec_run (os : list file_op) (st : list Z * Z)
    : option (list (list Z * Z) * (list Z * Z)) :=
  match os with
  | [] => Some ([], st)
  | o :: os =>
      r ← spec_step o st;
      rs ← spec_run os r.2;
      Some (r.1 :: rs.1, rs.2)
  end.

(** The open file [f] over the device [w] stands for the bytes and the position [st];
    the rest of the disk is as in [w0]. *)
Record models (h : FileHeader) (w0 : W) (f : OpenFile) (w : W) (st : list Z * Z) : Prop := {
  mo_hdr : hdr f = h;
  mo_ready : ready w;
  mo_data : contents w h = st.1;
  mo_pos : seekPosition f = st.2;
  mo_frame : ∀ s, s ∉ hdr_sectors h → sector w s = sector w0 s
}.

Lemma req_ok_true n p : req_ok n p = true → 0 ≤ p ∧ is_int32 (p + n).
Proof. unfold req_ok, is_int32. rewrite !andb_true_iff, !Z.leb_le, Z.ltb_lt. lia. Qed.

Lemma spec_count_clip w h n p :
  hdr_wf h → 0 ≤ p → spec_count (contents w h) n p = clip h n p.
Proof.
  intros Hh Hp. pose proof (hdr_len _ Hh). unfold spec_count, clip.
  rewrite length_contents, Z2Nat.id by lia.
  destruct (Z.leb_spec n 0), (Z.geb_spec p (numBytes h)); simpl; lia.
Qed.

(** A read or a write never moves the position out of the [int]s. *)
Lemma count_int32 data n p : 0 ≤ p → is_int32 (p + n) → is_int32 p →
  is_int32 (p + spec_count data n p).
Proof. unfold spec_count, is_int32. lia. Qed.

Lemma length_spec_read data n p :
  0 ≤ p → Z.of_nat (length (spec_read data n p)) = spec_count data n p.
Proof.
  intros. unfold spec_read, spec_count, slice. rewrite length_take, length_drop. lia.
Qed.

Lemma file_step_refines h w0 o f w st r st' :
  hdr_wf h → models h w0 f w st → is_int32 st.2 →
  spec_step o st = Some (r, st') → (∀ p, o = FSeek p → is_int32 p) →
  ∃ f' w', file_step o f w = Ok ((r, f'), w') ∧ models h w0 f' w' st' ∧ is_int32 st'.2.
Proof.
  intros Hh [Hhd Hr Hd Hp Hfr] Hpi Hs Hseek. destruct st as [data pos]. simpl in *. subst pos.
  assert (Hread : ∀ n p, req_ok n p = true → ∃ w',
    ReadAt garbage (hdr f) n p w = Ok (spec_read data n p, w') ∧ ready w' ∧ same_disk w w').
  { intros n p (Hp0 & Hpn)%req_ok_true. subst. by apply ReadAt_ok. }
  assert (Hwrite : ∀ d n p, req_ok n p && (n <=? Z.of_nat (length d)) = true → ∃ w',
    WriteAt garbage (hdr f) d n p w = Ok (spec_count data n p, w') ∧ ready w' ∧
    contents w' h = spec_write data d n p ∧
    ∀ s, s ∉ hdr_sectors h → sector w' s = sector w s).
  { intros d n p [(Hp0 & Hpn)%req_ok_true Hl%Z.leb_le]%andb_true_iff. subst.
    unfold spec_write. rewrite spec_count_clip by done. by apply WriteAt_ok. }
  destruct o as [p|n|d n|n p|d n p|]; simpl in Hs.
  - injection Hs as <- <-. do 2 eexists. split; [done|]. split; [by split|]. naive_solver.
  - destruct (req_ok n _) eqn:E; [|done]. injection Hs as <- <-.
    destruct (Hread _ _ E) as (w' & Hrun & Hr' & Hs').
    unfold file_step, Read. rewrite Hrun. simpl.
    apply req_ok_true in E as [? ?]. rewrite length_spec_read by done.
    rewrite int32_id by by apply count_int32.
    do 2 eexists. split; [done|]. split; [|by apply count_int32].
    split; simpl; try done; [by rewrite (contents_same w) | intros s; by rewrite Hs'; auto].
  - destruct (req_ok n _ && _) eqn:E; [|done]. injection Hs as <- <-.
    destruct (Hwrite _ _ _ E) as (w' & Hrun & Hr' & Hc & Hs').
    unfold file_step, Write. rewrite Hrun. simpl.
    apply andb_true_iff in E as [[? ?]%req_ok_true ?].
    rewrite int32_id by by apply count_int32.
    do 2 eexists. split; [done|]. split; [|by apply count_int32].
    split; simpl; try done. intros s Hn. by rewrite Hs', Hfr.
  - destruct (req_ok n p) eqn:E; [|done]. injection Hs as <- <-.
    destruct (Hread _ _ E) as (w' & Hrun & Hr' & Hs').
    unfold file_step. rewrite Hrun. simpl. do 2 eexists. split; [done|]. split; [|done].
    split; simpl; try done; [by rewrite (contents_same w) | intros s; by rewrite Hs'; auto].
  - destruct (req_ok n p && _) eqn:E; [|done]. injection Hs as <- <-.
    destruct (Hwrite _ _ _ E) as (w' & Hrun & Hr' & Hc & Hs').
    unfold file_step. rewrite Hrun. simpl. do 2 eexists. split; [done|]. split; [|done].
    split; simpl; try done. intros s Hn. by rewrite Hs', Hfr.
  - injection Hs as <- <-. unfold file_step, Length, FileLength. subst.
    rewrite length_contents, Z2Nat.id by (by apply hdr_len).
    do 2 eexists. split; [done|]. split; [by split | done].
Qed.

Lemma file_run_refines h w0 os f w st outs st' :
  hdr_wf h → models h w0 f w st → is_int32 st.2 →
  Forall (λ o, ∀ p, o = FSeek p → is_int32 p) os →
  spec_run os st = Some (outs, st') →
  ∃ f' w', file_run os f w = Ok ((outs, f'), w') ∧ models h w0 f' w' st'.
Proof.
  intros Hh Hm Hpi Hseek. revert outs w st f Hpi Hm.
  induction Hseek as [|o os Ho _ IH]; intros outs w1 st f Hpi Hm Hs; simpl in *.
  - injection Hs as <- <-. eauto.
  - apply bind_Some in Hs as ([r st1] & Hs1 & Hs). apply bind_Some in Hs as ([rs st2] & Hs2 & Hs).
    injection Hs as <- <-. simpl in *.
    destruct (file_step_refines _ _ _ _ _ _ _ _ Hh Hm Hpi Hs1 Ho) as (f1 & w2 & -> & Hm1 & Hpi1).
    simpl. destruct (IH _ _ _ _ Hpi1 Hm1 Hs2) as (f' & w' & -> & Hm'). simpl. eauto.
Qed.

(** C23. An open file is an array of bytes with a cursor: every sequence of Seek,
    Read, Write, ReadAt, WriteAt and Length that stays within the contract ([int]
    positions and ends, enough bytes supplied) terminates without a fault and
    returns the bytes and counts the array gives - clipped at the end of the file,
    a partial first or last sector keeping its other bytes - and leaves every
    sector outside the file as it was. What [new char[]] left in the buffers does
    not show. *)
Theorem OpenFile_refines_array (h : FileHeader) (os : list file_op) (w : W) (pos : Z) outs st' :
  hdr_wf h → ready w → is_int32 pos →
  Forall (λ o, ∀ p, o = FSeek p → is_int32 p) os →
  spec_run os (contents w h, pos) = Some (outs, st') →
  ∃ f' w', file_run os (mkOpenFile h pos) w = Ok ((outs, f'), w') ∧ models h w f' w' st'.
Proof.
  intros Hh Hr Hpos Hseek Hs.
  apply (file_run_refines h w os _ _ (contents w h, pos)); try done.
Qed.
End Refinement.

(** A file of 200 bytes in the sectors 7 and 5 of a blank disk. *)
Definition hdr200 : FileHeader := mkFileHeader 200 2 ([7; 5] ++ replicate 28 0).

Lemma hdr200_wf : hdr_wf hdr200.
Proof.
  split; try done; simpl.
  - repeat constructor; done.
  - repeat constructor; set_solver.
  - repeat (constructor; [done|]). constructor.
Qed.

Lemma OpenFile_refines_array_witness :
  let os := [FWriteAt [1; 2; 3] 3 127; FRead 2; FSeek 126; FRead 5; FWrite [9] 1; FReadAt 500 125;
             FLength] in
  ∃ outs st f' w',
    file_run (W := list (list Z)) (λ _, 77) os (mkOpenFile hdr200 0) mem_blank = Ok ((outs, f'), w') ∧
    models hdr200 mem_blank f' w' st.
Proof.
  eexists _, _. apply (OpenFile_refines_array (λ _, 77) hdr200 _ mem_blank 0).
  - apply hdr200_wf.
  - apply mem_blank_ready.
  - done.
  - repeat (constructor; [by intros p [= <-]|]). constructor.
  - vm_compute. reflexivity.
Defined.
