(* ===== verification/Stub.v ===== *)
(** * The file system over UNIX (filesys/openfile.h and filesys.h, FILESYS_STUB)

    Where Nachos is built without its own file system, its two classes are over files of
    the host. The class OpenFile behaves as the one of openfile.cc does, as far as a
    program that stays inside its files can see; FileSystem::Create does not. *)
From S2P Require Import Prelude Words Sysdep SectorIO FileHdr OpenFile.
Import Sysdep.

Module Stub.

(** ** The classes *)

(** class OpenFile *)
Record OpenFile := mkOpenFile { file : Z; currentOffset : Z }.

Section Operations.
Context (permits : list Z → bool) (room : Z).

Definition new_OpenFile (f : Z) : OpenFile := mkOpenFile f 0.
Definition delete_OpenFile (f : OpenFile) : ST Host unit := Close (file f).

(** The bytes and the count. *)
Definition ReadAt (f : OpenFile) (numBytes position : Z) : ST Host (list Z * Z) :=
  let* _ := Lseek (file f) position SEEK_SET in
  ReadPartial (file f) numBytes.

Definition WriteAt (f : OpenFile) (from : list Z) (numBytes position : Z) : ST Host Z :=
  let* _ := Lseek (file f) position SEEK_SET in
  let* _ := WriteFile room (file f) from numBytes in
  st_ret numBytes.

Definition Read (f : OpenFile) (numBytes : Z) : ST Host (list Z * Z * OpenFile) :=
  let* r := ReadAt f numBytes (currentOffset f) in
  st_ret (r, mkOpenFile (file f) (int32 (currentOffset f + r.2))).

Definition Write (f : OpenFile) (from : list Z) (numBytes : Z) : ST Host (Z * OpenFile) :=
  let* numWritten := WriteAt f from numBytes (currentOffset f) in
  st_ret (numWritten, mkOpenFile (file f) (int32 (currentOffset f + numWritten))).

Definition Length (f : OpenFile) : ST Host Z :=
  let* _ := Lseek (file f) 0 SEEK_END in Tell (file f).

(** class FileSystem, which keeps nothing. *)
Definition Create (nm : list Z) (initialSize : Z) : ST Host bool :=
  let* fileDescriptor := OpenForWrite permits nm in
  if fileDescriptor =? -1 then st_ret false
  else let* _ := Close fileDescriptor in st_ret true.

Definition Open (nm : list Z) : ST Host (option OpenFile) :=
  let* fileDescriptor := OpenForReadWrite permits nm false in
  if fileDescriptor =? -1 then st_ret None else st_ret (Some (new_OpenFile fileDescriptor)).

(** [Unlink(name) == 0], where [Unlink] is true if it failed. *)
Definition Remove (nm : list Z) : ST Host bool :=
  let* b := Unlink nm in st_ret (negb b).

(** ** Runs of operations on an open file *)

(** What both classes have; this one has no Seek. *)
Inductive io_op :=
  | IRead (n : Z)
  | IWrite (d : list Z) (n : Z)
  | IReadAt (n position : Z)
  | IWriteAt (d : list Z) (n position : Z)
  | ILength.

Definition io_step (o : io_op) (f : OpenFile) : ST Host ((list Z * Z) * OpenFile) :=
  match o with
  | IRead n => Read f n
  | IWrite d n => let* r := Write f d n in st_ret ([], r.1, r.2)
  | IReadAt n p => let* r := ReadAt f n p in st_ret (r, f)
  | IWriteAt d n p => let* c := WriteAt f d n p in st_ret ([], c, f)
  | ILength => let* n := Length f in st_ret ([], n, f)
  end.

Fixpoint io_run (os : list io_op) (f : OpenFile) : ST Host (list (list Z * Z) * OpenFile) :=
  match os with
  | [] => st_ret ([], f)
  | o :: os =>
      let* r := io_step o f in
      let* rs := io_run os r.2 in
      st_ret (r.1 :: rs.1, rs.2)
  end.
End Operations.

(** The same on a file of the Nachos disk. *)
Definition on_disk (o : io_op) : file_op :=
  match o with
  | IRead n => FRead n
  | IWrite d n => FWrite d n
  | IReadAt n p => FReadAt n p
  | IWriteAt d n p => FWriteAt d n p
  | ILength => FLength
  end.

(** A count is not negative, and all of a write is done: it does not reach past the end
    of the file, where a Nachos file stops and a UNIX file grows. *)
Definition inside (o : io_op) (r : list Z * Z) : bool :=
  match o with
  | IRead n | IReadAt n _ => 0 <=? n
  | IWrite _ n | IWriteAt _ n _ => (0 <=? n) && (r.2 =? n)
  | ILength => true
  end.

(** ** One array of bytes *)

Section Host.
Context (room : Z).
Implicit Types (h : Host) (f : OpenFile) (data : list Z).

(** A UNIX file as bytes and a position of its own. *)
Record unix_models (fd : Z) f h (st : list Z * Z) : Prop := {
  um_file : file f = fd;
  um_pos : currentOffset f = st.2;
  um_range : 0 ≤ st.2 < 2 ^ 31;
  um_view : ∃ g, view fd h = Some g ∧ bytes g = st.1
}.

Lemma spec_count_whole data n p :
  0 ≤ n → spec_count data n p = n → n = 0 ∨ p + n ≤ Z.of_nat (length data).
Proof. unfold spec_count. lia. Qed.

(** The two requests. *)
Lemma ReadAt_run h f g n p :
  view (file f) h = Some g → 0 ≤ n → req_ok n p = true →
  ReadAt f n p h =
    Ok ((spec_read (bytes g) n p, Z.of_nat (length (spec_read (bytes g) n p))),
        set_view (file f) (mkFd (p + Z.of_nat (length (spec_read (bytes g) n p))) (bytes g)) h).
Proof.
  intros Hv Hn (Hp & Hpn)%req_ok_true. unfold ReadAt.
  rewrite (st_bind_Ok _ _ _ _ _ (Lseek_ok _ _ _ p Hv Hp ltac:(unfold is_int32 in *; lia))). cbv beta.
  rewrite (ReadPartial_ok _ _ (mkFd p (bytes g))) by (done || by eapply set_view_eq).
  cbn [offset bytes]. by erewrite set_view_twice by done.
Qed.

Lemma WriteAt_run h f g d n p :
  view (file f) h = Some g → req_ok n p && (n <=? Z.of_nat (length d)) = true →
  Z.of_nat (length (bytes g)) ≤ room →
  0 ≤ n → spec_count (bytes g) n p = n →
  ∃ h', WriteAt room f d n p h = Ok (n, h') ∧
    view (file f) h' = Some (mkFd (p + n) (spec_write (bytes g) d n p)).
Proof.
  intros Hv [(Hp & Hpn)%req_ok_true Hl%Z.leb_le]%andb_true_iff Hr Hn Hc. unfold WriteAt.
  rewrite (st_bind_Ok _ _ _ _ _ (Lseek_ok _ _ _ p Hv Hp ltac:(unfold is_int32 in *; lia))). cbv beta.
  erewrite st_bind_Ok.
  2: { apply WriteFile_ok; [by eapply set_view_eq | lia |].
       destruct (spec_count_whole _ _ _ Hn Hc); cbn [offset]; lia. }
  eexists. split; [done|]. cbn [offset bytes]. erewrite set_view_twice, set_view_eq by done.
  do 2 f_equal. unfold spec_write. rewrite Hc. destruct (spec_count_whole _ _ _ Hn Hc) as [->|He].
  - change (Z.to_nat 0) with 0%nat. rewrite take_0, splice_nil. done.
  - apply put_inside; [done|]. rewrite length_take. lia.
Qed.
(** The rest of the bytes stays, and so does the length. *)
Lemma length_spec_write data d n p :
  0 ≤ p → n ≤ Z.of_nat (length d) → 0 ≤ n → spec_count data n p = n →
  length (spec_write data d n p) = length data.
Proof.
  intros Hp Hd Hn Hc. unfold spec_write. rewrite Hc. destruct (spec_count_whole _ _ _ Hn Hc) as [->|He].
  - change (Z.to_nat 0) with 0%nat. by rewrite take_0, splice_nil.
  - apply length_splice. rewrite length_take. lia.
Qed.

Lemma io_step_refines fd f h st o r st' :
  unix_models fd f h st → Z.of_nat (length st.1) ≤ room → Z.of_nat (length st.1) < 2 ^ 31 →
  spec_step (on_disk o) st = Some (r, st') → inside o r = true →
  ∃ f' h', io_step room o f h = Ok (r, f', h') ∧ unix_models fd f' h' st' ∧
    length st'.1 = length st.1.
Proof.
  destruct st as [data pos]. intros [Hf Hp Hr (g & Hv & Hg)] Hroom Hlen Hs Hin. cbn [fst snd] in *.
  subst fd pos data. destruct o as [n|d n|n p|d n p|]; cbn [on_disk spec_step inside io_step] in *.
  - destruct (req_ok n _) eqn:E; [|done]. injection Hs as <- <-. apply Z.leb_le in Hin.
    unfold Read. st_step (ReadAt_run h f g n _ Hv Hin E). cbn [snd].
    apply req_ok_true in E as [_ Hi]. pose proof (length_spec_read (bytes g) n (currentOffset f)) as Hl.
    assert (0 ≤ Z.of_nat (length (spec_read (bytes g) n (currentOffset f))) ≤ n)
      by (rewrite Hl by lia; unfold spec_count; lia).
    unfold is_int32 in Hi. rewrite int32_id by (unfold is_int32; lia).
    do 2 eexists. split; [done|]. split; [|done].
    split; [done | done | cbn [snd]; lia | eexists; split; [by eapply set_view_eq | done] ].
  - destruct (req_ok n _ && _) eqn:E; [|done]. injection Hs as <- <-. cbn [snd] in Hin.
    apply andb_true_iff in Hin as [Hn%Z.leb_le Hc%Z.eqb_eq].
    destruct (WriteAt_run h f g d n _ Hv E Hroom Hn Hc) as (h' & Ew & Hv').
    unfold Write, st_bind. rewrite Ew. cbn [fst snd].
    apply andb_true_iff in E as [[Hp Hi]%req_ok_true Hd%Z.leb_le].
    unfold is_int32 in Hi. rewrite int32_id by (unfold is_int32; lia). rewrite Hc.
    do 2 eexists. split; [done|]. split; [|by apply length_spec_write].
    split; [done | done | cbn [snd]; lia | eexists; split; [done|done] ].
  - destruct (req_ok n p) eqn:E; [|done]. injection Hs as <- <-. apply Z.leb_le in Hin.
    st_step (ReadAt_run h f g n p Hv Hin E). do 2 eexists. split; [done|]. split; [|done].
    split; [done | done | done | eexists; split; [by eapply set_view_eq | done] ].
  - destruct (req_ok n p && _) eqn:E; [|done]. injection Hs as <- <-. cbn [snd] in Hin.
    apply andb_true_iff in Hin as [Hn%Z.leb_le Hc%Z.eqb_eq].
    destruct (WriteAt_run h f g d n p Hv E Hroom Hn Hc) as (h' & Ew & Hv').
    st_step Ew. apply andb_true_iff in E as [[Hp _]%req_ok_true Hd%Z.leb_le]. rewrite Hc.
    do 2 eexists. split; [done|]. split; [|by apply length_spec_write].
    split; [done | done | done | eexists; split; [done|done] ].
  - injection Hs as <- <-. st_step (seek_end (file f) h g Hv Hlen).
    do 2 eexists. split; [done|]. split; [|done].
    split; [done | done | done | eexists; split; [by eapply set_view_eq | done] ].
Qed.

Lemma io_run_refines fd os : ∀ f h st outs st',
  unix_models fd f h st → Z.of_nat (length st.1) ≤ room → Z.of_nat (length st.1) < 2 ^ 31 →
  spec_run (on_disk <$> os) st = Some (outs, st') → forallb id (zip_with inside os outs) = true →
  ∃ f' h', io_run room os f h = Ok (outs, f', h') ∧ unix_models fd f' h' st'.
Proof.
  induction os as [|o os IH]; intros f h st outs st' Hm Hr Hl Hs Hin; cbn [fmap list_fmap spec_run] in Hs.
  - injection Hs as <- <-. cbn. eauto.
  - apply bind_Some in Hs as ([r st1] & Hs1 & Hs). apply bind_Some in Hs as ([rs st2] & Hs2 & Hs).
    injection Hs as <- <-. cbn [fst snd zip_with forallb id] in *.
    apply andb_true_iff in Hin as [Hin1 Hin].
    destruct (io_step_refines _ _ _ _ _ _ _ Hm Hr Hl Hs1 Hin1) as (f1 & h1 & E1 & Hm1 & Hlen).
    rewrite <- Hlen in Hr, Hl. destruct (IH _ _ _ _ _ Hm1 Hr Hl Hs2 Hin) as (f' & h' & E & Hm').
    cbn [io_run]. st_step E1. cbn [fst snd]. st_step E. eauto.
Qed.
End Host.

(** ** The two classes *)

(** C24. The two classes OpenFile are one to a program that stays inside its files: on a
    file of the Nachos disk and a UNIX file with the same bytes, both just opened, every
    sequence of Read, Write, ReadAt, WriteAt and Length that the array of bytes allows, with
    counts that are not negative and writes that end within the file, gives the same bytes
    and the same counts from both, and leaves the same bytes in both. *)
Theorem OpenFiles_agree {W} `{SectorDevice W} (garbage : nat → Z) (room : Z) (hd : FileHeader) (w : W)
    (fd : Z) (g : Fd) (h : Host) (os : list io_op) outs st' :
  hdr_wf hd → ready w → view fd h = Some g → bytes g = contents w hd →
  Z.of_nat (length (bytes g)) ≤ room →
  spec_run (on_disk <$> os) (contents w hd, 0) = Some (outs, st') →
  forallb id (zip_with inside os outs) = true →
  ∃ f1 w' f2 h' g',
    file_run garbage (on_disk <$> os) (OpenFile.mkOpenFile hd 0) w = Ok (outs, f1, w') ∧
    io_run room os (new_OpenFile fd) h = Ok (outs, f2, h') ∧
    seekPosition f1 = currentOffset f2 ∧
    view fd h' = Some g' ∧ bytes g' = contents w' hd.
Proof.
  intros Hh Hr Hv Hg Hroom Hs Hin.
  destruct (file_run_refines garbage hd w (on_disk <$> os) (OpenFile.mkOpenFile hd 0) w (contents w hd, 0) outs st')
    as (f1 & w' & E1 & [_ _ Hd Hp _]); try done.
  { apply Forall_forall. intros o (o' & -> & _)%list_elem_of_fmap p. by destruct o'. }
  destruct (io_run_refines room fd os (new_OpenFile fd) h (contents w hd, 0) outs st')
    as (f2 & h' & E2 & [_ Hp2 _ (g' & Hv' & Hg')]).
  { split; [done | done | done | eauto]. }
  { cbn [fst]. congruence. }
  { cbn [fst]. rewrite length_contents, Z2Nat.id by (by apply hdr_len).
    pose proof (hdr_max_bytes hd Hh). change MaxFileSize with 3840 in *. lia. }
  { done. }
  { done. }
  exists f1, w', f2, h', g'. split_and!; try done; congruence.
Qed.

(** The file of hdr200 on a blank disk, and 200 zeros in a UNIX file. *)
Definition zeros_host : Host := mkHost {[ [97] := 0%nat ]} [replicate 200 0] [Some (0%nat, 0)].

Lemma OpenFiles_agree_witness :
  let os := [IWriteAt [1; 2; 3] 3 120; IReadAt 5 119; IWrite [9] 1; IRead 300; ILength] in
  ∃ f1 w' f2 h' g',
    file_run (W := list (list Z)) (λ _, 77) (on_disk <$> os) (OpenFile.mkOpenFile hdr200 0) mem_blank =
      Ok ([([], 3); ([0; 1; 2; 3; 0], 5); ([], 1);
           (replicate 119 0 ++ [1; 2; 3] ++ replicate 77 0, 199); ([], 200)], f1, w') ∧
    io_run 1000 os (new_OpenFile 0) zeros_host =
      Ok ([([], 3); ([0; 1; 2; 3; 0], 5); ([], 1);
           (replicate 119 0 ++ [1; 2; 3] ++ replicate 77 0, 199); ([], 200)], f2, h') ∧
    seekPosition f1 = currentOffset f2 ∧
    view 0 h' = Some g' ∧ bytes g' = contents w' hdr200.
Proof.
  cbv zeta.
  eapply (OpenFiles_agree (W := list (list Z)) (λ _, 77) 1000 hdr200 mem_blank 0 (mkFd 0 (replicate 200 0)) zeros_host
    [IWriteAt [1; 2; 3] 3 120; IReadAt 5 119; IWrite [9] 1; IRead 300; ILength]);
    [apply hdr200_wf | apply mem_blank_ready | vm_compute; reflexivity | vm_compute; reflexivity
    | vm_compute; discriminate | vm_compute; reflexivity | vm_compute; reflexivity].
Defined.

(** ** The class FileSystem *)

Section FileSystem.
Context (permits : list Z → bool).
Implicit Types (h : Host) (nm : list Z).

(** Create of a file that is there succeeds and empties it: the class of filesys.cc
    refuses. *)
Lemma Create_truncates nm size h i b :
  permits nm = true → names h !! nm = Some i → nodes h !! i = Some b →
  ∃ h', Create permits nm size h = Ok (true, h') ∧ names h' = names h ∧ nodes h' = <[i := []]> (nodes h).
Proof.
  intros Hp Hn Hb. unfold Create, st_bind, OpenForWrite, open. rewrite Hp, Hn. cbn [negb].
  set (h1 := mkHost _ _ _). destruct (new_fd i h1) as [fd h2] eqn:E.
  assert (Hb1 : nodes h1 !! i = Some []) by (apply list_lookup_insert_eq; by eapply lookup_lt_Some).
  destruct (new_fd_ok _ _ _ _ _ Hb1 E) as (Hfd & _ & He & Hnm & Hnd).
  cbn [fst]. rewrite ASSERT_true by (apply Z.geb_le; lia). cbn [res_bind].
  destruct (Z.eqb_spec fd (-1)); [lia|]. unfold Close, close. rewrite He. cbn.
  eexists. split; [done|]. cbn. by rewrite Hnm, Hnd.
Qed.

Lemma Open_missing nm h : names h !! nm = None → Open permits nm h = Ok (None, h).
Proof. intros Hn. unfold Open. by st_step (open_missing permits nm h Hn). Qed.

Lemma Open_existing nm h i b :
  permits nm = true → names h !! nm = Some i → nodes h !! i = Some b →
  ∃ fd h', Open permits nm h = Ok (Some (new_OpenFile fd), h') ∧ view fd h' = Some (mkFd 0 b).
Proof.
  intros Hp Hn Hb. destruct (open_existing permits nm h i b false Hp Hn Hb) as (fd & h' & E & Hfd & Hv & _).
  exists fd, h'. unfold Open. st_step E. by destruct (Z.eqb_spec fd (-1)); [lia|].
Qed.

(** Remove says whether there was a file, and takes the name away. *)
Lemma Remove_unlinks nm h :
  Remove nm h =
    Ok (bool_decide (is_Some (names h !! nm)), mkHost (delete nm (names h)) (nodes h) (fds h)).
Proof.
  unfold Remove, Unlink, unlink, st_bind. destruct (names h !! nm) eqn:E; cbn; [done|].
  rewrite delete_id by done. by destruct h.
Qed.
End FileSystem.
End Stub.
