(* ===== verification/Directory.v ===== *)
(** * Directories (src/code/filesys/directory.h, directory.cc)

    The table of (name, header sector) entries, its image in the bytes of the
    directory file, and the proof that it is a finite map from names to sectors. C
    strings are lists of characters; the end of the list stands for the NUL. *)
From S2P Require Import Prelude Words.

Definition FileNameMaxLen : nat := 9.

(** ** The string functions of the C library the code calls *)

Fixpoint strncmp (a b : list Z) (n : nat) : Z :=
  match n with
  | O => 0
  | S n =>
      let c1 := default 0 (head a) in
      let c2 := default 0 (head b) in
      if negb (c1 =? c2) then c1 - c2
      else if c1 =? 0 then 0
      else strncmp (tail a) (tail b) n
  end.

(** The [n] characters [strncpy(_, src, n)] writes: [src] up to its NUL, then NULs. *)
Fixpoint cpad (n : nat) (src : list Z) : list Z :=
  match n with
  | O => []
  | S n =>
      let c := default 0 (head src) in
      c :: (if c =? 0 then replicate n 0 else cpad n (tail src))
  end.

Definition strncpy (dst src : list Z) (n : nat) : list Z := splice dst 0 (cpad n src).

(** The characters [printf("%s")] reads from the array [a]: up to a NUL, which must
    be inside it. *)
Fixpoint c_string (a : list Z) : res (list Z) :=
  match a with
  | [] => Fail MemoryFault
  | c :: a => if c =? 0 then Ok [] else let? s := c_string a in Ok (c :: s)
  end.

(** ** The data *)

(** class DirectoryEntry; [pad1] and [pad2] are the bytes the compiler adds to align
    [sector] and the whole entry. *)
Record DirectoryEntry := mkEntry {
  inUse : bool;
  pad1 : list Z;
  sector : Z;
  name : list Z;
  pad2 : list Z
}.

Definition sizeof_DirectoryEntry : Z := 20.

(** class Directory *)
Record Directory := mkDirectory { tableSize : Z; table : list DirectoryEntry }.

Definition entry_bytes (e : DirectoryEntry) : list Z :=
  Z.b2z (inUse e) :: pad1 e ++ int_bytes (sector e) ++ name e ++ pad2 e.

Definition entry_of_bytes (bs : list Z) : DirectoryEntry :=
  mkEntry (negb (default 0 (head bs) =? 0)) (slice bs 1 3) (bytes_int (slice bs 4 4))
          (slice bs 8 10) (slice bs 18 2).

Definition table_bytes (t : list DirectoryEntry) : list Z := t ≫= entry_bytes.

Fixpoint table_of_bytes (n : nat) (bs : list Z) : list DirectoryEntry :=
  match n with
  | O => []
  | S n => entry_of_bytes (take 20 bs) :: table_of_bytes n (drop 20 bs)
  end.

(** ** The operations *)

Definition new_Directory (garbage : nat → Z) (size : Z) : Directory :=
  let raw := table_of_bytes (Z.to_nat size)
               ((λ i, uint8 (garbage i)) <$> seq 0 (20 * Z.to_nat size)) in
  mkDirectory size
    ((λ e, mkEntry false (pad1 e) (sector e) (name e) (pad2 e)) <$> raw).

Fixpoint FindIndex_loop (i : Z) (t : list DirectoryEntry) (nm : list Z) : Z :=
  match t with
  | [] => -1
  | e :: t =>
      if inUse e && (strncmp (name e) nm FileNameMaxLen =? 0) then i
      else FindIndex_loop (i + 1) t nm
  end.

Definition FindIndex (nm : list Z) (d : Directory) : Z := FindIndex_loop 0 (table d) nm.

Definition Find (nm : list Z) (d : Directory) : res Z :=
  let i := FindIndex nm d in
  if negb (i =? -1) then let? e := arr_get (table d) i in Ok (sector e) else Ok (-1).

Fixpoint Add_loop (t : list DirectoryEntry) (nm : list Z) (newSector : Z)
    : option (list DirectoryEntry) :=
  match t with
  | [] => None
  | e :: t =>
      if negb (inUse e) then
        Some (mkEntry true (pad1 e) newSector (strncpy (name e) nm FileNameMaxLen) (pad2 e) :: t)
      else t' ← Add_loop t nm newSector; Some (e :: t')
  end.

Definition Add (nm : list Z) (newSector : Z) (d : Directory) : bool * Directory :=
  if negb (FindIndex nm d =? -1) then (false, d)
  else
    match Add_loop (table d) nm newSector with
    | Some t => (true, mkDirectory (tableSize d) t)
    | None => (false, d)
    end.

Definition Remove (nm : list Z) (d : Directory) : res (bool * Directory) :=
  let i := FindIndex nm d in
  if i =? -1 then Ok (false, d)
  else
    let? e := arr_get (table d) i in
    let? t := arr_set (table d) i (mkEntry false (pad1 e) (sector e) (name e) (pad2 e)) in
    Ok (true, mkDirectory (tableSize d) t).

(** The names List prints. *)
Fixpoint List_loop (t : list DirectoryEntry) : res (list (list Z)) :=
  match t with
  | [] => Ok []
  | e :: t =>
      if inUse e then
        let? s := c_string (name e) in
        let? r := List_loop t in Ok (s :: r)
      else List_loop t
  end.
Definition List (d : Directory) : res (list (list Z)) := List_loop (table d).

(** Overwrite the first bytes of the table with [data], as FetchFrom does. *)
Definition load_table (data : list Z) (d : Directory) : Directory :=
  mkDirectory (tableSize d)
    (table_of_bytes (length (table d)) (splice (table_bytes (table d)) 0 data)).

(** ** Strings: facts *)

Lemma length_cpad n s : length (cpad n s) = n.
Proof.
  revert s. induction n as [|n IH]; intros s; simpl; [done|]. f_equal.
  destruct (_ =? 0); [apply length_replicate | apply IH].
Qed.

Lemma strncmp_cpad a b n : strncmp a b n = 0 ↔ cpad n a = cpad n b.
Proof.
  revert a b. induction n as [|n IH]; intros a b; [done|].
  cbn [strncmp cpad]. set (c1 := default 0 (head a)). set (c2 := default 0 (head b)).
  destruct (Z.eqb_spec c1 c2) as [<-|Hne]; simpl.
  - destruct (Z.eqb_spec c1 0); [done|]. rewrite IH. split; [by intros -> | by intros [=]].
  - split; [lia | by intros [=]].
Qed.

Lemma cpad_cpad n s : cpad n (cpad n s) = cpad n s.
Proof.
  revert s. induction n as [|n IH]; intros s; [done|]. simpl.
  destruct (Z.eqb_spec (default 0 (head s)) 0) as [E|E]; [done|]. by rewrite IH.
Qed.

Lemma cpad_app n s t : length s = n → cpad n (s ++ t) = cpad n s.
Proof.
  revert s. induction n as [|n IH]; intros s Hl; [done|]. destruct s as [|c s]; [done|].
  simpl. destruct (c =? 0); [done|]. rewrite IH; [done|]. by injection Hl.
Qed.

Lemma length_strncpy dst src n :
  (n ≤ length dst)%nat → length (strncpy dst src n) = length dst.
Proof. intros. unfold strncpy. rewrite length_splice; [done|]. rewrite length_cpad. lia. Qed.

Lemma cpad_strncpy dst src n : cpad n (strncpy dst src n) = cpad n src.
Proof.
  unfold strncpy, splice. rewrite take_0. simpl.
  rewrite cpad_app by apply length_cpad. apply cpad_cpad.
Qed.

(** A string that ends within [n] characters is read back whole. *)
Lemma c_string_cpad n s rest :
  Forall (λ c, c ≠ 0) s → (length s < n)%nat → c_string (cpad n s ++ rest) = Ok s.
Proof.
  intros Hs. revert n. induction Hs as [|c s Hc Hs IH]; intros n Hn.
  - destruct n; [lia|]. done.
  - destruct n as [|n]; [simpl in Hn; lia|]. simpl.
    rewrite (proj2 (Z.eqb_neq c 0)) by done. rewrite IH by (simpl in Hn; lia). done.
Qed.

Lemma c_string_exact s rest :
  Forall (λ c, c ≠ 0) s → c_string (cpad (length s) s ++ 0 :: rest) = Ok s.
Proof.
  intros Hs. induction Hs as [|c s Hc Hs IH]; [done|]. simpl.
  rewrite (proj2 (Z.eqb_neq c 0)) by done.
  by rewrite IH.
Qed.

Lemma c_string_full s rest :
  Forall (λ c, c ≠ 0) s → Forall (λ c, c ≠ 0) rest →
  c_string (cpad (length s) s ++ rest) = Fail MemoryFault.
Proof.
  intros Hs Hr. induction Hs as [|c s Hc Hs IH]; simpl.
  - induction Hr as [|c r Hc _ IH]; [done|]. simpl.
    rewrite (proj2 (Z.eqb_neq c 0)) by done. by rewrite IH.
  - rewrite (proj2 (Z.eqb_neq c 0)) by done. by rewrite IH.
Qed.

#[local] Arguments strncmp : simpl never.
#[local] Arguments cpad : simpl never.
#[local] Arguments strncpy : simpl never.

(** ** A directory as a finite map *)
Section Map.
Implicit Types (t : list DirectoryEntry) (e : DirectoryEntry) (d : Directory).

(** Two names are the same file when they agree on the first [FileNameMaxLen]
    characters: the key is those characters, padded. *)
Definition key_of (nm : list Z) : list Z := cpad FileNameMaxLen nm.

Definition live t : list DirectoryEntry := filter (λ e, inUse e = true) t.
Definition keys t : list (list Z) := (λ e, key_of (name e)) <$> live t.
Definition bindings t : list (list Z * Z) := (λ e, (key_of (name e), sector e)) <$> live t.
Definition dir_map d : gmap (list Z) Z := list_to_map (bindings (table d)).

Definition entry_wf e : Prop :=
  length (pad1 e) = 3%nat ∧ length (name e) = 10%nat ∧ length (pad2 e) = 2%nat ∧
  is_int32 (sector e).

(** The invariant: the table has its size, and no name is in it twice. *)
Record dir_wf d : Prop := {
  dir_size : Z.of_nat (length (table d)) = tableSize d;
  dir_entries : Forall entry_wf (table d);
  dir_keys : NoDup (keys (table d));
  dir_sectors : ∀ k s, dir_map d !! k = Some s → 0 ≤ s
}.

Lemma fst_bindings t : (bindings t).*1 = keys t.
Proof. unfold bindings, keys. by rewrite <- list_fmap_compose. Qed.

Lemma live_cons e t : live (e :: t) = if inUse e then e :: live t else live t.
Proof. unfold live. rewrite filter_cons. by destruct (inUse e). Qed.

Lemma live_app t1 t2 : live (t1 ++ t2) = live t1 ++ live t2.
Proof. apply filter_app. Qed.

Lemma dir_map_split d t1 e t2 :
  table d = t1 ++ e :: t2 → NoDup (keys (table d)) →
  dir_map d = if inUse e then <[key_of (name e) := sector e]> (list_to_map (bindings (t1 ++ t2)))
              else list_to_map (bindings (t1 ++ t2)).
Proof.
  intros Ht Hnd. unfold dir_map, bindings, keys in *. rewrite Ht in *.
  rewrite !live_app, live_cons in *. destruct (inUse e); [|done].
  rewrite <- list_to_map_cons. apply list_to_map_proper.
  - by rewrite <- list_fmap_compose.
  - rewrite !fmap_app. simpl. symmetry. apply Permutation_middle.
Qed.

(** FindIndex finds the entry of the key, if there is one. *)
Lemma FindIndex_loop_spec t nm i :
  0 ≤ i →
  (FindIndex_loop i t nm = -1 ∧ key_of nm ∉ keys t) ∨
  (∃ t1 e t2, t = t1 ++ e :: t2 ∧ inUse e = true ∧ key_of (name e) = key_of nm ∧
     FindIndex_loop i t nm = i + Z.of_nat (length t1)).
Proof.
  revert i. induction t as [|e t IH]; intros i Hi; simpl.
  { left. split; [done|]. apply not_elem_of_nil. }
  destruct (inUse e) eqn:Hu; simpl.
  - destruct (Z.eqb_spec (strncmp (name e) nm FileNameMaxLen) 0) as [Hc|Hc];
      rewrite strncmp_cpad in Hc.
    + right. exists [], e, t. repeat split; try done. simpl. lia.
    + destruct (IH (i + 1)) as [[-> Hn] | (t1 & e' & t2 & -> & Hu' & Hk & ->)]; [lia | |].
      * left. split; [done|]. unfold keys. rewrite live_cons, Hu. simpl.
        apply not_elem_of_cons. split; [by intros E; apply Hc|]. done.
      * right. exists (e :: t1), e', t2. repeat split; try done. simpl. lia.
  - destruct (IH (i + 1)) as [[-> Hn] | (t1 & e' & t2 & -> & Hu' & Hk & ->)]; [lia | |].
    + left. split; [done|]. unfold keys. by rewrite live_cons, Hu.
    + right. exists (e :: t1), e', t2. repeat split; try done. simpl. lia.
Qed.

Lemma dir_map_None d k : dir_map d !! k = None ↔ k ∉ keys (table d).
Proof. unfold dir_map. rewrite <- not_elem_of_list_to_map. by rewrite fst_bindings. Qed.

Lemma FindIndex_spec nm d :
  dir_wf d →
  (FindIndex nm d = -1 ∧ dir_map d !! key_of nm = None) ∨
  (∃ t1 e t2, table d = t1 ++ e :: t2 ∧ inUse e = true ∧ key_of (name e) = key_of nm ∧
     FindIndex nm d = Z.of_nat (length t1) ∧ dir_map d !! key_of nm = Some (sector e)).
Proof.
  intros Hwf. destruct (FindIndex_loop_spec (table d) nm 0)
    as [[H1 H2] | (t1 & e & t2 & Ht & Hu & Hk & Hi)]; [done | |].
  - left. split; [done|]. by apply dir_map_None.
  - right. exists t1, e, t2. repeat split; try done.
    rewrite (dir_map_split d t1 e t2), Hu, Hk by (try done; by apply Hwf).
    by rewrite lookup_insert_eq.
Qed.

Lemma arr_get_split {A} (l1 : list A) x l2 :
  arr_get (l1 ++ x :: l2) (Z.of_nat (length l1)) = Ok x.
Proof. apply arr_get_lookup; [lia|]. rewrite Nat2Z.id. by rewrite list_lookup_middle. Qed.

Lemma arr_set_split {A} (l1 : list A) x y l2 :
  arr_set (l1 ++ x :: l2) (Z.of_nat (length l1)) y = Ok (l1 ++ y :: l2).
Proof.
  rewrite arr_set_in by (rewrite length_app; simpl; lia). rewrite Nat2Z.id.
  by rewrite insert_app_r_alt, Nat.sub_diag.
Qed.

Lemma Dir_Find_ok nm d :
  dir_wf d → Find nm d = Ok (default (-1) (dir_map d !! key_of nm)).
Proof.
  intros Hwf. unfold Find.
  destruct (FindIndex_spec nm d Hwf) as [[-> ->] | (t1 & e & t2 & Ht & _ & _ & -> & ->)]; [done|].
  rewrite (proj2 (Z.eqb_neq _ _)) by lia. simpl. rewrite Ht, arr_get_split. done.
Qed.

(** The first free slot, if there is one. *)
Lemma Add_loop_spec t nm s :
  (Add_loop t nm s = None ∧ Forall (λ e, inUse e = true) t) ∨
  (∃ t1 e t2, t = t1 ++ e :: t2 ∧ inUse e = false ∧
     Add_loop t nm s = Some (t1 ++ mkEntry true (pad1 e) s
                               (strncpy (name e) nm FileNameMaxLen) (pad2 e) :: t2)).
Proof.
  induction t as [|e t IH]; [by left|]. simpl. destruct (inUse e) eqn:Hu; simpl.
  - destruct IH as [[-> ?] | (t1 & e' & t2 & -> & ? & ->)].
    + left. split; [done|]. by constructor.
    + right. by exists (e :: t1), e', t2.
  - right. by exists [], e, t.
Qed.

Lemma list_to_map_live t1 e t2 :
  inUse e = false → bindings (t1 ++ e :: t2) = bindings (t1 ++ t2).
Proof. intros Hu. unfold bindings. by rewrite !live_app, live_cons, Hu. Qed.

(** Replacing one entry [e] by [e'] of the same shape. *)
Lemma replace_wf d t1 e t2 e' :
  dir_wf d → table d = t1 ++ e :: t2 → entry_wf e' →
  (inUse e' = true → inUse e = false ∧ dir_map d !! key_of (name e') = None ∧ 0 ≤ sector e') →
  let d' := mkDirectory (tableSize d) (t1 ++ e' :: t2) in
  dir_wf d' ∧
  dir_map d' = if inUse e' then <[key_of (name e') := sector e']> (dir_map d)
               else if inUse e then delete (key_of (name e)) (dir_map d) else dir_map d.
Proof.
  intros [Hs He Hk Hsec] Ht He' Hnew d'.
  assert (Hnd' : NoDup (keys (t1 ++ e' :: t2))).
  { unfold keys in *. rewrite Ht in Hk. rewrite live_app, live_cons in *.
    destruct (inUse e') eqn:Hu'.
    - destruct (Hnew eq_refl) as (Hu & Hno & _). apply dir_map_None in Hno.
      unfold keys in Hno. rewrite Ht, live_app, live_cons, Hu in Hno. rewrite Hu in Hk.
      rewrite fmap_app in *. simpl. rewrite <- Permutation_middle.
      by constructor.
    - destruct (inUse e); [|done]. rewrite fmap_app in *. simpl in Hk.
      rewrite <- Permutation_middle in Hk. by apply NoDup_cons in Hk as [_ ?]. }
  assert (Hmap : dir_map d' = if inUse e' then <[key_of (name e') := sector e']> (dir_map d)
               else if inUse e then delete (key_of (name e)) (dir_map d) else dir_map d).
  { rewrite (dir_map_split d' t1 e' t2) by done.
    rewrite (dir_map_split d t1 e t2) by done.
    destruct (inUse e') eqn:Hu'.
    - destruct (Hnew eq_refl) as (-> & _ & _). done.
    - destruct (inUse e) eqn:Hu; [|done]. rewrite delete_insert_id; [done|].
      apply not_elem_of_list_to_map. rewrite fst_bindings. unfold keys in *.
      rewrite Ht, live_app, live_cons, Hu, fmap_app in Hk. simpl in Hk.
      rewrite <- Permutation_middle in Hk. apply NoDup_cons in Hk as [? _].
      by rewrite live_app, fmap_app. }
  split; [|done]. split; simpl.
  - rewrite <- Hs, Ht, !length_app. done.
  - rewrite Ht, Forall_app, Forall_cons in He. rewrite Forall_app, Forall_cons. tauto.
  - done.
  - intros k s. rewrite Hmap. destruct (inUse e') eqn:Hu'.
    + destruct (Hnew eq_refl) as (_ & _ & ?). rewrite lookup_insert.
      case_decide; [by intros [= <-] | apply Hsec].
    + destruct (inUse e); [|apply Hsec]. rewrite lookup_delete.
      case_decide; [done | apply Hsec].
Qed.

Lemma added_entry_wf e nm s b :
  entry_wf e → is_int32 s →
  entry_wf (mkEntry b (pad1 e) s (strncpy (name e) nm FileNameMaxLen) (pad2 e)).
Proof.
  intros (? & Hn & ? & ?) Hs. split; [done|]. split; [|done]. cbn [name].
  rewrite length_strncpy; [done|]. rewrite Hn. unfold FileNameMaxLen. lia.
Qed.

Lemma Add_ok nm s d :
  dir_wf d → 0 ≤ s → is_int32 s →
  let full := bool_decide (Forall (λ e, inUse e = true) (table d)) in
  let dup := bool_decide (is_Some (dir_map d !! key_of nm)) in
  ∃ d', Add nm s d = (negb dup && negb full, d') ∧ dir_wf d' ∧ tableSize d' = tableSize d ∧
    dir_map d' = if dup || full then dir_map d else <[key_of nm := s]> (dir_map d).
Proof.
  intros Hwf Hs0 Hs full dup. unfold Add. subst full dup.
  destruct (FindIndex_spec nm d Hwf) as [[-> Hno] | (t1 & e & t2 & Ht & _ & _ & -> & Hyes)].
  - simpl. rewrite Hno, (bool_decide_false (is_Some None)) by by intros [? ?].
    destruct (Add_loop_spec (table d) nm s) as [[-> Hall] | (t1 & e & t2 & Ht & Hu & ->)].
    + rewrite bool_decide_true by done. simpl. eauto.
    + rewrite (bool_decide_false (Forall _ _)).
      2: { rewrite Ht, Forall_app, Forall_cons. intros (_ & ? & _). congruence. }
      simpl. eexists. split; [done|].
      assert (He : entry_wf e).
      { destruct Hwf as [_ He _ _]. rewrite Ht, Forall_app, Forall_cons in He. tauto. }
      assert (Hkey : key_of (strncpy (name e) nm FileNameMaxLen) = key_of nm)
        by apply cpad_strncpy.
      edestruct (replace_wf d t1 e t2) as [Hwf' Hm'];
        [done | done | | | split; [exact Hwf'|split; [done|]]].
      * by apply added_entry_wf.
      * simpl. intros _. rewrite Hkey. done.
      * rewrite Hm'. simpl. by rewrite Hkey.
  - rewrite (proj2 (Z.eqb_neq _ _)) by lia. simpl. rewrite Hyes.
    rewrite (bool_decide_true (is_Some _)) by eauto. simpl. eauto.
Qed.

Lemma Dir_Remove_ok nm d :
  dir_wf d →
  ∃ d', Remove nm d = Ok (bool_decide (is_Some (dir_map d !! key_of nm)), d') ∧
    dir_wf d' ∧ tableSize d' = tableSize d ∧ dir_map d' = delete (key_of nm) (dir_map d).
Proof.
  intros Hwf. unfold Remove.
  destruct (FindIndex_spec nm d Hwf) as [[-> Hno] | (t1 & e & t2 & Ht & Hu & Hk & -> & Hyes)].
  - simpl. rewrite Hno, bool_decide_false by by intros [? ?].
    exists d. repeat split; try done; try apply Hwf. by rewrite delete_id.
  - rewrite (proj2 (Z.eqb_neq _ _)) by lia.
    rewrite Ht, arr_get_split. simpl. rewrite arr_set_split. simpl.
    rewrite Hyes, bool_decide_true by eauto. eexists. split; [done|].
    assert (He : entry_wf e).
    { destruct Hwf as [_ He _ _]. rewrite Ht, Forall_app, Forall_cons in He. tauto. }
    destruct (replace_wf d t1 e t2 (mkEntry false (pad1 e) (sector e) (name e) (pad2 e)))
      as [Hwf' Hm']; try done.
    split; [done|]. split; [done|]. rewrite Hm'. simpl. by rewrite Hu, Hk.
Qed.
End Map.

(** ** The bytes of the table *)
Section Bytes.
Implicit Types (t : list DirectoryEntry) (e : DirectoryEntry) (d : Directory).

Lemma length_entry_bytes e : entry_wf e → length (entry_bytes e) = 20%nat.
Proof.
  intros (H1 & H2 & H3 & _). unfold entry_bytes. cbn [length].
  rewrite !length_app, H1, H2, H3. done.
Qed.

Lemma entry_of_entry_bytes e : entry_wf e → entry_of_bytes (entry_bytes e) = e.
Proof.
  destruct e as [u p1 s nm p2]. intros (H1 & H2 & H3 & H4).
  unfold entry_of_bytes, entry_bytes, slice. cbn [inUse pad1 sector name pad2] in *.
  assert (H5 : length (int_bytes s) = 4%nat) by apply length_le_bytes.
  f_equal.
  - simpl. by destruct u.
  - simpl. rewrite drop_0, take_app_length'; done.
  - change (drop 4 (Z.b2z u :: ?l)) with (drop 3 l).
    rewrite drop_app_length', take_app_length' by done. by apply bytes_int_bytes.
  - change (drop 8 (Z.b2z u :: ?l)) with (drop 7 l).
    rewrite app_assoc, drop_app_length' by (rewrite length_app; lia).
    by rewrite take_app_length'.
  - change (drop 18 (Z.b2z u :: ?l)) with (drop 17 l).
    rewrite app_assoc, app_assoc, drop_app_length' by (rewrite !length_app; lia).
    by rewrite take_ge by lia.
Qed.

Lemma table_bytes_cons e t : table_bytes (e :: t) = entry_bytes e ++ table_bytes t.
Proof. done. Qed.

Lemma length_table_bytes t : Forall entry_wf t → length (table_bytes t) = (20 * length t)%nat.
Proof.
  induction 1 as [|e t He _ IH]; [done|].
  rewrite table_bytes_cons, length_app, length_entry_bytes, IH by done. cbn [length]. lia.
Qed.

Lemma table_of_table_bytes t rest :
  Forall entry_wf t → table_of_bytes (length t) (table_bytes t ++ rest) = t.
Proof.
  induction 1 as [|e t He _ IH]; [done|]. rewrite table_bytes_cons. cbn [length table_of_bytes].
  rewrite <- app_assoc, take_app_length', drop_app_length' by (symmetry; by apply length_entry_bytes).
  by rewrite entry_of_entry_bytes, IH.
Qed.

Lemma entry_of_bytes_wf bs : length bs = 20%nat → entry_wf (entry_of_bytes bs).
Proof.
  intros Hl. unfold entry_wf, entry_of_bytes. simpl. rewrite !length_slice by lia.
  repeat split; try done; apply int32_range.
Qed.

Lemma table_of_bytes_wf n bs :
  length bs = (20 * n)%nat →
  length (table_of_bytes n bs) = n ∧ Forall entry_wf (table_of_bytes n bs).
Proof.
  revert bs. induction n as [|n IH]; intros bs Hl; simpl; [done|].
  destruct (IH (drop 20 bs)) as [H1 H2]; [rewrite length_drop; lia|].
  split; [by rewrite H1|]. constructor; [|done]. apply entry_of_bytes_wf.
  rewrite length_take. lia.
Qed.

Lemma new_Directory_ok garbage n :
  0 ≤ n → dir_wf (new_Directory garbage n) ∧ tableSize (new_Directory garbage n) = n ∧
    dir_map (new_Directory garbage n) = ∅.
Proof.
  intros Hn. unfold new_Directory.
  set (raw := table_of_bytes _ _).
  assert (length raw = Z.to_nat n ∧ Forall entry_wf raw) as [Hl He].
  { apply table_of_bytes_wf. by rewrite length_fmap, length_seq. }
  set (t := (λ e, mkEntry false (pad1 e) (sector e) (name e) (pad2 e)) <$> raw).
  assert (Hlive : live t = []).
  { apply filter_none. unfold t. intros e Hin. apply list_elem_of_fmap in Hin as (e0 & -> & _).
    done. }
  assert (Hmap : dir_map (mkDirectory n t) = ∅).
  { unfold dir_map, bindings. simpl. by rewrite Hlive. }
  split; [|done]. split; simpl.
  - unfold t. rewrite length_fmap, Hl. lia.
  - unfold t. apply Forall_fmap. eapply Forall_impl; [exact He|]. intros e ?. done.
  - unfold keys. rewrite Hlive. apply NoDup_nil_2.
  - intros k s. rewrite Hmap. done.
Qed.

(** Reading back a written table gives it whole. *)
Lemma load_table_bytes d d' :
  dir_wf d → dir_wf d' → tableSize d' = tableSize d →
  load_table (table_bytes (table d)) d' = d.
Proof.
  intros [Hs He _ _] [Hs' He' _ _] Ht. unfold load_table.
  assert (length (table d') = length (table d)) as Hl by lia.
  rewrite splice_all by (rewrite !length_table_bytes; [lia | done | done]).
  rewrite Hl, Ht. rewrite <- (app_nil_r (table_bytes _)).
  rewrite table_of_table_bytes by done. by destruct d.
Qed.

Lemma length_live d : dir_wf d → size (dir_map d) = length (live (table d)).
Proof.
  intros [_ _ Hk _]. unfold dir_map.
  rewrite <- (length_fmap (λ e, (key_of (name e), sector e)) (live _)).
  rewrite <- length_map_to_list. apply Permutation_length, map_to_list_to_map.
  change (NoDup (bindings (table d)).*1). by rewrite fst_bindings.
Qed.

(** The table is full exactly when the map has as many names as slots. *)
Lemma full_iff d :
  dir_wf d →
  (Forall (λ e, inUse e = true) (table d) ↔ tableSize d ≤ Z.of_nat (size (dir_map d))).
Proof.
  intros Hwf. rewrite length_live by done. destruct Hwf as [<- _ _ _].
  induction (table d) as [|e t IH]; simpl; [by split|].
  rewrite live_cons, Forall_cons. pose proof (length_filter (λ e, inUse e = true) t) as Hf.
  fold (live t) in Hf. destruct (inUse e); simpl; split.
  - intros [_ H]. apply IH in H. lia.
  - intros H. split; [done|]. apply IH. lia.
  - by intros [? _].
  - lia.
Qed.
End Bytes.

(** ** The directory refines a bounded map *)
Section Refinement.
Inductive dir_op := DFind (nm : list Z) | DAdd (nm : list Z) (newSector : Z) | DRemove (nm : list Z).

Definition dir_step (o : dir_op) (d : Directory) : res (Z * Directory) :=
  match o with
  | DFind nm => let? s := Find nm d in Ok (s, d)
  | DAdd nm s => let '(b, d') := Add nm s d in Ok (Z.b2z b, d')
  | DRemove nm => let? r := Remove nm d in Ok (Z.b2z r.1, r.2)
  end.

Definition map_step (cap : Z) (o : dir_op) (m : gmap (list Z) Z) : Z * gmap (list Z) Z :=
  match o with
  | DFind nm => (default (-1) (m !! key_of nm), m)
  | DAdd nm s =>
      if bool_decide (is_Some (m !! key_of nm)) || (cap <=? Z.of_nat (size m)) then (0, m)
      else (1, <[key_of nm := s]> m)
  | DRemove nm => (Z.b2z (bool_decide (is_Some (m !! key_of nm))), delete (key_of nm) m)
  end.

Fixpoint dir_run (os : list dir_op) (d : Directory) : res (list Z * Directory) :=
  match os with
  | [] => Ok ([], d)
  | o :: os => let? r := dir_step o d in let? rs := dir_run os r.2 in Ok (r.1 :: rs.1, rs.2)
  end.

Fixpoint map_run (cap : Z) (os : list dir_op) (m : gmap (list Z) Z) : list Z * gmap (list Z) Z :=
  match os with
  | [] => ([], m)
  | o :: os => let r := map_step cap o m in let rs := map_run cap os r.2 in (r.1 :: rs.1, rs.2)
  end.

(** A sector number the disk can have. *)
Definition op_ok (o : dir_op) : Prop :=
  match o with DAdd _ s => 0 ≤ s ∧ is_int32 s | _ => True end.

Lemma bool_decide_full d :
  dir_wf d → bool_decide (Forall (λ e, inUse e = true) (table d)) =
    (tableSize d <=? Z.of_nat (size (dir_map d))).
Proof.
  intros Hwf. pose proof (full_iff d Hwf) as Hf. destruct (Z.leb_spec (tableSize d) (Z.of_nat (size (dir_map d)))).
  - by apply bool_decide_true, Hf.
  - apply bool_decide_false. rewrite Hf. lia.
Qed.

Lemma dir_step_refines o d :
  dir_wf d → op_ok o →
  ∃ d', dir_step o d = Ok ((map_step (tableSize d) o (dir_map d)).1, d') ∧ dir_wf d' ∧
    tableSize d' = tableSize d ∧ dir_map d' = (map_step (tableSize d) o (dir_map d)).2.
Proof.
  intros Hwf Ho. destruct o as [nm|nm s|nm]; cbn [dir_step map_step op_ok] in *.
  - rewrite Dir_Find_ok by done. simpl. eauto.
  - destruct Ho as [Hs0 Hs]. destruct (Add_ok nm s d Hwf Hs0 Hs) as (d' & -> & H1 & H2 & Hm).
    rewrite bool_decide_full in * by done. exists d'. rewrite Hm.
    destruct (bool_decide (is_Some _)), (tableSize d <=? _); done.
  - destruct (Dir_Remove_ok nm d Hwf) as (d' & -> & H1 & H2 & Hm). simpl. eauto.
Qed.

(** C28. A directory of [n] entries behaves, for every sequence of Find, Add and
    Remove, as a map from names - cut to nine characters - to sectors that holds at
    most [n] names: Find gives the sector or -1, Add fails with nothing changed when
    the name is there or the table is full and otherwise binds it, Remove unbinds it
    or fails. No access leaves the table, whatever [new DirectoryEntry[]] left in
    it. *)
Theorem Directory_refines_map (garbage : nat → Z) (n : Z) (os : list dir_op) :
  0 ≤ n → Forall op_ok os →
  ∃ d, dir_run os (new_Directory garbage n) = Ok ((map_run n os ∅).1, d) ∧
    dir_wf d ∧ dir_map d = (map_run n os ∅).2.
Proof.
  intros Hn Hos. destruct (new_Directory_ok garbage n Hn) as (Hwf & Hsz & Hm).
  revert Hwf Hsz Hm. generalize (new_Directory garbage n) as d, (∅ : gmap (list Z) Z) as m.
  induction Hos as [|o os Ho _ IH]; intros d m Hwf Hsz <-; simpl; [eauto|].
  destruct (dir_step_refines o d Hwf Ho) as (d1 & -> & Hwf1 & Hsz1 & Hm1).
  rewrite Hsz in *. simpl. destruct (IH d1 _ Hwf1 Hsz1 Hm1) as (d2 & -> & ?). simpl. eauto.
Qed.

Lemma Directory_refines_map_witness :
  let os := [DAdd [97] 5; DAdd [98] 6; DAdd [97] 7; DAdd [99] 8; DFind [97]; DRemove [97];
             DFind [97]; DAdd [99] 8; DFind [99]] in
  ∃ d, dir_run os (new_Directory (λ i, Z.of_nat i) 2) = Ok ((map_run 2 os ∅).1, d) ∧
    dir_wf d ∧ dir_map d = (map_run 2 os ∅).2.
Proof.
  apply (Directory_refines_map (λ i, Z.of_nat i) 2); [done|].
  repeat (constructor; [simpl; try done; unfold is_int32; lia|]). constructor.
Defined.

(** strncpy leaves the tenth byte of [name] as the allocation left it: a name
    of nine characters is terminated only if that byte happens to be zero, and
    otherwise printing the directory reads past the end of the entry. *)
Theorem List_unterminated_name (nm : list Z) (s c : Z) (d : Directory) e t :
  length nm = 9%nat → Forall (λ c, c ≠ 0) nm →
  table d = e :: t → inUse e = false → length (name e) = 10%nat → name e !! 9%nat = Some c →
  FindIndex nm d = -1 →
  List (Add nm s d).2 = if c =? 0 then let? r := List_loop t in Ok (nm :: r)
                        else Fail MemoryFault.
Proof.
  intros Hl Hz Ht Hu Hlen Hc Hno. unfold Add, List. rewrite Hno. cbn [Z.eqb negb].
  rewrite Ht. simpl Add_loop. rewrite Hu. simpl negb. cbn [snd table List_loop inUse name].
  assert (strncpy (name e) nm FileNameMaxLen = cpad 9 nm ++ [c]) as ->.
  { unfold strncpy, splice. rewrite take_0, length_cpad. cbn [app].
    f_equal. change (0 + FileNameMaxLen)%nat with 9%nat.
    apply list_eq. intros [|i]; rewrite lookup_drop; [done|].
    rewrite lookup_ge_None_2 by lia. done. }
  rewrite <- Hl. destruct (Z.eqb_spec c 0) as [->|Hne].
  - by rewrite c_string_exact.
  - by rewrite c_string_full by (try done; by constructor).
Qed.

Lemma List_unterminated_name_witness :
  let e := mkEntry false [1; 1; 1] 0 (replicate 10 7) [1; 1] in
  let nm := [97; 97; 97; 97; 97; 97; 97; 97; 97] in
  List (Add nm 5 (mkDirectory 1 [e])).2 = Fail MemoryFault.
Proof.
  intros e nm. apply (List_unterminated_name nm 5 7 (mkDirectory 1 [e]) e []); try done.
  repeat (constructor; [done|]). constructor.
Defined.
End Refinement.
