(* ===== verification/FileSys.v ===== *)
(** * The file system (src/code/filesys/filesys.h, filesys.cc)

    Format, Create, Open, Remove and List over the bitmap and directory files, and the
    proof that together they are a finite map from names to byte arrays with an
    account of the free sectors. [garbage] is what uninitialised memory held. *)
From S2P Require Import Prelude Words BitMap Directory SectorIO FileHdr OpenFile.

Definition FreeMapSector : Z := 0.
Definition DirectorySector : Z := 1.
Definition BitsInByte : Z := 8.
Definition FreeMapFileSize : Z := Z.quot NumSectors BitsInByte.
Definition NumDirEntries : Z := 10.
Definition DirectoryFileSize : Z := sizeof_DirectoryEntry * NumDirEntries.

(** class FileSystem: the two files that stay open. *)
Record FileSystem := mkFileSystem { freeMapFile : OpenFile; directoryFile : OpenFile }.

Section Operations.
Context {W : Type} `{SectorDevice W} (garbage : nat → Z).

(** bitmap.cc: FetchFrom, WriteBack *)
Definition BitMap_FetchFrom (file : OpenFile) (bm : BitMap) : ST W BitMap := λ w,
  let? r := ReadAt garbage (hdr file) (numWords bm * 4) 0 w in
  Ok (load_bytes r.1 bm, r.2).
Definition BitMap_WriteBack (file : OpenFile) (bm : BitMap) : ST W unit := λ w,
  let? r := WriteAt garbage (hdr file) (map_bytes bm) (numWords bm * 4) 0 w in
  Ok (tt, r.2).

(** directory.cc: FetchFrom, WriteBack *)
Definition Dir_FetchFrom (file : OpenFile) (d : Directory) : ST W Directory := λ w,
  let? r := ReadAt garbage (hdr file) (tableSize d * sizeof_DirectoryEntry) 0 w in
  Ok (load_table r.1 d, r.2).
Definition Dir_WriteBack (file : OpenFile) (d : Directory) : ST W unit := λ w,
  let? r := WriteAt garbage (hdr file) (table_bytes (table d))
              (tableSize d * sizeof_DirectoryEntry) 0 w in
  Ok (tt, r.2).

Definition new_FileSystem (format : bool) : ST W FileSystem :=
  if format then
    let* freeMap := st_lift (new_BitMap garbage SectorIO.NumSectors) in
    let directory := new_Directory garbage NumDirEntries in
    let mapHdr := new_FileHeader garbage in
    let dirHdr := new_FileHeader garbage in
    let* r := st_lift (Mark FreeMapSector freeMap) in
    let* r := st_lift (Mark DirectorySector r.2) in
    let* r := st_lift (Allocate FreeMapFileSize (mapHdr, r.2)) in
    let* _ := st_lift (ASSERT r.1) in
    let '(mapHdr, freeMap) := r.2 in
    let* r := st_lift (Allocate DirectoryFileSize (dirHdr, freeMap)) in
    let* _ := st_lift (ASSERT r.1) in
    let '(dirHdr, freeMap) := r.2 in
    let* _ := Hdr_WriteBack FreeMapSector mapHdr in
    let* _ := Hdr_WriteBack DirectorySector dirHdr in
    let* freeMapFile := new_OpenFile FreeMapSector in
    let* directoryFile := new_OpenFile DirectorySector in
    let* _ := BitMap_WriteBack freeMapFile freeMap in
    let* _ := Dir_WriteBack directoryFile directory in
    st_ret (mkFileSystem freeMapFile directoryFile)
  else
    let* freeMapFile := new_OpenFile FreeMapSector in
    let* directoryFile := new_OpenFile DirectorySector in
    st_ret (mkFileSystem freeMapFile directoryFile).

Definition Create (fs : FileSystem) (nm : list Z) (initialSize : Z) : ST W bool :=
  let* directory := Dir_FetchFrom (directoryFile fs) (new_Directory garbage NumDirEntries) in
  let* found := st_lift (Directory.Find nm directory) in
  if negb (found =? -1) then st_ret false
  else
    let* freeMap := st_lift (new_BitMap garbage SectorIO.NumSectors) in
    let* freeMap := BitMap_FetchFrom (freeMapFile fs) freeMap in
    let* r := st_lift (BitMap.Find freeMap) in
    let '(sector, freeMap) := r in
    if sector =? -1 then st_ret false
    else
      let '(added, directory) := Add nm sector directory in
      if negb added then st_ret false
      else
        let hdr := new_FileHeader garbage in
        let* r := st_lift (Allocate initialSize (hdr, freeMap)) in
        let '(hdr, freeMap) := r.2 in
        if negb r.1 then st_ret false
        else
          let* _ := Hdr_WriteBack sector hdr in
          let* _ := Dir_WriteBack (directoryFile fs) directory in
          let* _ := BitMap_WriteBack (freeMapFile fs) freeMap in
          st_ret true.

Definition Open (fs : FileSystem) (nm : list Z) : ST W (option OpenFile) :=
  let* directory := Dir_FetchFrom (directoryFile fs) (new_Directory garbage NumDirEntries) in
  let* sector := st_lift (Directory.Find nm directory) in
  if sector >=? 0 then
    let* openFile := new_OpenFile sector in st_ret (Some openFile)
  else st_ret None.

Definition Remove (fs : FileSystem) (nm : list Z) : ST W bool :=
  let* directory := Dir_FetchFrom (directoryFile fs) (new_Directory garbage NumDirEntries) in
  let* sector := st_lift (Directory.Find nm directory) in
  if sector =? -1 then st_ret false
  else
    let* fileHdr := Hdr_FetchFrom sector in
    let* freeMap := st_lift (new_BitMap garbage SectorIO.NumSectors) in
    let* freeMap := BitMap_FetchFrom (freeMapFile fs) freeMap in
    let* r := st_lift (Deallocate fileHdr freeMap) in
    let* r := st_lift (Clear sector r.2) in
    let freeMap := r.2 in
    let* r := st_lift (Directory.Remove nm directory) in
    let directory := r.2 in
    let* _ := BitMap_WriteBack (freeMapFile fs) freeMap in
    let* _ := Dir_WriteBack (directoryFile fs) directory in
    st_ret true.

(** The names printed. *)
Definition List (fs : FileSystem) : ST W (list (list Z)) :=
  let* directory := Dir_FetchFrom (directoryFile fs) (new_Directory garbage NumDirEntries) in
  st_lift (Directory.List directory).
End Operations.

(** ** The consistent states of the disk *)
Section Invariant.
Context {W : Type} `{SectorDevice W} (garbage : nat → Z).
Implicit Types (fs : FileSystem) (w : W) (bm : BitMap) (d : Directory) (h : FileHeader).

(** The header stored in sector [s], and all the sectors of that file. *)
Definition hdr_at w (s : Z) : FileHeader := hdr_of_bytes (sector w s).
Definition file_sectors w (s : Z) : gset Z := {[s]} ∪ list_to_set (hdr_sectors (hdr_at w s)).

Definition map_hdr fs : FileHeader := hdr (freeMapFile fs).
Definition dir_hdr fs : FileHeader := hdr (directoryFile fs).

(** The sectors of the file system itself. *)
Definition sys_list fs : list Z :=
  [FreeMapSector; DirectorySector] ++ hdr_sectors (map_hdr fs) ++ hdr_sectors (dir_hdr fs).
Definition sys_sectors fs : gset Z := list_to_set (sys_list fs).

Record file_ok fs w (s : Z) : Prop := {
  fo_valid : valid_sector s;
  fo_hdr : hdr_wf (hdr_at w s);
  fo_self : s ∉ hdr_sectors (hdr_at w s);
  fo_sys : file_sectors w s ## sys_sectors fs
}.

(** The two system files are in place; the map file holds [bm] and the directory
    file holds [d]; the files of [d] are well formed and share no sector with each
    other or the system; [bm] marks exactly the sectors in use. *)
Record fs_inv fs w bm d : Prop := {
  fi_ready : ready w;
  fi_map_hdr : hdr_wf (map_hdr fs);
  fi_dir_hdr : hdr_wf (dir_hdr fs);
  fi_map_len : numBytes (map_hdr fs) = FreeMapFileSize;
  fi_dir_len : numBytes (dir_hdr fs) = DirectoryFileSize;
  fi_nodup : NoDup (sys_list fs);
  fi_map_at : hdr_at w FreeMapSector = map_hdr fs;
  fi_dir_at : hdr_at w DirectorySector = dir_hdr fs;
  fi_bm : wf bm;
  fi_bits : numBits bm = SectorIO.NumSectors;
  fi_map : contents w (map_hdr fs) = map_bytes bm;
  fi_dir : dir_wf d;
  fi_size : tableSize d = NumDirEntries;
  fi_table : contents w (dir_hdr fs) = table_bytes (table d);
  fi_files : ∀ k s, dir_map d !! k = Some s → file_ok fs w s;
  fi_disj : ∀ k1 k2 s1 s2, dir_map d !! k1 = Some s1 → dir_map d !! k2 = Some s2 →
              k1 ≠ k2 → file_sectors w s1 ## file_sectors w s2;
  fi_marked : ∀ x, x ∈ marked bm ↔
                x ∈ sys_sectors fs ∨ ∃ k s, dir_map d !! k = Some s ∧ x ∈ file_sectors w s
}.

(** The files as names and bytes. *)
Definition files w d : gmap (list Z) (list Z) := (λ s, contents w (hdr_at w s)) <$> dir_map d.

Lemma contents_frame w w' h :
  (∀ s, s ∈ hdr_sectors h → sector w' s = sector w s) → contents w' h = contents w h.
Proof.
  intros Hs. unfold contents. apply list_fmap_ext. intros i x _. unfold byte_at.
  destruct (hdr_sectors h !! _) eqn:E; [|done]. rewrite Hs; [done|].
  apply list_elem_of_lookup. eauto.
Qed.

Lemma hdr_at_same w w' s : sector w' s = sector w s → hdr_at w' s = hdr_at w s.
Proof. unfold hdr_at. by intros ->. Qed.

Lemma same_disk_inv fs w w' bm d :
  same_disk w w' → ready w' → fs_inv fs w bm d → fs_inv fs w' bm d.
Proof.
  intros Hs Hr Hi. assert (Hh : ∀ s, hdr_at w' s = hdr_at w s) by (intros s; by apply hdr_at_same).
  assert (Hf : ∀ s, file_sectors w' s = file_sectors w s).
  { intros s. unfold file_sectors. by rewrite Hh. }
  destruct Hi. split; try done; rewrite ?Hh, ?(contents_same w w') by done; try done.
  - intros k s Hk. destruct (fi_files0 k s Hk). split; rewrite ?Hh, ?Hf; done.
  - intros k1 k2 s1 s2. rewrite !Hf. apply fi_disj0.
  - intros x. rewrite fi_marked0. split; (intros [?|(k & s & Hk & Hx)]; [by left|]);
      right; exists k, s; (split; [exact Hk|]); rewrite Hf in *; exact Hx.
Qed.

Lemma same_disk_files w w' d : same_disk w w' → files w' d = files w d.
Proof.
  intros Hs. unfold files. apply map_fmap_ext. intros k s _.
  rewrite (hdr_at_same w w') by apply Hs. by apply contents_same.
Qed.

(** The fetches of the operations bring in the stored map and table. *)
Lemma fetch_map fs w bm d bm0 :
  fs_inv fs w bm d → wf bm0 → numBits bm0 = SectorIO.NumSectors →
  ∃ w', BitMap_FetchFrom garbage (freeMapFile fs) bm0 w = Ok (bm, w') ∧ ready w' ∧
    same_disk w w'.
Proof.
  intros Hi Hwf Hb. destruct Hi. unfold BitMap_FetchFrom.
  assert (Hw : numWords bm0 * 4 = 128).
  { destruct Hwf as (_ & -> & _). by rewrite Hb. }
  rewrite Hw. fold (map_hdr fs).
  destruct (ReadAt_ok garbage (map_hdr fs) 128 0 w) as (w' & -> & Hr & Hs); try done.
  exists w'. split; [|done]. simpl. do 2 f_equal. rewrite fi_map0.
  rewrite slice_all; [apply load_map_bytes; [done | done | by rewrite Hb, fi_bits0]|].
  apply Nat2Z.inj. rewrite length_map_bytes by done.
  destruct fi_bm0 as (_ & -> & _). by rewrite fi_bits0.
Qed.

Lemma fetch_dir fs w bm d :
  fs_inv fs w bm d →
  ∃ w', Dir_FetchFrom garbage (directoryFile fs) (new_Directory garbage NumDirEntries) w
          = Ok (d, w') ∧ ready w' ∧ same_disk w w'.
Proof.
  intros Hi. destruct (new_Directory_ok garbage NumDirEntries) as (Hwf & Hsz & _); [done|].
  destruct Hi. unfold Dir_FetchFrom. fold (dir_hdr fs).
  destruct (ReadAt_ok garbage (dir_hdr fs) (NumDirEntries * sizeof_DirectoryEntry) 0 w)
    as (w' & Hrd & Hr & Hs); try done.
  rewrite Hsz, Hrd. exists w'. repeat split; try done. simpl. do 2 f_equal. rewrite fi_table0.
  rewrite slice_all; [by apply load_table_bytes; [done | done | congruence]|].
  destruct fi_dir0. rewrite length_table_bytes by done.
  rewrite fi_size0 in dir_size. change NumDirEntries with 10 in *.
  change sizeof_DirectoryEntry with 20. lia.
Qed.

(** The write-backs put the new map or table in place and touch nothing else. *)
Lemma flush_map fs w bm :
  ready w → hdr_wf (map_hdr fs) → numBytes (map_hdr fs) = FreeMapFileSize →
  wf bm → numBits bm = SectorIO.NumSectors →
  ∃ w', BitMap_WriteBack garbage (freeMapFile fs) bm w = Ok (tt, w') ∧ ready w' ∧
    contents w' (map_hdr fs) = map_bytes bm ∧
    ∀ s, s ∉ hdr_sectors (map_hdr fs) → sector w' s = sector w s.
Proof.
  intros Hr Hh Hl Hwf Hb. unfold BitMap_WriteBack. fold (map_hdr fs).
  assert (Hw : numWords bm * 4 = 128) by (destruct Hwf as (_ & -> & _); by rewrite Hb).
  pose proof (length_map_bytes bm Hwf) as Hlm. rewrite Hw in *.
  destruct (WriteAt_ok garbage (map_hdr fs) (map_bytes bm) 128 0 w) as (w' & -> & Hr' & Hc & Hs);
    [done | done | done | done | lia |].
  exists w'. repeat split; try done. rewrite Hc. unfold clip. rewrite Hl.
  change (if (128 <=? 0) || (0 >=? FreeMapFileSize) then 0 else 128 `min` (FreeMapFileSize - 0))
    with 128.
  rewrite take_ge by lia. apply splice_all. rewrite length_contents, Hl. 
  change FreeMapFileSize with 128. lia.
Qed.

Lemma flush_dir fs w d :
  ready w → hdr_wf (dir_hdr fs) → numBytes (dir_hdr fs) = DirectoryFileSize →
  dir_wf d → tableSize d = NumDirEntries →
  ∃ w', Dir_WriteBack garbage (directoryFile fs) d w = Ok (tt, w') ∧ ready w' ∧
    contents w' (dir_hdr fs) = table_bytes (table d) ∧
    ∀ s, s ∉ hdr_sectors (dir_hdr fs) → sector w' s = sector w s.
Proof.
  intros Hr Hh Hl Hwf Hz. unfold Dir_WriteBack. fold (dir_hdr fs).
  assert (Hlt : length (table_bytes (table d)) = 200%nat).
  { destruct Hwf. rewrite length_table_bytes by done. rewrite Hz in dir_size.
    change NumDirEntries with 10 in dir_size. lia. }
  rewrite Hz. change (NumDirEntries * sizeof_DirectoryEntry) with 200.
  destruct (WriteAt_ok garbage (dir_hdr fs) (table_bytes (table d)) 200 0 w)
    as (w' & -> & Hr' & Hc & Hs); [done | done | done | done | lia |].
  exists w'. repeat split; try done. rewrite Hc. unfold clip. rewrite Hl.
  change (if (200 <=? 0) || (0 >=? DirectoryFileSize) then 0 else 200 `min` (DirectoryFileSize - 0))
    with 200.
  rewrite take_ge by lia. apply splice_all. rewrite length_contents, Hl.
  change DirectoryFileSize with 200. lia.
Qed.
End Invariant.

(** ** Creating *)
Section Creating.
Context {W : Type} `{SectorDevice W} (garbage : nat → Z).
Implicit Types (fs : FileSystem) (w : W) (bm : BitMap) (d : Directory) (h : FileHeader).

Lemma elem_of_sys fs x :
  x ∈ sys_sectors fs ↔ x = FreeMapSector ∨ x = DirectorySector ∨
    x ∈ hdr_sectors (map_hdr fs) ∨ x ∈ hdr_sectors (dir_hdr fs).
Proof.
  unfold sys_sectors, sys_list. rewrite elem_of_list_to_set, !elem_of_app, !elem_of_cons.
  rewrite elem_of_nil. tauto.
Qed.

Lemma elem_of_file_sectors w s x :
  x ∈ file_sectors w s ↔ x = s ∨ x ∈ hdr_sectors (hdr_at w s).
Proof.
  unfold file_sectors. by rewrite elem_of_union, elem_of_singleton, elem_of_list_to_set.
Qed.

(** The header sectors of the system are in neither of its data areas, which are
    disjoint. *)
Lemma sys_disjoint fs :
  NoDup (sys_list fs) →
  (∀ x, x ∈ hdr_sectors (map_hdr fs) → x ≠ FreeMapSector ∧ x ≠ DirectorySector) ∧
  (∀ x, x ∈ hdr_sectors (dir_hdr fs) → x ≠ FreeMapSector ∧ x ≠ DirectorySector) ∧
  (∀ x, x ∈ hdr_sectors (map_hdr fs) → x ∉ hdr_sectors (dir_hdr fs)).
Proof.
  unfold sys_list. cbn [app]. rewrite !NoDup_cons, NoDup_app, !not_elem_of_cons, !not_elem_of_app.
  intros ((_ & ? & ?) & (? & ?) & _ & ? & _).
  repeat split; try (intros ->); naive_solver.
Qed.

(** Writes to [T] keep every file that shares no sector with [T]. *)
Lemma file_frame (T : gset Z) w w' s :
  (∀ x, x ∉ T → sector w' x = sector w x) → file_sectors w s ## T →
  hdr_at w' s = hdr_at w s ∧ file_sectors w' s = file_sectors w s ∧
  contents w' (hdr_at w' s) = contents w (hdr_at w s).
Proof.
  intros Ho Hd. assert (Hs : ∀ x, x ∈ file_sectors w s → sector w' x = sector w x).
  { intros x Hx. apply Ho. set_solver. }
  assert (Hh : hdr_at w' s = hdr_at w s).
  { apply hdr_at_same, Hs, elem_of_file_sectors. by left. }
  split; [done|]. unfold file_sectors. rewrite Hh. split; [done|].
  apply contents_frame. intros x Hx. apply Hs, elem_of_file_sectors. by right.
Qed.

(** The sectors Create and Remove write besides a header. *)
Definition sys_data fs : gset Z :=
  list_to_set (hdr_sectors (map_hdr fs)) ∪ list_to_set (hdr_sectors (dir_hdr fs)).

Lemma elem_of_sys_data fs x :
  x ∈ sys_data fs ↔ x ∈ hdr_sectors (map_hdr fs) ∨ x ∈ hdr_sectors (dir_hdr fs).
Proof. unfold sys_data. by rewrite elem_of_union, !elem_of_list_to_set. Qed.

Lemma sys_data_sys fs x : x ∈ sys_data fs → x ∈ sys_sectors fs.
Proof. rewrite elem_of_sys_data, elem_of_sys. tauto. Qed.

Lemma sys_hdr_not_data fs :
  NoDup (sys_list fs) → FreeMapSector ∉ sys_data fs ∧ DirectorySector ∉ sys_data fs.
Proof.
  intros (H1 & H2 & _)%sys_disjoint. rewrite !elem_of_sys_data. naive_solver.
Qed.

Lemma create_commit fs w bm d s h bm' d' k :
  fs_inv fs w bm d → valid_sector s → s ∉ marked bm → hdr_wf h → s ∉ hdr_sectors h →
  Forall (λ x, x ∉ marked bm) (hdr_sectors h) →
  wf bm' → numBits bm' = SectorIO.NumSectors →
  marked bm' = {[s]} ∪ marked bm ∪ list_to_set (hdr_sectors h) →
  dir_wf d' → tableSize d' = NumDirEntries → dir_map d !! k = None →
  dir_map d' = <[k := s]> (dir_map d) →
  ∃ w', (let* _ := Hdr_WriteBack s h in
         let* _ := Dir_WriteBack garbage (directoryFile fs) d' in
         let* _ := BitMap_WriteBack garbage (freeMapFile fs) bm' in
         st_ret true) w = Ok (true, w') ∧
    fs_inv fs w' bm' d' ∧ hdr_at w' s = h ∧
    ∀ k' s', dir_map d !! k' = Some s' → contents w' (hdr_at w' s') = contents w (hdr_at w s').
Proof.
  intros Hi Hv Hsm Hh Hself Hfree Hwf' Hb' Hm' Hd' Hz' Hk Hdm. rewrite Forall_forall in Hfree.
  destruct Hi. pose proof (sys_disjoint _ fi_nodup0) as (Hd1 & Hd2 & Hd3).
  destruct (sys_hdr_not_data _ fi_nodup0) as [Hn0 Hn1].
  assert (Hsys : ∀ x, x ∈ sys_sectors fs → x ∈ marked bm) by (intros x ?; apply fi_marked0; by left).
  assert (HsT : s ∉ sys_data fs) by (intros ?; by apply Hsm, Hsys, sys_data_sys).
  (* the three writes *)
  destruct (WriteSector_ok w s (hdr_bytes h) fi_ready0 Hv) as (w1 & E1 & Hr1 & Hs1).
  { apply length_hdr_bytes, Hh. }
  destruct (flush_dir garbage fs w1 d' Hr1 fi_dir_hdr0 fi_dir_len0 Hd' Hz')
    as (w2 & E2 & Hr2 & Hc2 & Hs2).
  destruct (flush_map garbage fs w2 bm' Hr2 fi_map_hdr0 fi_map_len0 Hwf' Hb')
    as (w3 & E3 & Hr3 & Hc3 & Hs3).
  exists w3. split; [unfold Hdr_WriteBack; by st_step E1; st_step E2; st_step E3|].
  assert (Hout : ∀ x, x ∉ sys_data fs → sector w3 x = if decide (x = s) then hdr_bytes h else sector w x).
  { intros x Hx. rewrite elem_of_sys_data in Hx. rewrite Hs3, Hs2, Hs1 by tauto. done. }
  assert (Hat : hdr_at w3 s = h).
  { unfold hdr_at. rewrite Hout, decide_True by done. by apply hdr_roundtrip. }
  assert (Hof : ∀ k' s', dir_map d !! k' = Some s' → hdr_at w3 s' = hdr_at w s' ∧
    file_sectors w3 s' = file_sectors w s' ∧
    contents w3 (hdr_at w3 s') = contents w (hdr_at w s')).
  { intros k' s' Hk'. apply (file_frame ({[s]} ∪ sys_data fs)).
    - intros x Hx. rewrite Hout, decide_False by set_solver. done.
    - intros x Hx. rewrite elem_of_union, elem_of_singleton. intros [->|Hx'].
      + apply Hsm, fi_marked0. right; eauto.
      + destruct (fi_files0 _ _ Hk'). by eapply fo_sys0, sys_data_sys. }
  assert (Hmine : ∀ x, x ∈ file_sectors w3 s → x ∉ marked bm).
  { intros x Hx. apply elem_of_file_sectors in Hx as [->|Hx]; [done|]. rewrite Hat in Hx. auto. }
  split; [|split; [done|]]; [|intros k' s' Hk'; by apply (Hof k')].
  assert (Hsys_at : ∀ x, x ∉ sys_data fs → x ∈ marked bm → hdr_at w3 x = hdr_at w x).
  { intros x Hx Hxm. apply hdr_at_same. rewrite Hout, decide_False by (done || by intros ->). done. }
  split; try done.
  - rewrite Hsys_at; [done | done |]. apply Hsys, elem_of_sys. by left.
  - rewrite Hsys_at; [done | done |]. apply Hsys, elem_of_sys. by right; left.
  - rewrite <- Hc2. apply contents_frame. intros x Hx. apply Hs3. by intros ?%Hd3.
  - intros k' s' Hk'. rewrite Hdm in Hk'. apply lookup_insert_Some in Hk' as [[<- <-]|[Hne Hk']].
    + split; rewrite ?Hat; try done. intros x Hx Hx'. by eapply Hmine, Hsys.
    + destruct (Hof _ _ Hk') as (Ha & Hb & _). destruct (fi_files0 _ _ Hk').
      split; rewrite ?Ha, ?Hb; done.
  - assert (Hnew : ∀ k' s', dir_map d !! k' = Some s' → file_sectors w3 s' ## file_sectors w3 s).
    { intros k' s' Hk' x Hx Hx'. eapply Hmine; [exact Hx'|]. apply fi_marked0. right.
      destruct (Hof _ _ Hk') as (_ & Hb & _). rewrite Hb in Hx. eauto. }
    intros k1 k2 s1 s2 H1 H2 Hne. rewrite Hdm in H1, H2.
    apply lookup_insert_Some in H1 as [[<- <-]|[Hne1 H1]];
      apply lookup_insert_Some in H2 as [[<- <-]|[Hne2 H2]]; try done.
    + symmetry. by apply (Hnew k2).
    + by apply (Hnew k1).
    + destruct (Hof _ _ H1) as (_ & -> & _), (Hof _ _ H2) as (_ & -> & _).
      by apply (fi_disj0 k1 k2).
  - intros x. rewrite Hm'. rewrite !elem_of_union, elem_of_singleton, elem_of_list_to_set, fi_marked0.
    split.
    + intros [[->|[Hx|(k' & s' & Hk' & Hx)]]|Hx].
      * right. exists k, s. rewrite Hdm, lookup_insert_eq, elem_of_file_sectors. auto.
      * by left.
      * right. exists k', s'. destruct (Hof _ _ Hk') as (_ & -> & _). split; [|done].
        rewrite Hdm, lookup_insert_ne; [done|]. intros ->. congruence.
      * right. exists k, s. rewrite Hdm, lookup_insert_eq, elem_of_file_sectors, Hat. auto.
    + intros [Hx|(k' & s' & Hk' & Hx)]; [tauto|]. rewrite Hdm in Hk'.
      apply lookup_insert_Some in Hk' as [[<- <-]|[Hne Hk']].
      * apply elem_of_file_sectors in Hx as [->|Hx]; [tauto|]. rewrite Hat in Hx. tauto.
      * destruct (Hof _ _ Hk') as (_ & Hb & _). rewrite Hb in Hx. left; right; right. eauto.
Qed.

(** The free sectors after some were handed out. *)
Lemma size_free_diff bm bm' (X : gset Z) :
  numBits bm' = numBits bm → X ⊆ free bm → marked bm' = X ∪ marked bm →
  Z.of_nat (size (free bm')) = Z.of_nat (size (free bm)) - Z.of_nat (size X).
Proof.
  intros Hb Hs Hm. assert (free bm' = free bm ∖ X) as ->.
  { unfold free. rewrite Hb, Hm. set_solver. }
  pose proof (subseteq_size X (free bm) Hs). rewrite size_difference by done. lia.
Qed.

Lemma size_hdr_sectors h s :
  hdr_wf h → s ∉ hdr_sectors h →
  Z.of_nat (size ({[s]} ∪ list_to_set (hdr_sectors h) : gset Z)) =
    1 + divRoundUp (numBytes h) SectorSize.
Proof.
  intros Hh Hs. rewrite size_union by set_solver.
  rewrite size_singleton, size_list_to_set by apply Hh.
  rewrite <- (hdr_ns _ Hh), <- (length_hdr_sectors _ Hh). lia.
Qed.

(** Whether a new file of [size] bytes fits. *)
Definition fits bm d (nm : list Z) (fileSize : Z) : bool :=
  bool_decide (dir_map d !! key_of nm = None) &&
  (Z.of_nat (size (dir_map d)) <? NumDirEntries) &&
  (1 + divRoundUp fileSize SectorSize <=? Z.of_nat (size (free bm))).

Lemma files_insert w w' d d' k s :
  dir_map d !! k = None → dir_map d' = <[k := s]> (dir_map d) →
  (∀ k' s', dir_map d !! k' = Some s' → contents w' (hdr_at w' s') = contents w (hdr_at w s')) →
  files w' d' = <[k := contents w' (hdr_at w' s)]> (files w d).
Proof.
  intros Hk Hd Ho. unfold files. rewrite Hd, fmap_insert. f_equal.
  apply map_fmap_ext. intros k' s' Hk'. by eapply Ho.
Qed.

(** The part of Create after the directory lookup failed to find the name. *)
Lemma Create_ok fs w bm d nm fileSize :
  fs_inv fs w bm d → 0 ≤ fileSize ≤ MaxFileSize →
  ∃ w' bm' d', Create garbage fs nm fileSize w = Ok (fits bm d nm fileSize, w') ∧
    fs_inv fs w' bm' d' ∧
    if fits bm d nm fileSize then
      (∃ bytes, Z.of_nat (length bytes) = fileSize ∧
         files w' d' = <[key_of nm := bytes]> (files w d)) ∧
      Z.of_nat (size (free bm')) =
        Z.of_nat (size (free bm)) - (1 + divRoundUp fileSize SectorSize)
    else same_disk w w' ∧ bm' = bm ∧ d' = d.
Proof.
  intros Hi Hsz. unfold Create.
  destruct (fetch_dir garbage fs w bm d Hi) as (w1 & E1 & Hr1 & Hs1). st_step E1.
  pose proof (same_disk_inv _ _ _ _ _ Hs1 Hr1 Hi) as Hi1.
  pose proof (fi_dir _ _ _ _ Hi) as Hdw.
  st_step_lift (Dir_Find_ok nm d Hdw).
  destruct (dir_map d !! key_of nm) as [s0|] eqn:Hk.
  { exists w1, bm, d. replace (fits bm d nm fileSize) with false by (unfold fits; by rewrite Hk).
    change (default (-1) (Some s0)) with s0. rewrite (proj2 (Z.eqb_neq s0 (-1))).
    - done.
    - apply (dir_sectors _ Hdw) in Hk. lia. }
  assert (fits bm d nm fileSize = (Z.of_nat (size (dir_map d)) <? NumDirEntries) &&
    (1 + divRoundUp fileSize SectorSize <=? Z.of_nat (size (free bm)))) as ->
    by (unfold fits; by rewrite Hk).
  change (default (-1) None) with (-1).
  cbn [negb Z.eqb Pos.eqb andb].
  destruct (new_BitMap_ok garbage SectorIO.NumSectors) as (bm0 & E0 & Hwf0 & Hb0 & _); [done|].
  st_step_lift E0. clear E0.
  destruct (fetch_map garbage fs w1 bm d bm0 Hi1 Hwf0 Hb0) as (w2 & E2 & Hr2 & Hs2). st_step E2.
  pose proof (same_disk_inv _ _ _ _ _ Hs2 Hr2 Hi1) as Hi2.
  assert (Hs12 : same_disk w w2) by (by etrans).
  pose proof (fi_bm _ _ _ _ Hi) as Hwf. pose proof (fi_bits _ _ _ _ Hi) as Hbits.
  assert (Hneed : 0 ≤ divRoundUp fileSize SectorSize).
  { unfold SectorSize. rewrite divRoundUp_nonneg by lia. apply Z.div_pos; lia. }
  destruct (BitMap.Find_ok bm Hwf)
    as [(s & bm1 & E3 & Hsr & Hsm & _ & Hwf1 & Hb1 & Hm1) | [E3 Hall]]; st_step_lift E3.
  2: { exists w2, bm, d. cbn [Z.eqb Pos.eqb]. rewrite (proj2 (Z.leb_gt _ _)).
       - rewrite andb_false_r. done.
       - assert (size (free bm) = 0%nat) as ->; [|lia].
         apply size_empty_iff. intros x. rewrite elem_of_free. set_solver. }
  rewrite (proj2 (Z.eqb_neq s (-1))) by lia.
  destruct (Add_ok nm s d Hdw) as (d' & E4 & Hdw' & Hdz & Hdm); [lia | |].
  { unfold is_int32. change SectorIO.NumSectors with 1024 in Hbits. lia. }
  rewrite bool_decide_full, (fi_size _ _ _ _ Hi), Hk in * by done.
  rewrite (bool_decide_false (is_Some None)) in * by by intros [? ?].
  rewrite E4. cbn [negb andb orb] in *.
  pose proof (Z.ltb_antisym (NumDirEntries) (Z.of_nat (size (dir_map d)))) as Hlt. rewrite Hlt.
  destruct (Z.leb_spec NumDirEntries (Z.of_nat (size (dir_map d)))) as [Hfull|Hroom].
  { exists w2, bm, d. done. }
  cbn [negb andb].
  destruct (size_free_mark bm bm1 s Hb1) as [Hsf Hfr1]; [by apply elem_of_free | done |].
  set (h0 := new_FileHeader garbage).
  assert (Ht0 : length (dataSectors h0) = Z.to_nat NumDirect).
  { unfold h0, new_FileHeader. cbn [dataSectors]. by rewrite length_fmap, length_seq. }
  assert (Hi0 : Forall is_int32 (dataSectors h0)).
  { unfold h0, new_FileHeader. cbn [dataSectors]. apply Forall_fmap, Forall_forall. intros.
    apply int32_range. }
  assert (Hpos : (0 < size (free bm))%nat).
  { destruct (size (free bm)) eqn:E; [|lia]. apply size_empty_iff in E.
    assert (s ∈ free bm) by (apply elem_of_free; done). set_solver. }
  destruct (decide (divRoundUp fileSize SectorSize ≤ Z.of_nat (size (free bm1)))) as [Hfit|Hno].
  2: { st_step_lift (Allocate_no_space h0 bm1 fileSize Hwf1 ltac:(lia)).
       exists w2, bm, d. rewrite (proj2 (Z.leb_gt _ _)) by lia. done. }
  destruct (Allocate_ok SectorIO.NumSectors h0 bm1 fileSize) as
    (h & bm2 & E5 & Hh & Hhb & Hwf2 & Hb2 & Hfree & Hm2); try done; [congruence|].
  st_step_lift E5. cbn [negb fst snd]. rewrite (proj2 (Z.leb_le _ _)) by lia.
  rewrite Forall_forall in Hfree. setoid_rewrite elem_of_free in Hfree.
  assert (Hsself : s ∉ hdr_sectors h).
  { intros Hx%Hfree. rewrite Hm1 in Hx. set_solver. }
  destruct (create_commit fs w2 bm d s h bm2 d' (key_of nm))
    as (w3 & E6 & Hi3 & Hat & Hothers); try done.
  - unfold valid_sector. lia.
  - apply Forall_forall. intros x Hx%Hfree. rewrite Hm1 in Hx. set_solver.
  - rewrite Hm2, Hm1. set_solver.
  - exists w3, bm2, d'. split; [exact E6|]. split; [done|]. split.
    + eexists. split; [|rewrite <- (same_disk_files w w2) by done; by eapply files_insert].
      rewrite Hat, length_contents, Hhb. lia.
    + rewrite <- Hhb, <- (size_hdr_sectors h s) by done. apply size_free_diff.
      * congruence.
      * intros x. rewrite elem_of_free, elem_of_union, elem_of_singleton, elem_of_list_to_set.
        intros [->|Hx%Hfree]; [done|]. rewrite Hm1 in Hx. rewrite Hb1 in Hx. set_solver.
      * rewrite Hm2, Hm1. set_solver.
Qed.
End Creating.

(** ** Removing and opening *)
Section Removing.
Context {W : Type} `{SectorDevice W} (garbage : nat → Z).
Implicit Types (fs : FileSystem) (w : W) (bm : BitMap) (d : Directory) (h : FileHeader).

Lemma files_lookup w d k :
  files w d !! k = (λ s, contents w (hdr_at w s)) <$> dir_map d !! k.
Proof. unfold files. apply lookup_fmap. Qed.

(** Writing only system data keeps every file and the system headers. *)
Lemma sys_write_frame fs w w' bm d :
  fs_inv fs w bm d → (∀ x, x ∉ sys_data fs → sector w' x = sector w x) →
  hdr_at w' FreeMapSector = map_hdr fs ∧ hdr_at w' DirectorySector = dir_hdr fs ∧
  ∀ k s, dir_map d !! k = Some s → hdr_at w' s = hdr_at w s ∧
    file_sectors w' s = file_sectors w s ∧
    contents w' (hdr_at w' s) = contents w (hdr_at w s).
Proof.
  intros Hi Ho. destruct Hi. destruct (sys_hdr_not_data _ fi_nodup0) as [Hn0 Hn1].
  split; [rewrite <- fi_map_at0; by apply hdr_at_same, Ho|].
  split; [rewrite <- fi_dir_at0; by apply hdr_at_same, Ho|].
  intros k s Hk. apply (file_frame (sys_data fs)); [done|].
  intros x Hx Hx'. destruct (fi_files0 _ _ Hk). by eapply fo_sys0, sys_data_sys.
Qed.

Lemma remove_commit fs w bm d bm' d' k s :
  fs_inv fs w bm d → dir_map d !! k = Some s →
  wf bm' → numBits bm' = SectorIO.NumSectors → marked bm' = marked bm ∖ file_sectors w s →
  dir_wf d' → tableSize d' = NumDirEntries → dir_map d' = delete k (dir_map d) →
  ∃ w', (let* _ := BitMap_WriteBack garbage (freeMapFile fs) bm' in
         let* _ := Dir_WriteBack garbage (directoryFile fs) d' in
         st_ret true) w = Ok (true, w') ∧
    fs_inv fs w' bm' d' ∧ files w' d' = delete k (files w d).
Proof.
  intros Hi Hk Hwf' Hb' Hm' Hd' Hz' Hdm. pose proof Hi as Hi0. destruct Hi.
  pose proof (sys_disjoint _ fi_nodup0) as (Hd1 & Hd2 & Hd3).
  destruct (flush_map garbage fs w bm' fi_ready0 fi_map_hdr0 fi_map_len0 Hwf' Hb')
    as (w1 & E1 & Hr1 & Hc1 & Hs1).
  destruct (flush_dir garbage fs w1 d' Hr1 fi_dir_hdr0 fi_dir_len0 Hd' Hz')
    as (w2 & E2 & Hr2 & Hc2 & Hs2).
  exists w2. split; [by st_step E1; st_step E2|].
  destruct (sys_write_frame fs w w2 bm d Hi0) as (Ha0 & Ha1 & Hof).
  { intros x Hx. rewrite elem_of_sys_data in Hx. rewrite Hs2, Hs1 by tauto. done. }
  assert (Hdm' : ∀ k' s', dir_map d' !! k' = Some s' → k' ≠ k ∧ dir_map d !! k' = Some s').
  { intros k' s'. rewrite Hdm, lookup_delete_Some. naive_solver. }
  split.
  - split; try done.
    + rewrite <- Hc1. apply contents_frame. intros x Hx. apply Hs2. by apply Hd3.
    + intros k' s' [Hne Hk']%Hdm'. destruct (Hof _ _ Hk') as (Ha & Hb & _).
      destruct (fi_files0 _ _ Hk'). split; rewrite ?Ha, ?Hb; done.
    + intros k1 k2 s1 s2 [_ H1]%Hdm' [_ H2]%Hdm' Hne.
      destruct (Hof _ _ H1) as (_ & -> & _), (Hof _ _ H2) as (_ & -> & _).
      by apply (fi_disj0 k1 k2).
    + intros x. rewrite Hm', elem_of_difference, fi_marked0. split.
      * intros [[Hx|(k' & s' & Hk' & Hx)] Hnx]; [by left|]. right. exists k', s'.
        destruct (Hof _ _ Hk') as (_ & -> & _). split; [|done].
        rewrite Hdm, lookup_delete_ne; [done|]. intros ->. congruence.
      * intros [Hx|(k' & s' & [Hne Hk']%Hdm' & Hx)].
        -- split; [by left|]. intros Hx'. destruct (fi_files0 _ _ Hk). by eapply fo_sys0.
        -- destruct (Hof _ _ Hk') as (_ & Hb & _). rewrite Hb in Hx. split; [right; eauto|].
           intros Hx'. by eapply (fi_disj0 k' k).
  - apply map_eq. intros k'. rewrite files_lookup, Hdm.
    destruct (decide (k = k')) as [<-|Hne].
    + by rewrite !lookup_delete_eq.
    + rewrite !lookup_delete_ne, files_lookup by done.
      destruct (dir_map d !! k') as [s'|] eqn:Hk'; [|done]. simpl.
      by destruct (Hof _ _ Hk') as (_ & _ & ->).
Qed.

Lemma Remove_ok fs w bm d nm :
  fs_inv fs w bm d →
  ∃ w' bm' d', Remove garbage fs nm w = Ok (bool_decide (is_Some (files w d !! key_of nm)), w') ∧
    fs_inv fs w' bm' d' ∧ files w' d' = delete (key_of nm) (files w d) ∧
    Z.of_nat (size (free bm')) = Z.of_nat (size (free bm)) +
      match files w d !! key_of nm with
      | Some bytes => 1 + divRoundUp (Z.of_nat (length bytes)) SectorSize
      | None => 0
      end ∧
    (files w d !! key_of nm = None → same_disk w w').
Proof.
  intros Hi. unfold Remove. rewrite files_lookup.
  destruct (fetch_dir garbage fs w bm d Hi) as (w1 & E1 & Hr1 & Hs1). st_step E1.
  pose proof (same_disk_inv _ _ _ _ _ Hs1 Hr1 Hi) as Hi1.
  pose proof (fi_dir _ _ _ _ Hi) as Hdw. st_step_lift (Dir_Find_ok nm d Hdw).
  destruct (dir_map d !! key_of nm) as [s|] eqn:Hk.
  2: { exists w1, bm, d. change (default (-1) None) with (-1). cbn [Z.eqb Pos.eqb].
       rewrite (bool_decide_false (is_Some _)) by by intros [? ?].
       split; [done|]. split; [done|]. rewrite delete_id, (same_disk_files w w1) by
         (rewrite ?files_lookup, ?Hk; done). split; [done|]. simpl. split; [lia | done]. }
  change (default (-1) (Some s)) with s.
  rewrite (proj2 (Z.eqb_neq s (-1))) by (apply (dir_sectors _ Hdw) in Hk; lia).
  destruct (fi_files _ _ _ _ Hi1 _ _ Hk) as [Hv Hh Hself Hsys].
  destruct (ReadSector_ok w1 s Hr1 Hv) as (w2 & E2 & Hr2 & Hs2).
  pose proof (same_disk_inv _ _ _ _ _ Hs2 Hr2 Hi1) as Hi2.
  assert (E2' : Hdr_FetchFrom s w1 = Ok (hdr_at w1 s, w2)).
  { unfold Hdr_FetchFrom. by rewrite E2. }
  st_step E2'. set (h := hdr_at w1 s) in *.
  destruct (new_BitMap_ok garbage SectorIO.NumSectors) as (bm0 & E0 & Hwf0 & Hb0 & _); [done|].
  st_step_lift E0. clear E0.
  destruct (fetch_map garbage fs w2 bm d bm0 Hi2 Hwf0 Hb0) as (w3 & E3 & Hr3 & Hs3). st_step E3.
  pose proof (same_disk_inv _ _ _ _ _ Hs3 Hr3 Hi2) as Hi3.
  pose proof (fi_bm _ _ _ _ Hi) as Hwf. pose proof (fi_bits _ _ _ _ Hi) as Hbits.
  assert (Hs03 : same_disk w w3) by (etrans; [done|]; by etrans).
  assert (Hfs : file_sectors w1 s ⊆ marked bm).
  { intros x Hx. apply (fi_marked _ _ _ _ Hi1). right; eauto. }
  destruct (Deallocate_ok SectorIO.NumSectors h bm) as (bm1 & E4 & Hwf1 & Hb1 & Hm1); try done.
  { intros x Hx. apply Hfs, elem_of_file_sectors. by right. }
  st_step_lift E4. cbn [snd].
  destruct (Clear_ok bm1 s Hwf1) as (bm2 & E5 & Hwf2 & Hb2 & Hm2).
  { unfold valid_sector in Hv. lia. }
  st_step_lift E5. cbn [snd].
  destruct (Dir_Remove_ok nm d Hdw) as (d' & E6 & Hdw' & Hdz & Hdm).
  st_step_lift E6. cbn [snd].
  assert (Hm : marked bm2 = marked bm ∖ file_sectors w3 s).
  { rewrite Hm2, Hm1. unfold file_sectors. rewrite (hdr_at_same w1 w3).
    - fold h. set_solver.
    - by rewrite Hs3, Hs2. }
  destruct (remove_commit fs w3 bm d bm2 d' (key_of nm) s) as (w4 & E7 & Hi4 & Hf4);
    try done; [congruence | rewrite Hdz; apply Hi |].
  exists w4, bm2, d'. simpl.
  split; [exact E7|]. split; [done|]. split; [by rewrite Hf4, (same_disk_files w w3)|].
  split; [|done]. assert (hdr_at w s = h) as ->.
  { unfold h. symmetry. apply hdr_at_same. by rewrite Hs1. }
  rewrite length_contents, Z2Nat.id by apply Hh. rewrite <- (size_hdr_sectors h s) by done.
  assert (HF : {[s]} ∪ list_to_set (hdr_sectors h) = file_sectors w1 s) by done.
  assert (Hm2' : marked bm2 = marked bm ∖ file_sectors w1 s).
  { rewrite Hm2, Hm1, <- HF. set_solver. }
  assert (marked bm = file_sectors w1 s ∪ marked bm2) as Hun.
  { rewrite Hm2'. by apply union_difference_L. }
  rewrite HF.
  assert (numBits bm = numBits bm2) as Hbb by congruence.
  assert (file_sectors w1 s ⊆ free bm2) as Hsub.
  { intros x Hx. apply elem_of_free. split.
    - apply Hfs, elem_of_marked in Hx. lia.
    - rewrite Hm2'. set_solver. }
  pose proof (size_free_diff bm2 bm (file_sectors w1 s) Hbb Hsub Hun). lia.
Qed.

Lemma Open_ok fs w bm d nm :
  fs_inv fs w bm d →
  ∃ w', Open garbage fs nm w =
    Ok ((λ s, mkOpenFile (hdr_at w s) 0) <$> dir_map d !! key_of nm, w') ∧
    ready w' ∧ same_disk w w'.
Proof.
  intros Hi. unfold Open.
  destruct (fetch_dir garbage fs w bm d Hi) as (w1 & E1 & Hr1 & Hs1). st_step E1.
  pose proof (fi_dir _ _ _ _ Hi) as Hdw. st_step_lift (Dir_Find_ok nm d Hdw).
  destruct (dir_map d !! key_of nm) as [s|] eqn:Hk.
  - change (default (-1) (Some s)) with s. rewrite (proj2 (Z.geb_le s 0)) by
      by apply (dir_sectors _ Hdw) in Hk.
    destruct (fi_files _ _ _ _ Hi _ _ Hk) as [Hv _ _ _].
    destruct (ReadSector_ok w1 s Hr1 Hv) as (w2 & E2 & Hr2 & Hs2).
    assert (E2' : new_OpenFile s w1 = Ok (mkOpenFile (hdr_at w1 s) 0, w2)).
    { unfold new_OpenFile, Hdr_FetchFrom. by rewrite E2. }
    st_step E2'. exists w2. simpl. rewrite (hdr_at_same w w1) by apply Hs1.
    split; [done|]. split; [done|]. by etrans.
  - exists w1. done.
Qed.

(** A write through an open file keeps the file system consistent and changes the
    bytes of that file only. *)
Lemma write_file_ok fs w bm d k s from n position :
  fs_inv fs w bm d → dir_map d !! k = Some s →
  0 ≤ position → is_int32 (position + n) → n ≤ Z.of_nat (length from) →
  ∃ w', WriteAt garbage (hdr_at w s) from n position w
          = Ok (clip (hdr_at w s) n position, w') ∧
    fs_inv fs w' bm d ∧
    files w' d = <[k := spec_write (contents w (hdr_at w s)) from n position]> (files w d).
Proof.
  intros Hi Hk Hp Hpn Hn. pose proof Hi as Hi0. destruct Hi.
  destruct (fi_files0 _ _ Hk) as [Hv Hh Hself Hsys].
  destruct (WriteAt_ok garbage (hdr_at w s) from n position w)
    as (w' & E & Hr & Hc & Ho); try done.
  exists w'. split; [exact E|]. clear E.
  set (T := list_to_set (hdr_sectors (hdr_at w s)) : gset Z).
  assert (HT : ∀ x, x ∈ T ↔ x ∈ hdr_sectors (hdr_at w s)) by (intros; apply elem_of_list_to_set).
  assert (Hof : ∀ k' s', k' ≠ k → dir_map d !! k' = Some s' → hdr_at w' s' = hdr_at w s' ∧
    file_sectors w' s' = file_sectors w s' ∧
    contents w' (hdr_at w' s') = contents w (hdr_at w s')).
  { intros k' s' Hne Hk'. apply (file_frame T).
    - intros x Hx. apply Ho. by rewrite <- HT.
    - intros x Hx Hx'. eapply (fi_disj0 k' k); [done | done | done | exact Hx |].
      apply elem_of_file_sectors. right. by apply HT. }
  pose proof (Ho s Hself) as Hss.
  assert (Hall : ∀ k' s', dir_map d !! k' = Some s' → hdr_at w' s' = hdr_at w s' ∧
    file_sectors w' s' = file_sectors w s').
  { intros k' s' Hk'. destruct (decide (k' = k)) as [->|Hne].
    - assert (s' = s) as -> by congruence. unfold file_sectors.
      rewrite (hdr_at_same w w' s) by exact Hss. split; reflexivity.
    - destruct (Hof _ _ Hne Hk') as (Ha & Hb & _). split; [exact Ha | exact Hb]. }
  assert (Hsys' : ∀ x, x ∈ sys_sectors fs → sector w' x = sector w x).
  { intros x Hx. apply Ho. intros Hx'. apply (Hsys x); [|done].
    apply elem_of_file_sectors. by right. }
  split.
  - split; try done.
    + rewrite <- fi_map_at0. apply hdr_at_same, Hsys', elem_of_sys. by left.
    + rewrite <- fi_dir_at0. apply hdr_at_same, Hsys', elem_of_sys. by right; left.
    + rewrite <- fi_map0. apply contents_frame. intros x Hx. apply Hsys', elem_of_sys. tauto.
    + rewrite <- fi_table0. apply contents_frame. intros x Hx. apply Hsys', elem_of_sys. tauto.
    + intros k' s' Hk'. destruct (Hall _ _ Hk') as [Ha Hb]. destruct (fi_files0 _ _ Hk').
      split; rewrite ?Ha, ?Hb; done.
    + intros k1 k2 s1 s2 H1 H2 Hne. destruct (Hall _ _ H1) as [_ ->], (Hall _ _ H2) as [_ ->].
      by apply (fi_disj0 k1 k2).
    + intros x. rewrite fi_marked0. split; (intros [Hx|(k' & s' & Hk' & Hx)]; [by left|]);
        right; exists k', s'; (split; [done|]); destruct (Hall _ _ Hk') as [_ Hb];
        rewrite Hb in *; exact Hx.
  - apply map_eq. intros k'. rewrite files_lookup. destruct (decide (k = k')) as [<-|Hne].
    + rewrite lookup_insert_eq, Hk. simpl.
      rewrite (hdr_at_same w w' s), Hc by exact Hss. f_equal.
      unfold spec_write. by rewrite spec_count_clip.
    + rewrite lookup_insert_ne, files_lookup by done.
      destruct (dir_map d !! k') as [s'|] eqn:Hk'; [|done]. simpl.
      by destruct (Hof k' s') as (_ & _ & ->).
Qed.
End Removing.

(** ** Formatting and restarting *)
Section Formatting.
Context {W : Type} `{SectorDevice W} (garbage : nat → Z).
Implicit Types (fs : FileSystem) (w : W) (bm : BitMap) (d : Directory) (h : FileHeader).

(** Reading a header just after it was written. *)
Lemma open_written w s h :
  ready w → valid_sector s → hdr_wf h → sector w s = hdr_bytes h →
  ∃ w', new_OpenFile s w = Ok (mkOpenFile h 0, w') ∧ ready w' ∧ same_disk w w'.
Proof.
  intros Hr Hv Hh Hs. destruct (ReadSector_ok w s Hr Hv) as (w' & E & Hr' & Hs').
  exists w'. unfold new_OpenFile, Hdr_FetchFrom. rewrite E. simpl.
  by rewrite Hs, hdr_roundtrip.
Qed.

(** The free map and headers of a fresh disk. *)
Record fresh_layout (bm : BitMap) (mh dh : FileHeader) : Prop := {
  fl_bm : wf bm;
  fl_bits : numBits bm = SectorIO.NumSectors;
  fl_map : hdr_wf mh;
  fl_dir : hdr_wf dh;
  fl_map_len : numBytes mh = FreeMapFileSize;
  fl_dir_len : numBytes dh = DirectoryFileSize;
  fl_nodup : NoDup ([FreeMapSector; DirectorySector] ++ hdr_sectors mh ++ hdr_sectors dh);
  fl_marked : marked bm =
    list_to_set ([FreeMapSector; DirectorySector] ++ hdr_sectors mh ++ hdr_sectors dh)
}.

Lemma size_marked_free bm :
  wf bm → Z.of_nat (size (free bm)) = numBits bm - Z.of_nat (size (marked bm)).
Proof.
  intros Hwf. assert (Hsub : marked bm ⊆ list_to_set (seqZ 0 (numBits bm))).
  { intros x Hx%elem_of_marked. apply elem_of_list_to_set, elem_of_seqZ. lia. }
  unfold free. rewrite size_difference by done.
  pose proof (subseteq_size _ _ Hsub) as Hle.
  rewrite size_list_to_set in * by apply NoDup_seqZ. rewrite length_seqZ in *.
  destruct Hwf. lia.
Qed.

Lemma new_FileHeader_ok :
  length (dataSectors (new_FileHeader garbage)) = Z.to_nat NumDirect ∧
  Forall is_int32 (dataSectors (new_FileHeader garbage)).
Proof.
  unfold new_FileHeader. cbn [dataSectors]. split.
  - by rewrite length_fmap, length_seq.
  - apply Forall_fmap, Forall_forall. intros. apply int32_range.
Qed.

Lemma format_layout bm0 :
  wf bm0 → numBits bm0 = SectorIO.NumSectors → marked bm0 = ∅ →
  ∃ bm1 bm2 mh bm3 dh bm4,
    Mark FreeMapSector bm0 = Ok (tt, bm1) ∧ Mark DirectorySector bm1 = Ok (tt, bm2) ∧
    Allocate FreeMapFileSize (new_FileHeader garbage, bm2) = Ok (true, (mh, bm3)) ∧
    Allocate DirectoryFileSize (new_FileHeader garbage, bm3) = Ok (true, (dh, bm4)) ∧
    fresh_layout bm4 mh dh.
Proof.
  intros Hwf Hb Hm. destruct new_FileHeader_ok as [Hl Hi].
  destruct (Mark_ok bm0 FreeMapSector Hwf) as (bm1 & E1 & Hwf1 & Hb1 & Hm1); [by rewrite Hb|].
  destruct (Mark_ok bm1 DirectorySector Hwf1) as (bm2 & E2 & Hwf2 & Hb2 & Hm2);
    [by rewrite Hb1, Hb|].
  assert (Hm2' : marked bm2 = list_to_set [FreeMapSector; DirectorySector]).
  { rewrite Hm2, Hm1, Hm. simpl. set_solver. }
  assert (Hsz2 : Z.of_nat (size (free bm2)) = 1022).
  { rewrite size_marked_free, Hm2', size_list_to_set by (done || (repeat constructor; set_solver)).
    rewrite Hb2, Hb1, Hb. done. }
  destruct (Allocate_ok SectorIO.NumSectors (new_FileHeader garbage) bm2 FreeMapFileSize)
    as (mh & bm3 & E3 & Hmh & Hml & Hwf3 & Hb3 & Hf3 & Hm3);
    [done | done | congruence | done | done | done | rewrite Hsz2; done |].
  assert (Hd3 : ∀ x, x ∈ hdr_sectors mh → x ∉ [FreeMapSector; DirectorySector]).
  { rewrite Forall_forall in Hf3. intros x Hx%Hf3. apply elem_of_free in Hx as [_ Hx].
    rewrite Hm2' in Hx. by rewrite elem_of_list_to_set in Hx. }
  assert (Hnd3 : NoDup ([FreeMapSector; DirectorySector] ++ hdr_sectors mh)).
  { apply NoDup_app. split; [repeat constructor; set_solver|]. split; [|apply Hmh].
    intros x Hx Hx'. by apply (Hd3 x). }
  assert (Hsz3 : Z.of_nat (size (free bm3)) = 1021).
  { rewrite size_marked_free, Hm3, Hm2', <- list_to_set_app_L, size_list_to_set by done.
    rewrite length_app, Nat2Z.inj_add, length_hdr_sectors, (hdr_ns _ Hmh), Hml, Hb3 by done.
    done. }
  destruct (Allocate_ok SectorIO.NumSectors (new_FileHeader garbage) bm3 DirectoryFileSize)
    as (dh & bm4 & E4 & Hdh & Hdl & Hwf4 & Hb4 & Hf4 & Hm4);
    [done | done | congruence | done | done | done | rewrite Hsz3; done |].
  exists bm1, bm2, mh, bm3, dh, bm4. repeat (split; [done|]). split; try done.
  - rewrite app_assoc. apply NoDup_app. split; [done|]. split; [|apply Hdh].
    intros x Hx Hx'. rewrite Forall_forall in Hf4. apply Hf4, elem_of_free in Hx' as [_ Hx'].
    apply Hx'. rewrite Hm3, Hm2', <- list_to_set_app_L. by apply elem_of_list_to_set.
  - rewrite Hm4, Hm3, Hm2'. by rewrite app_assoc, !list_to_set_app_L.
Qed.

Lemma format_ok w :
  ready w →
  ∃ fs w' bm d, new_FileSystem garbage true w = Ok (fs, w') ∧ fs_inv fs w' bm d ∧
    dir_map d = ∅ ∧ Z.of_nat (size (free bm)) = 1019.
Proof.
  intros Hr. unfold new_FileSystem.
  destruct (new_BitMap_ok garbage SectorIO.NumSectors) as (bm0 & E0 & Hwf0 & Hb0 & Hm0); [done|].
  st_step_lift E0. clear E0.
  destruct (format_layout bm0 Hwf0 Hb0 Hm0) as (bm1 & bm2 & mh & bm3 & dh & bm & E1 & E2 & E3 & E4 & Hfl).
  st_step_lift E1. st_step_lift E2. st_step_lift E3.
  assert (ASSERT true = Ok tt) as Ea by done. cbn [fst snd]. st_step_lift Ea.
  st_step_lift E4. cbn [fst snd]. st_step_lift Ea. clear Ea E1 E2 E3 E4.
  destruct (new_Directory_ok garbage NumDirEntries) as (Hdw & Hdz & Hdm); [done|].
  set (d := new_Directory garbage NumDirEntries) in *. clearbody d.
  destruct Hfl as [Hwf Hb Hmh Hdh Hml Hdl Hnd Hm].
  set (fs := mkFileSystem (mkOpenFile mh 0) (mkOpenFile dh 0)).
  destruct (sys_disjoint fs Hnd) as (Hd1 & Hd2 & Hd3). cbn [map_hdr dir_hdr fs hdr] in *.
  destruct (WriteSector_ok w FreeMapSector (hdr_bytes mh) Hr) as (w1 & E1 & Hr1 & Hs1);
    [done | apply length_hdr_bytes, Hmh |].
  destruct (WriteSector_ok w1 DirectorySector (hdr_bytes dh) Hr1) as (w2 & E2 & Hr2 & Hs2);
    [done | apply length_hdr_bytes, Hdh |].
  unfold Hdr_WriteBack. st_step E1. st_step E2.
  assert (H20 : sector w2 FreeMapSector = hdr_bytes mh).
  { rewrite Hs2, decide_False, Hs1, decide_True by done. done. }
  assert (H21 : sector w2 DirectorySector = hdr_bytes dh) by (rewrite Hs2, decide_True by done; done).
  destruct (open_written w2 FreeMapSector mh Hr2) as (w3 & E3 & Hr3 & Hs3); try done.
  st_step E3.
  destruct (open_written w3 DirectorySector dh Hr3) as (w4 & E4 & Hr4 & Hs4);
    [done | done | by rewrite Hs3 |].
  st_step E4.
  destruct (flush_map garbage fs w4 bm Hr4 Hmh Hml Hwf Hb) as (w5 & E5 & Hr5 & Hc5 & Hs5).
  cbn [freeMapFile fs] in E5. st_step E5.
  destruct (flush_dir garbage fs w5 d Hr5 Hdh Hdl Hdw Hdz) as (w6 & E6 & Hr6 & Hc6 & Hs6).
  cbn [directoryFile fs] in E6. st_step E6. cbn [map_hdr dir_hdr fs hdr] in *.
  exists fs, w6, bm, d. split; [done|].
  assert (Hat : ∀ x h, hdr_wf h → sector w2 x = hdr_bytes h → x ∉ sys_data fs → hdr_at w6 x = h).
  { intros x h Hh Hx Hxd. rewrite elem_of_sys_data in Hxd. unfold hdr_at.
    rewrite Hs6, Hs5, Hs4, Hs3, Hx by tauto. by apply hdr_roundtrip. }
  destruct (sys_hdr_not_data fs Hnd) as [Hn0 Hn1].
  split; [|split; [done|]].
  - split; try done.
    + by apply Hat.
    + by apply Hat.
    + rewrite <- Hc5. apply contents_frame. intros x Hx. apply Hs6. by apply Hd3.
    + intros k s. by rewrite Hdm.
    + intros k1 k2 s1 s2. by rewrite Hdm.
    + intros x. rewrite Hm, Hdm. split; [by left|]. intros [?|(k & s & Hk & _)]; done.
  - rewrite size_marked_free, Hm, size_list_to_set by done.
    rewrite !length_app, !Nat2Z.inj_add, !length_hdr_sectors by done.
    rewrite (hdr_ns _ Hmh), (hdr_ns _ Hdh), Hml, Hdl, Hb. done.
Qed.

(** Opening the file system of an already formatted disk. *)
Lemma restart_ok fs w bm d :
  fs_inv fs w bm d →
  ∃ fs' w', new_FileSystem garbage false w = Ok (fs', w') ∧ fs_inv fs' w' bm d ∧ same_disk w w'.
Proof.
  intros Hi. unfold new_FileSystem.
  destruct (ReadSector_ok w FreeMapSector) as (w1 & E1 & Hr1 & Hs1); [apply Hi | done |].
  assert (E1' : new_OpenFile FreeMapSector w = Ok (mkOpenFile (map_hdr fs) 0, w1)).
  { unfold new_OpenFile, Hdr_FetchFrom. rewrite E1. simpl.
    by rewrite <- (fi_map_at _ _ _ _ Hi). }
  st_step E1'.
  destruct (ReadSector_ok w1 DirectorySector) as (w2 & E2 & Hr2 & Hs2); [done | done |].
  assert (E2' : new_OpenFile DirectorySector w1 = Ok (mkOpenFile (dir_hdr fs) 0, w2)).
  { unfold new_OpenFile, Hdr_FetchFrom. rewrite E2. simpl.
    by rewrite Hs1, <- (fi_dir_at _ _ _ _ Hi). }
  st_step E2'. assert (Hs : same_disk w w2) by (intros x; by rewrite Hs2, Hs1).
  eexists _, w2. split; [done|]. split; [|done].
  apply (same_disk_inv _ w); [done | done |]. clear -Hi.
  destruct Hi. split; try done. intros k s Hk. destruct (fi_files0 k s Hk). by split.
Qed.
End Formatting.

(** ** The file system refines a map of named byte arrays *)
Section Refinement.
Context {W : Type} `{SectorDevice W} (garbage : nat → Z).

(** What a client asks: the reads and writes open the file by name first, as the
    callers in fstest.cc do; [FsRestart] is Nachos started again on the same disk. *)
Inductive fs_op :=
  | FsCreate (nm : list Z) (fileSize : Z)
  | FsRemove (nm : list Z)
  | FsRead (nm : list Z) (n position : Z)
  | FsWrite (nm : list Z) (from : list Z) (n position : Z)
  | FsRestart.

Inductive fs_result :=
  | RBool (b : bool)
  | RData (d : option (list Z))
  | RCount (c : option Z)
  | RDone.

Definition fs_step (o : fs_op) (fs : FileSystem) : ST W (fs_result * FileSystem) :=
  match o with
  | FsCreate nm n => let* b := Create garbage fs nm n in st_ret (RBool b, fs)
  | FsRemove nm => let* b := Remove garbage fs nm in st_ret (RBool b, fs)
  | FsRead nm n position =>
      let* f := Open garbage fs nm in
      match f with
      | None => st_ret (RData None, fs)
      | Some f =>
          let* d := ReadAt garbage (hdr f) n position in st_ret (RData (Some d), fs)
      end
  | FsWrite nm from n position =>
      let* f := Open garbage fs nm in
      match f with
      | None => st_ret (RCount None, fs)
      | Some f =>
          let* c := WriteAt garbage (hdr f) from n position in st_ret (RCount (Some c), fs)
      end
  | FsRestart => let* fs := new_FileSystem garbage false in st_ret (RDone, fs)
  end.

Fixpoint fs_run (os : list fs_op) (fs : FileSystem) : ST W (list fs_result * FileSystem) :=
  match os with
  | [] => st_ret ([], fs)
  | o :: os =>
      let* r := fs_step o fs in
      let* rs := fs_run os r.2 in
      st_ret (r.1 :: rs.1, rs.2)
  end.

(** The specification: the files by key, and the number of free sectors. *)
Definition fs_abs : Type := gmap (list Z) (list Z) * Z.

Definition room (a : fs_abs) (nm : list Z) (fileSize : Z) : bool :=
  bool_decide (a.1 !! key_of nm = None) && (Z.of_nat (size a.1) <? NumDirEntries) &&
  (1 + divRoundUp fileSize SectorSize <=? a.2).

Definition taken (bytes : option (list Z)) : Z :=
  match bytes with
  | Some b => 1 + divRoundUp (Z.of_nat (length b)) SectorSize
  | None => 0
  end.

(** A created file has the requested length; its bytes are those the sectors had. *)
Inductive abs_step : fs_op → fs_result → fs_abs → fs_abs → Prop :=
  | AbsCreate nm n bytes a :
      room a nm n = true → Z.of_nat (length bytes) = n →
      abs_step (FsCreate nm n) (RBool true) a
        (<[key_of nm := bytes]> a.1, a.2 - (1 + divRoundUp n SectorSize))
  | AbsCreateFail nm n a :
      room a nm n = false → abs_step (FsCreate nm n) (RBool false) a a
  | AbsRemove nm a :
      abs_step (FsRemove nm) (RBool (bool_decide (is_Some (a.1 !! key_of nm)))) a
        (delete (key_of nm) a.1, a.2 + taken (a.1 !! key_of nm))
  | AbsRead nm n position a :
      abs_step (FsRead nm n position)
        (RData ((λ b, spec_read b n position) <$> a.1 !! key_of nm)) a a
  | AbsWrite nm from n position a :
      abs_step (FsWrite nm from n position)
        (RCount ((λ b, spec_count b n position) <$> a.1 !! key_of nm)) a
        (alter (λ b, spec_write b from n position) (key_of nm) a.1, a.2)
  | AbsRestart a : abs_step FsRestart RDone a a.

Inductive abs_run : list fs_op → list fs_result → fs_abs → fs_abs → Prop :=
  | abs_run_nil a : abs_run [] [] a a
  | abs_run_cons o os r rs a1 a2 a3 :
      abs_step o r a1 a2 → abs_run os rs a2 a3 → abs_run (o :: os) (r :: rs) a1 a3.

(** Requests within the contract. *)
Definition fs_op_ok (o : fs_op) : bool :=
  match o with
  | FsCreate _ n => (0 <=? n) && (n <=? MaxFileSize)
  | FsRead _ n position => req_ok n position
  | FsWrite _ from n position => req_ok n position && (n <=? Z.of_nat (length from))
  | _ => true
  end.

Definition abstracts (fs : FileSystem) (w : W) (a : fs_abs) : Prop :=
  ∃ bm d, fs_inv fs w bm d ∧ a = (files w d, Z.of_nat (size (free bm))).

Lemma size_files w d : size (files w d) = size (dir_map d).
Proof. unfold files. apply map_size_fmap. Qed.

Lemma room_fits w bm d nm n :
  room (files w d, Z.of_nat (size (free bm))) nm n = fits bm d nm n.
Proof.
  unfold room, fits. cbn [fst snd]. rewrite size_files, files_lookup. do 2 f_equal.
  apply bool_decide_ext. by rewrite fmap_None.
Qed.

Lemma fs_step_refines o fs w a :
  abstracts fs w a → fs_op_ok o = true →
  ∃ r fs' w' a', fs_step o fs w = Ok ((r, fs'), w') ∧ abs_step o r a a' ∧ abstracts fs' w' a'.
Proof.
  intros (bm & d & Hi & ->) Ho. destruct o as [nm n|nm|nm n p|nm from n p|]; cbn [fs_step fs_op_ok] in *.
  - apply andb_true_iff in Ho as [H0%Z.leb_le H1%Z.leb_le].
    destruct (Create_ok garbage fs w bm d nm n Hi) as (w' & bm' & d' & E & Hi' & Hpost); [lia|].
    st_step E. pose proof (room_fits w bm d nm n) as Hroom. destruct (fits bm d nm n).
    + destruct Hpost as ((bytes & Hl & Hf) & Hn).
      eexists _, _, w', _. split; [done|]. split; [by apply (AbsCreate nm n bytes)|].
      exists bm', d'. split; [done|]. cbn [fst snd]. by rewrite Hf, Hn.
    + destruct Hpost as (Hs & -> & ->). eexists _, _, w', _. split; [done|]. split; [by apply AbsCreateFail|].
      exists bm, d. split; [done|]. by rewrite (same_disk_files w w').
  - destruct (Remove_ok garbage fs w bm d nm Hi) as (w' & bm' & d' & E & Hi' & Hf & Hn & _).
    st_step E. eexists _, _, w', _. split; [done|]. split; [apply (AbsRemove nm (files w d, _))|].
    exists bm', d'. split; [done|]. cbn [fst snd]. by rewrite Hf, Hn.
  - apply req_ok_true in Ho as [Hp Hpn].
    destruct (Open_ok garbage fs w bm d nm Hi) as (w1 & E & Hr1 & Hs1). st_step E.
    pose proof (same_disk_inv _ _ _ _ _ Hs1 Hr1 Hi) as Hi1.
    pose proof (AbsRead nm n p (files w d, Z.of_nat (size (free bm)))) as Habs.
    cbn [fst] in Habs. rewrite files_lookup in Habs.
    destruct (dir_map d !! key_of nm) as [s|] eqn:Hk; cbn [fmap option_fmap option_map] in *.
    + destruct (ReadAt_ok garbage (hdr_at w s) n p w1) as (w2 & E2 & Hr2 & Hs2); try done.
      { apply (fi_files _ _ _ _ Hi _ _ Hk). }
      cbn [hdr]. st_step E2. eexists _, _, w2, _. split; [done|].
      rewrite (contents_same w w1) by done. split; [exact Habs|]. exists bm, d.
      assert (Hs : same_disk w w2) by by etrans.
      split; [by apply (same_disk_inv _ w) | by rewrite (same_disk_files w w2)].
    + eexists _, _, w1, _. split; [done|]. split; [exact Habs|]. exists bm, d.
      split; [done | by rewrite (same_disk_files w w1)].
  - apply andb_true_iff in Ho as [[Hp Hpn]%req_ok_true Hl%Z.leb_le].
    destruct (Open_ok garbage fs w bm d nm Hi) as (w1 & E & Hr1 & Hs1). st_step E.
    pose proof (same_disk_inv _ _ _ _ _ Hs1 Hr1 Hi) as Hi1.
    rewrite <- (same_disk_files w w1) by done.
    pose proof (AbsWrite nm from n p (files w1 d, Z.of_nat (size (free bm)))) as Habs.
    cbn [fst snd] in Habs. rewrite files_lookup in Habs.
    destruct (dir_map d !! key_of nm) as [s|] eqn:Hk; cbn [fmap option_fmap option_map] in *.
    + destruct (write_file_ok garbage fs w1 bm d (key_of nm) s from n p)
        as (w2 & E2 & Hi2 & Hf2); try done.
      rewrite <- (hdr_at_same w w1) by by rewrite Hs1.
      cbn [hdr]. st_step E2. eexists _, _, w2, _. split; [done|].
      destruct (fi_files _ _ _ _ Hi1 _ _ Hk) as [_ Hh _ _].
      rewrite <- (spec_count_clip w1) by done. split; [exact Habs|]. exists bm, d.
      split; [done|]. rewrite Hf2. f_equal. symmetry. apply map_eq. intros k.
      destruct (decide (key_of nm = k)) as [<-|Hne].
      * by rewrite lookup_alter_eq, lookup_insert_eq, files_lookup, Hk.
      * by rewrite lookup_alter_ne, lookup_insert_ne.
    + eexists _, _, w1, _. split; [done|]. split; [exact Habs|]. exists bm, d.
      split; [done|]. f_equal. apply map_eq. intros k.
      destruct (decide (key_of nm = k)) as [<-|Hne].
      * by rewrite lookup_alter_eq, files_lookup, Hk.
      * by rewrite lookup_alter_ne.
  - destruct (restart_ok garbage fs w bm d Hi) as (fs' & w' & E & Hi' & Hs). st_step E.
    eexists _, _, w', _. split; [done|]. split; [constructor|]. exists bm, d.
    split; [done|]. by rewrite (same_disk_files w w').
Qed.

Lemma fs_run_refines os fs w a :
  abstracts fs w a → Forall (λ o, fs_op_ok o = true) os →
  ∃ rs fs' w' a', fs_run os fs w = Ok ((rs, fs'), w') ∧ abs_run os rs a a' ∧ abstracts fs' w' a'.
Proof.
  intros Ha Hos. revert fs w a Ha. induction Hos as [|o os Ho _ IH]; intros fs w a Ha; cbn [fs_run].
  - eexists _, _, w, a. split; [done|]. split; [constructor | done].
  - destruct (fs_step_refines o fs w a Ha Ho) as (r & fs1 & w1 & a1 & E1 & Hs1 & Ha1). st_step E1.
    destruct (IH fs1 w1 a1 Ha1) as (rs & fs2 & w2 & a2 & E2 & Hs2 & Ha2). cbn [fst snd]. st_step E2.
    eexists _, _, w2, a2. split; [done|]. split; [by econstructor | done].
Qed.

Lemma format_then_run (os : list fs_op) (w : W) :
  ready w → Forall (λ o, fs_op_ok o = true) os →
  ∃ fs w1 rs fs' w' a',
    new_FileSystem garbage true w = Ok (fs, w1) ∧
    fs_run os fs w1 = Ok ((rs, fs'), w') ∧
    abs_run os rs (∅, 1019) a' ∧ abstracts fs' w' a'.
Proof.
  intros Hr Hos. destruct (format_ok garbage w Hr) as (fs & w1 & bm & d & E & Hi & Hd & Hn).
  destruct (fs_run_refines os fs w1 (∅, 1019)) as (rs & fs' & w' & a' & E' & Hrun & Ha'); [|done|].
  - exists bm, d. split; [done|]. unfold files. by rewrite Hd, fmap_empty, Hn.
  - exists fs, w1, rs, fs', w', a'. split; [exact E|]. split; [exact E'|].
    split; [exact Hrun | exact Ha'].
Qed.

(** C5. Formatting any disk and then creating, removing, reading and writing files by
    name in any order, with restarts in between, every request in its contract
    ([fs_op_ok]: files of at most [MaxFileSize], 3840 bytes, positions and counts that
    are not negative and fit, as many bytes to write as are announced), never faults and
    gives the results of a map from names - cut to nine characters - to byte arrays
    together with a count of free sectors. Outside the contract nothing is promised, and
    [Create_too_large_faults] below shows a larger file to write past its header. Create succeeds exactly when the name is new, one
    of the ten directory slots is free and there are sectors for the header and the
    data; Remove gives the sectors of the file back; a read returns the slice of the
    bytes last written, whatever was done to other files in between. The state the
    run ends in is again consistent. *)
Theorem FileSystem_refines_map (os : list fs_op) (w : W) :
  ready w → Forall (λ o, fs_op_ok o = true) os →
  ∃ fs w1 rs fs' w' a',
    new_FileSystem garbage true w = Ok (fs, w1) ∧
    fs_run os fs w1 = Ok ((rs, fs'), w') ∧
    abs_run os rs (∅, 1019) a' ∧ abstracts fs' w' a'.
Proof. apply format_then_run. Qed.

(** Create has no upper bound on the size: when the disk has the room, a
    request for more than [MaxFileSize] (30 sectors) bytes writes past the end of the
    header's sector table instead of failing. *)
Theorem Create_too_large_faults fs w bm d nm fileSize :
  fs_inv fs w bm d → MaxFileSize < fileSize → fits bm d nm fileSize = true →
  Create garbage fs nm fileSize w = Fail MemoryFault.
Proof.
  intros Hi Hsz Hfit. unfold fits in Hfit.
  apply andb_true_iff in Hfit as [[Hk%bool_decide_eq_true Hroom%Z.ltb_lt]%andb_true_iff Hsp%Z.leb_le].
  unfold Create. destruct (fetch_dir garbage fs w bm d Hi) as (w1 & E1 & Hr1 & Hs1). st_step E1.
  pose proof (same_disk_inv _ _ _ _ _ Hs1 Hr1 Hi) as Hi1.
  pose proof (fi_dir _ _ _ _ Hi) as Hdw. st_step_lift (Dir_Find_ok nm d Hdw).
  rewrite Hk. change (default (-1) None) with (-1). cbn [negb Z.eqb Pos.eqb].
  destruct (new_BitMap_ok garbage SectorIO.NumSectors) as (bm0 & E0 & Hwf0 & Hb0 & _); [done|].
  st_step_lift E0. clear E0.
  destruct (fetch_map garbage fs w1 bm d bm0 Hi1 Hwf0 Hb0) as (w2 & E2 & Hr2 & Hs2). st_step E2.
  pose proof (fi_bm _ _ _ _ Hi) as Hwf. pose proof (fi_bits _ _ _ _ Hi) as Hbits.
  assert (Hneed : 0 ≤ divRoundUp fileSize SectorSize).
  { change MaxFileSize with 3840 in Hsz. unfold SectorSize.
    rewrite divRoundUp_nonneg by lia. apply Z.div_pos; lia. }
  destruct (BitMap.Find_ok bm Hwf)
    as [(s & bm1 & E3 & Hsr & Hsm & _ & Hwf1 & Hb1 & Hm1) | [E3 Hall]]; st_step_lift E3.
  2: { exfalso. assert (size (free bm) = 0%nat) as E; [|lia].
       apply size_empty_iff. intros x. rewrite elem_of_free. set_solver. }
  rewrite (proj2 (Z.eqb_neq s (-1))) by lia.
  destruct (Add_ok nm s d Hdw) as (d' & E4 & _); [lia | |].
  { unfold is_int32. change SectorIO.NumSectors with 1024 in Hbits. lia. }
  rewrite Hk, bool_decide_full, (fi_size _ _ _ _ Hi), (proj2 (Z.leb_gt _ _)) in E4 by done.
  change (bool_decide (is_Some (None (A := Z)))) with false in E4. rewrite E4. cbn [negb andb].
  destruct (size_free_mark bm bm1 s Hb1) as [Hsf _]; [by apply elem_of_free | done |].
  destruct (new_FileHeader_ok garbage) as [Hl Hints].
  apply st_bind_Fail, st_lift_Fail. apply (Allocate_overflow SectorIO.NumSectors); try done.
  - congruence.
  - lia.
Qed.
End Refinement.

(** ** Concrete runs *)
Section Examples.
Local Abbreviation W := (list (list Z)).

Lemma FileSystem_refines_map_witness :
  let os := [FsCreate [97] 200; FsWrite [97] [1; 2; 3] 3 126; FsRead [97] 5 125; FsRestart;
             FsCreate [98] 10; FsRemove [97]; FsRead [97] 5 125; FsCreate [97] 3840] in
  ∃ fs w1 rs fs' w' a',
    new_FileSystem (W := W) (λ _, 7) true mem_blank = Ok (fs, w1) ∧
    fs_run (λ _, 7) os fs w1 = Ok ((rs, fs'), w') ∧
    abs_run os rs (∅, 1019) a' ∧ abstracts fs' w' a'.
Proof.
  intros os. apply (FileSystem_refines_map (W := W) (λ _, 7) os mem_blank mem_blank_ready).
  repeat (constructor; [reflexivity|]). constructor.
Defined.

Lemma Create_too_large_faults_witness :
  ∃ fs w, Create (W := W) (λ _, 7) fs [97] 4000 w = Fail MemoryFault.
Proof.
  destruct (format_ok (W := W) (λ _, 7) mem_blank mem_blank_ready) as (fs & w & bm & d & _ & Hi & Hd & Hn).
  exists fs, w. apply (Create_too_large_faults (λ _, 7) fs w bm d); [exact Hi | reflexivity |].
  unfold fits. rewrite Hd, Hn. reflexivity.
Defined.

(** The run of the first example, computed. *)
Example fs_run_computed :
  (let? r := new_FileSystem (W := W) (λ _, 7) true mem_blank in
   let? r := fs_run (λ _, 7) [FsCreate [97] 200; FsWrite [97] [1; 2; 3] 3 126; FsRead [97] 5 125;
                              FsRestart; FsCreate [98] 10; FsRemove [97]; FsRead [97] 5 125;
                              FsCreate [97] 3840] r.1 r.2 in
   Ok r.1.1)
  = Ok [RBool true; RCount (Some 3); RData (Some [0; 1; 2; 3; 0]); RDone; RBool true; RBool true;
        RData None; RBool true].
Proof. vm_compute. reflexivity. Qed.
End Examples.
