(* ===== verification/FsTest.v ===== *)
(** * The file system's own client (filesys/fstest.cc)

    Copy brings a UNIX file in, Print shows a file, PerformanceTest writes and reads one in
    small pieces. A UNIX file is the bytes [fread] gives, or [None] when it cannot be
    opened; what is printed besides a file's bytes is not modelled. *)
From S2P Require Import Prelude Words BitMap Directory SectorIO FileHdr OpenFile FileSys.

Definition TransferSize : Z := 10.

(** "TestFile" and "1234567890" *)
Definition FileName : list Z := [84; 101; 115; 116; 70; 105; 108; 101].
Definition Contents : list Z := [49; 50; 51; 52; 53; 54; 55; 56; 57; 48].
Definition ContentSize : Z := 10.
Definition FileSize : Z := ContentSize * 5000.

Section FsTest.
Context {W : Type} `{SectorDevice W} (garbage : nat → Z).

(** The [while] over [fread]. *)
Fixpoint copy_loop (fuel : nat) (fp : list Z) (openFile : OpenFile) : ST W unit :=
  match fuel with
  | 0%nat => st_fail OutOfFuel
  | S fuel =>
      let buffer := take (Z.to_nat TransferSize) fp in
      let amountRead := Z.of_nat (length buffer) in
      if amountRead >? 0 then
        let* r := Write garbage openFile buffer amountRead in
        copy_loop fuel (drop (Z.to_nat TransferSize) fp) r.2
      else st_ret tt
  end.

(** Whether the file was copied. *)
Definition Copy (fs : FileSystem) (from : option (list Z)) (to : list Z) : ST W bool :=
  match from with
  | None => st_ret false
  | Some fp =>
      let fileLength := int32 (Z.of_nat (length fp)) in
      let* created := Create garbage fs to fileLength in
      if negb created then st_ret false
      else
        let* openFile := Open garbage fs to in
        match openFile with
        | None => st_fail AssertFailure
        | Some openFile =>
            let* _ := copy_loop (S (length fp)) fp openFile in
            st_ret true
        end
  end.

(** The [while] over Read: the bytes printed. *)
Fixpoint print_loop (fuel : nat) (openFile : OpenFile) : ST W (list Z) :=
  match fuel with
  | 0%nat => st_fail OutOfFuel
  | S fuel =>
      let* r := Read garbage openFile TransferSize in
      if Z.of_nat (length r.1) >? 0 then
        let* out := print_loop fuel r.2 in st_ret (r.1 ++ out)
      else st_ret []
  end.

Definition Print (fs : FileSystem) (name : list Z) : ST W (option (list Z)) :=
  let* openFile := Open garbage fs name in
  match openFile with
  | None => st_ret None
  | Some openFile =>
      let* out := print_loop (S (Z.to_nat (Length openFile))) openFile in st_ret (Some out)
  end.

(** The loops of FileWrite and FileRead, [n] pieces to go; whether they reach the end. *)
Fixpoint write_pieces (n : nat) (openFile : OpenFile) : ST W bool :=
  match n with
  | 0%nat => st_ret true
  | S n =>
      let* r := Write garbage openFile Contents ContentSize in
      if r.1 <? 10 then st_ret false else write_pieces n r.2
  end.
Fixpoint read_pieces (n : nat) (openFile : OpenFile) : ST W bool :=
  match n with
  | 0%nat => st_ret true
  | S n =>
      let* r := Read garbage openFile ContentSize in
      if (Z.of_nat (length r.1) <? 10) || negb (bool_decide (r.1 = Contents)) then st_ret false
      else read_pieces n r.2
  end.
Definition pieces : nat := Z.to_nat (FileSize / ContentSize).

Definition FileWrite (fs : FileSystem) : ST W bool :=
  let* created := Create garbage fs FileName 0 in
  if negb created then st_ret false
  else
    let* openFile := Open garbage fs FileName in
    match openFile with
    | None => st_ret false
    | Some openFile => write_pieces pieces openFile
    end.

Definition FileRead (fs : FileSystem) : ST W bool :=
  let* openFile := Open garbage fs FileName in
  match openFile with
  | None => st_ret false
  | Some openFile => read_pieces pieces openFile
  end.

(** What FileWrite, FileRead and Remove say. *)
Definition PerformanceTest (fs : FileSystem) : ST W (bool * bool * bool) :=
  let* written := FileWrite fs in
  let* read := FileRead fs in
  let* removed := Remove garbage fs FileName in
  st_ret (written, read, removed).

(** ** An open file of the file system *)

(** The file [k] is open, its header is [h] in sector [s] and it holds [data]. *)
Record open_at (fs : FileSystem) bm d k s h (data : list Z) (w : W) : Prop := {
  oa_inv : fs_inv fs w bm d;
  oa_entry : dir_map d !! k = Some s;
  oa_hdr : hdr_at w s = h;
  oa_data : contents w h = data;
}.

Lemma open_at_wf fs bm d k s h data w :
  open_at fs bm d k s h data w → hdr_wf h ∧ s ∉ hdr_sectors h ∧ length data = Z.to_nat (numBytes h).
Proof.
  intros [Hi He <- <-]. destruct (fi_files _ _ _ _ Hi _ _ He). split; [done|]. split; [done|].
  apply length_contents.
Qed.

(** Open finds the file as the directory has it. *)
Lemma open_file fs w bm d nm s :
  fs_inv fs w bm d → dir_map d !! key_of nm = Some s →
  ∃ w', Open garbage fs nm w = Ok (Some (mkOpenFile (hdr_at w s) 0), w') ∧ same_disk w w' ∧
    open_at fs bm d (key_of nm) s (hdr_at w s) (contents w (hdr_at w s)) w'.
Proof.
  intros Hi He. destruct (Open_ok garbage fs w bm d nm Hi) as (w' & E & Hr & Hs). rewrite He in E.
  exists w'. split; [exact E|]. split; [done|]. split; [by apply (same_disk_inv _ w)|done| |].
  - by apply hdr_at_same.
  - by apply contents_same.
Qed.

Lemma write_open fs bm d k s h data w from pos :
  open_at fs bm d k s h data w → 0 ≤ pos → pos + Z.of_nat (length from) ≤ Z.of_nat (length data) →
  ∃ w', Write garbage (mkOpenFile h pos) from (Z.of_nat (length from)) w =
      Ok ((Z.of_nat (length from), mkOpenFile h (pos + Z.of_nat (length from))), w') ∧
    open_at fs bm d k s h (splice data (Z.to_nat pos) from) w' ∧
    files w' d = <[k := splice data (Z.to_nat pos) from]> (files w d).
Proof.
  intros Ho Hp Hfit. destruct (open_at_wf _ _ _ _ _ _ _ _ Ho) as (Hh & Hself & Hlen).
  destruct Ho as [Hi He Hhd Hd]. pose proof (hdr_max_bytes _ Hh) as Hmax. change MaxFileSize with 3840 in Hmax.
  set (n := Z.of_nat (length from)) in *.
  assert (Hpn : is_int32 (pos + n)) by (unfold is_int32; lia).
  destruct (write_file_ok garbage fs w bm d k s from n pos Hi He Hp Hpn) as (w' & E & Hi' & Hf); [lia|].
  rewrite Hhd in E, Hf.
  destruct (WriteAt_ok garbage h from n pos w) as (w2 & E2 & Hr2 & Hc2 & Hs2); [done|apply Hi|done|done|lia|].
  rewrite E in E2. injection E2 as <-.
  assert (Hclip : clip h n pos = n).
  { rewrite <- (spec_count_clip w) by done. unfold spec_count. rewrite Hd. lia. }
  assert (Hsp : spec_write data from n pos = splice data (Z.to_nat pos) from).
  { unfold spec_write, spec_count. rewrite Z.min_l, Z.max_r by lia. unfold n. by rewrite Nat2Z.id, firstn_all. }
  exists w'. unfold Write. cbn [OpenFile.hdr seekPosition]. rewrite E. cbn [res_bind fst snd].
  rewrite Hclip, int32_id by done. split; [done|]. rewrite Hd, Hsp in Hf. split; [|done].
  split; [done|done| |].
  - rewrite <- Hhd. apply hdr_at_same. by apply Hs2.
  - rewrite Hc2, Hclip, Hd. unfold n. by rewrite Nat2Z.id, firstn_all.
Qed.

Lemma read_open fs bm d k s h data w n pos :
  open_at fs bm d k s h data w → 0 ≤ pos ≤ Z.of_nat (length data) → 0 ≤ n < 2 ^ 30 →
  let r := slice data (Z.to_nat pos) (Z.to_nat n) in
  ∃ w', Read garbage (mkOpenFile h pos) n w = Ok ((r, mkOpenFile h (pos + Z.of_nat (length r))), w') ∧
    same_disk w w' ∧ open_at fs bm d k s h data w'.
Proof.
  intros Ho Hp Hn r. destruct (open_at_wf _ _ _ _ _ _ _ _ Ho) as (Hh & _ & Hlen).
  destruct Ho as [Hi He Hhd Hd]. pose proof (hdr_max_bytes _ Hh) as Hmax. change MaxFileSize with 3840 in Hmax.
  destruct (ReadAt_ok garbage h n pos w Hh (fi_ready _ _ _ _ Hi)) as (w' & E & Hr & Hs); [lia|unfold is_int32; lia|].
  rewrite Hd in E. exists w'. unfold Read. cbn [OpenFile.hdr seekPosition]. rewrite E. cbn [res_bind fst snd].
  fold r. assert (Hlr : (length r <= length data)%nat).
  { unfold r, slice. rewrite length_take, length_drop. lia. }
  rewrite int32_id by (unfold is_int32; lia). split; [done|]. split; [done|].
  split; [by apply (same_disk_inv _ w)|done| |].
  - rewrite <- Hhd. by apply hdr_at_same.
  - rewrite <- Hd. by apply contents_same.
Qed.
End FsTest.

(** ** Copying and printing *)
Section Loops.
Context {W : Type} `{SectorDevice W} (garbage : nat → Z).

(** Written after [done_], the rest of the file follows. *)
Lemma copy_loop_ok fs bm d k s h fuel fp done_ old w :
  open_at fs bm d k s h (done_ ++ old) w → length old = length fp → (length fp < fuel)%nat →
  ∃ w', copy_loop garbage fuel fp (mkOpenFile h (Z.of_nat (length done_))) w = Ok (tt, w') ∧
    open_at fs bm d k s h (done_ ++ fp) w' ∧
    (files w d !! k = Some (done_ ++ old) → files w' d = <[k := done_ ++ fp]> (files w d)).
Proof.
  revert fp done_ old w. induction fuel as [|fuel IH]; intros fp done_ old w Ho Hl Hfuel; [lia|].
  cbn [copy_loop]. change (Z.to_nat TransferSize) with 10%nat.
  set (buffer := take 10 fp). destruct (Z.gtb_spec (Z.of_nat (length buffer)) 0) as [Hpos|Hpos].
  - assert (Hbl : (length buffer <= length fp)%nat) by (unfold buffer; rewrite length_take; lia).
    destruct (write_open garbage fs bm d k s h _ w buffer (Z.of_nat (length done_)) Ho) as (w1 & E1 & Ho1 & Hf1);
      [lia|rewrite length_app; lia|].
    st_step E1. rewrite Nat2Z.id in *.
    assert (Hsp : splice (done_ ++ old) (length done_) buffer = (done_ ++ buffer) ++ drop (length buffer) old).
    { unfold splice. rewrite take_app_length, drop_app_ge by lia. rewrite <- app_assoc. do 3 f_equal. lia. }
    rewrite Hsp in *. cbn [snd].
    replace (Z.of_nat (length done_) + Z.of_nat (length buffer)) with (Z.of_nat (length (done_ ++ buffer)))
      by (rewrite length_app; lia).
    destruct (IH (drop 10 fp) (done_ ++ buffer) (drop (length buffer) old) w1 Ho1) as (w2 & E2 & Ho2 & Hf2).
    + rewrite !length_drop, Hl. unfold buffer. rewrite length_take. lia.
    + rewrite length_drop. unfold buffer in Hpos. rewrite length_take in Hpos. lia.
    + assert (Hjoin : (done_ ++ buffer) ++ drop 10 fp = done_ ++ fp).
      { rewrite <- app_assoc. f_equal. apply take_drop. }
      rewrite Hjoin in *. exists w2. split; [exact E2|]. split; [done|]. intros Hk.
      rewrite Hf2; rewrite Hf1; [by rewrite insert_insert_eq|by rewrite lookup_insert_eq].
  - assert (fp = []) as ->.
    { destruct fp; [done|]. unfold buffer in Hpos. cbn in Hpos. lia. }
    destruct old; [|done]. exists w. split; [done|]. split; [done|].
    intros Hk. by rewrite insert_id.
Qed.

Lemma print_loop_ok fs bm d k s h data fuel pos w :
  open_at fs bm d k s h data w → 0 ≤ pos ≤ Z.of_nat (length data) →
  Z.of_nat (length data) - pos < Z.of_nat fuel →
  ∃ w', print_loop garbage fuel (mkOpenFile h pos) w = Ok (drop (Z.to_nat pos) data, w') ∧ same_disk w w' ∧
    open_at fs bm d k s h data w'.
Proof.
  revert pos w. induction fuel as [|fuel IH]; intros pos w Ho Hp Hfuel; [lia|]. cbn [print_loop].
  destruct (read_open garbage fs bm d k s h data w TransferSize pos Ho Hp) as (w1 & E1 & Hs1 & Ho1);
    [unfold TransferSize; lia|].
  set (r := slice data (Z.to_nat pos) (Z.to_nat TransferSize)) in *. st_step E1. cbn [fst snd].
  assert (Hr : (length r = min 10 (length data - Z.to_nat pos))%nat)
    by (unfold r, slice; rewrite length_take, length_drop; done).
  destruct (Z.gtb_spec (Z.of_nat (length r)) 0) as [Hpos|Hpos].
  - destruct (IH (pos + Z.of_nat (length r)) w1 Ho1) as (w2 & E2 & Hs2 & Ho2); [lia|lia|].
    st_step E2. exists w2. split; [|split; [by etrans|done] ]. do 2 f_equal.
    replace (Z.to_nat (pos + Z.of_nat (length r))) with (Z.to_nat pos + length r)%nat by lia.
    rewrite <- drop_drop. rewrite <- (take_drop (length r) (drop (Z.to_nat pos) data)) at 2. f_equal.
    unfold r, slice. rewrite length_take, <- take_take, firstn_all. done.
  - exists w1. split; [|done]. rewrite drop_ge by lia. done.
Qed.

(** C33. A UNIX file of at most [MaxFileSize], 3840 bytes, copied in and printed comes out
    byte for byte. Copy of such a file succeeds exactly
    when the name is new, the directory has an entry left and the disk the sectors; the
    file system then has that one file more, with the bytes of the UNIX file, written ten
    at a time; Print shows them and changes nothing. Otherwise nothing has changed. A longer file is
    not refused: FileSys.Create_too_large_faults is what becomes of it. *)
Theorem Copy_then_Print fs w bm d name data :
  fs_inv fs w bm d → Z.of_nat (length data) ≤ MaxFileSize →
  ∃ w1 bm1 d1,
    Copy garbage fs (Some data) name w = Ok (fits bm d name (Z.of_nat (length data)), w1) ∧
    fs_inv fs w1 bm1 d1 ∧
    if fits bm d name (Z.of_nat (length data)) then
      files w1 d1 = <[key_of name := data]> (files w d) ∧
      ∃ w2, Print garbage fs name w1 = Ok (Some data, w2) ∧ same_disk w1 w2
    else same_disk w w1.
Proof.
  intros Hi Hmax. unfold Copy. change MaxFileSize with 3840 in Hmax.
  rewrite int32_id by (unfold is_int32; lia).
  destruct (Create_ok garbage fs w bm d name (Z.of_nat (length data)) Hi) as (w1 & bm1 & d1 & E1 & Hi1 & Hpost);
    [change MaxFileSize with 3840; lia|].
  st_step E1. destruct (fits bm d name _); cbn [negb].
  2: { destruct Hpost as (Hs & -> & ->). exists w1, bm, d. done. }
  destruct Hpost as [(bytes & Hlen & Hf) _].
  pose proof (files_lookup w1 d1 (key_of name)) as Hk. rewrite Hf, lookup_insert_eq in Hk.
  destruct (dir_map d1 !! key_of name) as [s|] eqn:Es; [|done]. injection Hk as Hbytes.
  destruct (open_file garbage fs w1 bm1 d1 name s Hi1 Es) as (w2 & E2 & Hs2 & Ho2). st_step E2.
  rewrite <- Hbytes in Ho2. set (h := hdr_at w1 s) in *.
  destruct (copy_loop_ok fs bm1 d1 (key_of name) s h (S (length data)) data [] bytes w2) as (w3 & E3 & Ho3 & Hf3);
    [done|lia|lia|].
  change (Z.of_nat (length [])) with 0 in E3. st_step E3.
  exists w3, bm1, d1. split; [done|]. split; [apply Ho3|].
  rewrite (same_disk_files w1 w2) in Hf3 by done. rewrite Hf in Hf3.
  split; [rewrite Hf3; [by rewrite insert_insert_eq|apply lookup_insert_eq]|].
  destruct (open_file garbage fs w3 bm1 d1 name s (oa_inv _ _ _ _ _ _ _ _ Ho3) Es) as (w4 & E4 & Hs4 & Ho4).
  rewrite (oa_hdr _ _ _ _ _ _ _ _ Ho3), (oa_data _ _ _ _ _ _ _ _ Ho3) in *. cbn [app] in *.
  unfold Print. st_step E4.
  destruct (open_at_wf _ _ _ _ _ _ _ _ Ho4) as (Hh & _ & Hl). pose proof (hdr_len _ Hh) as Hl0.
  destruct (print_loop_ok fs bm1 d1 (key_of name) s h data (S (Z.to_nat (Length (mkOpenFile h 0)))) 0 w4 Ho4)
    as (w5 & E5 & Hs5 & _); [lia|unfold Length, FileLength; cbn [OpenFile.hdr]; lia|].
  st_step E5. exists w5. split; [done|]. by etrans.
Qed.

(** PerformanceTest cannot succeed: it creates its file with no room, and files do not
    grow. On any file system with a sector and a directory entry left and no file of that
    name, FileWrite gives up at its first ten bytes, FileRead at its first ten, the file is
    removed, and every file is as before. *)
Theorem PerformanceTest_gives_up fs w bm d :
  fs_inv fs w bm d → fits bm d FileName 0 = true →
  ∃ w' bm' d', PerformanceTest garbage fs w = Ok ((false, false, true), w') ∧
    fs_inv fs w' bm' d' ∧ files w' d' = files w d.
Proof.
  intros Hi Hfit. unfold PerformanceTest, FileWrite.
  destruct (Create_ok garbage fs w bm d FileName 0 Hi) as (w1 & bm1 & d1 & E1 & Hi1 & Hpost);
    [change MaxFileSize with 3840; lia|].
  rewrite Hfit in *. destruct Hpost as [(bytes & Hlen & Hf) _]. destruct bytes; [|cbn in Hlen; lia].
  pose proof (files_lookup w1 d1 (key_of FileName)) as Hk. rewrite Hf, lookup_insert_eq in Hk.
  destruct (dir_map d1 !! key_of FileName) as [s|] eqn:Es; [|done]. injection Hk as Hbytes.
  destruct (open_file garbage fs w1 bm1 d1 FileName s Hi1 Es) as (w2 & E2 & Hs2 & Ho2). rewrite <- Hbytes in Ho2.
  set (h := hdr_at w1 s) in *.
  assert (E3 : ∃ w3, write_pieces garbage pieces (mkOpenFile h 0) w2 = Ok (false, w3) ∧ fs_inv fs w3 bm1 d1 ∧
    files w3 d1 = files w2 d1).
  { change pieces with (S (Z.to_nat 4999)). cbn [write_pieces].
    destruct (write_file_ok garbage fs w2 bm1 d1 (key_of FileName) s Contents ContentSize 0 (oa_inv _ _ _ _ _ _ _ _ Ho2) Es)
      as (w3 & E & Hi3 & Hf3); [lia|unfold is_int32, ContentSize; lia|done|].
    rewrite (oa_hdr _ _ _ _ _ _ _ _ Ho2), (oa_data _ _ _ _ _ _ _ _ Ho2) in *.
    destruct (open_at_wf _ _ _ _ _ _ _ _ Ho2) as (Hh & _ & Hl).
    assert (Hc : clip h ContentSize 0 = 0).
    { rewrite <- (spec_count_clip w2) by done. by rewrite (oa_data _ _ _ _ _ _ _ _ Ho2). }
    exists w3. unfold st_bind at 1, Write. cbn [OpenFile.hdr seekPosition]. rewrite E, Hc. cbn [res_bind fst snd].
    split; [done|]. split; [done|]. rewrite Hf3. apply insert_id.
    by rewrite (same_disk_files w1 w2), Hf, lookup_insert_eq by done. }
  destruct E3 as (w3 & E3 & Hi3 & Hf3).
  assert (EW : FileWrite garbage fs w = Ok (false, w3)).
  { unfold FileWrite. st_step E1. cbn [negb]. st_step E2. exact E3. }
  rewrite (st_bind_Ok _ _ _ _ _ EW). cbv beta.
  destruct (open_file garbage fs w3 bm1 d1 FileName s Hi3 Es) as (w4 & E4 & Hs4 & Ho4).
  assert (Hd3 : contents w3 (hdr_at w3 s) = []).
  { pose proof (files_lookup w3 d1 (key_of FileName)) as Hk. rewrite Hf3, (same_disk_files w1 w2), Hf, Es in Hk by done.
    rewrite lookup_insert_eq in Hk. by injection Hk. }
  rewrite Hd3 in Ho4.
  destruct (read_open garbage fs bm1 d1 (key_of FileName) s (hdr_at w3 s) [] w4 ContentSize 0 Ho4)
    as (w5 & E5 & Hs5 & Ho5); [cbn; lia|unfold ContentSize; lia|].
  assert (ER : FileRead garbage fs w3 = Ok (false, w5)).
  { unfold FileRead. st_step E4. change pieces with (S (Z.to_nat 4999)). cbn [read_pieces]. by st_step E5. }
  rewrite (st_bind_Ok _ _ _ _ _ ER). cbv beta.
  destruct (Remove_ok garbage fs w5 bm1 d1 FileName (oa_inv _ _ _ _ _ _ _ _ Ho5)) as (w6 & bm6 & d6 & E6 & Hi6 & Hf6 & _).
  assert (Hf5 : files w5 d1 = <[key_of FileName := []]> (files w d)).
  { by rewrite (same_disk_files w4 w5), (same_disk_files w3 w4), Hf3, (same_disk_files w1 w2), Hf by done. }
  rewrite Hf5, lookup_insert_eq in E6. rewrite bool_decide_true in E6 by eauto. st_step E6.
  exists w6, bm6, d6. split; [done|]. split; [done|]. rewrite Hf6, Hf5, delete_insert_id; [done|].
  rewrite files_lookup. unfold fits in Hfit. rewrite !andb_true_iff, bool_decide_eq_true in Hfit.
  destruct Hfit as [ [Hnone _] _]. by rewrite Hnone.
Qed.
End Loops.

(** The disk just formatted has room. *)
Lemma format_fits (garbage : nat → Z) nm n :
  0 ≤ n ≤ MaxFileSize →
  ∃ fs w bm d, new_FileSystem garbage true mem_blank = Ok (fs, w) ∧ fs_inv fs w bm d ∧ files w d = ∅ ∧
    fits bm d nm n = true.
Proof.
  intros Hn. destruct (format_ok garbage mem_blank mem_blank_ready) as (fs & w & bm & d & E & Hi & Hd & Hfree).
  exists fs, w, bm, d. split; [exact E|]. split; [exact Hi|]. split; [unfold files; by rewrite Hd, fmap_empty|].
  unfold fits. rewrite Hd, Hfree, lookup_empty, map_size_empty, bool_decide_true by done.
  change (Z.of_nat 0 <? NumDirEntries) with true. cbn [andb]. apply Z.leb_le.
  rewrite divRoundUp_nonneg by (unfold SectorSize; lia). change MaxFileSize with 3840 in Hn.
  assert ((n + SectorSize - 1) / SectorSize < 31); [|lia].
  unfold SectorSize. apply Z.div_lt_upper_bound; lia.
Qed.

Lemma Copy_then_Print_witness :
  let data := [5; 4; 3; 2; 1; 5; 4; 3; 2; 1; 0; 7; 8] in
  ∃ fs w w1 w2, new_FileSystem (λ _, 7) true mem_blank = Ok (fs, w) ∧
    Copy (λ _, 7) fs (Some data) [97] w = Ok (true, w1) ∧ Print (λ _, 7) fs [97] w1 = Ok (Some data, w2).
Proof.
  intros data. destruct (format_fits (λ _, 7) [97] 13) as (fs & w & bm & d & E & Hi & _ & Hfit);
    [split; [lia|by vm_compute]|].
  destruct (Copy_then_Print (λ _, 7) fs w bm d [97] data Hi) as (w1 & bm1 & d1 & E1 & _ & H1); [by vm_compute|].
  change (Z.of_nat (length data)) with 13 in *. rewrite Hfit in *. destruct H1 as (_ & w2 & E2 & _).
  exists fs, w, w1, w2. split; [exact E|]. split; [exact E1|exact E2].
Defined.

Lemma PerformanceTest_gives_up_witness :
  ∃ fs w w' bm d, new_FileSystem (λ _, 7) true mem_blank = Ok (fs, w) ∧
    PerformanceTest (λ _, 7) fs w = Ok ((false, false, true), w') ∧ files w' d = ∅ ∧ fs_inv fs w' bm d.
Proof.
  destruct (format_fits (λ _, 7) FileName 0) as (fs & w & bm & d & E & Hi & Hf & Hfit); [split; [lia|by vm_compute]|].
  destruct (PerformanceTest_gives_up (λ _, 7) fs w bm d Hi Hfit) as (w' & bm' & d' & E' & Hi' & Hf').
  exists fs, w, w', bm', d'. split; [exact E|]. split; [exact E'|]. split; [rewrite Hf'; exact Hf|exact Hi'].
Defined.
