(* ===== verification/FsPrint.v ===== *)
(** * What the file system prints of itself (the Print functions of filesys/, bitmap.cc)

    FileSystem::Print shows the headers, the bitmap and the directory with every file in
    it. Text is that of Text.v; the functions read the disk as the other operations do. *)
From stdpp Require Import strings.
From S2P Require Import Prelude Words Text BitMap SectorIO FileHdr OpenFile Directory FileSys.

Module FsPrint.

(** BitMap::Print *)
Definition print_BitMap (bm : BitMap) : res text :=
  let? l := BitMap.Print bm in
  Ok (str "Bitmap set:" ++ newline ++ (l ≫= λ i, dec i ++ str ", ") ++ newline).

Section Print.
Context {W : Type} `{SectorDevice W} (garbage : nat → Z).

(** A byte of a file; [data[j]] is a signed [char]. *)
Definition show_byte (b : Z) : text :=
  if (32 <=? int8 b) && (int8 b <=? 126) then [b] else 92 :: hex (uint8 b).

(** The inner loop, over the bytes of a sector. *)
Fixpoint print_data (data : list Z) (k numBytes : Z) : text * Z :=
  match data with
  | [] => ([], k)
  | b :: data =>
      if k <? numBytes then
        let r := print_data data (k + 1) numBytes in (show_byte b ++ r.1, r.2)
      else ([], k)
  end.

(** FileHeader::Print; the state of the loop is what is printed, and [k]. *)
Definition print_sector (h : FileHeader) (i : Z) : ST (text * Z * W) unit := λ s,
  let? n := arr_get (dataSectors h) i in
  let? r := ReadSector n s.2 in
  let p := print_data r.1 s.1.2 (numBytes h) in
  Ok (tt, (s.1.1 ++ p.1 ++ newline, p.2, r.2)).

Definition print_FileHeader (h : FileHeader) : ST W text := λ w,
  let? blocks := st_for 0 (numSectors h) (λ i out,
    let? n := arr_get (dataSectors h) i in Ok (tt, out ++ dec n ++ str " ")) [] in
  let? r := st_for 0 (numSectors h) (print_sector h) ([], 0, w) in
  Ok (str "FileHeader contents.  File size: " ++ dec (numBytes h) ++ str ".  File blocks:" ++ newline ++
      blocks.2 ++ newline ++ str "File contents:" ++ newline ++ r.2.1.1, r.2.2).

(** Directory::Print *)
Fixpoint print_table (t : list DirectoryEntry) : ST W text :=
  match t with
  | [] => st_ret []
  | e :: t =>
      if inUse e then
        let* nm := st_lift (c_string (name e)) in
        let* h := Hdr_FetchFrom (Directory.sector e) in
        let* file := print_FileHeader h in
        let* more := print_table t in
        st_ret (str "Name: " ++ nm ++ str ", Sector: " ++ dec (Directory.sector e) ++ newline ++ file ++ more)
      else print_table t
  end.
Definition print_Directory (d : Directory) : ST W text :=
  let* l := print_table (table d) in
  st_ret (str "Directory contents:" ++ newline ++ l ++ newline).

(** FileSystem::Print *)
Definition Print (fs : FileSystem) : ST W text :=
  let* freeMap := st_lift (new_BitMap garbage SectorIO.NumSectors) in
  let directory := new_Directory garbage NumDirEntries in
  let* bitHdr := Hdr_FetchFrom FreeMapSector in
  let* t1 := print_FileHeader bitHdr in
  let* dirHdr := Hdr_FetchFrom DirectorySector in
  let* t2 := print_FileHeader dirHdr in
  let* freeMap := BitMap_FetchFrom garbage (freeMapFile fs) freeMap in
  let* t3 := st_lift (print_BitMap freeMap) in
  let* directory := Dir_FetchFrom garbage (directoryFile fs) directory in
  let* t4 := print_Directory directory in
  st_ret (str "Bit map file header:" ++ newline ++ t1 ++ str "Directory file header:" ++ newline ++ t2 ++ t3 ++ t4).
End Print.

(** ** What there is to show *)

(** A file: its length, its sectors, and its bytes in lines of a sector. *)
Definition shown_line (data : list Z) (i : nat) : text :=
  (slice data (128 * i) 128 ≫= show_byte) ++ newline.
Definition shown_file (h : FileHeader) (data : list Z) : text :=
  str "FileHeader contents.  File size: " ++ dec (numBytes h) ++ str ".  File blocks:" ++ newline ++
  (hdr_sectors h ≫= λ n, dec n ++ str " ") ++ newline ++ str "File contents:" ++ newline ++
  (seq 0 (length (hdr_sectors h)) ≫= shown_line data).

(** The bytes of a name before the NUL. *)
Definition shown_name (e : DirectoryEntry) : text :=
  match c_string (name e) with Ok s => s | Fail _ => [] end.

Definition shown_set (n : Z) (used : gset Z) : text :=
  str "Bitmap set:" ++ newline ++
  (filter (λ i, i ∈ used) (seqZ 0 n) ≫= λ i, dec i ++ str ", ") ++ newline.

Section Shown.
Context {W : Type} `{SectorDevice W} (garbage : nat → Z).
Implicit Types (w : W) (h : FileHeader) (fs : FileSystem) (d : Directory).

Definition shown_entry w (e : DirectoryEntry) : text :=
  str "Name: " ++ shown_name e ++ str ", Sector: " ++ dec (Directory.sector e) ++ newline ++
  shown_file (hdr_at w (Directory.sector e)) (contents w (hdr_at w (Directory.sector e))).

Definition shown fs w (bm : BitMap) d : text :=
  str "Bit map file header:" ++ newline ++ shown_file (map_hdr fs) (map_bytes bm) ++
  str "Directory file header:" ++ newline ++ shown_file (dir_hdr fs) (table_bytes (table d)) ++
  shown_set SectorIO.NumSectors (marked bm) ++
  str "Directory contents:" ++ newline ++ (live (table d) ≫= shown_entry w) ++ newline.

(** ** Facts *)

Lemma print_data_take data k nb :
  0 ≤ k → print_data data k nb =
    (take (Z.to_nat (nb - k)) data ≫= show_byte, Z.max k (Z.min nb (k + Z.of_nat (length data)))).
Proof.
  revert k. induction data as [|b data IH]; intros k Hk; cbn [print_data length].
  - rewrite take_nil. cbn. f_equal. lia.
  - destruct (Z.ltb_spec k nb).
    + rewrite IH by lia. cbn [fst snd]. replace (Z.to_nat (nb - k)) with (S (Z.to_nat (nb - (k + 1)))) by lia.
      cbn [take mbind list_bind]. f_equal. lia.
    + replace (Z.to_nat (nb - k)) with 0%nat by lia. cbn. f_equal. lia.
Qed.

(** The part of the file that a sector holds. *)
Lemma sector_ok h i s : hdr_wf h → hdr_sectors h !! i = Some s → valid_sector s ∧ dataSectors h !! i = Some s.
Proof.
  intros Hh Hs. split.
  - pose proof (hdr_valid h Hh) as Hv. rewrite Forall_lookup in Hv. eauto.
  - unfold hdr_sectors in Hs. by apply lookup_take_Some in Hs as [? _].
Qed.

Lemma sector_slice w h i s :
  ready w → hdr_wf h → hdr_sectors h !! i = Some s →
  take (Z.to_nat (numBytes h) - 128 * i) (SectorIO.sector w s) = slice (contents w h) (128 * i) 128.
Proof.
  intros Hr Hh Hs. assert (length (SectorIO.sector w s) = 128%nat) as Hl.
  { apply sector_length; [done|]. by eapply sector_ok. }
  apply list_eq. intros j. destruct (decide (j < 128 ∧ 128 * i + j < Z.to_nat (numBytes h))%nat) as [[Hj Hb]|Hj].
  - rewrite slice_contents_lookup by done. rewrite lookup_take_lt by lia.
    replace (128 * i + j)%nat with (i * 128 + j)%nat by lia. rewrite (byte_at_sector w h i j s) by done.
    destruct (SectorIO.sector w s !! j) eqn:E; [done|]. apply lookup_ge_None in E. lia.
  - rewrite !lookup_ge_None_2; [done | |].
    + rewrite length_slice_contents. lia.
    + rewrite length_take. lia.
Qed.

(** A loop that collects text. *)
Lemma collect_ok (n : nat) (body : Z → ST text unit) (g : nat → text) :
  (∀ i out, (i < n)%nat → body (Z.of_nat i) out = Ok (tt, out ++ g i)) →
  st_for 0 (Z.of_nat n) body [] = Ok (tt, seq 0 n ≫= g).
Proof.
  intros Hf. destruct (st_for_inv (λ i out, out = seq 0 (Z.to_nat i) ≫= g) 0 (Z.of_nat n) body [])
    as (out & -> & ->); [lia | done | | by rewrite Nat2Z.id].
  intros i out Hi ->. specialize (Hf (Z.to_nat i) (seq 0 (Z.to_nat i) ≫= g) ltac:(lia)).
  rewrite Z2Nat.id in Hf by lia. eexists. split; [exact Hf|].
  replace (Z.to_nat (i + 1)) with (Z.to_nat i + 1)%nat by lia.
  rewrite seq_app, bind_app. cbn. by rewrite app_nil_r.
Qed.

Lemma bind_seq_lookup {A} (l : list A) (f : A → text) :
  seq 0 (length l) ≫= (λ i, match l !! i with Some x => f x | None => [] end) = l ≫= f.
Proof.
  induction l as [|x l IH]; [done|]. cbn. f_equal. rewrite <- fmap_S_seq, list_fmap_bind. exact IH.
Qed.

Lemma print_sector_ok h w i k out s :
  ready w → hdr_wf h → hdr_sectors h !! i = Some s → k = Z.min (numBytes h) (128 * Z.of_nat i) →
  ∃ w', print_sector h (Z.of_nat i) (out, k, w) =
      Ok (tt, (out ++ shown_line (contents w h) i, Z.min (numBytes h) (128 * Z.of_nat (S i)), w')) ∧
    ready w' ∧ same_disk w w'.
Proof.
  intros Hr Hh Hs ->. unfold print_sector. pose proof (hdr_len h Hh) as Hn.
  destruct (sector_ok h i s Hh Hs) as [Hv Hd].
  rewrite (arr_get_lookup _ _ s) by (rewrite ?Nat2Z.id; done || lia). cbn [res_bind fst snd].
  destruct (ReadSector_ok w s Hr Hv) as (w' & -> & Hr' & Hs').
  cbn [res_bind fst snd]. exists w'. split; [|done]. rewrite print_data_take by lia. cbn [fst snd].
  assert (Hfull : 128 * Z.of_nat i ≤ numBytes h).
  { pose proof (hdr_bytes_fit h Hh). pose proof (length_hdr_sectors h Hh). apply lookup_lt_Some in Hs.
    unfold SectorSize in *. lia. }
  rewrite sector_length by done.
  change (Z.of_nat (Z.to_nat SectorSize)) with 128. unfold shown_line.
  rewrite <- (sector_slice w h i s) by done.
  replace (Z.to_nat (numBytes h - Z.min (numBytes h) (128 * Z.of_nat i)))
    with (Z.to_nat (numBytes h) - 128 * i)%nat by lia.
  by match goal with |- Ok (_, (_, ?a, _)) = Ok (_, (_, ?b, _)) => replace a with b by lia end.
Qed.

Lemma print_FileHeader_ok h w :
  ready w → hdr_wf h →
  ∃ w', print_FileHeader h w = Ok (shown_file h (contents w h), w') ∧ ready w' ∧ same_disk w w'.
Proof.
  intros Hr Hh. unfold print_FileHeader. rewrite <- (length_hdr_sectors h Hh).
  set (n := length (hdr_sectors h)). pose proof (hdr_len h Hh) as Hn.
  rewrite (collect_ok n _ (λ i, match hdr_sectors h !! i with Some m => dec m ++ str " " | None => [] end)).
  2: { intros i out Hi. destruct (lookup_lt_is_Some_2 (hdr_sectors h) i Hi) as [s Hs]. rewrite Hs.
       rewrite (arr_get_lookup _ _ s) by first [lia | rewrite Nat2Z.id; by eapply sector_ok]. done. }
  unfold n at 1. rewrite bind_seq_lookup. cbn [res_bind fst snd].
  set (P := λ i (st : text * Z * W), st.1.1 = seq 0 (Z.to_nat i) ≫= shown_line (contents w h) ∧
    st.1.2 = Z.min (numBytes h) (128 * i) ∧ ready st.2 ∧ same_disk w st.2).
  destruct (st_for_inv P 0 (Z.of_nat n) (print_sector h) ([], 0, w)) as ([[out k] w'] & -> & Ho & _ & Hr' & Hs').
  - lia.
  - unfold P. cbn. split_and!; [done | lia | done | done].
  - intros i [[out k] w1] Hi (Ho & Hk & Hr1 & Hs1). cbn [fst snd] in *. subst out k.
    destruct (lookup_lt_is_Some_2 (hdr_sectors h) (Z.to_nat i)) as [s Hs]; [unfold n in Hi; lia|].
    destruct (print_sector_ok h w1 (Z.to_nat i) (Z.min (numBytes h) (128 * i))
      (seq 0 (Z.to_nat i) ≫= shown_line (contents w h)) s Hr1 Hh Hs) as (w2 & E & Hr2 & Hs2); [f_equal; lia|].
    rewrite Z2Nat.id in E by lia. rewrite (contents_same w w1) in E by done.
    eexists. split; [exact E|]. unfold P. cbn [fst snd].
    replace (Z.to_nat (i + 1)) with (Z.to_nat i + 1)%nat by lia. rewrite seq_app, bind_app. cbn.
    rewrite app_nil_r. split_and!; [done | f_equal; lia | done | by etrans].
  - cbn [res_bind fst snd] in *. rewrite Ho, Nat2Z.id. eauto.
Qed.

Lemma live_bound d e : dir_wf d → e ∈ live (table d) → ∃ k, dir_map d !! k = Some (Directory.sector e).
Proof.
  intros Hd He. exists (key_of (name e)). apply elem_of_list_to_map_1.
  - pose proof (dir_keys d Hd) as Hk. unfold keys in Hk. unfold bindings.
    by rewrite <- list_fmap_compose.
  - apply list_elem_of_fmap. eauto.
Qed.

(** A name that ends within its field. *)
Definition ends (e : DirectoryEntry) : bool := match c_string (name e) with Ok _ => true | Fail _ => false end.

Lemma shown_entry_same w w' e : same_disk w w' → shown_entry w' e = shown_entry w e.
Proof. intros Hs. unfold shown_entry. rewrite (hdr_at_same w w') by apply Hs. by rewrite (contents_same w w'). Qed.

Lemma fetch_header w s :
  ready w → valid_sector s →
  ∃ w', Hdr_FetchFrom s w = Ok (hdr_at w s, w') ∧ ready w' ∧ same_disk w w'.
Proof.
  intros Hr Hv. destruct (ReadSector_ok w s Hr Hv) as (w' & E & Hr' & Hs). exists w'.
  unfold Hdr_FetchFrom. by rewrite E.
Qed.

Lemma print_BitMap_ok bm : wf bm → print_BitMap bm = Ok (shown_set (numBits bm) (marked bm)).
Proof. intros Hwf. unfold print_BitMap. by rewrite Print_ok. Qed.

Lemma print_table_ok w0 t : ∀ w,
  ready w → same_disk w0 w →
  (∀ e, e ∈ live t → ends e = true ∧ valid_sector (Directory.sector e) ∧ hdr_wf (hdr_at w0 (Directory.sector e))) →
  ∃ w', print_table t w = Ok (live t ≫= shown_entry w0, w') ∧ ready w' ∧ same_disk w w'.
Proof.
  induction t as [|e t IH]; intros w Hr Hs Ht; [by exists w|]. cbn [print_table].
  unfold live in *. rewrite filter_cons in Ht |- *. destruct (inUse e) eqn:Eu; cbn [decide] in *.
  2: { rewrite decide_False in Ht |- * by done. by apply IH. }
  rewrite decide_True in Ht |- * by done.
  destruct (Ht e ltac:(left)) as (Hend & Hv & Hh). unfold ends in Hend.
  destruct (c_string (name e)) as [nm|] eqn:En; [|done]. clear Hend.
  unfold st_bind at 1, st_lift.
  destruct (fetch_header w _ Hr Hv) as (w1 & E1 & Hr1 & Hs1). rewrite (hdr_at_same w0 w) in E1 by apply Hs.
  st_step E1. destruct (print_FileHeader_ok _ w1 Hr1 Hh) as (w2 & E2 & Hr2 & Hs2). st_step E2.
  assert (Hs02 : same_disk w0 w2) by (etrans; [exact Hs|]; etrans; [exact Hs1 | exact Hs2]).
  destruct (IH w2 Hr2 Hs02) as (w3 & E3 & Hr3 & Hs3); [intros e' He'; apply Ht; by right|].
  st_step E3. exists w3. split_and!; [|done | etrans; [exact Hs1|]; by etrans].
  cbn [mbind list_bind]. unfold shown_entry at 2. unfold shown_name. rewrite En.
  rewrite (contents_same w0 w1) by by etrans. unfold st_ret. by rewrite <- !(assoc_L (++)).
Qed.

Lemma valid_map : valid_sector FreeMapSector.
Proof. done. Qed.

Lemma valid_dir : valid_sector DirectorySector.
Proof. done. Qed.

(** FileSystem::Print shows the whole of a file system: the headers and the bytes of its two
    files, the sectors in use, and every file of the directory with its sector, its length,
    its sectors and its bytes; and changes nothing. It needs every name to end in its field,
    which names of nine characters may not. *)
Theorem Print_shows fs w bm d :
  fs_inv fs w bm d → forallb ends (live (table d)) = true →
  ∃ w', Print garbage fs w = Ok (shown fs w bm d, w') ∧ ready w' ∧ same_disk w w'.
Proof.
  intros Hi Hends. destruct (new_BitMap_ok garbage SectorIO.NumSectors) as (bm0 & E0 & Hwf0 & Hn0 & _); [done|].
  pose proof (fi_map_hdr _ _ _ _ Hi) as Hmh. pose proof (fi_dir_hdr _ _ _ _ Hi) as Hdh.
  unfold Print. st_step_lift E0.
  destruct (fetch_header w FreeMapSector) as (w1 & E1 & Hr1 & Hs1);
    [exact (fi_ready _ _ _ _ Hi) | exact valid_map |].
  rewrite (fi_map_at _ _ _ _ Hi) in E1. st_step E1.
  destruct (print_FileHeader_ok (map_hdr fs) w1 Hr1 Hmh) as (w2 & E2 & Hr2 & Hs2). st_step E2.
  assert (H2 : same_disk w w2) by by etrans.
  destruct (fetch_header w2 DirectorySector Hr2) as (w3 & E3 & Hr3 & Hs3); [exact valid_dir|].
  rewrite (hdr_at_same w w2), (fi_dir_at _ _ _ _ Hi) in E3 by apply H2. st_step E3.
  destruct (print_FileHeader_ok (dir_hdr fs) w3 Hr3 Hdh) as (w4 & E4 & Hr4 & Hs4). st_step E4.
  assert (H3 : same_disk w w3) by by etrans.
  assert (H4 : same_disk w w4) by by etrans.
  pose proof (same_disk_inv fs w w4 bm d H4 Hr4 Hi) as Hi4.
  destruct (fetch_map garbage fs w4 bm d bm0 Hi4 Hwf0 Hn0) as (w5 & E5 & Hr5 & Hs5). st_step E5.
  st_step_lift (print_BitMap_ok bm (fi_bm _ _ _ _ Hi)).
  assert (H5 : same_disk w w5) by by etrans.
  pose proof (same_disk_inv fs w w5 bm d H5 Hr5 Hi) as Hi5.
  destruct (fetch_dir garbage fs w5 bm d Hi5) as (w6 & E6 & Hr6 & Hs6). st_step E6.
  assert (H6 : same_disk w w6) by by etrans.
  destruct (print_table_ok w (table d) w6 Hr6 H6) as (w7 & E7 & Hr7 & Hs7).
  { intros e He. destruct (live_bound d e (fi_dir _ _ _ _ Hi) He) as [k Hk].
    destruct (fi_files _ _ _ _ Hi k _ Hk) as [Hv Hh _ _]. split_and!; [|done..].
    by apply (proj1 (forallb_forall _ _) Hends), list_elem_of_In. }
  exists w7. split_and!; [|done | by etrans].
  unfold print_Directory, st_bind. rewrite E7. unfold st_ret, shown. 
  rewrite (contents_same w w1), (contents_same w w3), (fi_map _ _ _ _ Hi), (fi_table _ _ _ _ Hi),
    (fi_bits _ _ _ _ Hi) by done. by rewrite <- ?(assoc_L (++)).
Qed.
End Shown.
End FsPrint.
