(* ===== verification/Machine.v ===== *)
(** * The simulated machine (src/code/machine/machine.h, machine.cc, translate.h,
    translate.cc)

    Registers, physical memory and the translation of virtual addresses through a
    page table or a TLB. The host is little endian ([HOST_IS_BIG_ENDIAN] not set). *)
From S2P Require Import Prelude Words.

Definition PageSize : Z := 128.
Definition NumPhysPages : Z := 4096.
Definition MemorySize : Z := NumPhysPages * PageSize.
Definition TLBSize : Z := 4.

Inductive ExceptionType :=
  | NoException
  | SyscallException
  | PageFaultException
  | ReadOnlyException
  | BusErrorException
  | AddressErrorException
  | OverflowException
  | IllegalInstrException
  | NumExceptionTypes.

#[global] Instance ExceptionType_eq_dec : EqDecision ExceptionType.
Proof. solve_decision. Defined.

Definition StackReg : Z := 29.
Definition RetAddrReg : Z := 31.
Definition NumGPRegs : Z := 32.
Definition HiReg : Z := 32.
Definition LoReg : Z := 33.
Definition PCReg : Z := 34.
Definition NextPCReg : Z := 35.
Definition PrevPCReg : Z := 36.
Definition LoadReg : Z := 37.
Definition LoadValueReg : Z := 38.
Definition BadVAddrReg : Z := 39.
Definition NumTotalRegs : Z := 40.

(** class TranslationEntry *)
Record TranslationEntry := mkTranslation {
  virtualPage : Z;
  physicalPage : Z;
  valid : bool;
  readOnly : bool;
  use : bool;
  dirty : bool
}.

(** class Machine. A byte of [mainMemory] is absent from the map while it still has
    the 0 the constructor gave it. [None] is the NULL pointer. *)
Record Machine := mkMachine {
  mainMemory : gmap Z Z;
  registers : list Z;
  tlb : option (list TranslationEntry);
  pageTable : option (list TranslationEntry);
  pageTableSize : Z;
  singleStep : bool;
  runUntilTime : Z
}.

Definition host_big_endian : bool := false.

(** ** Construction *)

(** The bytes of the union written one by one and read as a word. *)
Definition CheckEndian : res unit :=
  let intword := le_val [1; 2; 3; 4] in
  if host_big_endian then ASSERT (intword =? 0x01020304) else ASSERT (intword =? 0x04030201).

Definition new_Machine (debug : bool) : res Machine :=
  let m := mkMachine ∅ (replicate (Z.to_nat NumTotalRegs) 0) None None 0 debug 0 in
  let? _ := CheckEndian in
  Ok m.

(** ** Registers *)

Definition set_registers (r : list Z) (m : Machine) : Machine :=
  mkMachine (mainMemory m) r (tlb m) (pageTable m) (pageTableSize m) (singleStep m) (runUntilTime m).
Definition set_mainMemory (b : gmap Z Z) (m : Machine) : Machine :=
  mkMachine b (registers m) (tlb m) (pageTable m) (pageTableSize m) (singleStep m) (runUntilTime m).
Definition set_tlb (t : list TranslationEntry) (m : Machine) : Machine :=
  mkMachine (mainMemory m) (registers m) (Some t) (pageTable m) (pageTableSize m) (singleStep m)
            (runUntilTime m).
Definition set_pageTable (t : list TranslationEntry) (m : Machine) : Machine :=
  mkMachine (mainMemory m) (registers m) (tlb m) (Some t) (pageTableSize m) (singleStep m)
            (runUntilTime m).

(** [registers[num]] and [registers[num] = value] inside the simulator. *)
Definition reg (num : Z) : ST Machine Z := λ m,
  let? v := arr_get (registers m) num in Ok (v, m).
Definition set_reg (num value : Z) : ST Machine unit := λ m,
  let? r := arr_set (registers m) num value in Ok (tt, set_registers r m).

Definition ReadRegister (num : Z) : ST Machine Z := λ m,
  let? _ := ASSERT ((num >=? 0) && (num <? NumTotalRegs)) in reg num m.
Definition WriteRegister (num value : Z) : ST Machine unit := λ m,
  let? _ := ASSERT ((num >=? 0) && (num <? NumTotalRegs)) in set_reg num value m.

(** mipssim.cc *)
Definition DelayedLoad (nextReg nextValue : Z) : ST Machine unit :=
  let* r := reg LoadReg in
  let* v := reg LoadValueReg in
  let* _ := set_reg r v in
  let* _ := set_reg LoadReg nextReg in
  let* _ := set_reg LoadValueReg nextValue in
  set_reg 0 0.

(** ** Physical memory *)

Definition mem_byte (a : Z) (m : Machine) : res Z :=
  if decide (0 ≤ a < MemorySize) then Ok (default 0 (mainMemory m !! a)) else Fail MemoryFault.
Definition set_mem_byte (a b : Z) (m : Machine) : res Machine :=
  if decide (0 ≤ a < MemorySize) then Ok (set_mainMemory (<[a := b]> (mainMemory m)) m)
  else Fail MemoryFault.

Fixpoint mem_bytes (a : Z) (n : nat) (m : Machine) : res (list Z) :=
  match n with
  | O => Ok []
  | S n => let? b := mem_byte a m in let? bs := mem_bytes (a + 1) n m in Ok (b :: bs)
  end.
Fixpoint set_mem_bytes (a : Z) (bs : list Z) (m : Machine) : res Machine :=
  match bs with
  | [] => Ok m
  | b :: bs => let? m := set_mem_byte a b m in set_mem_bytes (a + 1) bs m
  end.

(** ** Translation *)

(** The loop over the TLB: the index of the first valid entry of the page. *)
Fixpoint tlb_find (t : list TranslationEntry) (i : nat) (n : nat) (vpn : Z) : option nat :=
  match n, t with
  | S n, e :: t => if valid e && (virtualPage e =? vpn) then Some i else tlb_find t (S i) n vpn
  | _, _ => None
  end.

Definition mark_used (writing : bool) (e : TranslationEntry) : TranslationEntry :=
  mkTranslation (virtualPage e) (physicalPage e) (valid e) (readOnly e) true
                (if writing then true else dirty e).

(** The tests and updates after an entry is found; [store] puts the updated entry
    back where it was. *)
Definition use_entry (e : TranslationEntry) (store : TranslationEntry → Machine → Machine)
    (offset size : Z) (writing : bool) : ST Machine (ExceptionType + Z) := λ m,
  if readOnly e && writing then Ok (inl ReadOnlyException, m)
  else
    let pageFrame := physicalPage e in
    if pageFrame >=? NumPhysPages then Ok (inl BusErrorException, m)
    else
      let m := store (mark_used writing e) m in
      let physAddr := int32 (uint32 (pageFrame * PageSize + offset)) in
      let? _ := ASSERT ((physAddr >=? 0) && (physAddr + size <=? MemorySize)) in
      Ok (inr physAddr, m).

Definition Translate (virtAddr size : Z) (writing : bool) : ST Machine (ExceptionType + Z) := λ m,
  if ((size =? 4) && negb (Z.land virtAddr 0x3 =? 0)) ||
     ((size =? 2) && negb (Z.land virtAddr 0x1 =? 0))
  then Ok (inl AddressErrorException, m)
  else
    let? _ := ASSERT (bool_decide (tlb m = None) || bool_decide (pageTable m = None)) in
    let? _ := ASSERT (negb (bool_decide (tlb m = None)) || negb (bool_decide (pageTable m = None))) in
    let vpn := uint32 virtAddr / PageSize in
    let offset := uint32 virtAddr mod PageSize in
    match tlb m with
    | None =>
        let pt := default [] (pageTable m) in
        if vpn >=? pageTableSize m then Ok (inl AddressErrorException, m)
        else
          let? e := arr_get pt vpn in
          if negb (valid e) then Ok (inl PageFaultException, m)
          else use_entry e (λ e, set_pageTable (<[Z.to_nat vpn := e]> pt)) offset size writing m
    | Some t =>
        match tlb_find t 0 (Z.to_nat TLBSize) vpn with
        | None => Ok (inl PageFaultException, m)
        | Some i =>
            let? e := arr_get t (Z.of_nat i) in
            use_entry e (λ e, set_tlb (<[i := e]> t)) offset size writing m
        end
    end.

(** A failed access raises [exception] with the address and gives FALSE: [inl]. *)
Definition ReadMem (addr size : Z) : ST Machine (ExceptionType + Z) := λ m,
  let? r := Translate addr size false m in
  let '(t, m) := r in
  match t with
  | inl exception => Ok (inl exception, m)
  | inr pa =>
      if size =? 1 then
        let? b := mem_byte pa m in Ok (inr (int8 b), m)
      else if size =? 2 then
        let? bs := mem_bytes pa 2 m in
        Ok (inr (ShortToHost host_big_endian (uint16 (le_val bs))), m)
      else if size =? 4 then
        let? bs := mem_bytes pa 4 m in
        Ok (inr (int32 (WordToHost host_big_endian (uint32 (int32 (le_val bs))))), m)
      else Fail AssertFailure
  end.

Definition WriteMem (addr size value : Z) : ST Machine (ExceptionType + unit) := λ m,
  let? r := Translate addr size true m in
  let '(t, m) := r in
  match t with
  | inl exception => Ok (inl exception, m)
  | inr pa =>
      if size =? 1 then
        let? m := set_mem_byte pa (uint8 (Z.land value 0xff)) m in Ok (inr tt, m)
      else if size =? 2 then
        let? m := set_mem_bytes pa
                    (le_bytes 2 (ShortToMachine host_big_endian (uint16 (Z.land value 0xffff)))) m in
        Ok (inr tt, m)
      else if size =? 4 then
        let? m := set_mem_bytes pa (le_bytes 4 (WordToMachine host_big_endian (uint32 value))) m in
        Ok (inr tt, m)
      else Fail AssertFailure
  end.

(** What RaiseException does before it calls the handler of the kernel. *)
Definition RaiseException_enter (badVAddr : Z) : ST Machine unit :=
  let* _ := set_reg BadVAddrReg badVAddr in
  DelayedLoad 0 0.

(** ** Well-formed machines *)

Definition entry_ok (e : TranslationEntry) : Prop := is_uint32 (physicalPage e).

(** Registers are [int]s and a pending load names a general register; memory holds
    bytes; there is either a TLB or a page table, of the announced size. *)
Record machine_wf (m : Machine) : Prop := {
  mw_len : length (registers m) = Z.to_nat NumTotalRegs;
  mw_int : Forall is_int32 (registers m);
  mw_load : ∃ l, registers m !! Z.to_nat LoadReg = Some l ∧ 0 ≤ l < NumGPRegs;
  mw_mem : map_Forall (λ _ b, is_byte b) (mainMemory m);
  mw_tables : match tlb m, pageTable m with
              | Some t, None => length t = Z.to_nat TLBSize ∧ Forall entry_ok t
              | None, Some t => Z.of_nat (length t) = pageTableSize m ∧ Forall entry_ok t
              | _, _ => False
              end
}.

(** What executing user code does not touch: registers aside, the tables keep their
    shape. *)
Record same_regs (m m' : Machine) : Prop := {
  sr_regs : registers m' = registers m;
  sr_size : pageTableSize m' = pageTableSize m
}.

Section Facts.
Implicit Types (m : Machine) (e : TranslationEntry).

Lemma reg_ok m n :
  machine_wf m → 0 ≤ n < NumTotalRegs →
  ∃ v, reg n m = Ok (v, m) ∧ registers m !! Z.to_nat n = Some v ∧ is_int32 v.
Proof.
  intros [Hl Hi _ _ _] Hn. unfold reg.
  destruct (arr_get_in (registers m) n) as (v & -> & Hv).
  { rewrite Hl. change NumTotalRegs with 40 in *. lia. }
  exists v. repeat split; try done; by apply (Forall_lookup_1 _ _ _ _ Hi Hv).
Qed.

Lemma set_reg_eq m n v :
  machine_wf m → 0 ≤ n < NumTotalRegs →
  set_reg n v m = Ok (tt, set_registers (<[Z.to_nat n := v]> (registers m)) m).
Proof.
  intros [Hl _ _ _ _] Hn. unfold set_reg. rewrite arr_set_in; [done|].
  rewrite Hl. change NumTotalRegs with 40 in *. lia.
Qed.

Lemma set_reg_wf m n v :
  machine_wf m → 0 ≤ n < NumTotalRegs → is_int32 v → (n = LoadReg → 0 ≤ v < NumGPRegs) →
  machine_wf (set_registers (<[Z.to_nat n := v]> (registers m)) m).
Proof.
  intros [Hl Hi (l & Hl1 & Hl2) Hm Ht] Hn Hv Hld. change NumTotalRegs with 40 in *.
  split; try done; simpl.
  - by rewrite length_insert.
  - by apply Forall_insert.
  - destruct (decide (n = LoadReg)) as [->|Hne].
    + exists v. split; [|auto]. rewrite list_lookup_insert_eq; [done|].
      rewrite Hl. unfold LoadReg, NumTotalRegs. lia.
    + exists l. split; [|done]. rewrite list_lookup_insert_ne; [done|].
      unfold LoadReg in *. lia.
Qed.

(** ReadRegister and WriteRegister check what they are given. *)
Lemma ReadRegister_out m n : ¬ (0 ≤ n < NumTotalRegs) → ReadRegister n m = Fail AssertFailure.
Proof.
  intros Hn. unfold ReadRegister. replace ((n >=? 0) && (n <? NumTotalRegs)) with false; [done|].
  symmetry. apply not_true_is_false. rewrite andb_true_iff, Z.geb_le, Z.ltb_lt. lia.
Qed.

(** The four updates of DelayedLoad. *)
Lemma DelayedLoad_ok m nr nv :
  machine_wf m → 0 ≤ nr < NumGPRegs → is_int32 nv →
  ∃ m', DelayedLoad nr nv m = Ok (tt, m') ∧ machine_wf m' ∧
    registers m' !! 0%nat = Some 0 ∧
    mainMemory m' = mainMemory m ∧ tlb m' = tlb m ∧ pageTable m' = pageTable m ∧
    pageTableSize m' = pageTableSize m ∧
    ∀ k, (32 ≤ k)%nat → k ≠ 37%nat → k ≠ 38%nat → registers m' !! k = registers m !! k.
Proof.
  intros Hwf Hnr Hnv. change NumGPRegs with 32 in Hnr.
  destruct (mw_load _ Hwf) as (l & Hl & Hlr). change NumGPRegs with 32 in Hlr.
  unfold DelayedLoad.
  destruct (reg_ok m LoadReg Hwf) as (l' & E1 & Hl' & _); [done|]. st_step E1.
  assert (l' = l) as -> by congruence.
  destruct (reg_ok m LoadValueReg Hwf) as (v & E2 & _ & Hv); [done|]. st_step E2.
  assert (Hr1 : 0 ≤ l < NumTotalRegs) by (change NumTotalRegs with 40; lia).
  pose proof (set_reg_wf m l v Hwf Hr1 Hv) as H1.
  assert (l = LoadReg → 0 ≤ v < NumGPRegs) as Hno by (unfold LoadReg; lia).
  specialize (H1 Hno). st_step (set_reg_eq m l v Hwf Hr1). set (m1 := set_registers _ _) in *.
  assert (H2 := set_reg_wf m1 LoadReg nr H1 ltac:(done) ltac:(unfold is_int32; lia) ltac:(done)).
  st_step (set_reg_eq m1 LoadReg nr H1 ltac:(done)). set (m2 := set_registers _ _) in H2 |- *.
  assert (H3 := set_reg_wf m2 LoadValueReg nv H2 ltac:(done) Hnv ltac:(done)).
  st_step (set_reg_eq m2 LoadValueReg nv H2 ltac:(done)). set (m3 := set_registers _ _) in H3 |- *.
  assert (H4 := set_reg_wf m3 0 0 H3 ltac:(done) ltac:(done) ltac:(done)).
  rewrite (set_reg_eq m3 0 0 H3) by done.
  eexists. split; [done|]. split; [done|]. split.
  - change (<[0%nat := 0]> (registers m3) !! 0%nat = Some 0). rewrite list_lookup_insert_eq; [done|].
    rewrite (mw_len _ H3). unfold NumTotalRegs. lia.
  - do 4 (split; [done|]). intros k Hk H37 H38. simpl. unfold LoadReg, LoadValueReg.
    by rewrite !list_lookup_insert_ne by lia.
Qed.

(** *** Memory *)

Lemma mem_bytes_ok m a n :
  machine_wf m → 0 ≤ a → a + Z.of_nat n ≤ MemorySize →
  ∃ bs, mem_bytes a n m = Ok bs ∧ length bs = n ∧ Forall is_byte bs.
Proof.
  intros Hwf. revert a. induction n as [|n IH]; intros a Ha Hn; [by exists []|].
  simpl. unfold mem_byte. rewrite decide_True by lia. simpl.
  destruct (IH (a + 1)) as (bs & -> & Hl & Hb); [lia | lia |]. simpl.
  eexists. split; [done|]. split; [by rewrite <- Hl|]. constructor; [|done].
  destruct (mainMemory m !! a) as [b|] eqn:E; [|done]. apply (mw_mem _ Hwf _ _ E).
Qed.

Lemma set_mem_bytes_ok m a bs :
  machine_wf m → 0 ≤ a → a + Z.of_nat (length bs) ≤ MemorySize → Forall is_byte bs →
  ∃ m', set_mem_bytes a bs m = Ok m' ∧ machine_wf m' ∧
    registers m' = registers m ∧ tlb m' = tlb m ∧ pageTable m' = pageTable m ∧
    pageTableSize m' = pageTableSize m ∧
    (∀ x, mainMemory m' !! x =
       if decide (a ≤ x < a + Z.of_nat (length bs)) then bs !! Z.to_nat (x - a)
       else mainMemory m !! x).
Proof.
  intros Hwf Ha Hn Hb. revert m a Hwf Ha Hn. induction Hb as [|b bs Hb Hbs IH]; intros m a Hwf Ha Hn.
  - exists m. simpl. do 6 (split; [done|]). intros y. by rewrite decide_False by lia.
  - simpl in Hn. simpl. unfold set_mem_byte. rewrite decide_True by lia. simpl.
    assert (Hwf1 : machine_wf (set_mainMemory (<[a:=b]> (mainMemory m)) m)).
    { destruct Hwf. split; try done. simpl. by apply map_Forall_insert_2. }
    destruct (IH _ (a + 1) Hwf1) as (m' & -> & Hwf' & H1 & H2 & H3 & H4 & H5); [lia | lia |].
    exists m'. repeat (split; [done|]). intros x. rewrite H5. simpl.
    destruct (decide (x = a)) as [->|Hne].
    + rewrite decide_False, decide_True by lia. rewrite lookup_insert_eq.
      by replace (Z.to_nat (a - a)) with 0%nat by lia.
    + rewrite lookup_insert_ne by done.
      destruct (decide (a + 1 ≤ x < a + 1 + Z.of_nat (length bs))).
      * rewrite decide_True by lia.
        replace (Z.to_nat (x - a)) with (S (Z.to_nat (x - (a + 1)))) by lia. done.
      * by rewrite decide_False by lia.
Qed.
End Facts.

(** ** Translation: facts *)
Section Translation.
Implicit Types (m : Machine) (e : TranslationEntry).

(** A TLB entry that may be used for page [vpn]. *)
Definition holds_page (vpn : Z) e : Prop := valid e = true ∧ virtualPage e = vpn.

(** Entry [i] of the TLB is the first one, of its [TLBSize], for page [vpn]. *)
Definition tlb_maps (t : list TranslationEntry) (vpn : Z) e (i : nat) : Prop :=
  Z.of_nat i < TLBSize ∧ t !! i = Some e ∧ holds_page vpn e ∧
  ∀ j e', (j < i)%nat → t !! j = Some e' → ¬ holds_page vpn e'.

(** The entry that maps page [vpn]: in the TLB, the first valid one of that page; in a
    page table, the one at index [vpn], when it is valid. *)
Definition maps m (vpn : Z) e (i : nat) : Prop :=
  match tlb m with
  | None => ∃ pt, pageTable m = Some pt ∧ pt !! i = Some e ∧ Z.of_nat i = vpn ∧
                  vpn < pageTableSize m ∧ valid e = true
  | Some t => tlb_maps t vpn e i
  end.

(** Where the updated entry goes. *)
Definition store_entry m (i : nat) e : Machine :=
  match tlb m with
  | None => set_pageTable (<[i := e]> (default [] (pageTable m))) m
  | Some t => set_tlb (<[i := e]> t) m
  end.

Lemma tlb_find_Some t i n vpn j :
  tlb_find t i n vpn = Some j →
  ∃ k e, j = (i + k)%nat ∧ (k < n)%nat ∧ t !! k = Some e ∧ holds_page vpn e ∧
    ∀ k' e', (k' < k)%nat → t !! k' = Some e' → ¬ holds_page vpn e'.
Proof.
  revert i n. induction t as [|e t IH]; intros i n; destruct n as [|n]; simpl; try done.
  destruct (valid e && (virtualPage e =? vpn)) eqn:E.
  - intros [= <-]. apply andb_true_iff in E as [? ?%Z.eqb_eq].
    exists 0%nat, e. split; [lia|]. split; [lia|]. split; [done|]. split; [done | lia].
  - intros (k & e' & -> & Hk & Hl & Hh & Hf)%IH. exists (S k), e'. split; [lia|]. split; [lia|].
    split; [done|]. split; [done|]. intros [|k'] e2 Hk'.
    + intros [= <-] [Hv Hp]. rewrite Hv, Hp, Z.eqb_refl in E. done.
    + apply Hf. lia.
Qed.

Lemma tlb_find_None t i n vpn :
  tlb_find t i n vpn = None → ∀ k e, (k < n)%nat → t !! k = Some e → ¬ holds_page vpn e.
Proof.
  revert i n. induction t as [|e t IH]; intros i n; destruct n as [|n]; simpl; try (done || lia).
  destruct (valid e && (virtualPage e =? vpn)) eqn:E; [done|].
  intros Hn [|k] e2 Hk; simpl.
  - intros [= <-] [Hv Hp]. rewrite Hv, Hp, Z.eqb_refl in E. done.
  - apply (IH _ _ Hn). lia.
Qed.

(** The scan finds the first valid entry of the page, and only that. *)
Lemma tlb_find_maps t vpn i :
  tlb_find t 0 (Z.to_nat TLBSize) vpn = Some i → ∃ e, tlb_maps t vpn e i.
Proof.
  intros (k & e & -> & Hk & He & Hh & Hf)%tlb_find_Some. exists e. simpl.
  split; [lia | done].
Qed.

Lemma tlb_find_unmapped t vpn :
  tlb_find t 0 (Z.to_nat TLBSize) vpn = None → ∀ e i, ¬ tlb_maps t vpn e i.
Proof. intros Hn e i (Hi & He & Hh & _). by apply (tlb_find_None _ _ _ _ Hn i e); [lia|..]. Qed.

Lemma tlb_maps_fun t vpn e i e' i' :
  tlb_maps t vpn e i → tlb_maps t vpn e' i' → e = e' ∧ i = i'.
Proof.
  intros (_ & He & Hh & Hf) (_ & He' & Hh' & Hf').
  destruct (Nat.lt_trichotomy i i') as [Hi | [<- | Hi]].
  - by destruct (Hf' i e Hi He).
  - split; congruence.
  - by destruct (Hf i' e' Hi He').
Qed.

(** Marking an entry used changes neither its page nor its frame. *)
Lemma tlb_maps_used t vpn e i w :
  tlb_maps t vpn e i → tlb_maps (<[i := mark_used w e]> t) vpn (mark_used w e) i.
Proof.
  intros (Hi & He & Hh & Hf). split; [done|].
  rewrite list_lookup_insert_eq by by eapply lookup_lt_Some. split; [done|]. split; [done|].
  intros j e' Hj. rewrite list_lookup_insert_ne by lia. by apply Hf.
Qed.

(** The alignment the checks of Translate leave. *)
Definition aligned (virtAddr size : Z) : Prop := virtAddr mod size = 0.
#[global] Instance aligned_dec virtAddr size : Decision (aligned virtAddr size).
Proof. unfold aligned. apply _. Defined.

Lemma align_check virtAddr size :
  size = 1 ∨ size = 2 ∨ size = 4 →
  (((size =? 4) && negb (Z.land virtAddr 0x3 =? 0)) ||
   ((size =? 2) && negb (Z.land virtAddr 0x1 =? 0))) = negb (bool_decide (aligned virtAddr size)).
Proof.
  intros Hs. change 0x3 with (Z.ones 2). change 0x1 with (Z.ones 1).
  rewrite !Z.land_ones by lia. change (2 ^ 2) with 4. change (2 ^ 1) with 2. unfold aligned.
  destruct Hs as [-> | [-> | -> ] ]; simpl.
  - rewrite bool_decide_true; [done | apply Z.mod_1_r].
  - case_bool_decide as H; [by rewrite H | by destruct (Z.eqb_spec (virtAddr mod 2) 0)].
  - case_bool_decide as H; [by rewrite H|].
    by destruct (Z.eqb_spec (virtAddr mod 4) 0).
Qed.

(** An aligned access of a page stays in the page. *)
Lemma offset_fits virtAddr size :
  size = 1 ∨ size = 2 ∨ size = 4 → aligned virtAddr size →
  0 ≤ uint32 virtAddr mod PageSize ∧ uint32 virtAddr mod PageSize + size ≤ PageSize.
Proof.
  unfold aligned, uint32, PageSize. intros Hs Ha.
  pose proof (Z.mod_pos_bound (virtAddr mod 4294967296) 128 ltac:(lia)).
  assert (Hm : (virtAddr mod 4294967296) mod 128 mod size = 0).
  { rewrite <- Ha. destruct Hs as [-> | [-> | -> ] ].
    - by rewrite !Z.mod_1_r.
    - rewrite <- (Znumtheory.Zmod_div_mod 2 128) by (try lia; by exists 64).
      rewrite <- (Znumtheory.Zmod_div_mod 2 4294967296); [done | lia | lia | by exists 2147483648].
    - rewrite <- (Znumtheory.Zmod_div_mod 4 128) by (try lia; by exists 32).
      rewrite <- (Znumtheory.Zmod_div_mod 4 4294967296); [done | lia | lia | by exists 1073741824]. }
  pose proof (Z.div_mod ((virtAddr mod 4294967296) mod 128) size).
  destruct Hs as [-> | [-> | -> ] ]; lia.
Qed.

Lemma store_entry_wf m i e :
  machine_wf m → entry_ok e → machine_wf (store_entry m i e).
Proof.
  intros [Hl Hi Hld Hm Ht] He. unfold store_entry.
  destruct (tlb m) as [t|] eqn:Et; split; try done; simpl.
  - destruct (pageTable m); [done|]. destruct Ht as [? ?]. rewrite length_insert.
    split; [done | by apply Forall_insert].
  - rewrite Et. destruct (pageTable m); [|done]. destruct Ht as [? ?]. simpl.
    rewrite length_insert. split; [done | by apply Forall_insert].
Qed.

Lemma maps_entry_ok m vpn e i : machine_wf m → maps m vpn e i → entry_ok e.
Proof.
  intros Hwf. pose proof (mw_tables _ Hwf) as Ht. unfold maps. destruct (tlb m) as [t|].
  - intros (_ & He & _ & _). destruct (pageTable m); [done|]. destruct Ht as [_ Hf].
    by apply (Forall_lookup_1 _ _ _ _ Hf He).
  - intros (pt & Hpt & He & _). rewrite Hpt in Ht. destruct Ht as [_ Hf].
    by apply (Forall_lookup_1 _ _ _ _ Hf He).
Qed.

(** What Translate does, case by case. *)
Definition translate_spec m (virtAddr size : Z) (writing : bool)
    (r : (ExceptionType + Z) * Machine) : Prop :=
  let vpn := uint32 virtAddr / PageSize in
  if negb (bool_decide (aligned virtAddr size)) then r = (inl AddressErrorException, m)
  else
    (r = (inl (if tlb m then PageFaultException
               else if vpn >=? pageTableSize m then AddressErrorException
               else PageFaultException), m) ∧ ∀ e i, ¬ maps m vpn e i) ∨
    ∃ e i, maps m vpn e i ∧
      r = if readOnly e && writing then (inl ReadOnlyException, m)
          else if physicalPage e >=? NumPhysPages then (inl BusErrorException, m)
          else (inr (physicalPage e * PageSize + uint32 virtAddr mod PageSize),
                store_entry m i (mark_used writing e)).

Lemma use_entry_ok m e store virtAddr size writing :
  entry_ok e → size = 1 ∨ size = 2 ∨ size = 4 → aligned virtAddr size →
  use_entry e store (uint32 virtAddr mod PageSize) size writing m =
    Ok (if readOnly e && writing then (inl ReadOnlyException, m)
        else if physicalPage e >=? NumPhysPages then (inl BusErrorException, m)
        else (inr (physicalPage e * PageSize + uint32 virtAddr mod PageSize),
              store (mark_used writing e) m)).
Proof.
  intros He Hs Ha. destruct (offset_fits virtAddr size Hs Ha) as [Ho1 Ho2]. unfold use_entry.
  destruct (readOnly e && writing); [done|].
  destruct (Z.geb_spec (physicalPage e) NumPhysPages) as [|Hlt]; [done|].
  unfold entry_ok, is_uint32 in He. unfold NumPhysPages, PageSize, MemorySize in *.
  rewrite uint32_id by (unfold is_uint32; lia).
  rewrite int32_id by (unfold is_int32; lia).
  rewrite ASSERT_true; [done|]. apply andb_true_iff. unfold NumPhysPages, PageSize.
  rewrite Z.geb_le, Z.leb_le. lia.
Qed.

Lemma Translate_ok m virtAddr size writing :
  machine_wf m → size = 1 ∨ size = 2 ∨ size = 4 →
  ∃ r, Translate virtAddr size writing m = Ok r ∧ translate_spec m virtAddr size writing r.
Proof.
  intros Hwf Hs. unfold Translate, translate_spec. rewrite align_check by done.
  case_bool_decide as Ha; cbn [negb]; [|eauto].
  pose proof (mw_tables _ Hwf) as Ht. unfold maps, store_entry.
  assert (Hvpn : 0 ≤ uint32 virtAddr / PageSize).
  { apply Z.div_pos; [apply uint32_range | done]. }
  destruct (tlb m) as [t|] eqn:Et, (pageTable m) as [pt|] eqn:Ept; try done; cbn [bool_decide orb negb ASSERT res_bind].
  - destruct Ht as [Hlt Hft].
    rewrite (bool_decide_false (Some t = None)) by done.
    rewrite (bool_decide_true (None = None)) by done. cbn [negb orb ASSERT res_bind].
    destruct (tlb_find t 0 (Z.to_nat TLBSize) _) as [i|] eqn:Ef.
    + destruct (tlb_find_maps _ _ _ Ef) as (e & Hm). pose proof Hm as (Hi & He & _).
      rewrite (arr_get_lookup _ _ e) by (rewrite ?Nat2Z.id; (lia || done)). cbn [res_bind].
      rewrite use_entry_ok by (try done; by apply (Forall_lookup_1 _ _ _ _ Hft He)).
      eexists. split; [done|]. right. exists e, i. done.
    + eexists. split; [done|]. left. split; [done|]. by apply tlb_find_unmapped.
  - destruct Ht as [Hlt Hft].
    rewrite (bool_decide_false (Some pt = None)) by done.
    rewrite (bool_decide_true (None = None)) by done. cbn [negb orb ASSERT res_bind].
    destruct (Z.geb_spec (uint32 virtAddr / PageSize) (pageTableSize m)) as [Hge|Hlt'].
    + eexists. split; [done|]. left. split; [done|]. intros e i (pt' & _ & _ & _ & ? & _). lia.
    + destruct (arr_get_in pt (uint32 virtAddr / PageSize)) as (e & Eg & He); [lia|].
      change (default [] (Some pt)) with pt. rewrite Eg. cbn [res_bind].
      destruct (valid e) eqn:Hv; cbn [negb].
      * rewrite use_entry_ok by (try done; by apply (Forall_lookup_1 _ _ _ _ Hft He)).
        eexists. split; [done|]. right. exists e, (Z.to_nat (uint32 virtAddr / PageSize)).
        split; [|done]. exists pt. repeat split; try done; lia.
      * eexists. split; [done|]. left. split; [done|].
        intros e' i (pt' & [= <-] & He' & Hi & _ & Hv').
        rewrite <- Hi, Nat2Z.id in He. congruence.
Qed.
End Translation.

(** ** What one access may change *)
Section Evolution.
Implicit Types (m : Machine) (e : TranslationEntry).

(** An entry without its use and dirty bits. *)
Definition erase e : TranslationEntry :=
  mkTranslation (virtualPage e) (physicalPage e) (valid e) (readOnly e) false false.

Definition erase_table (t : option (list TranslationEntry)) : option (list TranslationEntry) :=
  match t with Some l => Some (erase <$> l) | None => None end.

(** Frame [f] belongs to a page the program may write. *)
Definition writable_frame m (f : Z) : Prop :=
  ∃ e, e ∈ default [] (tlb m) ++ default [] (pageTable m) ∧
       valid e = true ∧ readOnly e = false ∧ physicalPage e = f.

(** The machine as user code may leave it: only use and dirty bits and the bytes of
    writable frames differ, registers aside. *)
Record evolves m m' : Prop := {
  ev_wf : machine_wf m → machine_wf m';
  ev_tlb : erase_table (tlb m') = erase_table (tlb m);
  ev_table : erase_table (pageTable m') = erase_table (pageTable m);
  ev_size : pageTableSize m' = pageTableSize m;
  ev_mem : ∀ x, ¬ writable_frame m (x / PageSize) → mainMemory m' !! x = mainMemory m !! x
}.

Lemma erased_entry (l l' : list TranslationEntry) e :
  erase <$> l' = erase <$> l → e ∈ l → ∃ e', e' ∈ l' ∧ erase e' = erase e.
Proof.
  intros Heq Hin. assert (H : erase e ∈ erase <$> l') by (rewrite Heq; by apply list_elem_of_fmap_2).
  apply list_elem_of_fmap in H as (e' & ? & ?). eauto.
Qed.

Lemma writable_mono m m' f :
  erase_table (tlb m') = erase_table (tlb m) →
  erase_table (pageTable m') = erase_table (pageTable m) →
  writable_frame m f → writable_frame m' f.
Proof.
  intros Ht Hp (e & He & Hv & Hr & Hf).
  assert (Hl : erase <$> (default [] (tlb m') ++ default [] (pageTable m')) =
               erase <$> (default [] (tlb m) ++ default [] (pageTable m))).
  { rewrite !fmap_app. unfold erase_table in *. f_equal.
    - destruct (tlb m), (tlb m'); simpl in *; congruence.
    - destruct (pageTable m), (pageTable m'); simpl in *; congruence. }
  destruct (erased_entry _ _ e Hl He) as (e' & He' & Heq).
  exists e'. injection Heq as _ Hpp Hvv Hrr. rewrite Hpp, Hvv, Hrr. done.
Qed.

Lemma evolves_refl m : evolves m m.
Proof. by split. Qed.

Lemma evolves_trans m1 m2 m3 : evolves m1 m2 → evolves m2 m3 → evolves m1 m3.
Proof.
  intros [A1 A2 A3 A4 A5] [B1 B2 B3 B4 B5]. split; [auto | congruence | congruence | congruence |].
  intros x Hx. rewrite B5, A5; [done | done |]. intros Hw. apply Hx.
  by apply (writable_mono m2 m1).
Qed.

Lemma maps_elem m vpn e i :
  maps m vpn e i → e ∈ default [] (tlb m) ++ default [] (pageTable m) ∧ valid e = true.
Proof.
  unfold maps. rewrite elem_of_app. destruct (tlb m) as [t|].
  - intros (_ & He & [? _] & _). split; [left; by eapply list_elem_of_lookup_2 | done].
  - intros (pt & -> & He & _ & _ & ?). split; [right; by eapply list_elem_of_lookup_2 | done].
Qed.

Lemma fmap_insert_erase (t : list TranslationEntry) i e e' :
  t !! i = Some e → erase e' = erase e → erase <$> <[i := e']> t = erase <$> t.
Proof.
  intros Hi He. rewrite list_fmap_insert, He. apply list_insert_id.
  by rewrite list_lookup_fmap, Hi.
Qed.

Lemma store_entry_evolves m vpn e e' i :
  maps m vpn e i → erase e' = erase e → evolves m (store_entry m i e').
Proof.
  intros Hm He. assert (Hok : machine_wf m → entry_ok e').
  { intros Hwf. pose proof (maps_entry_ok _ _ _ _ Hwf Hm) as Hok. unfold entry_ok in *.
    injection He as _ -> _ _. done. }
  split.
  - intros Hwf. apply store_entry_wf; auto.
  - unfold maps, store_entry in *. destruct (tlb m) as [t|] eqn:Et; simpl; rewrite ?Et; [|done].
    destruct Hm as (_ & Hi & _). simpl. f_equal. by eapply fmap_insert_erase.
  - unfold maps, store_entry in *. destruct (tlb m) as [t|] eqn:Et; simpl; [done|].
    destruct Hm as (pt & -> & Hi & _). simpl. f_equal. by eapply fmap_insert_erase.
  - unfold store_entry. by destruct (tlb m).
  - intros x _. unfold store_entry. by destruct (tlb m).
Qed.

Lemma mark_used_erase w e : erase (mark_used w e) = erase e.
Proof. done. Qed.

(** A translation that succeeds. *)
Lemma Translate_inr m virtAddr size writing pa m' :
  machine_wf m → size = 1 ∨ size = 2 ∨ size = 4 →
  Translate virtAddr size writing m = Ok (inr pa, m') →
  ∃ e i, maps m (uint32 virtAddr / PageSize) e i ∧ aligned virtAddr size ∧
    readOnly e && writing = false ∧ 0 ≤ physicalPage e < NumPhysPages ∧
    pa = physicalPage e * PageSize + uint32 virtAddr mod PageSize ∧
    m' = store_entry m i (mark_used writing e) ∧
    0 ≤ pa ∧ pa + size ≤ MemorySize ∧
    (∀ x, pa ≤ x < pa + size → x / PageSize = physicalPage e).
Proof.
  intros Hwf Hs E. destruct (Translate_ok m virtAddr size writing Hwf Hs) as (r & E' & Hr).
  rewrite E in E'. injection E' as <-. unfold translate_spec in Hr.
  case_bool_decide as Ha; cbn [negb] in Hr; [|done].
  destruct Hr as [[[=] _] | (e & i & Hm & Hr)]; [].
  pose proof (maps_entry_ok _ _ _ _ Hwf Hm) as [Hp0 _].
  destruct (readOnly e && writing) eqn:Hro; [done|].
  destruct (Z.geb_spec (physicalPage e) NumPhysPages); [done|]. injection Hr as -> ->.
  destruct (offset_fits virtAddr size Hs Ha) as [Ho1 Ho2].
  exists e, i. unfold MemorySize, PageSize, NumPhysPages in *.
  split; [done|]. split; [done|]. split; [done|]. split; [lia|]. split; [done|].
  split; [done|]. split; [lia|]. split; [lia|]. intros x Hx.
  symmetry. apply (Z.div_unique _ _ _ (x - physicalPage e * 128)); lia.
Qed.

Lemma Translate_evolves m virtAddr size writing :
  machine_wf m → size = 1 ∨ size = 2 ∨ size = 4 →
  ∃ r m', Translate virtAddr size writing m = Ok (r, m') ∧ evolves m m' ∧
    registers m' = registers m.
Proof.
  intros Hwf Hs. destruct (Translate_ok m virtAddr size writing Hwf Hs) as ([r m'] & E & Hr).
  exists r, m'. split; [done|]. unfold translate_spec in Hr.
  case_bool_decide; cbn [negb] in Hr; [|injection Hr as -> ->; split; [apply evolves_refl | done]].
  destruct Hr as [[[= -> ->] _] | (e & i & Hm & Hr)]; [split; [apply evolves_refl | done]|].
  destruct (readOnly e && writing); [injection Hr as -> ->; split; [apply evolves_refl | done]|].
  destruct (physicalPage e >=? NumPhysPages);
    [injection Hr as -> ->; split; [apply evolves_refl | done]|].
  injection Hr as -> ->. split; [by eapply store_entry_evolves|].
  unfold store_entry. by destruct (tlb m).
Qed.

(** ... whose memory is as before. *)
Lemma Translate_confines_mem m virtAddr size writing :
  machine_wf m → size = 1 ∨ size = 2 ∨ size = 4 →
  ∃ r m', Translate virtAddr size writing m = Ok (r, m') ∧ mainMemory m' = mainMemory m.
Proof.
  intros Hwf Hs. destruct (Translate_ok m virtAddr size writing Hwf Hs) as ([r m'] & E & Hr).
  exists r, m'. split; [done|]. unfold translate_spec in Hr.
  assert (∀ i e, mainMemory (store_entry m i e) = mainMemory m) as Hst.
  { intros i e. unfold store_entry. by destruct (tlb m). }
  case_bool_decide; cbn [negb] in Hr; [|by injection Hr as -> ->].
  destruct Hr as [[[= -> ->] _] | (e & i & _ & Hr)]; [done|].
  destruct (readOnly e && writing), (physicalPage e >=? NumPhysPages);
    injection Hr as -> ->; auto.
Qed.

Definition read_range (size v : Z) : Prop :=
  if size =? 1 then -128 ≤ v < 128 else if size =? 2 then 0 ≤ v < 65536 else is_int32 v.

Lemma ReadMem_ok m addr size :
  machine_wf m → size = 1 ∨ size = 2 ∨ size = 4 →
  ∃ r m', ReadMem addr size m = Ok (r, m') ∧ evolves m m' ∧ registers m' = registers m ∧
    match r with inl _ => True | inr v => read_range size v end.
Proof.
  intros Hwf Hs. unfold ReadMem.
  destruct (Translate_evolves m addr size false Hwf Hs) as (r & m' & E & Hev & Hr). rewrite E.
  cbn [res_bind]. destruct r as [e|pa]; [exists (inl e), m'; done|].
  destruct (Translate_inr m addr size false pa m' Hwf Hs E)
    as (e & i & _ & _ & _ & _ & _ & _ & Hpa & Hpas & _).
  pose proof (ev_wf _ _ Hev Hwf) as Hwf'. unfold read_range.
  destruct Hs as [-> | [-> | -> ] ]; cbn [Z.eqb Pos.eqb].
  - unfold mem_byte. rewrite decide_True by lia. cbn [res_bind].
    eexists _, m'. repeat (split; [done|]). unfold int8.
    pose proof (Z.mod_pos_bound (default 0 (mainMemory m' !! pa) + 128) 256). lia.
  - destruct (mem_bytes_ok m' pa 2 Hwf' Hpa ltac:(lia)) as (bs & -> & _ & _). cbn [res_bind].
    eexists _, m'. repeat (split; [done|]). apply Z.mod_pos_bound. lia.
  - destruct (mem_bytes_ok m' pa 4 Hwf' Hpa ltac:(lia)) as (bs & -> & _ & _). cbn [res_bind].
    eexists _, m'. repeat (split; [done|]). apply int32_range.
Qed.

(** The bytes WriteMem stores. *)
Definition store_bytes (size value : Z) : list Z := le_bytes (Z.to_nat size) value.

Lemma le_bytes_mod n z k :
  (256 ^ Z.of_nat n | k) → 0 < k → le_bytes n (z mod k) = le_bytes n z.
Proof.
  intros Hd Hk. rewrite <- (le_bytes_val (le_bytes n z)) by apply le_bytes_range.
  rewrite length_le_bytes, <- (le_bytes_val (le_bytes n (z mod k))) by apply le_bytes_range.
  rewrite length_le_bytes, !le_val_bytes. f_equal.
  symmetry. apply Znumtheory.Zmod_div_mod; [apply Z.pow_pos_nonneg; lia | done | done].
Qed.

Lemma WriteMem_eq m addr size value pa m1 :
  machine_wf m → size = 1 ∨ size = 2 ∨ size = 4 →
  Translate addr size true m = Ok (inr pa, m1) →
  WriteMem addr size value m =
    (let? m := set_mem_bytes pa (store_bytes size value) m1 in Ok (inr tt, m)).
Proof.
  intros Hwf Hs E. unfold WriteMem. rewrite E. cbn [res_bind]. unfold store_bytes.
  destruct Hs as [-> | [-> | -> ] ]; cbn [Z.eqb Pos.eqb].
  - change (Z.to_nat 1) with 1%nat. simpl. change 255 with (Z.ones 8).
    rewrite Z.land_ones by lia. unfold uint8. rewrite Z.mod_mod by lia.
    by destruct (set_mem_byte _ _ _).
  - change (Z.to_nat 2) with 2%nat. unfold ShortToMachine, ShortToHost, uint16. cbn [host_big_endian].
    change 0xffff with (Z.ones 16). rewrite Z.land_ones by lia.
    change (2 ^ 16) with 65536. rewrite Z.mod_mod by lia.
    rewrite le_bytes_mod; [done | by exists 1 | done].
  - change (Z.to_nat 4) with 4%nat. unfold WordToMachine, WordToHost, uint32. cbn [host_big_endian].
    rewrite le_bytes_mod; [done | by exists 1 | done].
Qed.

Lemma length_store_bytes size value :
  size = 1 ∨ size = 2 ∨ size = 4 → Z.of_nat (length (store_bytes size value)) = size.
Proof. intros Hs. unfold store_bytes. rewrite length_le_bytes. lia. Qed.

Lemma WriteMem_ok m addr size value :
  machine_wf m → size = 1 ∨ size = 2 ∨ size = 4 →
  ∃ r m', WriteMem addr size value m = Ok (r, m') ∧ evolves m m' ∧ registers m' = registers m.
Proof.
  intros Hwf Hs.
  destruct (Translate_evolves m addr size true Hwf Hs) as (r & m1 & E & Hev & Hr).
  destruct r as [e|pa].
  { exists (inl e), m1. unfold WriteMem. by rewrite E. }
  rewrite (WriteMem_eq _ _ _ _ pa m1) by done.
  destruct (Translate_inr m addr size true pa m1 Hwf Hs E)
    as (e & i & Hm & _ & Hro & _ & _ & _ & Hpa & Hpas & Hfr).
  pose proof (length_store_bytes size value Hs) as Hlen.
  destruct (set_mem_bytes_ok m1 pa (store_bytes size value))
    as (m' & -> & Hwf' & H1 & H2 & H3 & H4 & H5);
    [by apply (ev_wf _ _ Hev) | done | lia | apply le_bytes_range |].
  cbn [res_bind]. exists (inr tt), m'. split; [done|]. split; [|congruence].
  apply (evolves_trans m m1 m'); [done|]. split; [done | by rewrite H2 | by rewrite H3 | done |].
  intros x Hx. rewrite H5. rewrite Hlen. apply decide_False. intros Hin. apply Hx.
  apply (writable_mono m m1); [exact (ev_tlb _ _ Hev) | exact (ev_table _ _ Hev) |].
  destruct (maps_elem _ _ _ _ Hm) as [He Hv]. exists e. rewrite (Hfr x Hin).
  rewrite andb_true_r in Hro. done.
Qed.
End Evolution.

(** ** Reading what was written *)
Section ReadBack.
Implicit Types (m : Machine) (e : TranslationEntry).

Lemma maps_fun m vpn e i e' i' : maps m vpn e i → maps m vpn e' i' → e = e' ∧ i = i'.
Proof.
  unfold maps. destruct (tlb m) as [t|]; [apply tlb_maps_fun|].
  intros (pt & Hp & He & Hi & _) (pt' & Hp' & He' & Hi' & _).
  assert (i = i') as <- by lia. split; congruence.
Qed.

Lemma maps_store m vpn e i w :
  maps m vpn e i → maps (store_entry m i (mark_used w e)) vpn (mark_used w e) i.
Proof.
  unfold maps, store_entry. destruct (tlb m) as [t|] eqn:Et; simpl; rewrite ?Et.
  - apply tlb_maps_used.
  - intros (pt & Hp & He & Hi & Hlt & Hv). rewrite Hp. simpl. eexists. split; [done|].
    rewrite list_lookup_insert_eq by by eapply lookup_lt_Some. done.
Qed.

Lemma store_entry_same m vpn e i : maps m vpn e i → store_entry m i e = m.
Proof.
  unfold maps, store_entry. destruct m as [mm r t pt sz ss ru]; simpl. destruct t as [t|].
  - intros (_ & He & _). unfold set_tlb. simpl. by rewrite list_insert_id.
  - intros (pt' & -> & He & _). unfold set_pageTable. simpl. by rewrite list_insert_id.
Qed.

Lemma maps_ext m m' vpn e i :
  tlb m' = tlb m → pageTable m' = pageTable m → pageTableSize m' = pageTableSize m →
  maps m vpn e i → maps m' vpn e i.
Proof. unfold maps. by intros -> -> ->. Qed.

Lemma mem_bytes_lookup m a bs :
  0 ≤ a → a + Z.of_nat (length bs) ≤ MemorySize →
  (∀ x, a ≤ x < a + Z.of_nat (length bs) → mainMemory m !! x = bs !! Z.to_nat (x - a)) →
  mem_bytes a (length bs) m = Ok bs.
Proof.
  revert a. induction bs as [|b bs IH]; intros a Ha Hl Hx; [done|]. cbn [length mem_bytes] in *.
  unfold mem_byte. rewrite decide_True by lia. rewrite (Hx a) by lia.
  replace (Z.to_nat (a - a)) with 0%nat by lia. cbn [res_bind].
  rewrite (IH (a + 1)); [done | lia | lia |]. intros x Hr. rewrite Hx by lia.
  by replace (Z.to_nat (x - a)) with (S (Z.to_nat (x - (a + 1)))) by lia.
Qed.

(** What a read of [size] bytes makes of a stored [value]. *)
Definition read_back (size value : Z) : Z :=
  if size =? 1 then int8 value else if size =? 2 then uint16 value else int32 value.

(** C29. A value that WriteMem stored at a virtual address is what ReadMem of the
    same size gives there, cut to the size (a byte sign-extended, a half-word
    zero-extended), and reading changes nothing more in the machine; this holds
    through a page table and through the TLB. *)
Theorem ReadMem_WriteMem m addr size value m' :
  machine_wf m → size = 1 ∨ size = 2 ∨ size = 4 →
  WriteMem addr size value m = Ok (inr tt, m') →
  ReadMem addr size m' = Ok (inr (read_back size value), m').
Proof.
  intros Hwf Hs Hw.
  destruct (Translate_evolves m addr size true Hwf Hs) as ([e|pa] & m1 & E & Hev & _).
  { unfold WriteMem in Hw. by rewrite E in Hw. }
  rewrite (WriteMem_eq _ _ _ _ pa m1) in Hw by done.
  destruct (Translate_inr m addr size true pa m1 Hwf Hs E)
    as (e & i & Hm & Ha & Hro & Hpp & Hpa & Hm1 & Hp0 & Hps & _).
  pose proof (length_store_bytes size value Hs) as Hlen.
  destruct (set_mem_bytes_ok m1 pa (store_bytes size value))
    as (m2 & E2 & Hwf2 & H1 & H2 & H3 & H4 & H5);
    [by apply (ev_wf _ _ Hev) | done | lia | apply le_bytes_range |].
  rewrite E2 in Hw. injection Hw as <-.
  assert (Hmap : maps m2 (uint32 addr / PageSize) (mark_used true e) i).
  { apply (maps_ext m1); try done. subst m1. by apply maps_store. }
  assert (Ht : Translate addr size false m2 = Ok (inr pa, m2)).
  { destruct (Translate_ok m2 addr size false Hwf2 Hs) as (r & Er & Hr). rewrite Er. f_equal.
    unfold translate_spec in Hr. rewrite bool_decide_true in Hr by done. cbn [negb] in Hr.
    destruct Hr as [[_ Hno] | (e2 & i2 & Hm2 & Hr)]; [by apply Hno in Hmap|].
    destruct (maps_fun _ _ _ _ _ _ Hmap Hm2) as [<- <-].
    change (mark_used false (mark_used true e)) with (mark_used true e) in Hr.
    change (physicalPage (mark_used true e)) with (physicalPage e) in Hr.
    rewrite andb_false_r, (store_entry_same _ _ _ _ Hmap) in Hr.
    destruct (Z.geb_spec (physicalPage e) NumPhysPages); [lia|]. by rewrite Hr, Hpa. }
  unfold ReadMem. rewrite Ht. cbn [res_bind].
  assert (Hbs : mem_bytes pa (length (store_bytes size value)) m2 = Ok (store_bytes size value)).
  { apply mem_bytes_lookup; [done | lia |]. intros x Hx. rewrite H5. by apply decide_True. }
  unfold read_back.
  destruct Hs as [-> | [-> | -> ] ]; cbn [Z.eqb Pos.eqb].
  - unfold store_bytes in Hbs. change (Z.to_nat 1) with 1%nat in Hbs.
    cbn [le_bytes length mem_bytes] in Hbs.
    destruct (mem_byte pa m2) as [b|]; cbn [res_bind] in *; [injection Hbs as ->|discriminate]. do 3 f_equal. unfold int8, uint8.
    by rewrite Zplus_mod_idemp_l.
  - change (length (store_bytes 2 value)) with 2%nat in Hbs. rewrite Hbs. cbn [res_bind].
    do 3 f_equal. unfold store_bytes, ShortToHost. cbn [host_big_endian].
    rewrite le_val_bytes. unfold uint16. change (256 ^ Z.of_nat (Z.to_nat 2)) with 65536.
    by rewrite Z.mod_mod.
  - change (length (store_bytes 4 value)) with 4%nat in Hbs. rewrite Hbs. cbn [res_bind].
    do 3 f_equal. unfold store_bytes, WordToHost. cbn [host_big_endian].
    rewrite le_val_bytes. change (256 ^ Z.of_nat (Z.to_nat 4)) with 4294967296.
    fold (uint32 value). by autorewrite with words.
Qed.

(** A machine with one page mapped at frame 3. *)
Definition one_page : Machine :=
  mkMachine ∅ (replicate 40 0) None (Some [mkTranslation 0 3 true false false false]) 1 false 0.

Lemma one_page_wf : machine_wf one_page.
Proof.
  split; simpl; try done.
  - by repeat constructor.
  - exists 0. done.
  - split; [done|]. by repeat constructor.
Qed.

Lemma ReadMem_WriteMem_witness :
  ∃ m', WriteMem 100 4 (-2) one_page = Ok (inr tt, m') ∧
        ReadMem 100 4 m' = Ok (inr (-2), m').
Proof.
  eexists. split; [vm_compute; reflexivity|].
  apply (ReadMem_WriteMem one_page 100 4 (-2)); [apply one_page_wf | auto |].
  vm_compute. reflexivity.
Defined.

(** Why an access is refused: each exception with its cause. *)
Definition refused m (virtAddr size : Z) (writing : bool) (exc : ExceptionType) : Prop :=
  let vpn := uint32 virtAddr / PageSize in
  match exc with
  | AddressErrorException =>
      ¬ aligned virtAddr size ∨ (tlb m = None ∧ pageTableSize m ≤ vpn)
  | PageFaultException => aligned virtAddr size ∧ ∀ e i, ¬ maps m vpn e i
  | ReadOnlyException => writing = true ∧ ∃ e i, maps m vpn e i ∧ readOnly e = true
  | BusErrorException => ∃ e i, maps m vpn e i ∧ NumPhysPages ≤ physicalPage e
  | _ => False
  end.

Lemma Translate_inl m virtAddr size writing exc m' :
  machine_wf m → size = 1 ∨ size = 2 ∨ size = 4 →
  Translate virtAddr size writing m = Ok (inl exc, m') →
  m' = m ∧ refused m virtAddr size writing exc.
Proof.
  intros Hwf Hs E. destruct (Translate_ok m virtAddr size writing Hwf Hs) as (r & E' & Hsp).
  rewrite E in E'. injection E' as <-. unfold translate_spec in Hsp.
  case_bool_decide as Ha; cbn [negb] in Hsp; [|injection Hsp as -> ->; split; [done | by left]].
  destruct Hsp as [[[= -> ->] Hno] | (e & i & Hm & Hsp)].
  - split; [done|]. destruct (tlb m) eqn:Et; [done|].
    destruct (Z.geb_spec (uint32 virtAddr / PageSize) (pageTableSize m)); [by right | done].
  - destruct (readOnly e && writing) eqn:Hro.
    { injection Hsp as -> ->. apply andb_true_iff in Hro as [Hr Hw].
      split; [done|]. split; [done|]. by exists e, i. }
    destruct (Z.geb_spec (physicalPage e) NumPhysPages); [|done].
    injection Hsp as -> ->. split; [done|]. by exists e, i.
Qed.

(** C25. Translation confines user code, through a TLB or a page table: an access
    that gets a physical address gets one inside the memory and inside the frame of
    the entry that maps the page of the address - in the TLB the first valid entry of
    that page, in the page table the valid entry at its index - one that is not
    read-only when writing, at the same offset; that entry is then marked used, and
    dirty when writing, and nothing else of the machine changes. Otherwise the access
    is refused with the exception for its cause (a bad address, no such entry, a
    read-only page, a frame outside the memory) and the machine is as it was; it is
    never stopped by a failed assertion. *)
Theorem Translate_confines m virtAddr size writing :
  machine_wf m → size = 1 ∨ size = 2 ∨ size = 4 →
  ∃ r m', Translate virtAddr size writing m = Ok (r, m') ∧ evolves m m' ∧
    registers m' = registers m ∧ mainMemory m' = mainMemory m ∧
    match r with
    | inl exc => m' = m ∧ refused m virtAddr size writing exc
    | inr pa =>
        aligned virtAddr size ∧ 0 ≤ pa ∧ pa + size ≤ MemorySize ∧
        ∃ e i, maps m (uint32 virtAddr / PageSize) e i ∧ (writing = true → readOnly e = false) ∧
          pa = physicalPage e * PageSize + uint32 virtAddr mod PageSize ∧
          (∀ x, pa ≤ x < pa + size → x / PageSize = physicalPage e) ∧
          m' = store_entry m i (mkTranslation (virtualPage e) (physicalPage e) (valid e)
                                  (readOnly e) true (writing || dirty e))
    end.
Proof.
  intros Hwf Hs. destruct (Translate_evolves m virtAddr size writing Hwf Hs) as (r & m' & E & Hev & Hr).
  exists r, m'. split; [done|]. split; [done|]. split; [done|]. destruct r as [exc|pa].
  - destruct (Translate_inl m virtAddr size writing exc m' Hwf Hs E) as [-> ?]. done.
  - destruct (Translate_inr m virtAddr size writing pa m' Hwf Hs E)
      as (e & i & Hm & Ha & Hro & _ & Hpa & -> & Hp0 & Hps & Hx).
    split; [unfold store_entry; by destruct (tlb m)|]. split; [done|]. split; [done|].
    split; [done|]. exists e, i. split; [done|]. split; [|by destruct writing].
    intros ->. by rewrite andb_true_r in Hro.
Qed.

(** A machine with a TLB: page 5 in frame 1, an invalid entry of page 0, page 0 in
    frame 3, and page 0 once more. *)
Definition tlb_machine : Machine :=
  mkMachine (mainMemory one_page) (registers one_page)
    (Some [mkTranslation 5 1 true false false false; mkTranslation 0 2 false false false false;
           mkTranslation 0 3 true false false false; mkTranslation 0 4 true false false false])
    None 0 (singleStep one_page) (runUntilTime one_page).

Lemma tlb_machine_wf : machine_wf tlb_machine.
Proof.
  destruct one_page_wf as [? ? ? ? _]. split; try done. split; [done|].
  repeat constructor; simpl; unfold is_uint32; lia.
Qed.

(** The store goes to the first valid entry of the page, and a page the TLB does not
    have is a page fault. *)
Lemma Translate_confines_witness :
  (∃ m', Translate 100 4 true tlb_machine = Ok (inr 484, m') ∧ machine_wf m' ∧
     ∃ e, maps tlb_machine 0 e 2 ∧ 484 = physicalPage e * PageSize + 100) ∧
  (Translate 300 4 false tlb_machine = Ok (inl PageFaultException, tlb_machine)).
Proof.
  split.
  - destruct (Translate_confines tlb_machine 100 4 true tlb_machine_wf ltac:(auto))
      as (r & m' & E & Hev & _ & _ & Hr).
    assert (r = inr 484) as -> by (vm_compute in E; congruence).
    exists m'. split; [done|]. split; [by apply (ev_wf _ _ Hev), tlb_machine_wf|].
    destruct Hr as (_ & _ & _ & e & i & Hm & _ & Hpa & _). exists e.
    change (uint32 100 / PageSize) with 0 in Hm. change (uint32 100 mod PageSize) with 100 in Hpa.
    split; [|done].
    assert (Hi : maps tlb_machine 0 (mkTranslation 0 3 true false false false) 2).
    { split; [done|]. split; [done|]. split; [done|].
      intros [|[|j]] e' Hj; [intros [= <-] [_ ?]; done | intros [= <-] [? _]; done | lia]. }
    by destruct (maps_fun _ _ _ _ _ _ Hm Hi) as [_ <-].
  - destruct (Translate_confines tlb_machine 300 4 false tlb_machine_wf ltac:(auto))
      as (r & m' & E & _ & _ & _ & Hr).
    assert (r = inl PageFaultException) as -> by (vm_compute in E; congruence).
    by destruct Hr as [-> _].
Defined.
End ReadBack.
