(* ===== verification/MipsSim.v ===== *)
(** * The instructions of the simulated MIPS (src/code/machine/mipssim.h, mipssim.cc)

    The decoding tables and [Instruction::Decode], the multiplication, the execution
    of one instruction and the disassembly lines of the debugger. Arithmetic on [int]
    wraps around, as it does in the compiled code. *)
From stdpp Require Import strings.
From S2P Require Import Prelude Words Machine.

(** ** Operation codes *)

Inductive Opcode :=
  | OP_ADD | OP_ADDI | OP_ADDIU | OP_ADDU | OP_AND | OP_ANDI | OP_BEQ | OP_BGEZ | OP_BGEZAL
  | OP_BGTZ | OP_BLEZ | OP_BLTZ | OP_BLTZAL | OP_BNE | OP_DIV | OP_DIVU | OP_J | OP_JAL
  | OP_JALR | OP_JR | OP_LB | OP_LBU | OP_LH | OP_LHU | OP_LUI | OP_LW | OP_LWL | OP_LWR
  | OP_MFHI | OP_MFLO | OP_MTHI | OP_MTLO | OP_MULT | OP_MULTU | OP_NOR | OP_OR | OP_ORI
  | OP_RFE | OP_SB | OP_SH | OP_SLL | OP_SLLV | OP_SLT | OP_SLTI | OP_SLTIU | OP_SLTU
  | OP_SRA | OP_SRAV | OP_SRL | OP_SRLV | OP_SUB | OP_SUBU | OP_SW | OP_SWL | OP_SWR
  | OP_XOR | OP_XORI | OP_SYSCALL | OP_UNIMP | OP_RES | SPECIAL | BCOND.

#[global] Instance Opcode_eq_dec : EqDecision Opcode.
Proof. solve_decision. Defined.

(** The number each name is defined as. *)
Definition opcode_num (o : Opcode) : Z :=
  match o with
  | OP_ADD => 1 | OP_ADDI => 2 | OP_ADDIU => 3 | OP_ADDU => 4 | OP_AND => 5 | OP_ANDI => 6
  | OP_BEQ => 7 | OP_BGEZ => 8 | OP_BGEZAL => 9 | OP_BGTZ => 10 | OP_BLEZ => 11
  | OP_BLTZ => 12 | OP_BLTZAL => 13 | OP_BNE => 14 | OP_DIV => 16 | OP_DIVU => 17
  | OP_J => 18 | OP_JAL => 19 | OP_JALR => 20 | OP_JR => 21 | OP_LB => 22 | OP_LBU => 23
  | OP_LH => 24 | OP_LHU => 25 | OP_LUI => 26 | OP_LW => 27 | OP_LWL => 28 | OP_LWR => 29
  | OP_MFHI => 31 | OP_MFLO => 32 | OP_MTHI => 34 | OP_MTLO => 35 | OP_MULT => 36
  | OP_MULTU => 37 | OP_NOR => 38 | OP_OR => 39 | OP_ORI => 40 | OP_RFE => 41 | OP_SB => 42
  | OP_SH => 43 | OP_SLL => 44 | OP_SLLV => 45 | OP_SLT => 46 | OP_SLTI => 47
  | OP_SLTIU => 48 | OP_SLTU => 49 | OP_SRA => 50 | OP_SRAV => 51 | OP_SRL => 52
  | OP_SRLV => 53 | OP_SUB => 54 | OP_SUBU => 55 | OP_SW => 56 | OP_SWL => 57
  | OP_SWR => 58 | OP_XOR => 59 | OP_XORI => 60 | OP_SYSCALL => 61 | OP_UNIMP => 62
  | OP_RES => 63 | SPECIAL => 100 | BCOND => 101
  end.
Definition MaxOpcode : Z := 63.

Inductive OpFormat := IFMT | JFMT | RFMT.

#[global] Instance OpFormat_eq_dec : EqDecision OpFormat.
Proof. solve_decision. Defined.

(** struct OpInfo *)
Record OpInfo := mkOpInfo { op_code : Opcode; op_format : OpFormat }.

Definition opTable : list OpInfo :=
  (λ p : Opcode * OpFormat, mkOpInfo p.1 p.2) <$>
  [
   (SPECIAL, RFMT); (BCOND, IFMT); (OP_J, JFMT); (OP_JAL, JFMT); (OP_BEQ, IFMT);
   (OP_BNE, IFMT); (OP_BLEZ, IFMT); (OP_BGTZ, IFMT); (OP_ADDI, IFMT); (OP_ADDIU, IFMT);
   (OP_SLTI, IFMT); (OP_SLTIU, IFMT); (OP_ANDI, IFMT); (OP_ORI, IFMT); (OP_XORI, IFMT);
   (OP_LUI, IFMT); (OP_UNIMP, IFMT); (OP_UNIMP, IFMT); (OP_UNIMP, IFMT); (OP_UNIMP, IFMT);
   (OP_RES, IFMT); (OP_RES, IFMT); (OP_RES, IFMT); (OP_RES, IFMT); (OP_RES, IFMT);
   (OP_RES, IFMT); (OP_RES, IFMT); (OP_RES, IFMT); (OP_RES, IFMT); (OP_RES, IFMT);
   (OP_RES, IFMT); (OP_RES, IFMT); (OP_LB, IFMT); (OP_LH, IFMT); (OP_LWL, IFMT); (OP_LW, IFMT);
   (OP_LBU, IFMT); (OP_LHU, IFMT); (OP_LWR, IFMT); (OP_RES, IFMT); (OP_SB, IFMT);
   (OP_SH, IFMT); (OP_SWL, IFMT); (OP_SW, IFMT); (OP_RES, IFMT); (OP_RES, IFMT);
   (OP_SWR, IFMT); (OP_RES, IFMT); (OP_UNIMP, IFMT); (OP_UNIMP, IFMT); (OP_UNIMP, IFMT);
   (OP_UNIMP, IFMT); (OP_RES, IFMT); (OP_RES, IFMT); (OP_RES, IFMT); (OP_RES, IFMT);
   (OP_UNIMP, IFMT); (OP_UNIMP, IFMT); (OP_UNIMP, IFMT); (OP_UNIMP, IFMT); (OP_RES, IFMT);
   (OP_RES, IFMT); (OP_RES, IFMT); (OP_RES, IFMT)
  ].

Definition specialTable : list Opcode :=
  [
   OP_SLL; OP_RES; OP_SRL; OP_SRA; OP_SLLV; OP_RES; OP_SRLV; OP_SRAV; OP_JR; OP_JALR; OP_RES;
   OP_RES; OP_SYSCALL; OP_UNIMP; OP_RES; OP_RES; OP_MFHI; OP_MTHI; OP_MFLO; OP_MTLO; OP_RES;
   OP_RES; OP_RES; OP_RES; OP_MULT; OP_MULTU; OP_DIV; OP_DIVU; OP_RES; OP_RES; OP_RES; OP_RES;
   OP_ADD; OP_ADDU; OP_SUB; OP_SUBU; OP_AND; OP_OR; OP_XOR; OP_NOR; OP_RES; OP_RES; OP_SLT;
   OP_SLTU; OP_RES; OP_RES; OP_RES; OP_RES; OP_RES; OP_RES; OP_RES; OP_RES; OP_RES; OP_RES;
   OP_RES; OP_RES; OP_RES; OP_RES; OP_RES; OP_RES; OP_RES; OP_RES; OP_RES; OP_RES
  ].

(** ** Printing *)

Inductive RegType := NONE | RS | RT | RD | EXTRA.

(** struct OpString *)
Record OpString := mkOpString { op_string : string; op_args : list RegType }.

Definition opStrings : list OpString :=
  (λ p : string * (RegType * RegType * RegType),
     mkOpString p.1 [p.2.1.1; p.2.1.2; p.2.2]) <$>
  [
   ("Shouldn't happen"%string, (NONE, NONE, NONE)); ("ADD r%d,r%d,r%d"%string, (RD, RS, RT));
   ("ADDI r%d,r%d,%d"%string, (RT, RS, EXTRA)); ("ADDIU r%d,r%d,%d"%string, (RT, RS, EXTRA));
   ("ADDU r%d,r%d,r%d"%string, (RD, RS, RT)); ("AND r%d,r%d,r%d"%string, (RD, RS, RT));
   ("ANDI r%d,r%d,%d"%string, (RT, RS, EXTRA)); ("BEQ r%d,r%d,%d"%string, (RS, RT, EXTRA));
   ("BGEZ r%d,%d"%string, (RS, EXTRA, NONE)); ("BGEZAL r%d,%d"%string, (RS, EXTRA, NONE));
   ("BGTZ r%d,%d"%string, (RS, EXTRA, NONE)); ("BLEZ r%d,%d"%string, (RS, EXTRA, NONE));
   ("BLTZ r%d,%d"%string, (RS, EXTRA, NONE)); ("BLTZAL r%d,%d"%string, (RS, EXTRA, NONE));
   ("BNE r%d,r%d,%d"%string, (RS, RT, EXTRA)); ("Shouldn't happen"%string, (NONE, NONE, NONE));
   ("DIV r%d,r%d"%string, (RS, RT, NONE)); ("DIVU r%d,r%d"%string, (RS, RT, NONE));
   ("J 4*%d"%string, (EXTRA, NONE, NONE)); ("JAL 4*%d"%string, (EXTRA, NONE, NONE));
   ("JALR r%d,r%d"%string, (RD, RS, NONE)); ("JR r%d,r%d"%string, (RD, RS, NONE));
   ("LB r%d,%d(r%d)"%string, (RT, EXTRA, RS)); ("LBU r%d,%d(r%d)"%string, (RT, EXTRA, RS));
   ("LH r%d,%d(r%d)"%string, (RT, EXTRA, RS)); ("LHU r%d,%d(r%d)"%string, (RT, EXTRA, RS));
   ("LUI r%d,%d"%string, (RT, EXTRA, NONE)); ("LW r%d,%d(r%d)"%string, (RT, EXTRA, RS));
   ("LWL r%d,%d(r%d)"%string, (RT, EXTRA, RS)); ("LWR r%d,%d(r%d)"%string, (RT, EXTRA, RS));
   ("Shouldn't happen"%string, (NONE, NONE, NONE)); ("MFHI r%d"%string, (RD, NONE, NONE));
   ("MFLO r%d"%string, (RD, NONE, NONE)); ("Shouldn't happen"%string, (NONE, NONE, NONE));
   ("MTHI r%d"%string, (RS, NONE, NONE)); ("MTLO r%d"%string, (RS, NONE, NONE));
   ("MULT r%d,r%d"%string, (RS, RT, NONE)); ("MULTU r%d,r%d"%string, (RS, RT, NONE));
   ("NOR r%d,r%d,r%d"%string, (RD, RS, RT)); ("OR r%d,r%d,r%d"%string, (RD, RS, RT));
   ("ORI r%d,r%d,%d"%string, (RT, RS, EXTRA)); ("RFE"%string, (NONE, NONE, NONE));
   ("SB r%d,%d(r%d)"%string, (RT, EXTRA, RS)); ("SH r%d,%d(r%d)"%string, (RT, EXTRA, RS));
   ("SLL r%d,r%d,%d"%string, (RD, RT, EXTRA)); ("SLLV r%d,r%d,r%d"%string, (RD, RT, RS));
   ("SLT r%d,r%d,r%d"%string, (RD, RS, RT)); ("SLTI r%d,r%d,%d"%string, (RT, RS, EXTRA));
   ("SLTIU r%d,r%d,%d"%string, (RT, RS, EXTRA)); ("SLTU r%d,r%d,r%d"%string, (RD, RS, RT));
   ("SRA r%d,r%d,%d"%string, (RD, RT, EXTRA)); ("SRAV r%d,r%d,r%d"%string, (RD, RT, RS));
   ("SRL r%d,r%d,%d"%string, (RD, RT, EXTRA)); ("SRLV r%d,r%d,r%d"%string, (RD, RT, RS));
   ("SUB r%d,r%d,r%d"%string, (RD, RS, RT)); ("SUBU r%d,r%d,r%d"%string, (RD, RS, RT));
   ("SW r%d,%d(r%d)"%string, (RT, EXTRA, RS)); ("SWL r%d,%d(r%d)"%string, (RT, EXTRA, RS));
   ("SWR r%d,%d(r%d)"%string, (RT, EXTRA, RS)); ("XOR r%d,r%d,r%d"%string, (RD, RS, RT));
   ("XORI r%d,r%d,%d"%string, (RT, RS, EXTRA)); ("SYSCALL"%string, (NONE, NONE, NONE));
   ("Unimplemented"%string, (NONE, NONE, NONE)); ("Reserved"%string, (NONE, NONE, NONE))
  ].

(** ** Decoding *)

(** class Instruction *)
Record Instruction := mkInstruction {
  value : Z;
  opCode : Opcode;
  rs : Z;
  rt : Z;
  rd : Z;
  extra : Z
}.

Definition SIGN_BIT : Z := 0x80000000.
Definition R31 : Z := 31.

(** [(x) << 2] on an unsigned *)
Definition IndexToAddr (x : Z) : Z := uint32 (Z.shiftl x 2).

Definition decode_extra (format : OpFormat) (value : Z) : Z :=
  match format with
  | IFMT =>
      let extra := Z.land value 0xffff in
      if negb (Z.land extra 0x8000 =? 0) then Z.lor extra 0xffff0000 else extra
  | RFMT => Z.land (Z.shiftr value 6) 0x1f
  | JFMT => Z.land value 0x3ffffff
  end.

Definition decode_bcond (value : Z) : Opcode :=
  let i := Z.land value 0x1f0000 in
  if i =? 0 then OP_BLTZ
  else if i =? 0x10000 then OP_BGEZ
  else if i =? 0x100000 then OP_BLTZAL
  else if i =? 0x110000 then OP_BGEZAL
  else OP_UNIMP.

Definition Decode (value : Z) : res Instruction :=
  let? opPtr := arr_get opTable (Z.land (Z.shiftr value 26) 0x3f) in
  let? op :=
    (if bool_decide (op_code opPtr = SPECIAL) then arr_get specialTable (Z.land value 0x3f)
     else if bool_decide (op_code opPtr = BCOND) then Ok (decode_bcond value)
     else Ok (op_code opPtr)) in
  Ok (mkInstruction value op (Z.land (Z.shiftr value 21) 0x1f) (Z.land (Z.shiftr value 16) 0x1f)
        (Z.land (Z.shiftr value 11) 0x1f) (decode_extra (op_format opPtr) value)).

Definition TypeToReg (r : RegType) (i : Instruction) : Z :=
  match r with
  | RS => rs i
  | RT => rt i
  | RD => rd i
  | EXTRA => extra i
  | NONE => -1
  end.

(** The line the debugger prints: the format string and its three arguments. *)
Definition disassemble (i : Instruction) : res (string * list Z) :=
  let? str := arr_get opStrings (opcode_num (opCode i)) in
  let? _ := ASSERT (opcode_num (opCode i) <=? MaxOpcode) in
  Ok (op_string str, (λ r, TypeToReg r i) <$> op_args str).

(** ** Multiplication *)

(** One turn of the loop; [a, bLo, bHi, lo, hi], and whether it breaks. *)
Record mult_state := mkMult { m_a : Z; m_bLo : Z; m_bHi : Z; m_lo : Z; m_hi : Z }.

Definition mult_turn (s : mult_state) : mult_state * bool :=
  let '(lo, hi, stop) :=
    (if negb (Z.land (m_a s) 1 =? 0) then
       let lo := uint32 (m_lo s + m_bLo s) in
       let hi := if lo <? m_bLo s then uint32 (m_hi s + 1) else m_hi s in
       let hi := uint32 (hi + m_bHi s) in
       (lo, hi, Z.land (m_a s) 0xfffffffe =? 0)
     else (m_lo s, m_hi s, false)) in
  if stop then (mkMult (m_a s) (m_bLo s) (m_bHi s) lo hi, true)
  else
    let bHi := uint32 (Z.shiftl (m_bHi s) 1) in
    let bHi := if negb (Z.land (m_bLo s) 0x80000000 =? 0) then Z.lor bHi 1 else bHi in
    (mkMult (Z.shiftr (m_a s) 1) (uint32 (Z.shiftl (m_bLo s) 1)) bHi lo hi, false).

Fixpoint mult_loop (n : nat) (s : mult_state) : mult_state :=
  match n with
  | O => s
  | S n => let '(s, stop) := mult_turn s in if stop then s else mult_loop n s
  end.

(** The words stored at [hiPtr] and [loPtr]. *)
Definition Mult (a b : Z) (signedArith : bool) : Z * Z :=
  if (a =? 0) || (b =? 0) then (0, 0)
  else
    let '(negative, a) := if signedArith && (a <? 0) then (true, int32 (- a)) else (false, a) in
    let '(negative, b) := if signedArith && (b <? 0) then (negb negative, int32 (- b))
                          else (negative, b) in
    let s := mult_loop 32 (mkMult a (uint32 b) 0 0 0) in
    let '(hi, lo) :=
      if negative then
        let hi := uint32 (Z.lnot (m_hi s)) in
        let lo := uint32 (uint32 (Z.lnot (m_lo s)) + 1) in
        (if lo =? 0 then uint32 (hi + 1) else hi, lo)
      else (m_hi s, m_lo s) in
    (int32 hi, int32 lo).

(** ** The unaligned loads and stores *)

(** The value loaded by LWR and LWL from the word [value] at an address ending in
    [off], over the old value of the register. *)
Definition lwr_merge (old value off : Z) : Z :=
  if off =? 0 then value
  else if off =? 1 then int32 (Z.lor (Z.land old 0xff000000) (Z.land (Z.shiftr value 8) 0xffffff))
  else if off =? 2 then int32 (Z.lor (Z.land old 0xffff0000) (Z.land (Z.shiftr value 16) 0xffff))
  else int32 (Z.lor (Z.land old 0xffffff00) (Z.land (Z.shiftr value 24) 0xff)).

Definition lwl_merge (old value off : Z) : Z :=
  if off =? 0 then Z.lor (Z.land old 0xff) (int32 (Z.shiftl value 8))
  else if off =? 1 then Z.lor (Z.land old 0xffff) (int32 (Z.shiftl value 16))
  else if off =? 2 then Z.lor (Z.land old 0xffffff) (int32 (Z.shiftl value 24))
  else value.

(** The word SWR and SWL store back, from the word in memory and the register. *)
Definition swr_merge (value r off : Z) : Z :=
  if off =? 0 then r
  else if off =? 1 then Z.lor (Z.land value 0xff) (int32 (Z.shiftl r 8))
  else if off =? 2 then Z.lor (Z.land value 0xffff) (int32 (Z.shiftl r 16))
  else Z.lor (Z.land value 0xffffff) (int32 (Z.shiftl r 24)).

Definition swl_merge (value r off : Z) : Z :=
  if off =? 0 then int32 (Z.lor (Z.land value 0xffffff00) (Z.land (Z.shiftr r 24) 0xff))
  else if off =? 1 then int32 (Z.lor (Z.land value 0xffff0000) (Z.land (Z.shiftr r 16) 0xffff))
  else if off =? 2 then int32 (Z.lor (Z.land value 0xff000000) (Z.land (Z.shiftr r 8) 0xffffff))
  else r.

(** ** Executing one instruction *)

(** How the switch is left: towards the end of OneInstruction, with the next [pcAfter]
    and the delayed load to record, or by RaiseException and [return]. *)
Inductive flow :=
  | Advance (pcAfter nextLoadReg nextLoadValue : Z)
  | Raise (which : ExceptionType) (badVAddr : Z).

(** [value] is the word read at [addr], if the read did not raise an exception. *)
Definition with_ReadMem (addr size : Z) (k : Z → ST Machine flow) : ST Machine flow :=
  let* r := ReadMem addr size in
  match r with inl e => st_ret (Raise e addr) | inr value => k value end.
Definition with_WriteMem (addr size value : Z) (k : ST Machine flow) : ST Machine flow :=
  let* r := WriteMem addr size value in
  match r with inl e => st_ret (Raise e addr) | inr _ => k end.

(** [registers[rs] + extra] as an address *)
Definition ea (i : Instruction) : ST Machine Z :=
  let* a := reg (rs i) in st_ret (int32 (a + extra i)).

Definition sign_of (x : Z) : bool := negb (Z.land x SIGN_BIT =? 0).

(** [registers[rd] = f (registers[rs], registers[rt])] and
    [registers[rt] = f (registers[rs])] *)
Definition rd_of (i : Instruction) (pcAfter : Z) (f : Z → Z → Z) : ST Machine flow :=
  let* a := reg (rs i) in
  let* b := reg (rt i) in
  let* _ := set_reg (rd i) (f a b) in
  st_ret (Advance pcAfter 0 0).
Definition rt_of (i : Instruction) (pcAfter : Z) (f : Z → Z) : ST Machine flow :=
  let* a := reg (rs i) in
  let* _ := set_reg (rt i) (f a) in
  st_ret (Advance pcAfter 0 0).

(** The branches; [link] stores the return address before the test. *)
Definition branch (i : Instruction) (pcAfter : Z) (link : bool) (taken : Z → Z → bool)
    : ST Machine flow :=
  let* npc := reg NextPCReg in
  let* _ := (if link then set_reg R31 (int32 (npc + 4)) else st_ret tt) in
  let* a := reg (rs i) in
  let* b := reg (rt i) in
  st_ret (Advance (if taken a b then int32 (npc + IndexToAddr (extra i)) else pcAfter) 0 0).

Definition jump (i : Instruction) (pcAfter : Z) (link : bool) : ST Machine flow :=
  let* npc := reg NextPCReg in
  let* _ := (if link then set_reg R31 (int32 (npc + 4)) else st_ret tt) in
  st_ret (Advance (int32 (Z.lor (Z.land pcAfter 0xf0000000) (IndexToAddr (extra i)))) 0 0).

Definition jump_reg (i : Instruction) (link : bool) : ST Machine flow :=
  let* npc := reg NextPCReg in
  let* _ := (if link then set_reg (rd i) (int32 (npc + 4)) else st_ret tt) in
  let* a := reg (rs i) in
  st_ret (Advance a 0 0).

Definition set_hi_lo (hi lo pcAfter : Z) : ST Machine flow :=
  let* _ := set_reg LoReg lo in
  let* _ := set_reg HiReg hi in
  st_ret (Advance pcAfter 0 0).

(** The old value a partial load merges into: a load still pending on the register
    counts. *)
Definition load_old (i : Instruction) : ST Machine Z :=
  let* l := reg LoadReg in
  if l =? rt i then reg LoadValueReg else reg (rt i).

Definition exec_load (i : Instruction) (pcAfter : Z) : ST Machine flow :=
  let* tmp := ea i in
  match opCode i with
  | OP_LB | OP_LBU =>
      with_ReadMem tmp 1 (λ value,
        let value :=
          if negb (Z.land value 0x80 =? 0) && bool_decide (opCode i = OP_LB)
          then int32 (Z.lor value 0xffffff00) else Z.land value 0xff in
        st_ret (Advance pcAfter (rt i) value))
  | OP_LH | OP_LHU =>
      if negb (Z.land tmp 0x1 =? 0) then st_ret (Raise AddressErrorException tmp)
      else
        with_ReadMem tmp 2 (λ value,
          let value :=
            if negb (Z.land value 0x8000 =? 0) && bool_decide (opCode i = OP_LH)
            then int32 (Z.lor value 0xffff0000) else Z.land value 0xffff in
          st_ret (Advance pcAfter (rt i) value))
  | OP_LW =>
      if negb (Z.land tmp 0x3 =? 0) then st_ret (Raise AddressErrorException tmp)
      else with_ReadMem tmp 4 (λ value, st_ret (Advance pcAfter (rt i) value))
  | OP_LWR =>
      with_ReadMem (Z.land tmp (Z.lnot 0x3)) 4 (λ value,
        let* old := load_old i in
        st_ret (Advance pcAfter (rt i) (lwr_merge old value (Z.land tmp 0x3))))
  | OP_LWL =>
      with_ReadMem (Z.land tmp (Z.lnot 0x3)) 4 (λ value,
        let* old := load_old i in
        st_ret (Advance pcAfter (rt i) (lwl_merge old value (Z.land tmp 0x3))))
  | _ => st_fail AssertFailure
  end.

Definition exec_store (i : Instruction) (pcAfter : Z) : ST Machine flow :=
  let* tmp := ea i in
  let* r := reg (rt i) in
  let done := st_ret (Advance pcAfter 0 0) in
  match opCode i with
  | OP_SB => with_WriteMem tmp 1 r done
  | OP_SH => with_WriteMem tmp 2 r done
  | OP_SW => with_WriteMem tmp 4 r done
  | OP_SWR =>
      with_ReadMem (Z.land tmp (Z.lnot 0x3)) 4 (λ value,
        with_WriteMem (Z.land tmp (Z.lnot 0x3)) 4 (swr_merge value r (Z.land tmp 0x3)) done)
  | OP_SWL =>
      with_ReadMem (Z.land tmp (Z.lnot 0x3)) 4 (λ value,
        with_WriteMem (Z.land tmp (Z.lnot 0x3)) 4 (swl_merge value r (Z.land tmp 0x3)) done)
  | _ => st_fail AssertFailure
  end.

(** ADD, ADDI and SUB raise an exception when the signs show an overflow. *)
Definition exec_add (i : Instruction) (pcAfter : Z) : ST Machine flow :=
  let* a := reg (rs i) in
  let* b := reg (rt i) in
  let sum := int32 (a + b) in
  if negb (sign_of (Z.lxor a b)) && sign_of (Z.lxor a sum)
  then st_ret (Raise OverflowException 0)
  else let* _ := set_reg (rd i) sum in st_ret (Advance pcAfter 0 0).

Definition exec_addi (i : Instruction) (pcAfter : Z) : ST Machine flow :=
  let* a := reg (rs i) in
  let sum := int32 (a + extra i) in
  if negb (sign_of (Z.lxor a (extra i))) && sign_of (Z.lxor (extra i) sum)
  then st_ret (Raise OverflowException 0)
  else let* _ := set_reg (rt i) sum in st_ret (Advance pcAfter 0 0).

Definition exec_sub (i : Instruction) (pcAfter : Z) : ST Machine flow :=
  let* a := reg (rs i) in
  let* b := reg (rt i) in
  let diff := int32 (a - b) in
  if sign_of (Z.lxor a b) && sign_of (Z.lxor a diff)
  then st_ret (Raise OverflowException 0)
  else let* _ := set_reg (rd i) diff in st_ret (Advance pcAfter 0 0).

(** The host traps on the one quotient that is not an [int]. *)
Definition exec_div (i : Instruction) (pcAfter : Z) : ST Machine flow :=
  let* a := reg (rs i) in
  let* b := reg (rt i) in
  if b =? 0 then set_hi_lo 0 0 pcAfter
  else if (a =? -2147483648) && (b =? -1) then st_fail ArithFault
  else set_hi_lo (Z.rem a b) (Z.quot a b) pcAfter.

Definition exec_divu (i : Instruction) (pcAfter : Z) : ST Machine flow :=
  let* a := reg (rs i) in
  let* b := reg (rt i) in
  let rs := uint32 a in
  let rt := uint32 b in
  if rt =? 0 then set_hi_lo 0 0 pcAfter
  else set_hi_lo (int32 (rs mod rt)) (int32 (rs / rt)) pcAfter.

Definition exec_mult (i : Instruction) (pcAfter : Z) (signed : bool) : ST Machine flow :=
  let* a := reg (rs i) in
  let* b := reg (rt i) in
  let* _ := set_reg HiReg (Mult a b signed).1 in
  let* _ := set_reg LoReg (Mult a b signed).2 in
  st_ret (Advance pcAfter 0 0).

Definition exec_move (from to pcAfter : Z) : ST Machine flow :=
  let* v := reg from in
  let* _ := set_reg to v in
  st_ret (Advance pcAfter 0 0).

(** The switch. *)
Definition exec (i : Instruction) (pcAfter : Z) : ST Machine flow :=
  match opCode i with
  | OP_ADD => exec_add i pcAfter
  | OP_ADDI => exec_addi i pcAfter
  | OP_ADDIU => rt_of i pcAfter (λ a, int32 (a + extra i))
  | OP_ADDU => rd_of i pcAfter (λ a b, int32 (a + b))
  | OP_AND => rd_of i pcAfter Z.land
  | OP_ANDI => rt_of i pcAfter (λ a, int32 (Z.land (uint32 a) (Z.land (extra i) 0xffff)))
  | OP_BEQ => branch i pcAfter false (λ a b, a =? b)
  | OP_BGEZAL => branch i pcAfter true (λ a _, negb (sign_of a))
  | OP_BGEZ => branch i pcAfter false (λ a _, negb (sign_of a))
  | OP_BGTZ => branch i pcAfter false (λ a _, a >? 0)
  | OP_BLEZ => branch i pcAfter false (λ a _, a <=? 0)
  | OP_BLTZAL => branch i pcAfter true (λ a _, sign_of a)
  | OP_BLTZ => branch i pcAfter false (λ a _, sign_of a)
  | OP_BNE => branch i pcAfter false (λ a b, negb (a =? b))
  | OP_DIV => exec_div i pcAfter
  | OP_DIVU => exec_divu i pcAfter
  | OP_JAL => jump i pcAfter true
  | OP_J => jump i pcAfter false
  | OP_JALR => jump_reg i true
  | OP_JR => jump_reg i false
  | OP_LB | OP_LBU | OP_LH | OP_LHU | OP_LW | OP_LWR | OP_LWL => exec_load i pcAfter
  | OP_LUI => let* _ := set_reg (rt i) (int32 (Z.shiftl (extra i) 16)) in
              st_ret (Advance pcAfter 0 0)
  | OP_MFHI => exec_move HiReg (rd i) pcAfter
  | OP_MFLO => exec_move LoReg (rd i) pcAfter
  | OP_MTHI => exec_move (rs i) HiReg pcAfter
  | OP_MTLO => exec_move (rs i) LoReg pcAfter
  | OP_MULT => exec_mult i pcAfter true
  | OP_MULTU => exec_mult i pcAfter false
  | OP_NOR => rd_of i pcAfter (λ a b, Z.lnot (Z.lor a b))
  | OP_OR => rd_of i pcAfter Z.lor
  | OP_ORI => rt_of i pcAfter (λ a, int32 (Z.lor (uint32 a) (Z.land (extra i) 0xffff)))
  | OP_SB | OP_SH | OP_SW | OP_SWR | OP_SWL => exec_store i pcAfter
  | OP_SLL => rd_of i pcAfter (λ _ b, int32 (Z.shiftl b (extra i)))
  | OP_SLLV => rd_of i pcAfter (λ a b, int32 (Z.shiftl b (Z.land a 0x1f)))
  | OP_SLT => rd_of i pcAfter (λ a b, if a <? b then 1 else 0)
  | OP_SLTI => rt_of i pcAfter (λ a, if a <? int32 (extra i) then 1 else 0)
  | OP_SLTIU => rt_of i pcAfter (λ a, if uint32 a <? extra i then 1 else 0)
  | OP_SLTU => rd_of i pcAfter (λ a b, if uint32 a <? uint32 b then 1 else 0)
  | OP_SRA => rd_of i pcAfter (λ _ b, Z.shiftr b (extra i))
  | OP_SRAV => rd_of i pcAfter (λ a b, Z.shiftr b (Z.land a 0x1f))
  | OP_SRL => rd_of i pcAfter (λ _ b, int32 (Z.shiftr (uint32 b) (extra i)))
  | OP_SRLV => rd_of i pcAfter (λ a b, int32 (Z.shiftr (uint32 b) (Z.land a 0x1f)))
  | OP_SUB => exec_sub i pcAfter
  | OP_SUBU => rd_of i pcAfter (λ a b, int32 (a - b))
  | OP_SYSCALL => st_ret (Raise SyscallException 0)
  | OP_XOR => rd_of i pcAfter Z.lxor
  | OP_XORI => rt_of i pcAfter (λ a, int32 (Z.lxor (uint32 a) (Z.land (extra i) 0xffff)))
  | OP_RES | OP_UNIMP => st_ret (Raise IllegalInstrException 0)
  | OP_RFE | SPECIAL | BCOND => st_fail AssertFailure
  end.

(** Fetch, decode, execute and advance. [Some (which, badVAddr)]: the instruction ended
    in RaiseException, always the last thing done before returning. *)
Definition OneInstruction : ST Machine (option (ExceptionType * Z)) :=
  let* pc := reg PCReg in
  let* r := ReadMem pc 4 in
  match r with
  | inl e => st_ret (Some (e, pc))
  | inr raw =>
      let* instr := st_lift (Decode (uint32 raw)) in
      let* npc := reg NextPCReg in
      let* f := exec instr (int32 (npc + 4)) in
      match f with
      | Raise which badVAddr => st_ret (Some (which, badVAddr))
      | Advance pcAfter nextLoadReg nextLoadValue =>
          let* _ := DelayedLoad nextLoadReg nextLoadValue in
          let* pc := reg PCReg in
          let* _ := set_reg PrevPCReg pc in
          let* npc := reg NextPCReg in
          let* _ := set_reg PCReg npc in
          let* _ := set_reg NextPCReg pcAfter in
          st_ret None
      end
  end.

(** ** Decoding: facts *)
Section Decoding.
Definition executable (o : Opcode) : bool :=
  match o with OP_RFE | SPECIAL | BCOND => false | _ => true end.

(** Every entry of the tables leads to an operation the switch has a case for. *)
Lemma opTable_ok :
  forallb (λ p, bool_decide (op_code p = SPECIAL) || bool_decide (op_code p = BCOND) ||
                executable (op_code p)) opTable = true ∧ length opTable = 64%nat.
Proof. vm_compute. done. Qed.

Lemma specialTable_ok :
  forallb executable specialTable = true ∧ length specialTable = 64%nat.
Proof. vm_compute. done. Qed.

Lemma forallb_lookup {A} (f : A → bool) l i x : forallb f l = true → l !! i = Some x → f x = true.
Proof. intros Hf Hx. apply forallb_forall with l; [done|]. by apply list_elem_of_In, list_elem_of_lookup_2 with i. Qed.

Lemma lor_high16 x : 0 ≤ x < 65536 → Z.lor x 4294901760 = x + 4294901760.
Proof.
  intros Hx. rewrite <- (Z.mod_small x (2 ^ 16)), <- Z.land_ones by lia.
  rewrite <- Z.lxor_lor, <- Z.add_nocarry_lxor; [done| |];
    (change 4294901760 with (Z.shiftl 65535 16);
     apply Z.bits_inj'; intros k Hk; rewrite Z.bits_0, !Z.land_spec;
     destruct (decide (k < 16));
     [rewrite (Z.shiftl_spec_low 65535) by lia; by rewrite andb_false_r|
      rewrite (Z.ones_spec_high 16) by lia; by rewrite andb_false_r]).
Qed.

Lemma decode_extra_range f v : 0 ≤ v → is_uint32 (decode_extra f v).
Proof.
  intros Hv. destruct f; simpl.
  - pose proof (land_ones_range v 16 ltac:(lia)) as Hr. change (Z.ones 16) with 65535 in Hr.
    change (2 ^ 16) with 65536 in Hr. destruct (negb _); unfold is_uint32; [|lia].
    rewrite lor_high16; lia.
  - pose proof (land_ones_range v 26 ltac:(lia)) as Hr. change (Z.ones 26) with 0x3ffffff in Hr.
    unfold is_uint32. lia.
  - pose proof (land_ones_range (Z.shiftr v 6) 5 ltac:(lia)) as Hr. change (Z.ones 5) with 0x1f in Hr.
    unfold is_uint32. lia.
Qed.

Lemma Decode_ok v :
  0 ≤ v →
  ∃ i, Decode v = Ok i ∧ value i = v ∧ executable (opCode i) = true ∧
    0 ≤ rs i < 32 ∧ 0 ≤ rt i < 32 ∧ 0 ≤ rd i < 32 ∧ is_uint32 (extra i).
Proof.
  intros Hv. unfold Decode.
  destruct opTable_ok as [Ht Hlt]. destruct specialTable_ok as [Hs Hls].
  pose proof (land_ones_range (Z.shiftr v 26) 6 ltac:(lia)) as H1. change (Z.ones 6) with 0x3f in H1.
  change (2 ^ 6) with 64 in H1.
  destruct (arr_get_in opTable (Z.land (Z.shiftr v 26) 0x3f)) as (p & -> & Hp); [lia|].
  cbn [res_bind]. pose proof (forallb_lookup _ _ _ _ Ht Hp) as Hpo. cbn beta in Hpo.
  assert (Hf : ∀ z, 0 ≤ Z.land z 0x1f < 32).
  { intros z. apply (land_ones_range z 5). lia. }
  case_bool_decide as Hsp.
  { pose proof (land_ones_range v 6 ltac:(lia)) as H2. change (Z.ones 6) with 0x3f in H2.
    change (2 ^ 6) with 64 in H2.
    destruct (arr_get_in specialTable (Z.land v 0x3f)) as (o & -> & Ho); [lia|].
    cbn [res_bind]. eexists. split; [done|]. split; [done|].
    split; [by apply (forallb_lookup _ _ _ _ Hs Ho)|].
    cbn [rs rt rd extra]. repeat (split; [apply Hf|]). by apply decode_extra_range. }
  case_bool_decide as Hbc; cbn [res_bind]; (eexists; split; [done|]; split; [done|]; split;
    [|cbn [rs rt rd extra]; repeat (split; [apply Hf|]); by apply decode_extra_range]).
  - cbn [opCode]. unfold decode_bcond. by repeat case_match.
  - cbn [opCode]. done.
Qed.
End Decoding.

(** ** A small logic for the executions: a program returns with its postcondition,
    or stops at the trapping division. *)
Section Logic.
Definition hoare {A} (P : Machine → Prop) (c : ST Machine A) (Q : A → Machine → Prop) : Prop :=
  ∀ m, P m → match c m with Ok (a, m') => Q a m' | Fail f => f = ArithFault end.

Lemma hoare_ret {A} (P : Machine → Prop) (a : A) (Q : A → Machine → Prop) :
  (∀ m, P m → Q a m) → hoare P (st_ret a) Q.
Proof. intros H m Hm. by apply H. Qed.

Lemma hoare_bind {A B} P (c : ST Machine A) (k : A → ST Machine B) R Q :
  hoare P c R → (∀ a, hoare (R a) (k a) Q) → hoare P (st_bind c k) Q.
Proof.
  intros Hc Hk m Hm. unfold st_bind. specialize (Hc m Hm).
  destruct (c m) as [[a m']|f]; [by apply Hk | done].
Qed.

Lemma hoare_weaken {A} (P P' : Machine → Prop) (c : ST Machine A) (Q Q' : A → Machine → Prop) :
  hoare P c Q → (∀ m, P' m → P m) → (∀ a m, Q a m → Q' a m) → hoare P' c Q'.
Proof.
  intros Hc HP HQ m Hm. specialize (Hc m (HP m Hm)).
  destruct (c m) as [[a m']|f]; [by apply HQ | done].
Qed.

Lemma hoare_prop {A} (P : Machine → Prop) (X : Prop) (c : ST Machine A) Q :
  (X → hoare P c Q) → hoare (λ m, P m ∧ X) c Q.
Proof. intros H m [Hm HX]. by apply H. Qed.

Context (m0 : Machine).

(** Nothing visible has happened since [m0]. *)
Definition pristine (m : Machine) : Prop :=
  machine_wf m ∧ evolves m0 m ∧ registers m = registers m0 ∧ mainMemory m = mainMemory m0.
(** Registers and the memory the program may write have changed. *)
Definition good (m : Machine) : Prop :=
  machine_wf m ∧ evolves m0 m ∧
  ∀ k, (Z.to_nat PCReg ≤ k)%nat → registers m !! k = registers m0 !! k.

Lemma pristine_good m : pristine m → good m.
Proof. intros (? & ? & Hr & _). split; [done|]. split; [done|]. intros k _. by rewrite Hr. Qed.

Lemma hoare_reg n :
  0 ≤ n < NumTotalRegs →
  hoare pristine (reg n) (λ v m, pristine m ∧ is_int32 v ∧ registers m0 !! Z.to_nat n = Some v).
Proof.
  intros Hn m Hm. destruct (reg_ok m n) as (v & -> & Hv & Hi); [exact (proj1 Hm) | done |].
  destruct Hm as (? & ? & Hr & ?). rewrite Hr in Hv. unfold pristine. tauto.
Qed.

Lemma hoare_reg_good n :
  0 ≤ n < NumTotalRegs → hoare good (reg n) (λ v m, good m ∧ is_int32 v).
Proof.
  intros Hn m Hm. destruct (reg_ok m n) as (v & -> & Hv & Hi); [exact (proj1 Hm) | done |]. done.
Qed.

Lemma hoare_set_reg n v :
  0 ≤ n < PCReg → is_int32 v → hoare good (set_reg n v) (λ _, good).
Proof.
  intros Hn Hv m (Hwf & Hev & Hk). unfold PCReg in *. assert (Hn' : 0 ≤ n < NumTotalRegs).
  { unfold NumTotalRegs in *. lia. }
  rewrite set_reg_eq by done.
  assert (Hwf' : machine_wf (set_registers (<[Z.to_nat n := v]> (registers m)) m)).
  { apply set_reg_wf; try done. unfold LoadReg. lia. }
  split; [done|]. split.
  - destruct Hev as [H1 H2 H3 H4 H5]. by split.
  - intros k Hge. simpl. rewrite list_lookup_insert_ne by (unfold PCReg in Hge; lia).
    by apply Hk.
Qed.

Lemma hoare_ReadMem addr size :
  size = 1 ∨ size = 2 ∨ size = 4 →
  hoare pristine (ReadMem addr size)
    (λ r m, pristine m ∧ match r with inl _ => True | inr v => read_range size v end).
Proof.
  intros Hs m (Hwf & Hev & Hr & Hmem).
  destruct (ReadMem_ok m addr size Hwf Hs) as (r & m' & E & Hev' & Hr' & Hv). rewrite E.
  split; [|done]. split; [by apply (ev_wf _ _ Hev')|]. split; [by eapply evolves_trans|].
  split; [congruence|]. rewrite <- Hmem. clear -E Hwf Hs. unfold ReadMem in E.
  destruct (Translate_confines_mem m addr size false Hwf Hs) as (r' & m1 & E1 & Hm1).
  rewrite E1 in E. cbn [res_bind] in E. destruct r' as [e|pa].
  - by injection E as <- <-.
  - repeat case_match; inv_binds; try done; by injection E as <- <-.
Qed.

Lemma hoare_WriteMem addr size v :
  size = 1 ∨ size = 2 ∨ size = 4 →
  hoare pristine (WriteMem addr size v)
    (λ r m, match r with inl _ => pristine m | inr _ => good m end).
Proof.
  intros Hs m (Hwf & Hev & Hr & Hmem).
  destruct (WriteMem_ok m addr size v Hwf Hs) as (r & m' & E & Hev' & Hr'). rewrite E.
  assert (Hg : good m').
  { split; [by apply (ev_wf _ _ Hev')|]. split; [by eapply evolves_trans|].
    intros k _. by rewrite Hr', Hr. }
  destruct r as [e|[]]; [|done]. destruct Hg as (? & ? & _). split; [done|]. split; [done|].
  split; [congruence|]. rewrite <- Hmem. clear -E Hwf Hs.
  destruct (Translate_confines_mem m addr size true Hwf Hs) as ([e1|pa] & m1 & E1 & Hm1).
  - unfold WriteMem in E. rewrite E1 in E. cbn [res_bind] in E. by injection E as <- <-.
  - rewrite (WriteMem_eq m addr size v pa m1) in E by done.
    destruct (set_mem_bytes _ _ _); discriminate.
Qed.
End Logic.

(** ** Every instruction keeps the machine well formed *)
Section Execution.
Context (m0 : Machine) (i : Instruction) (pcAfter : Z).
Hypotheses (Hrs : 0 ≤ rs i < 32) (Hrt : 0 ≤ rt i < 32) (Hrd : 0 ≤ rd i < 32)
  (Hex : is_uint32 (extra i)) (Hpc : is_int32 pcAfter).

Definition flow_post (f : flow) (m : Machine) : Prop :=
  match f with
  | Advance pc l v => good m0 m ∧ is_int32 pc ∧ 0 ≤ l < NumGPRegs ∧ is_int32 v
  | Raise _ a => pristine m0 m ∧ is_int32 a
  end.

Lemma hoare_advance (P : Machine → Prop) pc l v :
  (∀ m, P m → good m0 m) → is_int32 pc → 0 ≤ l < 32 → is_int32 v →
  hoare P (st_ret (Advance pc l v)) flow_post.
Proof. intros HP H1 H2 H3. apply hoare_ret. intros m Hm. split; auto. Qed.

Lemma hoare_advance0 : hoare (good m0) (st_ret (Advance pcAfter 0 0)) flow_post.
Proof. by apply hoare_advance. Qed.

Lemma hoare_raise P e a :
  (∀ m, P m → pristine m0 m) → is_int32 a → hoare P (st_ret (Raise e a)) flow_post.
Proof. intros HP Ha. apply hoare_ret. split; auto. Qed.

(** Read a register and keep its range. *)
Lemma hoare_reg_bind {B} n (k : Z → ST Machine B) Q :
  0 ≤ n < NumTotalRegs → (∀ v, is_int32 v → hoare (pristine m0) (k v) Q) →
  hoare (pristine m0) (st_bind (reg n) k) Q.
Proof.
  intros Hn Hk. eapply hoare_bind; [by apply hoare_reg|]. intros v.
  eapply hoare_weaken; [apply hoare_prop; intros Hi; by apply (Hk v), Hi | | done].
  intros m (? & Hi & _). split; [done | exact Hi].
Qed.

Lemma hoare_reg_good_bind {B} n (k : Z → ST Machine B) Q :
  0 ≤ n < NumTotalRegs → (∀ v, is_int32 v → hoare (good m0) (k v) Q) →
  hoare (good m0) (st_bind (reg n) k) Q.
Proof.
  intros Hn Hk. eapply hoare_bind; [by apply hoare_reg_good|]. intros v.
  apply hoare_prop. apply Hk.
Qed.

Lemma hoare_set_bind {B} n v (k : unit → ST Machine B) Q :
  0 ≤ n < PCReg → is_int32 v → hoare (good m0) (k tt) Q →
  hoare (good m0) (st_bind (set_reg n v) k) Q.
Proof. intros Hn Hv Hk. eapply hoare_bind; [by apply hoare_set_reg|]. by intros []. Qed.

Lemma hoare_good {A} (c : ST Machine A) Q : hoare (good m0) c Q → hoare (pristine m0) c Q.
Proof. intros H. eapply hoare_weaken; [exact H | apply pristine_good | done]. Qed.

Lemma hoare_link (b : bool) n (k : unit → ST Machine flow) v :
  0 ≤ n < 32 → is_int32 v → hoare (good m0) (k tt) flow_post →
  hoare (good m0) (st_bind (if b then set_reg n v else st_ret tt) k) flow_post.
Proof.
  intros Hn Hv Hk. destruct b.
  - apply hoare_set_bind; [unfold PCReg; lia | done | done].
  - exact Hk.
Qed.

Lemma rd_of_ok f :
  (∀ a b, is_int32 a → is_int32 b → is_int32 (f a b)) →
  hoare (pristine m0) (rd_of i pcAfter f) flow_post.
Proof.
  intros Hf. unfold rd_of.
  apply hoare_reg_bind; [unfold NumTotalRegs; lia|]. intros a Ha.
  apply hoare_reg_bind; [unfold NumTotalRegs; lia|]. intros b Hb.
  apply hoare_good, hoare_set_bind; [unfold PCReg; lia | auto | apply hoare_advance0].
Qed.

Lemma rt_of_ok f :
  (∀ a, is_int32 a → is_int32 (f a)) → hoare (pristine m0) (rt_of i pcAfter f) flow_post.
Proof.
  intros Hf. unfold rt_of.
  apply hoare_reg_bind; [unfold NumTotalRegs; lia|]. intros a Ha.
  apply hoare_good, hoare_set_bind; [unfold PCReg; lia | auto | apply hoare_advance0].
Qed.

Lemma branch_ok link taken : hoare (pristine m0) (branch i pcAfter link taken) flow_post.
Proof.
  unfold branch. apply hoare_reg_bind; [done|]. intros npc Hnpc.
  apply hoare_good, hoare_link; [done | apply int32_range |].
  apply hoare_reg_good_bind; [unfold NumTotalRegs; lia|]. intros a _.
  apply hoare_reg_good_bind; [unfold NumTotalRegs; lia|]. intros b _.
  apply hoare_advance; try done. by case_match.
Qed.

Lemma jump_ok link : hoare (pristine m0) (jump i pcAfter link) flow_post.
Proof.
  unfold jump. apply hoare_reg_bind; [done|]. intros npc Hnpc.
  apply hoare_good, hoare_link; [done | apply int32_range |].
  by apply hoare_advance.
Qed.

Lemma jump_reg_ok link : hoare (pristine m0) (jump_reg i link) flow_post.
Proof.
  unfold jump_reg. apply hoare_reg_bind; [done|]. intros npc Hnpc.
  apply hoare_good, hoare_link; [done | apply int32_range |].
  apply hoare_reg_good_bind; [unfold NumTotalRegs; lia|]. intros a Ha.
  by apply hoare_advance.
Qed.

Lemma set_hi_lo_ok hi lo :
  is_int32 hi → is_int32 lo → hoare (good m0) (set_hi_lo hi lo pcAfter) flow_post.
Proof.
  intros Hh Hl. unfold set_hi_lo. apply hoare_set_bind; [done | done |].
  apply hoare_set_bind; [done | done | apply hoare_advance0].
Qed.

Lemma with_ReadMem_ok addr size k :
  size = 1 ∨ size = 2 ∨ size = 4 → is_int32 addr →
  (∀ v, read_range size v → hoare (pristine m0) (k v) flow_post) →
  hoare (pristine m0) (with_ReadMem addr size k) flow_post.
Proof.
  intros Hs Haddr Hk. unfold with_ReadMem. eapply hoare_bind; [by apply hoare_ReadMem|].
  intros [e|v].
  - apply hoare_raise; [by intros m [? _]|done].
  - apply hoare_prop. apply Hk.
Qed.

Lemma with_WriteMem_ok addr size v k :
  size = 1 ∨ size = 2 ∨ size = 4 → is_int32 addr → hoare (good m0) k flow_post →
  hoare (pristine m0) (with_WriteMem addr size v k) flow_post.
Proof.
  intros Hs Haddr Hk. unfold with_WriteMem. eapply hoare_bind; [by apply hoare_WriteMem|].
  intros [e|[]]; [by apply hoare_raise | done].
Qed.

Lemma ea_ok {B} (k : Z → ST Machine B) Q :
  (∀ v, is_int32 v → hoare (pristine m0) (k v) Q) → hoare (pristine m0) (st_bind (ea i) k) Q.
Proof.
  intros Hk m Hm. unfold ea, st_bind.
  assert (Hn : 0 ≤ rs i < NumTotalRegs) by (unfold NumTotalRegs; lia).
  destruct (reg_ok m (rs i) (proj1 Hm) Hn) as (v & -> & _ & _).
  apply (Hk (int32 (v + extra i)) (int32_range _) m Hm).
Qed.

Lemma load_old_ok k :
  (∀ v, is_int32 v → hoare (pristine m0) (k v) flow_post) →
  hoare (pristine m0) (st_bind (load_old i) k) flow_post.
Proof.
  intros Hk m Hm. unfold load_old, st_bind.
  assert (Hn : 0 ≤ rt i < NumTotalRegs) by (unfold NumTotalRegs; lia).
  destruct (reg_ok m LoadReg (proj1 Hm)) as (l & -> & _ & _); [done|].
  destruct (l =? rt i).
  - destruct (reg_ok m LoadValueReg (proj1 Hm)) as (v & -> & _ & Hv); [done|]. by apply (Hk v Hv m).
  - destruct (reg_ok m (rt i) (proj1 Hm) Hn) as (v & -> & _ & Hv). by apply (Hk v Hv m).
Qed.
End Execution.

(** ** The switch *)
Section Switch.
Lemma int32_const z : -2147483648 <=? z = true → z <? 2147483648 = true → is_int32 z.
Proof. rewrite Z.leb_le, Z.ltb_lt. done. Qed.

Lemma merges_int32 old value off :
  is_int32 old → is_int32 value →
  is_int32 (lwr_merge old value off) ∧ is_int32 (lwl_merge old value off) ∧
  is_int32 (swr_merge old value off) ∧ is_int32 (swl_merge old value off).
Proof.
  intros Ho Hv. unfold lwr_merge, lwl_merge, swr_merge, swl_merge.
  repeat split; repeat case_match; try apply Hv; try apply int32_range;
    apply is_int32_lor; try apply int32_range; apply is_int32_land; auto; by apply int32_const.
Qed.

Lemma Mult_int32 a b s : is_int32 (Mult a b s).1 ∧ is_int32 (Mult a b s).2.
Proof. unfold Mult. repeat case_match; simpl; try done; split; try done; apply int32_range. Qed.

Lemma rem_quot_int32 a b :
  is_int32 a → is_int32 b → b ≠ 0 → ¬ (a = -2147483648 ∧ b = -1) →
  is_int32 (Z.rem a b) ∧ is_int32 (Z.quot a b).
Proof.
  unfold is_int32. intros Ha Hb Hb0 Hn.
  pose proof (Z.quot_rem' a b) as Hqr. pose proof (Z.rem_bound_abs a b Hb0) as Hr.
  destruct (decide (b = 1)) as [->|H1]; [rewrite Z.quot_1_r, Z.rem_1_r; lia|].
  destruct (decide (b = -1)) as [->|H2].
  { change (-1) with (- (1)). rewrite Z.quot_opp_r, Z.rem_opp_r, Z.quot_1_r, Z.rem_1_r by lia. lia. }
  pose proof (Z.rem_sign_mul a b Hb0) as Hs. nia.
Qed.

Context (m0 : Machine) (i : Instruction) (pcAfter : Z).
Hypotheses (Hrs : 0 ≤ rs i < 32) (Hrt : 0 ≤ rt i < 32) (Hrd : 0 ≤ rd i < 32)
  (Hex : is_uint32 (extra i)) (Hpc : is_int32 pcAfter).

Lemma read_range_int32 size v : read_range size v → is_int32 v.
Proof. unfold read_range, is_int32. repeat case_match; lia. Qed.

Lemma regs_in n : 0 ≤ n < 32 → 0 ≤ n < NumTotalRegs.
Proof. unfold NumTotalRegs. lia. Qed.
Lemma regs_load n : 0 ≤ n < 32 → 0 ≤ n < PCReg.
Proof. unfold PCReg. lia. Qed.
Hint Resolve regs_in regs_load : core.

Lemma load_value_ok v (P : Machine → Prop) :
  (∀ m, P m → good m0 m) → is_int32 v → hoare P (st_ret (Advance pcAfter (rt i) v)) (flow_post m0).
Proof. intros HP Hv. by apply hoare_advance. Qed.

Lemma exec_load_ok :
  opCode i ∈ [OP_LB; OP_LBU; OP_LH; OP_LHU; OP_LW; OP_LWR; OP_LWL] →
  hoare (pristine m0) (exec_load i pcAfter) (flow_post m0).
Proof.
  intros Ho. unfold exec_load. apply ea_ok; [done|]. intros tmp Htmp.
  assert (Hal : is_int32 (Z.land tmp (Z.lnot 0x3))) by (apply is_int32_land; [done|by apply int32_const]).
  assert (Hmask : ∀ v z, 0 ≤ z < 2147483648 → is_int32 v → is_int32 (Z.land v z)).
  { intros v z Hz Hv. apply is_int32_land; [done|]. unfold is_int32. lia. }
  assert (Hpg : ∀ m, pristine m0 m → good m0 m) by apply pristine_good.
  destruct (opCode i) eqn:Eo; try (exfalso; set_solver).
  - apply with_ReadMem_ok; [auto|auto|]. intros v Hv%read_range_int32. apply load_value_ok; [done|].
    case_match; [apply int32_range | by apply Hmask].
  - apply with_ReadMem_ok; [auto|auto|]. intros v Hv%read_range_int32. apply load_value_ok; [done|].
    case_match; [apply int32_range | by apply Hmask].
  - case_match; [by apply hoare_raise|].
    apply with_ReadMem_ok; [auto|auto|]. intros v Hv%read_range_int32. apply load_value_ok; [done|].
    case_match; [apply int32_range | by apply Hmask].
  - case_match; [by apply hoare_raise|].
    apply with_ReadMem_ok; [auto|auto|]. intros v Hv%read_range_int32. apply load_value_ok; [done|].
    case_match; [apply int32_range | by apply Hmask].
  - case_match; [by apply hoare_raise|].
    apply with_ReadMem_ok; [auto|auto|]. intros v Hv%read_range_int32. by apply load_value_ok.
  - apply with_ReadMem_ok; [auto|auto|]. intros v Hv%read_range_int32.
    apply load_old_ok; [done|]. intros old Hold. apply load_value_ok; [done|].
    by apply merges_int32.
  - apply with_ReadMem_ok; [auto|auto|]. intros v Hv%read_range_int32.
    apply load_old_ok; [done|]. intros old Hold. apply load_value_ok; [done|].
    by apply merges_int32.
Qed.

Lemma exec_store_ok :
  opCode i ∈ [OP_SB; OP_SH; OP_SW; OP_SWR; OP_SWL] →
  hoare (pristine m0) (exec_store i pcAfter) (flow_post m0).
Proof.
  intros Ho. unfold exec_store. apply ea_ok; [done|]. intros tmp Htmp.
  assert (Hal : is_int32 (Z.land tmp (Z.lnot 0x3))) by (apply is_int32_land; [done|by apply int32_const]).
  apply hoare_reg_bind; [auto|]. intros r Hr.
  pose proof (hoare_advance0 m0 pcAfter Hpc) as Hdone.
  destruct (opCode i) eqn:Eo; try (exfalso; set_solver).
  - apply with_WriteMem_ok; auto.
  - apply with_WriteMem_ok; auto.
  - apply with_WriteMem_ok; auto.
  - apply with_ReadMem_ok; [auto|auto|]. intros v _. apply with_WriteMem_ok; auto.
  - apply with_ReadMem_ok; [auto|auto|]. intros v _. apply with_WriteMem_ok; auto.
Qed.

(** The three instructions that may signal an overflow. *)
Lemma hoare_overflow (b : bool) n v :
  0 ≤ n < 32 → is_int32 v →
  hoare (pristine m0)
    (if b then st_ret (Raise OverflowException 0)
     else let* _ := set_reg n v in st_ret (Advance pcAfter 0 0)) (flow_post m0).
Proof.
  intros Hn Hv. destruct b; [by apply hoare_raise|].
  apply hoare_good, hoare_set_bind; [auto | done | by apply hoare_advance0].
Qed.

Lemma exec_move_ok from to :
  0 ≤ from < NumTotalRegs → 0 ≤ to < PCReg →
  hoare (pristine m0) (exec_move from to pcAfter) (flow_post m0).
Proof.
  intros Hf Ht. apply hoare_reg_bind; [done|]. intros v Hv.
  apply hoare_good, hoare_set_bind; [done | done | by apply hoare_advance0].
Qed.

Lemma exec_mult_ok signed : hoare (pristine m0) (exec_mult i pcAfter signed) (flow_post m0).
Proof.
  apply hoare_reg_bind; [auto|]. intros a Ha. apply hoare_reg_bind; [auto|]. intros b Hb.
  destruct (Mult_int32 a b signed) as [Hh Hl].
  apply hoare_good, hoare_set_bind; [done | done |].
  apply hoare_set_bind; [done | done | by apply hoare_advance0].
Qed.

Lemma exec_ok :
  executable (opCode i) = true → hoare (pristine m0) (exec i pcAfter) (flow_post m0).
Proof.
  intros He.
  assert (Hand : ∀ b : bool, is_int32 (if b then 1 else 0)) by by intros [].
  assert (H5 : ∀ a, 0 ≤ Z.land a 0x1f) by (intros a; apply (land_ones_range a 5); lia).
  unfold exec. destruct (opCode i) eqn:Eo; try discriminate He;
    try (apply rd_of_ok; [done..|]; intros; first [apply int32_range | apply Hand | auto]; fail);
    try (apply rt_of_ok; [done..|]; intros; first [apply int32_range | apply Hand | auto]; fail);
    try (apply branch_ok; done); try (apply jump_ok; done); try (apply jump_reg_ok; done);
    try (apply exec_load_ok; rewrite Eo; set_solver);
    try (apply exec_store_ok; rewrite Eo; set_solver);
    try (by apply hoare_raise).
  (* the rest *)
  - apply hoare_reg_bind; [auto|]. intros a Ha. apply hoare_reg_bind; [auto|]. intros b Hb.
    apply hoare_overflow; [done | apply int32_range].
  - apply hoare_reg_bind; [auto|]. intros a Ha. apply hoare_overflow; [done | apply int32_range].
  - apply hoare_reg_bind; [auto|]. intros a Ha. apply hoare_reg_bind; [auto|]. intros b Hb.
    destruct (Z.eqb_spec b 0); [apply hoare_good; by apply set_hi_lo_ok|].
    destruct (Z.eqb_spec a (-2147483648)), (Z.eqb_spec b (-1)); cbn [andb];
      try (by intros m _);
      (apply hoare_good, set_hi_lo_ok; [done | |]; apply rem_quot_int32; lia || done).
  - apply hoare_reg_bind; [auto|]. intros a Ha. apply hoare_reg_bind; [auto|]. intros b Hb.
    cbv zeta. destruct (uint32 b =? 0);
      (apply hoare_good, set_hi_lo_ok; [done | done || apply int32_range..]).
  - apply hoare_good, hoare_set_bind; [auto | apply int32_range | by apply hoare_advance0].
  - apply exec_move_ok; [done | auto].
  - apply exec_move_ok; [done | auto].
  - apply exec_move_ok; [auto | done].
  - apply exec_move_ok; [auto | done].
  - apply exec_mult_ok.
  - apply exec_mult_ok.
  - apply rd_of_ok; [done..|]. intros a b _ Hb. apply is_int32_shr; [done|].
    unfold is_uint32 in Hex. lia.
  - apply rd_of_ok; [done..|]. intros a b _ Hb. by apply is_int32_shr.
  - apply hoare_reg_bind; [auto|]. intros a Ha. apply hoare_reg_bind; [auto|]. intros b Hb.
    apply hoare_overflow; [done | apply int32_range].
Qed.
End Switch.

(** ** One instruction *)
Section OneInstruction.
(** The state after the tail of OneInstruction. *)
Lemma finish_ok m nr nv pcAfter :
  machine_wf m → 0 ≤ nr < NumGPRegs → is_int32 nv → is_int32 pcAfter →
  ∃ m', (let* _ := DelayedLoad nr nv in
         let* pc := reg PCReg in
         let* _ := set_reg PrevPCReg pc in
         let* npc := reg NextPCReg in
         let* _ := set_reg PCReg npc in
         let* _ := set_reg NextPCReg pcAfter in
         st_ret (A := option (ExceptionType * Z)) None) m = Ok (None, m') ∧
    machine_wf m' ∧ (∀ m0, evolves m0 m → evolves m0 m') ∧
    registers m' !! 0%nat = Some 0 ∧
    registers m' !! Z.to_nat PrevPCReg = registers m !! Z.to_nat PCReg ∧
    registers m' !! Z.to_nat PCReg = registers m !! Z.to_nat NextPCReg ∧
    registers m' !! Z.to_nat NextPCReg = Some pcAfter.
Proof.
  intros Hwf Hnr Hnv Hpc.
  destruct (DelayedLoad_ok m nr nv Hwf Hnr Hnv)
    as (m1 & E1 & Hwf1 & H0 & Hmem & Ht & Hp & Hsz & Hk). st_step E1.
  destruct (reg_ok m1 PCReg Hwf1) as (pc & E2 & Hpc1 & Hpci); [done|]. st_step E2.
  assert (H1 := set_reg_wf m1 PrevPCReg pc Hwf1 ltac:(done) Hpci ltac:(done)).
  st_step (set_reg_eq m1 PrevPCReg pc Hwf1 ltac:(done)). set (m2 := set_registers (<[Z.to_nat PrevPCReg := pc]> (registers m1)) m1) in *.
  destruct (reg_ok m2 NextPCReg H1) as (npc & E3 & Hnpc & Hnpci); [done|]. st_step E3.
  assert (H2 := set_reg_wf m2 PCReg npc H1 ltac:(done) Hnpci ltac:(done)).
  st_step (set_reg_eq m2 PCReg npc H1 ltac:(done)). set (m3 := set_registers (<[Z.to_nat PCReg := npc]> (registers m2)) m2) in *.
  assert (H3 := set_reg_wf m3 NextPCReg pcAfter H2 ltac:(done) Hpc ltac:(done)).
  st_step (set_reg_eq m3 NextPCReg pcAfter H2 ltac:(done)).
  pose proof (mw_len _ Hwf1) as Hl. unfold NumTotalRegs in Hl.
  change (registers m2) with (<[Z.to_nat PrevPCReg := pc]> (registers m1)) in *.
  eexists. split; [done|]. split; [done|]. simpl registers.
  unfold PCReg, NextPCReg, PrevPCReg in *.
  split; [|split; [|split; [|split] ] ].
  - intros m0 [A1 A2 A3 A4 A5]. split; simpl; try done; [by rewrite Ht | by rewrite Hp | by rewrite Hsz |].
    intros x Hx. by rewrite Hmem, A5.
  - rewrite !list_lookup_insert_ne by lia. done.
  - rewrite !(list_lookup_insert_ne _ _ (Z.to_nat 36)) by lia.
    rewrite list_lookup_insert_eq by lia. rewrite <- Hpc1, Hk by lia. done.
  - rewrite list_lookup_insert_ne by lia.
    rewrite list_lookup_insert_eq by (rewrite length_insert; lia).
    rewrite <- Hnpc, list_lookup_insert_ne, Hk by lia. done.
  - rewrite list_lookup_insert_eq by (rewrite !length_insert; lia). done.
Qed.

(** How an instruction may end: completed, trapped, or stopped by the host. *)
Definition instruction_post m (r : res (option (ExceptionType * Z) * Machine)) : Prop :=
  match r with
  | Ok (None, m') =>
      machine_wf m' ∧ evolves m m' ∧ registers m' !! 0%nat = Some 0 ∧
      registers m' !! Z.to_nat PrevPCReg = registers m !! Z.to_nat PCReg ∧
      registers m' !! Z.to_nat PCReg = registers m !! Z.to_nat NextPCReg
  | Ok (Some (_, badVAddr), m') =>
      machine_wf m' ∧ evolves m m' ∧ registers m' = registers m ∧ mainMemory m' = mainMemory m ∧
      is_int32 badVAddr
  | Fail f => f = ArithFault
  end.

Lemma OneInstruction_ok m : machine_wf m → instruction_post m (OneInstruction m).
Proof.
  intros Hwf. unfold OneInstruction, instruction_post.
  assert (Hp : pristine m m) by (split; [done|]; split; [apply evolves_refl | done]).
  destruct (reg_ok m PCReg Hwf) as (pc & E1 & _ & Hpci); [done|]. st_step E1.
  pose proof (hoare_ReadMem m pc 4 ltac:(auto) m Hp) as Hrd. unfold st_bind at 1.
  destruct (ReadMem pc 4 m) as [[[e|raw] m1]|f]; [|destruct Hrd as [Hp1 Hv] | done].
  { simpl. destruct Hrd as [(? & ? & ? & ?) _]. done. }
  destruct (Decode_ok (uint32 raw)) as (i & E2 & _ & Hex & Hrs & Hrt & Hrd & Hxt);
    [apply uint32_range|]. st_step_lift E2.
  destruct (reg_ok m1 NextPCReg (proj1 Hp1)) as (npc & E3 & _ & _); [done|]. st_step E3.
  pose proof (exec_ok m i (int32 (npc + 4)) Hrs Hrt Hrd Hxt (int32_range _) Hex m1 Hp1) as Hx.
  unfold st_bind at 1.
  destruct (exec i (int32 (npc + 4)) m1) as [[[pcA nr nv|e b] m2]|f]; [| |done].
  - destruct Hx as ((Hwf2 & Hev2 & Hk) & Hpca & Hnr & Hnv).
    destruct (finish_ok m2 nr nv pcA Hwf2 Hnr Hnv Hpca) as (m' & E & Hwf' & Hev' & H0 & H1 & H2 & _).
    rewrite E. unfold PCReg, NextPCReg in *.
    split; [done|]. split; [by apply Hev'|]. split; [done|]. rewrite H1, H2, !Hk by lia. done.
  - simpl. destruct Hx as ( (? & ? & ? & ?) & ?). done.
Qed.

(** C6. One instruction, from any well-formed machine: the switch covers every
    word the fetch can bring in, so no assertion fails and no register or memory
    access is out of range; the only stop is the host trap on dividing the least
    [int] by -1. If it completes, the machine is well formed, register 0 is zero, the
    PC has moved to NextPC - the delay slot runs before any branch takes effect - and
    only frames of pages the program may write have changed. If it traps, registers
    and memory are exactly as before, so the instruction can be run again. *)
Theorem OneInstruction_safe m : machine_wf m → instruction_post m (OneInstruction m).
Proof. apply OneInstruction_ok. Qed.
End OneInstruction.

Lemma OneInstruction_safe_witness : instruction_post one_page (OneInstruction one_page).
Proof. apply (OneInstruction_safe one_page one_page_wf). Defined.
