(* ===== verification/MipsArith.v ===== *)
(** * Arithmetic of the simulated MIPS

    What the bit-level code of src/code/machine/mipssim.cc computes: the double-word
    product of [Mult], the overflow tests of ADD, ADDI and SUB, the pairs of unaligned
    loads and stores, and the disassembly table. *)
From stdpp Require Import strings.
From S2P Require Import Prelude Words Machine MipsSim.

(** ** Multiplication *)
Section Multiplication.
Definition two32 : Z := 4294967296.
Definition two64 : Z := 18446744073709551616.

(** The double words of the loop. *)
Definition m_B (s : mult_state) : Z := m_bHi s * two32 + m_bLo s.
Definition m_R (s : mult_state) : Z := m_hi s * two32 + m_lo s.
Definition mult_wf (s : mult_state) : Prop :=
  is_uint32 (m_bLo s) ∧ is_uint32 (m_bHi s) ∧ is_uint32 (m_lo s) ∧ is_uint32 (m_hi s).

Lemma uint32_quot z : ∃ q, z = uint32 z + q * two32.
Proof. exists (z / two32). unfold uint32, two32. pose proof (Z.div_mod z 4294967296). lia. Qed.

(** Congruence modulo [two64]. *)
Definition eq64 (a b : Z) : Prop := ∃ q, a = b + q * two64.

#[local] Instance eq64_equiv : Equivalence eq64.
Proof.
  split.
  - intros a. exists 0. lia.
  - intros a b [q ->]. exists (- q). lia.
  - intros a b c [q ->] [r ->]. exists (q + r). lia.
Qed.

#[local] Instance eq64_add : Proper (eq64 ==> eq64 ==> eq64) Z.add.
Proof. intros a b [q ->] c d [r ->]. exists (q + r). lia. Qed.

#[local] Instance eq64_mul : Proper (eq64 ==> eq64 ==> eq64) Z.mul.
Proof. intros a b [q ->] c d [r ->]. exists (q * d + r * b + q * r * two64). lia. Qed.

#[local] Instance eq64_opp : Proper (eq64 ==> eq64) Z.opp.
Proof. intros a b [q ->]. exists (- q). lia. Qed.

Lemma eq64_mod a b : eq64 a b ↔ a mod two64 = b mod two64.
Proof.
  split.
  - intros [q ->]. by rewrite Z.mod_add.
  - intros H. exists (a / two64 - b / two64).
    pose proof (Z.div_mod a two64 ltac:(done)). pose proof (Z.div_mod b two64 ltac:(done)). lia.
Qed.

(** Adding the double words with the carry out of the low one. *)
Lemma add_carry lo hi bLo bHi :
  is_uint32 lo → is_uint32 bLo →
  let lo' := uint32 (lo + bLo) in
  let hi' := uint32 ((if lo' <? bLo then uint32 (hi + 1) else hi) + bHi) in
  eq64 (hi' * two32 + lo') ((hi * two32 + lo) + (bHi * two32 + bLo)).
Proof.
  intros Hl Hb. cbv zeta. unfold is_uint32 in *.
  destruct (uint32_quot (lo + bLo)) as [c Hc]. pose proof (uint32_range (lo + bLo)) as Hr.
  unfold is_uint32 in Hr. unfold two32 in *.
  set (lo' := uint32 (lo + bLo)) in *.
  destruct (Z.ltb_spec lo' bLo).
  - assert (c = 1) as -> by lia.
    destruct (uint32_quot (hi + 1)) as [q1 H1]. destruct (uint32_quot (uint32 (hi + 1) + bHi)) as [q2 H2].
    unfold two32 in *. exists (- q1 - q2). unfold two64. lia.
  - assert (c = 0) as -> by lia. destruct (uint32_quot (hi + bHi)) as [q H1]. unfold two32 in *.
    exists (- q). unfold two64. lia.
Qed.

Lemma lor_even_one z : Z.even z = true → Z.lor z 1 = z + 1.
Proof.
  intros He. pose proof (Z.add_lor_land z 1) as Hs.
  change (Z.land z 1) with (Z.land z (Z.ones 1)) in Hs.
  rewrite Z.land_ones in Hs by lia. change (2 ^ 1) with 2 in Hs.
  rewrite Zmod_even, He in Hs. lia.
Qed.

Lemma top_bit z : is_uint32 z → negb (Z.land z 0x80000000 =? 0) = (2147483648 <=? z).
Proof.
  intros Hz. unfold is_uint32 in Hz.
  assert (Hb : Z.testbit z 31 = (2147483648 <=? z)).
  { rewrite Z.testbit_eqb by lia. change (2 ^ 31) with 2147483648.
    pose proof (Z.div_mod z 2147483648). pose proof (Z.mod_pos_bound z 2147483648).
    destruct (Z.leb_spec 2147483648 z).
    - assert (z / 2147483648 = 1) as -> by lia. done.
    - assert (z / 2147483648 = 0) as -> by lia. done. }
  rewrite <- Hb. change 0x80000000 with (2 ^ 31). destruct (Z.testbit z 31) eqn:E.
  - apply negb_true_iff, Z.eqb_neq. intros H0.
    apply (f_equal (λ x, Z.testbit x 31)) in H0. rewrite Z.land_spec, E, Z.pow2_bits_true, Z.bits_0 in H0 by lia.
    done.
  - apply negb_false_iff, Z.eqb_eq, Z.bits_inj'. intros k Hk.
    rewrite Z.land_spec, Z.pow2_bits_eqb, Z.bits_0 by lia.
    destruct (Z.eqb_spec 31 k); subst; [by rewrite E | by rewrite andb_false_r].
Qed.

(** Doubling the double word of [b]. *)
Lemma shift_b bLo bHi :
  is_uint32 bLo → is_uint32 bHi →
  let bHi1 := uint32 (Z.shiftl bHi 1) in
  let bHi' := if negb (Z.land bLo 0x80000000 =? 0) then Z.lor bHi1 1 else bHi1 in
  is_uint32 bHi' ∧ eq64 (bHi' * two32 + uint32 (Z.shiftl bLo 1)) (2 * (bHi * two32 + bLo)).
Proof.
  intros Hl Hh. cbv zeta. rewrite top_bit by done. rewrite !Z.shiftl_mul_pow2 by lia.
  change (2 ^ 1) with 2. pose proof (uint32_range (bHi * 2)) as Hr. unfold is_uint32 in *.
  destruct (uint32_quot (bHi * 2)) as [q Hq]. unfold two32 in *.
  assert (Hev : Z.even (uint32 (bHi * 2)) = true).
  { unfold uint32. rewrite Zeven_mod. rewrite <- (Znumtheory.Zmod_div_mod 2 4294967296);
      [by rewrite Z.mod_mul | lia | lia | by exists 2147483648]. }
  assert (Hne : uint32 (bHi * 2) ≠ 4294967295) by (intros E; by rewrite E in Hev).
  destruct (Z.leb_spec 2147483648 bLo).
  - rewrite lor_even_one by done. split; [lia|].
    assert (uint32 (bLo * 2) = bLo * 2 - 4294967296) as ->.
    { unfold uint32. symmetry. apply (Z.mod_unique _ _ 1); lia. }
    exists (- q). unfold two64. lia.
  - split; [done|]. rewrite (uint32_id (bLo * 2)) by (unfold is_uint32; lia).
    exists (- q). unfold two64. lia.
Qed.

Lemma land1_mod z : (Z.land z 1 =? 0) = (z mod 2 =? 0).
Proof. change 1 with (Z.ones 1). by rewrite Z.land_ones. Qed.

(** The test that lets the loop stop early: no bit but the lowest is left. *)
Lemma only_low_bit z : z mod 2 = 1 → Z.land z 0xfffffffe = 0 → z mod 4294967296 = 1.
Proof.
  intros Ho Hz. change 4294967296 with (2 ^ 32). change 1 with (2 ^ 0).
  apply Z.bits_inj'. intros k Hk. rewrite Z.pow2_bits_eqb by lia.
  destruct (decide (k < 32)).
  2: { rewrite Z.mod_pow2_bits_high by lia. by destruct (Z.eqb_spec 0 k); [lia|]. }
  rewrite Z.mod_pow2_bits_low by lia. destruct (Z.eqb_spec 0 k) as [<-|Hne].
  - by rewrite Z.bit0_odd, Zodd_mod, Ho.
  - apply (f_equal (λ x, Z.testbit x k)) in Hz. rewrite Z.land_spec, Z.bits_0 in Hz.
    change 0xfffffffe with (Z.shiftl (Z.ones 31) 1) in Hz.
    rewrite Z.shiftl_spec, Z.ones_spec_low, andb_true_r in Hz by lia. done.
Qed.

Lemma mult_turn_ok s :
  mult_wf s →
  let s' := (mult_turn s).1 in
  if (mult_turn s).2 then m_a s mod two32 = 1 ∧ eq64 (m_R s') (m_R s + m_B s)
  else mult_wf s' ∧ m_a s' = m_a s / 2 ∧ eq64 (m_B s') (2 * m_B s) ∧
       eq64 (m_R s') (m_R s + (m_a s mod 2) * m_B s).
Proof.
  destruct s as [a bLo bHi lo hi]. intros (H1 & H2 & H3 & H4). unfold m_B, m_R, mult_wf in *.
  cbn [m_a m_bLo m_bHi m_lo m_hi] in *. cbv zeta. unfold mult_turn. cbn [m_a m_bLo m_bHi m_lo m_hi].
  destruct (shift_b bLo bHi H1 H2) as [Hs1 Hs2]. cbv zeta in Hs1, Hs2.
  assert (Hsh : Z.shiftr a 1 = a / 2) by (by rewrite Z.shiftr_div_pow2).
  pose proof (Z.mod_pos_bound a 2 ltac:(lia)) as Hm.
  rewrite land1_mod. destruct (Z.eqb_spec (a mod 2) 0) as [Ha|Ha]; cbn [negb].
  - cbn [fst snd m_a m_bLo m_bHi m_lo m_hi]. rewrite Ha, Z.mul_0_l, Z.add_0_r.
    split; [|split; [done|]]; [|split; [done | reflexivity]].
    split; [apply uint32_range | done].
  - assert (a mod 2 = 1) as Ha1 by lia.
    pose proof (add_carry lo hi bLo bHi H3 H1) as Hadd. cbv zeta in Hadd.
    destruct (Z.eqb_spec (Z.land a 4294967294) 0) as [Hstop|Hgo];
      cbn [fst snd m_a m_bLo m_bHi m_lo m_hi].
    + split; [by apply only_low_bit | done].
    + rewrite Ha1, Z.mul_1_l. split; [|split; [done|]]; [|split; [done | done]].
      split; [apply uint32_range|]. split; [done|]. split; apply uint32_range.
Qed.

(** [n] turns add the product with the low [n] bits of [a]. *)
Lemma mult_loop_ok n s :
  mult_wf s → (n ≤ 32)%nat →
  eq64 (m_R (mult_loop n s)) (m_R s + (m_a s mod 2 ^ Z.of_nat n) * m_B s).
Proof.
  revert s. induction n as [|n IH]; intros s Hwf Hn.
  { cbn [mult_loop]. change (2 ^ Z.of_nat 0) with 1. rewrite Z.mod_1_r, Z.mul_0_l, Z.add_0_r. reflexivity. }
  cbn [mult_loop]. pose proof (mult_turn_ok s Hwf) as Ht. cbv zeta in Ht.
  destruct (mult_turn s) as [s' stop]. cbn [fst snd] in Ht. destruct stop.
  - destruct Ht as [Ha ->]. replace (m_a s mod 2 ^ Z.of_nat (S n)) with 1; [by rewrite Z.mul_1_l|].
    assert (Hp : 0 < 2 ^ Z.of_nat (S n)) by (apply Z.pow_pos_nonneg; lia).
    rewrite (Znumtheory.Zmod_div_mod (2 ^ Z.of_nat (S n)) two32 (m_a s) Hp).
    + rewrite Ha. symmetry. apply Z.mod_small. split; [lia|].
      rewrite Nat2Z.inj_succ, Z.pow_succ_r by lia.
      assert (0 < 2 ^ Z.of_nat n) by (apply Z.pow_pos_nonneg; lia). lia.
    + done.
    + exists (2 ^ (32 - Z.of_nat (S n))). rewrite <- Z.pow_add_r by lia.
      replace (32 - Z.of_nat (S n) + Z.of_nat (S n)) with 32 by lia. done.
  - destruct Ht as (Hwf' & Ha & HB & HR). rewrite IH by (done || lia).
    rewrite HR, HB, Ha. rewrite Nat2Z.inj_succ, Z.pow_succ_r by lia.
    rewrite Z.rem_mul_r by (try lia; apply Z.pow_pos_nonneg; lia).
    apply eq64_mod. f_equal. ring.
Qed.

(** The magnitude of an operand, and whether it was negated. *)
Lemma magnitude a (s : bool) :
  is_int32 a →
  let r := if s && (a <? 0) then (true, int32 (- a)) else (false, a) in
  r.2 mod two32 = (if s then Z.abs a else uint32 a) ∧ r.1 = s && (a <? 0).
Proof.
  intros Ha. unfold is_int32 in Ha. cbv zeta. destruct s; cbn [andb].
  - destruct (Z.ltb_spec a 0); cbn [fst snd]; (split; [|done]).
    + change (uint32 (int32 (- a)) = Z.abs a). rewrite uint32_int32, uint32_id; unfold is_uint32; lia.
    + change (uint32 a = Z.abs a). rewrite uint32_id; unfold is_uint32; lia.
  - done.
Qed.

(** The two's complement of a double word. *)
Lemma negate64 hi lo :
  is_uint32 hi → is_uint32 lo →
  let hi1 := uint32 (Z.lnot hi) in
  let lo1 := uint32 (uint32 (Z.lnot lo) + 1) in
  eq64 ((if lo1 =? 0 then uint32 (hi1 + 1) else hi1) * two32 + lo1) (- (hi * two32 + lo)).
Proof.
  intros Hh Hl. cbv zeta. unfold is_uint32, Z.lnot, two32 in *.
  assert (∀ z, 0 ≤ z < 4294967296 → uint32 (Z.pred (- z)) = 4294967295 - z) as Hn.
  { intros z Hz. unfold uint32. symmetry. apply (Z.mod_unique _ _ (-1)); lia. }
  rewrite !Hn by lia.
  destruct (decide (lo = 0)) as [->|Hlo].
  - change (uint32 (4294967295 - 0 + 1)) with 0. cbn [Z.eqb].
    destruct (uint32_quot (4294967295 - hi + 1)) as [q Hq]. unfold two32 in Hq.
    exists (1 - q). unfold two64. lia.
  - rewrite (uint32_id (4294967295 - lo + 1)) by (unfold is_uint32; lia).
    destruct (Z.eqb_spec (4294967295 - lo + 1) 0); [lia|]. exists 1. unfold two64. lia.
Qed.

Lemma mult_loop_wf n s : mult_wf s → is_uint32 (m_lo (mult_loop n s)) ∧ is_uint32 (m_hi (mult_loop n s)).
Proof.
  revert s. induction n as [|n IH]; intros s Hwf; [by destruct Hwf as (_ & _ & ? & ?)|].
  cbn [mult_loop]. pose proof (mult_turn_ok s Hwf) as Ht. cbv zeta in Ht.
  destruct (mult_turn s) as [s' stop] eqn:E. cbn [fst snd] in Ht. destruct stop.
  - clear Ht. unfold mult_turn in E. destruct Hwf as (_ & _ & ? & ?).
    destruct (negb (Z.land (m_a s) 1 =? 0)); [|by destruct (negb _) in E].
    destruct (Z.land (m_a s) 0xfffffffe =? 0); injection E as <-; cbn [m_lo m_hi]; auto.
  - apply IH. apply Ht.
Qed.

(** C32. The shift-and-add loop of [Mult] leaves in Hi and Lo the double-length
    product of its operands modulo 2^64: the product of the [int]s for MULT, of the
    unsigned words for MULTU. *)
Theorem Mult_correct (a b : Z) (signedArith : bool) :
  is_int32 a → is_int32 b →
  let '(hi, lo) := Mult a b signedArith in
  (uint32 hi * 4294967296 + uint32 lo) mod 18446744073709551616 =
  (if signedArith then a * b else uint32 a * uint32 b) mod 18446744073709551616.
Proof.
  intros Ha Hb. unfold Mult.
  destruct (Z.eqb_spec a 0) as [->|Ha0]; [by destruct signedArith|].
  destruct (Z.eqb_spec b 0) as [->|Hb0].
  { cbn [orb]. destruct signedArith; [by rewrite Z.mul_0_r|].
    change (uint32 0) with 0. by rewrite !Z.mul_0_r. }
  cbn [orb]. destruct (magnitude a signedArith Ha) as [Hma Hna].
  destruct (magnitude b signedArith Hb) as [Hmb Hnb].
  destruct (if signedArith && (a <? 0) then (true, int32 (- a)) else (false, a)) as [na a'].
  cbn [fst snd] in Hma, Hna. subst na.
  set (mb := (if signedArith && (b <? 0) then (true, int32 (- b)) else (false, b))) in *.
  assert ((if signedArith && (b <? 0) then (negb (signedArith && (a <? 0)), int32 (- b))
           else (signedArith && (a <? 0), b))
          = (xorb (signedArith && (a <? 0)) (signedArith && (b <? 0)), mb.2)) as ->.
  { unfold mb. destruct (signedArith && (b <? 0)); [by rewrite xorb_true_r | by rewrite xorb_false_r]. }
  set (s0 := mkMult a' (uint32 mb.2) 0 0 0).
  assert (Hwf : mult_wf s0) by (repeat split; try apply uint32_range; done).
  pose proof (mult_loop_ok 32 s0 Hwf ltac:(lia)) as Hloop.
  destruct (mult_loop_wf 32 s0 Hwf) as [Hlo Hhi]. set (s := mult_loop 32 s0) in *.
  change (2 ^ Z.of_nat 32) with two32 in Hloop. cbn [m_a s0] in Hloop. rewrite Hma in Hloop.
  unfold m_R at 2, m_B in Hloop. cbn [m_hi m_lo m_bHi m_bLo s0] in Hloop.
  change (uint32 mb.2) with (mb.2 mod two32) in Hloop. rewrite Hmb in Hloop.
  rewrite Z.mul_0_l, !Z.add_0_l in Hloop. unfold m_R in Hloop.
  change 4294967296 with two32. change 18446744073709551616 with two64.
  pose proof (negate64 (m_hi s) (m_lo s) Hhi Hlo) as Hneg. cbv zeta in Hneg.
  destruct (xorb (signedArith && (a <? 0)) (signedArith && (b <? 0))) eqn:Ex.
  - set (lo1 := uint32 (uint32 (Z.lnot (m_lo s)) + 1)) in *.
    assert (Hr : ∀ c x, is_uint32 x → uint32 (int32 (if (c : bool) then uint32 (x + 1) else x)) =
                        if c then uint32 (x + 1) else x).
    { intros c x Hx. rewrite uint32_int32. destruct c; apply uint32_id; [apply uint32_range | done]. }
    rewrite Hr, uint32_int32, (uint32_id lo1) by apply uint32_range.
    apply eq64_mod. rewrite Hneg. rewrite Hloop.
    destruct signedArith; [|done]. cbn [andb] in Ex. unfold is_int32 in *.
    destruct (Z.ltb_spec a 0), (Z.ltb_spec b 0); try done; apply eq64_mod; f_equal.
    + rewrite (Z.abs_neq a), (Z.abs_eq b) by lia. ring.
    + rewrite (Z.abs_eq a), (Z.abs_neq b) by lia. ring.
  - rewrite !uint32_int32, (uint32_id (m_hi s)), (uint32_id (m_lo s)) by done.
    apply eq64_mod. rewrite Hloop.
    destruct signedArith; [|reflexivity]. cbn [andb] in Ex.
    destruct (Z.ltb_spec a 0), (Z.ltb_spec b 0); try done; apply eq64_mod; f_equal.
    + rewrite (Z.abs_neq a), (Z.abs_neq b) by lia. ring.
    + rewrite (Z.abs_eq a), (Z.abs_eq b) by lia. ring.
Qed.

Lemma Mult_correct_witness :
  Mult (-3) 5 true = (-1, -15) ∧
  (uint32 (-1) * 4294967296 + uint32 (-15)) mod 18446744073709551616 =
  (-3 * 5) mod 18446744073709551616.
Proof.
  split; [vm_compute; reflexivity|].
  apply (Mult_correct (-3) 5 true); unfold is_int32; lia.
Defined.
End Multiplication.

(** ** Overflow *)
Section Overflow.
Lemma land_pow2_testbit z k : 0 ≤ k → negb (Z.land z (2 ^ k) =? 0) = Z.testbit z k.
Proof.
  intros Hk. destruct (Z.testbit z k) eqn:E.
  - apply negb_true_iff, Z.eqb_neq. intros H0.
    apply (f_equal (λ x, Z.testbit x k)) in H0.
    by rewrite Z.land_spec, E, Z.pow2_bits_true, Z.bits_0 in H0.
  - apply negb_false_iff, Z.eqb_eq, Z.bits_inj'. intros j Hj.
    rewrite Z.land_spec, Z.pow2_bits_eqb, Z.bits_0 by lia.
    destruct (Z.eqb_spec k j); subst; [by rewrite E | by rewrite andb_false_r].
Qed.

Lemma sign_of_bit z : sign_of z = Z.testbit z 31.
Proof. unfold sign_of, SIGN_BIT. change 0x80000000 with (2 ^ 31). by apply land_pow2_testbit. Qed.

Lemma sign_of_lxor a b : sign_of (Z.lxor a b) = xorb (sign_of a) (sign_of b).
Proof. rewrite !sign_of_bit. apply Z.lxor_spec. Qed.

Lemma sign_of_int32 z : is_int32 z → sign_of z = (z <? 0).
Proof.
  intros Hz. rewrite sign_of_bit. rewrite <- (Z.mod_pow2_bits_low z 32) by lia.
  change (2 ^ 32) with 4294967296. rewrite Z.testbit_eqb by lia. change (2 ^ 31) with 2147483648.
  unfold is_int32 in Hz. destruct (Z.ltb_spec z 0).
  - assert (z mod 4294967296 = z + 4294967296) as ->.
    { symmetry. apply (Z.mod_unique _ _ (-1)); lia. }
    assert ((z + 4294967296) / 2147483648 = 1) as ->; [|done].
    symmetry. apply (Z.div_unique _ _ _ (z + 2147483648)); lia.
  - rewrite (Z.mod_small z) by lia. rewrite Z.div_small by lia. done.
Qed.

Lemma sign_of_uint32 z : sign_of z = sign_of (int32 z).
Proof.
  rewrite !sign_of_bit. rewrite <- (Z.mod_pow2_bits_low z 32 31) by lia.
  rewrite <- (Z.mod_pow2_bits_low (int32 z) 32 31) by lia.
  change (2 ^ 32) with 4294967296. fold (uint32 z) (uint32 (int32 z)). by rewrite uint32_int32.
Qed.

(** The value of a sum that leaves the [int]s has the other sign. *)
Lemma int32_wrap z :
  -4294967296 ≤ z < 4294967296 →
  int32 z = if z <? -2147483648 then z + 4294967296
            else if 2147483648 <=? z then z - 4294967296 else z.
Proof.
  intros Hz. unfold int32. destruct (Z.ltb_spec z (-2147483648)).
  - rewrite <- (Z.mod_unique (z + 2147483648) 4294967296 (-1) (z + 2147483648 + 4294967296)); lia.
  - destruct (Z.leb_spec 2147483648 z).
    + rewrite <- (Z.mod_unique (z + 2147483648) 4294967296 1 (z + 2147483648 - 4294967296)); lia.
    + rewrite Z.mod_small; lia.
Qed.

Definition fits32 (z : Z) : bool := (-2147483648 <=? z) && (z <? 2147483648).

Lemma add_test a b :
  is_int32 a → is_int32 b →
  negb (sign_of (Z.lxor a b)) && sign_of (Z.lxor a (int32 (a + b))) = negb (fits32 (a + b)).
Proof.
  intros Ha Hb. rewrite !sign_of_lxor, !sign_of_int32 by (try done; apply int32_range).
  rewrite int32_wrap by (unfold is_int32 in *; lia). unfold is_int32, fits32 in *.
  destruct (Z.ltb_spec a 0), (Z.ltb_spec b 0), (Z.leb_spec (-2147483648) (a + b)),
    (Z.ltb_spec (a + b) (-2147483648)), (Z.ltb_spec (a + b) 2147483648),
    (Z.leb_spec 2147483648 (a + b)); try lia; cbn [xorb negb andb];
    match goal with |- context [?x <? 0] => destruct (Z.ltb_spec x 0) | _ => idtac end; lia || done.
Qed.

Lemma sub_test a b :
  is_int32 a → is_int32 b →
  sign_of (Z.lxor a b) && sign_of (Z.lxor a (int32 (a - b))) = negb (fits32 (a - b)).
Proof.
  intros Ha Hb. rewrite !sign_of_lxor, !sign_of_int32 by (try done; apply int32_range).
  rewrite int32_wrap by (unfold is_int32 in *; lia). unfold is_int32, fits32 in *.
  destruct (Z.ltb_spec a 0), (Z.ltb_spec b 0), (Z.leb_spec (-2147483648) (a - b)),
    (Z.ltb_spec (a - b) (-2147483648)), (Z.ltb_spec (a - b) 2147483648),
    (Z.leb_spec 2147483648 (a - b)); try lia; cbn [xorb negb andb];
    match goal with |- context [?x <? 0] => destruct (Z.ltb_spec x 0) | _ => idtac end; lia || done.
Qed.

Lemma xorb_swap a b c : xorb a b = false → xorb a c = xorb b c.
Proof. by destruct a, b, c. Qed.

Lemma addi_test a x :
  is_int32 a →
  negb (sign_of (Z.lxor a x)) && sign_of (Z.lxor x (int32 (a + x))) = negb (fits32 (a + int32 x)).
Proof.
  intros Ha. rewrite <- add_test by (try done; apply int32_range).
  assert (int32 (a + x) = int32 (a + int32 x)) as ->.
  { destruct (int32_cong x) as [k ->]. unfold int32.
    replace (a + (x + k * 4294967296) + 2147483648) with (a + x + 2147483648 + k * 4294967296) by lia.
    by rewrite Z.mod_add. }
  rewrite !sign_of_lxor, (sign_of_uint32 x).
  destruct (xorb (sign_of a) (sign_of (int32 x))) eqn:E; [done|]. cbn [negb andb].
  symmetry. by apply xorb_swap.
Qed.

(** ADD, ADDI and SUB raise the overflow exception exactly when the true sum
    or difference is not an [int], leaving the registers alone, and otherwise store
    it: the tests on the sign bits are neither too strict nor too lax. The
    immediate of ADDI is taken as sign-extended. *)
Theorem overflow_exact (m : Machine) (i : Instruction) (pcAfter a b : Z) :
  machine_wf m → 0 ≤ rs i < 32 → 0 ≤ rt i < 32 → 0 ≤ rd i < 32 →
  registers m !! Z.to_nat (rs i) = Some a → registers m !! Z.to_nat (rt i) = Some b →
  let outcome (n v : Z) :=
    if fits32 v then Ok (Advance pcAfter 0 0, set_registers (<[Z.to_nat n := v]> (registers m)) m)
    else Ok (Raise OverflowException 0, m) in
  exec_add i pcAfter m = outcome (rd i) (a + b) ∧
  exec_sub i pcAfter m = outcome (rd i) (a - b) ∧
  exec_addi i pcAfter m = outcome (rt i) (a + int32 (extra i)).
Proof.
  intros Hwf Hs Ht Hd Ha Hb outcome.
  assert (H40 : ∀ n, 0 ≤ n < 32 → 0 ≤ n < NumTotalRegs) by (unfold NumTotalRegs; lia).
  destruct (reg_ok m (rs i) Hwf (H40 _ Hs)) as (a' & Ea & Ha' & Hai).
  destruct (reg_ok m (rt i) Hwf (H40 _ Ht)) as (b' & Eb & Hb' & Hbi).
  assert (a' = a) as -> by congruence. assert (b' = b) as -> by congruence.
  assert (Hfit : ∀ v, fits32 v = true → int32 v = v).
  { intros v [H1%Z.leb_le H2%Z.ltb_lt]%andb_true_iff. by apply int32_id. }
  unfold outcome. split; [|split].
  - unfold exec_add. st_step Ea. st_step Eb. rewrite add_test by done.
    destruct (fits32 (a + b)) eqn:E; cbn [negb]; [|done].
    by rewrite (Hfit _ E), (st_bind_Ok _ _ _ _ _ (set_reg_eq m (rd i) _ Hwf (H40 _ Hd))).
  - unfold exec_sub. st_step Ea. st_step Eb. rewrite sub_test by done.
    destruct (fits32 (a - b)) eqn:E; cbn [negb]; [|done].
    by rewrite (Hfit _ E), (st_bind_Ok _ _ _ _ _ (set_reg_eq m (rd i) _ Hwf (H40 _ Hd))).
  - unfold exec_addi. st_step Ea. rewrite addi_test by done.
    destruct (fits32 (a + int32 (extra i))) eqn:E; cbn [negb]; [|done].
    assert (int32 (a + extra i) = a + int32 (extra i)) as ->.
    { rewrite <- (Hfit _ E). destruct (int32_cong (extra i)) as [k ->]. unfold int32.
      replace (a + (extra i + k * 4294967296) + 2147483648)
        with (a + extra i + 2147483648 + k * 4294967296) by lia.
      by rewrite Z.mod_add. }
    by rewrite (st_bind_Ok _ _ _ _ _ (set_reg_eq m (rt i) _ Hwf (H40 _ Ht))).
Qed.

(** [ADD r3, r1, r2] with r1 = 2^31 - 1 and r2 = 1. *)
Definition full_regs : Machine :=
  set_registers (<[1%nat := 2147483647]> (<[2%nat := 1]> (replicate 40 0))) one_page.

Lemma full_regs_wf : machine_wf full_regs.
Proof.
  split; simpl; try done.
  - by repeat constructor.
  - exists 0. done.
  - split; [done|]. by repeat constructor.
Qed.

Lemma overflow_exact_witness :
  let i := mkInstruction 0 OP_ADD 1 2 3 1 in
  exec_add i 4 full_regs = Ok (Raise OverflowException 0, full_regs).
Proof.
  intros i. destruct (overflow_exact full_regs i 4 2147483647 1) as [E _];
    [apply full_regs_wf | done | done | done | reflexivity | reflexivity |].
  exact E.
Defined.
End Overflow.

(** ** Unaligned accesses *)
Section Unaligned.
(** The four bytes of a word in memory order. *)
Definition bytes4 (w : Z) : list Z := le_bytes 4 w.

Definition byte (w : Z) (k : Z) : Z := Z.land (Z.shiftr w (8 * k)) 255.

Lemma bytes4_eq w : bytes4 w = [byte w 0; byte w 1; byte w 2; byte w 3].
Proof.
  unfold bytes4, byte. simpl. change 255 with (Z.ones 8).
  rewrite !Z.land_ones, !Z.shiftr_div_pow2 by lia.
  change (2 ^ (8 * 0)) with 1. change (2 ^ (8 * 1)) with 256.
  change (2 ^ (8 * 2)) with (256 * 256). change (2 ^ (8 * 3)) with (256 * 256 * 256). rewrite Z.div_1_r, <- !Z.div_div by lia. done.
Qed.

Lemma testbit_int32 z j : 0 ≤ j < 32 → Z.testbit (int32 z) j = Z.testbit z j.
Proof.
  intros Hj. rewrite <- (Z.mod_pow2_bits_low (int32 z) 32 j) by lia.
  rewrite <- (Z.mod_pow2_bits_low z 32 j) by lia. change (2 ^ 32) with 4294967296.
  fold (uint32 (int32 z)) (uint32 z).
  by rewrite uint32_int32.
Qed.

Lemma testbit_byte w k j :
  0 ≤ k → 0 ≤ j → Z.testbit (byte w k) j = (j <? 8) && Z.testbit w (8 * k + j).
Proof.
  intros Hk Hj. unfold byte. change 255 with (Z.ones 8). rewrite Z.land_spec, Z.shiftr_spec by done.
  destruct (Z.ltb_spec j 8).
  - rewrite Z.ones_spec_low by lia. rewrite andb_true_r. cbn [andb]. f_equal. lia.
  - rewrite Z.ones_spec_high by lia. by rewrite andb_false_r.
Qed.

Lemma list4_ext {A} (a b c d a' b' c' d' : A) :
  a = a' → b = b' → c = c' → d = d' → [a; b; c; d] = [a'; b'; c'; d'].
Proof. by intros -> -> -> ->. Qed.

(** Two bytes are equal when their eight bits are. *)
Lemma byte_ext w1 k1 w2 k2 :
  0 ≤ k1 → 0 ≤ k2 →
  (∀ j, j ∈ [0; 1; 2; 3; 4; 5; 6; 7] → Z.testbit w1 (8 * k1 + j) = Z.testbit w2 (8 * k2 + j)) →
  byte w1 k1 = byte w2 k2.
Proof.
  intros H1 H2 Hb. apply Z.bits_inj'. intros j Hj. rewrite !testbit_byte by done.
  destruct (Z.ltb_spec j 8); [|done]. simpl. apply Hb.
  assert (j = 0 ∨ j = 1 ∨ j = 2 ∨ j = 3 ∨ j = 4 ∨ j = 5 ∨ j = 6 ∨ j = 7) as Hc by lia.
  repeat destruct Hc as [-> | Hc]; subst; set_solver.
Qed.
End Unaligned.

(** Compare two bytes made of words by masks and shifts. *)
Ltac solve_byte :=
  apply byte_ext; [lia | lia |];
  let j := fresh "j" in let Hj := fresh "Hj" in
  intros j Hj;
  repeat (apply elem_of_cons in Hj as [-> | Hj];
    [repeat (rewrite ?testbit_int32, ?Z.lor_spec, ?Z.land_spec, ?Z.shiftr_spec, ?Z.shiftl_spec by lia);
     cbn -[Z.testbit]; rewrite ?Z.testbit_neg_r by lia;
     repeat match goal with |- context [Z.testbit (Zpos ?p) ?k] =>
       let b := eval vm_compute in (Z.testbit (Zpos p) k) in change (Z.testbit (Zpos p) k) with b end;
     rewrite ?andb_true_r, ?andb_false_r, ?orb_false_r, ?orb_false_l; reflexivity|]);
  by apply not_elem_of_nil in Hj.

Section UnalignedFacts.
Lemma lwr_merge_bytes old w off :
  0 ≤ off < 4 →
  bytes4 (lwr_merge old w off) =
    drop (Z.to_nat off) (bytes4 w) ++ drop (4 - Z.to_nat off) (bytes4 old).
Proof.
  intros Ho. rewrite !bytes4_eq. unfold lwr_merge.
  assert (off = 0 ∨ off = 1 ∨ off = 2 ∨ off = 3) as [-> | [-> | [-> | -> ] ] ] by lia;
    cbn [Z.eqb Pos.eqb]; simpl; apply list4_ext; first [reflexivity | solve_byte].
Qed.

Lemma swr_merge_bytes w r off :
  0 ≤ off < 4 →
  bytes4 (swr_merge w r off) = take (Z.to_nat off) (bytes4 w) ++ take (4 - Z.to_nat off) (bytes4 r).
Proof.
  intros Ho. rewrite !bytes4_eq. unfold swr_merge.
  assert (off = 0 ∨ off = 1 ∨ off = 2 ∨ off = 3) as [-> | [-> | [-> | -> ] ] ] by lia;
    cbn [Z.eqb Pos.eqb]; simpl; apply list4_ext; first [reflexivity | solve_byte].
Qed.

Lemma swl_merge_bytes w r off :
  0 ≤ off < 4 →
  bytes4 (swl_merge w r off) =
    drop (3 - Z.to_nat off) (bytes4 r) ++ drop (S (Z.to_nat off)) (bytes4 w).
Proof.
  intros Ho. rewrite !bytes4_eq. unfold swl_merge.
  assert (off = 0 ∨ off = 1 ∨ off = 2 ∨ off = 3) as [-> | [-> | [-> | -> ] ] ] by lia;
    cbn [Z.eqb Pos.eqb]; simpl; apply list4_ext; first [reflexivity | solve_byte].
Qed.

(** How many low bytes of the register LWL keeps: at the offsets 0 and 2 it is not
    [3 - off], what the architecture (and SWL) has. *)
Definition lwl_kept (off : Z) : nat :=
  if off =? 0 then 1 else if off =? 1 then 2 else if off =? 2 then 3 else 0.

Lemma lwl_merge_bytes old w off :
  0 ≤ off < 4 →
  bytes4 (lwl_merge old w off) =
    take (lwl_kept off) (bytes4 old) ++ take (4 - lwl_kept off) (bytes4 w).
Proof.
  intros Ho. rewrite !bytes4_eq. unfold lwl_merge, lwl_kept.
  assert (off = 0 ∨ off = 1 ∨ off = 2 ∨ off = 3) as [-> | [-> | [-> | -> ] ] ] by lia;
    cbn [Z.eqb Pos.eqb]; simpl; apply list4_ext; first [reflexivity | solve_byte].
Qed.

(** SWR at an address and SWL three bytes further store a register at an
    unaligned address: the four bytes from offset [off] on, across the two words, are
    the bytes of the register, and the other four are kept. *)
Theorem unaligned_store (w0 w1 r off : Z) :
  0 < off < 4 →
  bytes4 (swr_merge w0 r off) ++ bytes4 (swl_merge w1 r (off - 1)) =
    splice (bytes4 w0 ++ bytes4 w1) (Z.to_nat off) (bytes4 r).
Proof.
  intros Ho. rewrite swr_merge_bytes, swl_merge_bytes by lia. rewrite !bytes4_eq. unfold splice.
  assert (off = 1 ∨ off = 2 ∨ off = 3) as [-> | [-> | -> ] ] by lia; reflexivity.
Qed.

Lemma unaligned_store_witness :
  bytes4 (swr_merge 0x03020100 0x7d7c7b7a 3) ++ bytes4 (swl_merge 0x07060504 0x7d7c7b7a 2) =
    [0; 1; 2; 0x7a; 0x7b; 0x7c; 0x7d; 7].
Proof. etrans; [apply (unaligned_store 0x03020100 0x07060504 0x7d7c7b7a 3); lia | reflexivity]. Defined.

(** C35. The mirror pair of loads does not read an unaligned word back: LWR and LWL
    give the four bytes at offset [off] only when [off] is even. At an odd offset LWL
    uses the shifts of the wrong case and the register gets other bytes of the two
    words, or keeps bytes it had. *)
Theorem unaligned_load (old w0 w1 off : Z) :
  0 < off < 4 →
  bytes4 (lwl_merge (lwr_merge old w0 off) w1 (off - 1)) =
    if off =? 2 then slice (bytes4 w0 ++ bytes4 w1) 2 4
    else if off =? 1 then [byte w0 1; byte w1 0; byte w1 1; byte w1 2]
    else [byte w0 3; byte old 1; byte old 2; byte w1 0].
Proof.
  intros Ho. rewrite lwl_merge_bytes, lwr_merge_bytes by lia. rewrite !bytes4_eq. unfold slice.
  assert (off = 1 ∨ off = 2 ∨ off = 3) as [-> | [-> | -> ] ] by lia; reflexivity.
Qed.

Lemma unaligned_load_witness :
  bytes4 (lwl_merge (lwr_merge 0 0x03020100 1) 0x07060504 0) = [1; 4; 5; 6] ∧
  slice (bytes4 0x03020100 ++ bytes4 0x07060504) 1 4 = [1; 2; 3; 4].
Proof.
  split; [|reflexivity]. etrans; [apply (unaligned_load 0 0x03020100 0x07060504 1); lia | reflexivity].
Defined.
End UnalignedFacts.

(** ** Disassembly *)
Section Disassembly.
(** The mnemonic of an operation. *)
Definition shouldnt_happen : String.string := "Shouldn't happen".

Lemma opStrings_ok o :
  executable o = true →
  ∃ str, arr_get opStrings (opcode_num o) = Ok str ∧ op_string str ≠ shouldnt_happen ∧
    length (op_args str) = 3%nat ∧ (opcode_num o <=? MaxOpcode) = true.
Proof. destruct o; try discriminate; intros _; (eexists; split; [reflexivity|]; done). Qed.

(** C39. Tracing covers whatever is fetched: every word decodes, and the decoded
    instruction has a line in the table of the debugger, with a mnemonic and three
    arguments; the assertion on the operation code holds. *)
Theorem every_word_disassembles (v : Z) :
  is_uint32 v →
  ∃ i line, Decode v = Ok i ∧ disassemble i = Ok line ∧ line.1 ≠ shouldnt_happen ∧
    length line.2 = 3%nat.
Proof.
  intros [Hv _]. destruct (Decode_ok v Hv) as (i & Hd & _ & He & _).
  destruct (opStrings_ok _ He) as (str & Es & Hne & Hl & Hmax).
  exists i, (op_string str, (λ r, TypeToReg r i) <$> op_args str). split; [exact Hd|].
  unfold disassemble. rewrite Es. cbn [res_bind]. rewrite Hmax. cbn [ASSERT res_bind].
  split; [done|]. split; [done|]. cbn [snd]. by rewrite length_fmap.
Qed.

Lemma every_word_disassembles_witness :
  ∃ i line, Decode 0x00221820 = Ok i ∧ disassemble i = Ok line ∧ line.1 ≠ shouldnt_happen ∧
    length line.2 = 3%nat.
Proof. apply (every_word_disassembles 0x00221820). unfold is_uint32. lia. Defined.
End Disassembly.
