(* ===== verification/Execute.v ===== *)
(** * The stand-alone interpreter (bin/execute.c, bin/int.h, bin/instr.h, bin/encode.h)

    A second simulator of the same processor, one C [switch] over instruction words, with
    a flat memory of 16 megabytes and no delayed loads. Its instructions are compared with
    those of the kernel's machine. What it does for a system call is a parameter, which
    Interp.v gives. *)
From S2P Require Import Prelude Words Machine MipsSim MipsArith.

Module Execute.

(** ** Instruction words (instr.h) *)

Definition rd (i : Z) : Z := Z.land (Z.shiftr i 11) 0x1f.
Definition rt (i : Z) : Z := Z.land (Z.shiftr i 16) 0x1f.
Definition rs (i : Z) : Z := Z.land (Z.shiftr i 21) 0x1f.
Definition shamt (i : Z) : Z := Z.land (Z.shiftr i 6) 0x1f.
Definition immed (i : Z) : Z := if negb (Z.land i 0x8000 =? 0) then Z.lor i (-0x8000) else Z.land i 0x7fff.

(** ** Operation codes (encode.h) *)

Definition I_SPECIAL : Z := 0.
Definition I_BCOND : Z := 1.
Definition I_J : Z := 2.
Definition I_JAL : Z := 3.
Definition I_BEQ : Z := 4.
Definition I_BNE : Z := 5.
Definition I_BLEZ : Z := 6.
Definition I_BGTZ : Z := 7.
Definition I_ADDI : Z := 8.
Definition I_ADDIU : Z := 9.
Definition I_SLTI : Z := 10.
Definition I_SLTIU : Z := 11.
Definition I_ANDI : Z := 12.
Definition I_ORI : Z := 13.
Definition I_XORI : Z := 14.
Definition I_LUI : Z := 15.
Definition I_COP : list Z := [16; 17; 18; 19].
Definition I_LB : Z := 32.
Definition I_LH : Z := 33.
Definition I_LWL : Z := 34.
Definition I_LW : Z := 35.
Definition I_LBU : Z := 36.
Definition I_LHU : Z := 37.
Definition I_LWR : Z := 38.
Definition I_SB : Z := 40.
Definition I_SH : Z := 41.
Definition I_SWL : Z := 42.
Definition I_SW : Z := 43.
Definition I_SWR : Z := 46.
Definition I_LWC : list Z := [48; 49; 50; 51].
Definition I_SWC : list Z := [56; 57; 58; 59].

Definition I_SLL : Z := 0.
Definition I_SRL : Z := 2.
Definition I_SRA : Z := 3.
Definition I_SLLV : Z := 4.
Definition I_SRLV : Z := 6.
Definition I_SRAV : Z := 7.
Definition I_JR : Z := 8.
Definition I_JALR : Z := 9.
Definition I_SYSCALL : Z := 12.
Definition I_BREAK : Z := 13.
Definition I_MFHI : Z := 16.
Definition I_MTHI : Z := 17.
Definition I_MFLO : Z := 18.
Definition I_MTLO : Z := 19.
Definition I_MULT : Z := 24.
Definition I_MULTU : Z := 25.
Definition I_DIV : Z := 26.
Definition I_DIVU : Z := 27.
Definition I_ADD : Z := 32.
Definition I_ADDU : Z := 33.
Definition I_SUB : Z := 34.
Definition I_SUBU : Z := 35.
Definition I_AND : Z := 36.
Definition I_OR : Z := 37.
Definition I_XOR : Z := 38.
Definition I_NOR : Z := 39.
Definition I_SLT : Z := 42.
Definition I_SLTU : Z := 43.

Definition I_BLTZ : Z := 0.
Definition I_BGEZ : Z := 1.
Definition I_BLTZAL : Z := 16.
Definition I_BGEZAL : Z := 17.

(** ** The processor and its memory (int.h) *)

Definition MEMSIZE : Z := 16777216.
Definition memoffset : Z := 0x10000000.

(** The static array [mem] starts as zeros; bytes absent from the map are zero. *)
Record Cpu := mkCpu { Reg : list Z; HI : Z; LO : Z; mem : gmap Z Z; pc : Z; npc : Z }.

Definition set_Reg r c : Cpu := mkCpu r (HI c) (LO c) (mem c) (pc c) (npc c).
Definition set_HI v c : Cpu := mkCpu (Reg c) v (LO c) (mem c) (pc c) (npc c).
Definition set_LO v c : Cpu := mkCpu (Reg c) (HI c) v (mem c) (pc c) (npc c).
Definition set_mem m c : Cpu := mkCpu (Reg c) (HI c) (LO c) m (pc c) (npc c).
Definition set_pc v c : Cpu := mkCpu (Reg c) (HI c) (LO c) (mem c) v (npc c).
Definition set_npc v c : Cpu := mkCpu (Reg c) (HI c) (LO c) (mem c) (pc c) v.

Definition upd (f : Cpu → Cpu) : ST Cpu unit := λ c, Ok (tt, f c).
Definition get_reg (i : Z) : ST Cpu Z := λ c, let? v := arr_get (Reg c) i in Ok (v, c).
Definition put_reg (i v : Z) : ST Cpu unit := λ c, let? r := arr_set (Reg c) i v in Ok (tt, set_Reg r c).

(** The bytes at an address of the program; the host is little endian and reads words at
    any address. *)
Definition fetch_bytes (addr : Z) (n : nat) : ST Cpu (list Z) := λ c,
  let a := addr - memoffset in
  if (0 <=? a) && (a + Z.of_nat n <=? MEMSIZE)
  then Ok ((λ i, default 0 (mem c !! i)) <$> seqZ a (Z.of_nat n), c) else Fail MemoryFault.
Definition store_bytes (addr : Z) (bs : list Z) : ST Cpu unit := λ c,
  let a := addr - memoffset in
  if (0 <=? a) && (a + Z.of_nat (length bs) <=? MEMSIZE)
  then Ok (tt, set_mem (list_to_map (zip (seqZ a (Z.of_nat (length bs))) bs) ∪ mem c) c) else Fail MemoryFault.

Definition int16 (z : Z) : Z := (z + 32768) mod 65536 - 32768.

Definition fetch (addr : Z) : ST Cpu Z := let* b := fetch_bytes addr 4 in st_ret (int32 (le_val b)).
Definition ifetch (addr : Z) : ST Cpu Z := fetch addr.
Definition sfetch (addr : Z) : ST Cpu Z := let* b := fetch_bytes addr 2 in st_ret (int16 (le_val b)).
Definition usfetch (addr : Z) : ST Cpu Z := let* b := fetch_bytes addr 2 in st_ret (le_val b).
Definition cfetch (addr : Z) : ST Cpu Z := let* b := fetch_bytes addr 1 in st_ret (int8 (le_val b)).
Definition ucfetch (addr : Z) : ST Cpu Z := let* b := fetch_bytes addr 1 in st_ret (le_val b).
Definition store (addr i : Z) : ST Cpu unit := store_bytes addr (le_bytes 4 i).
Definition sstore (addr i : Z) : ST Cpu unit := store_bytes addr (le_bytes 2 i).
Definition cstore (addr i : Z) : ST Cpu unit := store_bytes addr (le_bytes 1 i).

(** ** The switch (runprogram) *)

Section Switch.
Context (system_trap system_break : ST Cpu unit).

(** u: print a line and [exit(2)]. *)
Definition u : ST Cpu unit := st_fail (Exited 2).

(** [Reg[rd] = f (Reg[rs], Reg[rt])], [Reg[rt] = f (Reg[rs])] *)
Definition to_rd (instr : Z) (f : Z → Z → Z) : ST Cpu unit :=
  let* a := get_reg (rs instr) in
  let* b := get_reg (rt instr) in
  put_reg (rd instr) (f a b).
Definition to_rt (instr : Z) (f : Z → Z) : ST Cpu unit :=
  let* a := get_reg (rs instr) in
  put_reg (rt instr) (f a).

(** A shift by a register: a count that is not one of 0 to 31 is undefined. *)
Definition shift_v (instr : Z) (f : Z → Z → Z) : ST Cpu unit :=
  let* a := get_reg (rs instr) in
  if (0 <=? a) && (a <? 32) then to_rd instr f else st_fail ArithFault.

(** [t1h*t2h+((t1h*t2l)>>16)+((t2h*t1l)>>16)] *)
Definition mult_HI (t1 t2 : Z) : Z :=
  let t1l := Z.land t1 0xffff in
  let t1h := Z.land (Z.shiftr t1 16) 0xffff in
  let t2l := Z.land t2 0xffff in
  let t2h := Z.land (Z.shiftr t2 16) 0xffff in
  int32 (int32 (t1h * t2h) + Z.shiftr (int32 (t1h * t2l)) 16 + Z.shiftr (int32 (t2h * t1l)) 16).

(** case I_MULT; the result is HI and LO. *)
Definition mult_signed (t1 t2 : Z) : Z * Z :=
  let neg := xorb (t1 <? 0) (t2 <? 0) in
  let t1 := if t1 <? 0 then int32 (- t1) else t1 in
  let t2 := if t2 <? 0 then int32 (- t2) else t2 in
  let LO := int32 (t1 * t2) in
  let HI := mult_HI t1 t2 in
  if neg then
    let LO := int32 (Z.lnot LO + 1) in
    let HI := Z.lnot HI in
    (if LO =? 0 then int32 (HI + 1) else HI, LO)
  else (HI, LO).

Definition put_hi_lo (r : Z * Z) : ST Cpu unit := upd (λ c, set_HI r.1 (set_LO r.2 c)).

(** The host traps on a zero divisor and on the quotient that is not an [int]. *)
Definition div_signed (a b : Z) : ST Cpu unit :=
  if (b =? 0) || ((a =? -2147483648) && (b =? -1)) then st_fail ArithFault
  else put_hi_lo (Z.rem a b, Z.quot a b).
Definition div_unsigned (a b : Z) : ST Cpu unit :=
  if uint32 b =? 0 then st_fail ArithFault
  else put_hi_lo (int32 (uint32 a mod uint32 b), int32 (uint32 a / uint32 b)).

Definition special (xpc instr : Z) : ST Cpu unit :=
  let funct := Z.land instr 0x3f in
  if funct =? I_SLL then to_rd instr (λ _ b, int32 (Z.shiftl b (shamt instr)))
  else if funct =? I_SRL then to_rd instr (λ _ b, int32 (Z.shiftr (uint32 b) (shamt instr)))
  else if funct =? I_SRA then to_rd instr (λ _ b, Z.shiftr b (shamt instr))
  else if funct =? I_SLLV then shift_v instr (λ a b, int32 (Z.shiftl b a))
  else if funct =? I_SRLV then shift_v instr (λ a b, int32 (Z.shiftr (uint32 b) a))
  else if funct =? I_SRAV then shift_v instr (λ a b, Z.shiftr b a)
  else if funct =? I_JR then let* a := get_reg (rs instr) in upd (set_npc a)
  else if funct =? I_JALR then
    let* a := get_reg (rs instr) in
    let* _ := upd (set_npc a) in
    put_reg (rd instr) (int32 (xpc + 8))
  else if funct =? I_SYSCALL then system_trap
  else if funct =? I_BREAK then system_break
  else if funct =? I_MFHI then λ c, put_reg (rd instr) (HI c) c
  else if funct =? I_MTHI then let* a := get_reg (rs instr) in upd (set_HI a)
  else if funct =? I_MFLO then λ c, put_reg (rd instr) (LO c) c
  else if funct =? I_MTLO then let* a := get_reg (rs instr) in upd (set_LO a)
  else if funct =? I_MULT then
    let* t1 := get_reg (rs instr) in let* t2 := get_reg (rt instr) in put_hi_lo (mult_signed t1 t2)
  else if funct =? I_MULTU then
    let* t1 := get_reg (rs instr) in let* t2 := get_reg (rt instr) in put_hi_lo (mult_HI t1 t2, int32 (t1 * t2))
  else if funct =? I_DIV then
    let* a := get_reg (rs instr) in let* b := get_reg (rt instr) in div_signed a b
  else if funct =? I_DIVU then
    let* a := get_reg (rs instr) in let* b := get_reg (rt instr) in div_unsigned a b
  else if (funct =? I_ADD) || (funct =? I_ADDU) then to_rd instr (λ a b, int32 (a + b))
  else if (funct =? I_SUB) || (funct =? I_SUBU) then to_rd instr (λ a b, int32 (a - b))
  else if funct =? I_AND then to_rd instr Z.land
  else if funct =? I_OR then to_rd instr Z.lor
  else if funct =? I_XOR then to_rd instr Z.lxor
  else if funct =? I_NOR then to_rd instr (λ a b, Z.lnot (Z.lor a b))
  else if funct =? I_SLT then to_rd instr (λ a b, if a <? b then 1 else 0)
  else if funct =? I_SLTU then to_rd instr (λ a b, if uint32 a <? uint32 b then 1 else 0)
  else u.

(** [if (test) npc = xpc + 4 + (immed(instr) << 2);] *)
Definition branch_if (xpc instr : Z) (test : Z → Z → bool) : ST Cpu unit :=
  let* a := get_reg (rs instr) in
  let* b := get_reg (rt instr) in
  if test a b then upd (set_npc (int32 (xpc + 4 + Z.shiftl (immed instr) 2))) else st_ret tt.

(** [if (test) npc = ...] on one register *)
Definition bcond_if (xpc instr : Z) (test : Z → bool) : ST Cpu unit :=
  let* a := get_reg (rs instr) in
  if test a then upd (set_npc (int32 (xpc + 4 + Z.shiftl (immed instr) 2))) else st_ret tt.

Definition bcond (xpc instr : Z) : ST Cpu unit :=
  let op := rt instr in
  if op =? I_BLTZ then bcond_if xpc instr (λ a, a <? 0)
  else if op =? I_BGEZ then bcond_if xpc instr (λ a, a >=? 0)
  else if op =? I_BLTZAL then
    let* _ := put_reg 31 (int32 (xpc + 8)) in bcond_if xpc instr (λ a, a <? 0)
  else if op =? I_BGEZAL then
    let* _ := put_reg 31 (int32 (xpc + 8)) in bcond_if xpc instr (λ a, a >=? 0)
  else u.

(** [npc = (xpc & 0xf0000000) | ((instr & 0x03ffffff) << 2)] *)
Definition jump_to (xpc instr : Z) : ST Cpu unit :=
  upd (set_npc (int32 (Z.lor (Z.land xpc 0xf0000000) (Z.shiftl (Z.land instr 0x03ffffff) 2)))).

(** [Reg[rs(instr)] + immed(instr)] *)
Definition ea (instr : Z) : ST Cpu Z := let* a := get_reg (rs instr) in st_ret (int32 (a + immed instr)).
Definition load_with (instr : Z) (f : Z → ST Cpu Z) : ST Cpu unit :=
  let* i := ea instr in let* v := f i in put_reg (rt instr) v.

(** LWL and LWR; [-1] is an [int], so the shift to the right leaves it as it is. *)
Definition load_left (instr : Z) : ST Cpu unit :=
  let* i := ea instr in
  let* v := get_reg (rt instr) in
  let* _ := put_reg (rt instr) (Z.land v (Z.shiftr (-1) (8 * Z.land (- i) 3))) in
  let* w := fetch (int32 (Z.land i 0xfffffffc)) in
  let* v := get_reg (rt instr) in
  put_reg (rt instr) (Z.lor v (int32 (Z.shiftl w (8 * Z.land i 3)))).
Definition load_right (instr : Z) : ST Cpu unit :=
  let* i := ea instr in
  let* v := get_reg (rt instr) in
  let* _ := put_reg (rt instr) (Z.land v (int32 (Z.shiftl (-1) (8 * Z.land i 3)))) in
  let* _ := (if Z.land i 3 =? 0 then put_reg (rt instr) 0 else st_ret tt) in
  let* w := fetch (int32 (Z.land i 0xfffffffc)) in
  let* v := get_reg (rt instr) in
  put_reg (rt instr) (Z.lor v (Z.shiftr w (8 * Z.land (- i) 3))).

Definition memory_access (instr op : Z) : ST Cpu unit :=
  if op =? I_LB then load_with instr cfetch
  else if op =? I_LH then load_with instr sfetch
  else if op =? I_LWL then load_left instr
  else if op =? I_LW then load_with instr fetch
  else if op =? I_LBU then load_with instr ucfetch
  else if op =? I_LHU then load_with instr usfetch
  else if op =? I_LWR then load_right instr
  else if op =? I_SB then let* i := ea instr in let* v := get_reg (rt instr) in cstore i v
  else if op =? I_SH then let* i := ea instr in let* v := get_reg (rt instr) in sstore i v
  else if op =? I_SW then let* i := ea instr in let* v := get_reg (rt instr) in store i v
  else u.       (* SWL, SWR, the coprocessors and what is no operation: [exit(2)] *)

Definition switch (xpc instr : Z) : ST Cpu unit :=
  let op := Z.land (Z.shiftr instr 26) 0x3f in
  if op =? I_SPECIAL then special xpc instr
  else if op =? I_BCOND then bcond xpc instr
  else if op =? I_J then jump_to xpc instr
  else if op =? I_JAL then let* _ := put_reg 31 (int32 (xpc + 8)) in jump_to xpc instr
  else if op =? I_BEQ then branch_if xpc instr (λ a b, a =? b)
  else if op =? I_BNE then branch_if xpc instr (λ a b, negb (a =? b))
  else if op =? I_BLEZ then bcond_if xpc instr (λ a, a <=? 0)
  else if op =? I_BGTZ then bcond_if xpc instr (λ a, a >? 0)
  else if op =? I_ADDI then to_rt instr (λ a, int32 (a + immed instr))
  else if op =? I_ADDIU then to_rt instr (λ a, int32 (a + immed instr))
  else if op =? I_SLTI then to_rt instr (λ a, if a <? immed instr then 1 else 0)
  else if op =? I_SLTIU then to_rt instr (λ a, if uint32 a <? uint32 (immed instr) then 1 else 0)
  else if op =? I_ANDI then to_rt instr (λ a, Z.land a (immed instr))
  else if op =? I_ORI then to_rt instr (λ a, Z.lor a (immed instr))
  else if op =? I_XORI then to_rt instr (λ a, Z.lxor a (immed instr))
  else if op =? I_LUI then put_reg (rt instr) (int32 (Z.shiftl instr 16))
  else memory_access instr op.

(** One turn of the loop of runprogram, without the trace. *)
Definition turn : ST Cpu unit := λ c,
  let xpc := pc c in
  let c := set_npc (int32 (npc c + 4)) (set_pc (npc c) c) in
  (let* instr := ifetch xpc in
   let* _ := put_reg 0 0 in
   if negb (instr =? 0) then switch xpc instr else st_ret tt) c.

Fixpoint run (fuel : nat) : ST Cpu unit :=
  match fuel with
  | 0%nat => st_fail OutOfFuel
  | S fuel => let* _ := turn in run fuel
  end.
End Switch.

(** ** The start of runprogram *)

(** The copies of the arguments; each string comes without its NUL. *)
Fixpoint copy_args (argv : list (list Z)) (aci ai : Z) : ST Cpu unit :=
  match argv with
  | [] => st_ret tt
  | s :: argv =>
      let* _ := store_bytes ai (s ++ [0]) in
      let* _ := store aci ai in
      copy_args argv (aci + 4) (ai + Z.of_nat (length s) + 1)
  end.

Definition runprogram_start (startpc : Z) (argv : list (list Z)) : ST Cpu unit :=
  let* _ := upd (set_pc startpc) in
  let* _ := upd (set_npc (int32 (startpc + 4))) in
  let i := MEMSIZE - 1024 + memoffset in
  let* _ := put_reg 29 i in
  let* _ := store i (Z.of_nat (length argv)) in
  copy_args argv (i + 4) (i + 4 + 32).

(** ** ilog2, the bit length of an unsigned *)
Definition ilog2 (i : Z) : Z :=
  if i =? 0 then 0
  else
    let step mask k '(i, l) := let j := Z.land i mask in if negb (j =? 0) then (j, l + k) else (i, l) in
    (step 0xaaaaaaaa 1 (step 0xcccccccc 2 (step 0xf0f0f0f0 4 (step 0xff00ff00 8 (step 0xffff0000 16 (i, 1)))))).2.

(** ** The two processors side by side *)

(** The same registers; the interpreter's next PC is what the machine would advance to. *)
Record related (c : Cpu) (m : Machine) : Prop := {
  re_reg i : (i < 32)%nat → Reg c !! i = registers m !! i;
  re_len : length (Reg c) = 32%nat;
  re_hi : registers m !! 32%nat = Some (HI c);
  re_lo : registers m !! 33%nat = Some (LO c);
}.

(** The instructions on which the two agree, given the registers and the PC, not counting
    loads and stores: all but the multiplications, BREAK, the traps on overflow, the
    logical immediates that are negative as 16-bit numbers, shifts by a register that
    holds no count, divisions by zero, and a jump that links to the register it jumps
    through. *)
Definition special_agrees (R : Z → Z) (instr : Z) : bool :=
  let funct := Z.land instr 0x3f in
  let a := R (rs instr) in
  let b := R (rt instr) in
  existsb (Z.eqb funct)
    [I_SLL; I_SRL; I_SRA; I_JR; I_MFHI; I_MTHI; I_MFLO; I_MTLO; I_ADDU; I_SUBU; I_AND; I_OR; I_XOR; I_NOR; I_SLT; I_SLTU] ||
  existsb (Z.eqb funct) [I_SLLV; I_SRLV; I_SRAV] && (0 <=? a) && (a <? 32) ||
  (funct =? I_JALR) && negb (rd instr =? rs instr) ||
  (funct =? I_DIV) && negb (b =? 0) && negb ((a =? -2147483648) && (b =? -1)) ||
  (funct =? I_DIVU) && negb (b =? 0) ||
  (funct =? I_ADD) && (int32 (a + b) =? a + b) ||
  (funct =? I_SUB) && (int32 (a - b) =? a - b).

Definition agrees (R : Z → Z) (xpc instr : Z) : bool :=
  let op := Z.land (Z.shiftr instr 26) 0x3f in
  let a := R (rs instr) in
  (op =? I_SPECIAL) && special_agrees R instr ||
  (op =? I_BCOND) && existsb (Z.eqb (rt instr)) [I_BLTZ; I_BGEZ; I_BLTZAL; I_BGEZAL] ||
  existsb (Z.eqb op) [I_J; I_JAL] && (Z.land (int32 (xpc + 8)) 0xf0000000 =? Z.land xpc 0xf0000000) ||
  existsb (Z.eqb op) [I_BEQ; I_BNE; I_BLEZ; I_BGTZ; I_ADDIU; I_SLTI; I_SLTIU; I_LUI] ||
  (op =? I_ADDI) && (int32 (a + immed instr) =? a + immed instr) ||
  existsb (Z.eqb op) [I_ANDI; I_ORI; I_XORI] && (0 <=? immed instr).

(** *** Fields *)

Lemma field_int32 w k n : 0 ≤ k → 0 ≤ n → k + n ≤ 32 → Z.land (Z.shiftr (int32 w) k) (Z.ones n) = Z.land (Z.shiftr w k) (Z.ones n).
Proof.
  intros Hk Hn Hkn. apply Z.bits_inj'. intros j Hj. rewrite !Z.land_spec, !Z.shiftr_spec by done.
  destruct (decide (j < n)) as [H|H]; [by rewrite testbit_int32 by lia|].
  by rewrite Z.ones_spec_high, !andb_false_r by lia.
Qed.

Lemma low_int32 w n : 0 ≤ n ≤ 32 → Z.land (int32 w) (Z.ones n) = Z.land w (Z.ones n).
Proof. intros Hn. pose proof (field_int32 w 0 n) as H. rewrite !Z.shiftr_0_r in H. apply H; lia. Qed.

Lemma immed_eq i : immed i = if Z.land i 0xffff <? 0x8000 then Z.land i 0xffff else Z.land i 0xffff - 0x10000.
Proof.
  unfold immed. change (Z.land i 0x8000) with (Z.land i (2 ^ 15)). rewrite (land_pow2_testbit i 15) by done.
  change 0xffff with (Z.ones 16). change 0x7fff with (Z.ones 15).
  rewrite !Z.land_ones by done. rewrite Z.testbit_odd, Z.shiftr_div_pow2 by done.
  pose proof (Z.div_mod i (2 ^ 15) ltac:(lia)) as Hd. pose proof (Z.mod_pos_bound i (2 ^ 15) ltac:(lia)) as Hm.
  assert (H16 : i mod 2 ^ 16 = i mod 2 ^ 15 + 2 ^ 15 * ((i / 2 ^ 15) mod 2)).
  { change (2 ^ 16) with (2 ^ 15 * 2). rewrite Z.rem_mul_r by lia. done. }
  rewrite H16, Zmod_odd. destruct (Z.odd (i / 2 ^ 15)).
  - destruct (Z.ltb_spec (i mod 2 ^ 15 + 2 ^ 15 * 1) 0x8000); [lia|].
    change (-0x8000) with (Z.lnot (Z.ones 15)).
    assert (E : Z.lor i (Z.lnot (Z.ones 15)) = Z.lnot (Z.land (Z.lnot i) (Z.ones 15))) by (by rewrite Z.lnot_land, Z.lnot_involutive).
    rewrite E, Z.land_ones by done.
    assert (Hn : Z.lnot i mod 2 ^ 15 = 2 ^ 15 - 1 - i mod 2 ^ 15).
    { symmetry. apply (Z.mod_unique _ _ (- (i / 2 ^ 15) - 1)); [lia|]. unfold Z.lnot. lia. }
    rewrite Hn. unfold Z.lnot. lia.
  - destruct (Z.ltb_spec (i mod 2 ^ 15 + 2 ^ 15 * 0) 0x8000); lia.
Qed.

Lemma immed_range i : -0x8000 ≤ immed i < 0x8000.
Proof.
  rewrite immed_eq. pose proof (land_ones_range i 16 ltac:(done)) as H. change (Z.ones 16) with 0xffff in H.
  destruct (Z.ltb_spec (Z.land i 0xffff) 0x8000); lia.
Qed.

(** The machine keeps the immediate as an [unsigned]. *)
Lemma extra_immed w : decode_extra IFMT w = uint32 (immed (int32 w)).
Proof.
  rewrite immed_eq. change 0xffff with (Z.ones 16). rewrite low_int32 by done. unfold decode_extra.
  change 0xffff with (Z.ones 16). pose proof (land_ones_range w 16 ltac:(done)) as Hr. set (x := Z.land w (Z.ones 16)) in *.
  change (Z.land x 0x8000) with (Z.land x (2 ^ 15)). rewrite (land_pow2_testbit x 15) by done.
  rewrite Z.testbit_odd, Z.shiftr_div_pow2 by done.
  pose proof (Z.div_mod x (2 ^ 15) ltac:(lia)) as Hd. pose proof (Z.mod_pos_bound x (2 ^ 15) ltac:(lia)) as Hm.
  destruct (Z.ltb_spec x 0x8000).
  - rewrite Z.div_small by lia. cbn [Z.odd]. unfold uint32. by rewrite Z.mod_small by lia.
  - assert (Hq : x / 2 ^ 15 = 1) by (symmetry; apply (Z.div_unique _ _ _ (x - 2 ^ 15)); lia).
    rewrite Hq. cbn [Z.odd]. change 0xffff0000 with 4294901760. rewrite lor_high16 by lia. unfold uint32.
    apply (Z.mod_unique _ _ (-1)); lia.
Qed.

(** *** The state of both *)

Definition R (c : Cpu) (i : Z) : Z := default 0 (Reg c !! Z.to_nat i).

(** The machine is about to execute the instruction at [xpc]. *)
Record in_step (xpc : Z) (c : Cpu) (m : Machine) : Prop := {
  is_wf : machine_wf m;
  is_rel : related c m;
  is_next : registers m !! Z.to_nat NextPCReg = Some (int32 (xpc + 4));
}.

(** Both come to related states, the machine to advance to the PC of the interpreter. *)
Definition steps (x : ST Cpu unit) (y : ST Machine flow) (c : Cpu) (m : Machine) : Prop :=
  ∃ c' m', x c = Ok (tt, c') ∧ y m = Ok (Advance (npc c') 0 0, m') ∧ related c' m'.

Section Steps.
Context (xpc : Z).

Lemma reads c m n :
  in_step xpc c m → 0 ≤ n < 32 →
  get_reg n c = Ok (R c n, c) ∧ reg n m = Ok (R c n, m) ∧ is_int32 (R c n).
Proof.
  intros [Hwf [Hr _ _ _] _] Hn.
  destruct (reg_ok m n Hwf (regs_in n Hn)) as (v & E & Hv & Hi).
  assert (E' : Reg c !! Z.to_nat n = Some v) by (rewrite Hr by lia; done).
  unfold R. rewrite E'. cbn [default from_option id]. split; [|done].
  unfold get_reg. rewrite (arr_get_lookup _ _ v) by (done || lia). done.
Qed.

Lemma next_reads c m : in_step xpc c m → reg NextPCReg m = Ok (int32 (xpc + 4), m).
Proof. intros H. unfold reg. by rewrite (arr_get_lookup _ NextPCReg _ ltac:(done) (is_next _ _ _ H)). Qed.

Definition put (n v : Z) (c : Cpu) : Cpu := set_Reg (<[Z.to_nat n := v]> (Reg c)) c.
Definition put_m (n v : Z) (m : Machine) : Machine := set_registers (<[Z.to_nat n := v]> (registers m)) m.

Lemma writes c m n v :
  in_step xpc c m → 0 ≤ n < 32 → is_int32 v →
  put_reg n v c = Ok (tt, put n v c) ∧ set_reg n v m = Ok (tt, put_m n v m) ∧
  in_step xpc (put n v c) (put_m n v m).
Proof.
  intros [Hwf [Hr Hl Hh Ho] Hnx] Hn Hv. split; [|split].
  - unfold put_reg. by rewrite arr_set_in by lia.
  - by apply set_reg_eq, regs_in.
  - split.
    + apply set_reg_wf; [done | by apply regs_in | done |]. unfold LoadReg. lia.
    + split; cbn [Reg put set_Reg HI LO registers put_m set_registers].
      * intros i Hi. destruct (decide (i = Z.to_nat n)) as [->|Hne].
        { rewrite !list_lookup_insert_eq; [done| |lia]. rewrite (mw_len _ Hwf).
          change (Z.to_nat NumTotalRegs) with 40%nat. lia. }
        rewrite !list_lookup_insert_ne by done. by apply Hr.
      * by rewrite length_insert.
      * rewrite list_lookup_insert_ne by lia. done.
      * rewrite list_lookup_insert_ne by lia. done.
    + cbn [registers put_m set_registers]. rewrite list_lookup_insert_ne; [done|].
      change (Z.to_nat NextPCReg) with 35%nat. lia.
Qed.

(** The rules of the simulation, one for each primitive step. *)
Lemma steps_ret c m : in_step xpc c m → steps (st_ret tt) (st_ret (Advance (npc c) 0 0)) c m.
Proof. intros H. exists c, m. split; [done|]. split; [done | apply (is_rel _ _ _ H)]. Qed.

Lemma steps_npc c m a : in_step xpc c m → steps (upd (set_npc a)) (st_ret (Advance a 0 0)) c m.
Proof.
  intros [_ [? ? ? ?] _]. exists (set_npc a c), m. done.
Qed.

Lemma steps_read c m n k1 k2 :
  in_step xpc c m → 0 ≤ n < 32 →
  (is_int32 (R c n) → steps (k1 (R c n)) (k2 (R c n)) c m) →
  steps (st_bind (get_reg n) k1) (st_bind (reg n) k2) c m.
Proof.
  intros H Hn Hk. destruct (reads c m n H Hn) as (E1 & E2 & Hi). unfold steps.
  st_step E1. st_step E2. by apply Hk.
Qed.

Lemma steps_read_m c m n x k2 :
  in_step xpc c m → 0 ≤ n < 32 → steps x (k2 (R c n)) c m → steps x (st_bind (reg n) k2) c m.
Proof.
  intros H Hn Hk. destruct (reads c m n H Hn) as (_ & E2 & _). unfold steps. by st_step E2.
Qed.

Lemma steps_next c m x k2 :
  in_step xpc c m → steps x (k2 (int32 (xpc + 4))) c m → steps x (st_bind (reg NextPCReg) k2) c m.
Proof. intros H Hk. unfold steps. by st_step (next_reads c m H). Qed.

Lemma steps_write c m n v k1 k2 :
  in_step xpc c m → 0 ≤ n < 32 → is_int32 v →
  (in_step xpc (put n v c) (put_m n v m) → steps (k1 tt) (k2 tt) (put n v c) (put_m n v m)) →
  steps (st_bind (put_reg n v) k1) (st_bind (set_reg n v) k2) c m.
Proof.
  intros H Hn Hv Hk. destruct (writes c m n v H Hn Hv) as (E1 & E2 & H'). unfold steps.
  st_step E1. st_step E2. by apply Hk.
Qed.

(** A write that ends the interpreter's instruction. *)
Lemma steps_put c m n v :
  in_step xpc c m → 0 ≤ n < 32 → is_int32 v →
  steps (put_reg n v) (let* _ := set_reg n v in st_ret (Advance (npc c) 0 0)) c m.
Proof.
  intros H Hn Hv. destruct (writes c m n v H Hn Hv) as (E1 & E2 & H').
  exists (put n v c), (put_m n v m). st_step E2. split; [done|]. split; [done | apply (is_rel _ _ _ H')].
Qed.

Lemma steps_hi_lo c m hi lo :
  in_step xpc c m → steps (put_hi_lo (hi, lo)) (set_hi_lo hi lo (npc c)) c m.
Proof.
  intros [Hwf [Hr Hl Hh Ho] _]. pose proof (mw_len _ Hwf) as Hlen. change (Z.to_nat NumTotalRegs) with 40%nat in Hlen.
  unfold steps, set_hi_lo, put_hi_lo, upd, set_reg, st_bind, st_ret.
  rewrite arr_set_in by (rewrite Hlen; unfold LoReg; lia). cbn [res_bind registers set_registers].
  rewrite arr_set_in by (rewrite length_insert, Hlen; unfold HiReg; lia). cbn [res_bind].
  eexists _, _. split; [done|]. split; [done|]. split; cbn [Reg set_HI set_LO HI LO fst snd registers set_registers].
  - intros n Hn. change (Z.to_nat HiReg) with 32%nat. change (Z.to_nat LoReg) with 33%nat.
    rewrite !list_lookup_insert_ne by lia. by apply Hr.
  - done.
  - apply list_lookup_insert_eq. rewrite length_insert, Hlen. unfold HiReg. lia.
  - rewrite list_lookup_insert_ne by done. apply list_lookup_insert_eq. rewrite Hlen. unfold LoReg. lia.
Qed.

(** HI and LO are registers 32 and 33 of the machine. *)
Lemma steps_from_hi c m n :
  in_step xpc c m → 0 ≤ n < 32 → steps (λ c, put_reg n (HI c) c) (exec_move HiReg n (npc c)) c m.
Proof.
  intros H Hn. destruct (is_rel _ _ _ H) as [_ _ Hh _].
  assert (Hv : is_int32 (HI c)) by apply (Forall_lookup_1 _ _ _ _ (mw_int _ (is_wf _ _ _ H)) Hh).
  assert (E : reg HiReg m = Ok (HI c, m)) by (unfold reg; by rewrite (arr_get_lookup _ HiReg _ ltac:(done) Hh)).
  unfold steps, exec_move. st_step E. exact (steps_put c m n (HI c) H Hn Hv).
Qed.

Lemma steps_from_lo c m n :
  in_step xpc c m → 0 ≤ n < 32 → steps (λ c, put_reg n (LO c) c) (exec_move LoReg n (npc c)) c m.
Proof.
  intros H Hn. destruct (is_rel _ _ _ H) as [_ _ _ Ho].
  assert (Hv : is_int32 (LO c)) by apply (Forall_lookup_1 _ _ _ _ (mw_int _ (is_wf _ _ _ H)) Ho).
  assert (E : reg LoReg m = Ok (LO c, m)) by (unfold reg; by rewrite (arr_get_lookup _ LoReg _ ltac:(done) Ho)).
  unfold steps, exec_move. st_step E. exact (steps_put c m n (LO c) H Hn Hv).
Qed.

Lemma steps_to_hi_lo c m n :
  in_step xpc c m → 0 ≤ n < 32 →
  steps (let* a := get_reg n in upd (set_HI a)) (exec_move n HiReg (npc c)) c m ∧
  steps (let* a := get_reg n in upd (set_LO a)) (exec_move n LoReg (npc c)) c m.
Proof.
  intros H Hn. pose proof (mw_len _ (is_wf _ _ _ H)) as Hlen. change (Z.to_nat NumTotalRegs) with 40%nat in Hlen.
  split; apply steps_read; try done; intros _; destruct (is_rel _ _ _ H) as [Hr Hl Hh Ho];
    unfold steps, upd, set_reg, st_bind, st_ret; rewrite arr_set_in by (rewrite Hlen; unfold HiReg, LoReg; lia);
    cbn [res_bind]; eexists _, _; (split; [done|]); (split; [done|]);
    split; cbn [Reg set_HI set_LO HI LO registers set_registers]; try done;
    change (Z.to_nat HiReg) with 32%nat; change (Z.to_nat LoReg) with 33%nat;
    try (intros k Hk; rewrite list_lookup_insert_ne by lia; by apply Hr);
    try (rewrite list_lookup_insert_ne by done; done); apply list_lookup_insert_eq; lia.
Qed.

End Steps.

(** *** Words *)

Lemma int32_shift a k : int32 (a + k * 4294967296) = int32 a.
Proof.
  unfold int32. replace (a + k * 4294967296 + 2147483648) with (a + 2147483648 + k * 4294967296) by lia.
  by rewrite Z.mod_add.
Qed.

Lemma int32_bits a b : (∀ j, 0 ≤ j < 32 → Z.testbit a j = Z.testbit b j) → int32 a = int32 b.
Proof.
  intros Hb. rewrite <- (int32_uint32 a), <- (int32_uint32 b). f_equal. unfold uint32.
  change 4294967296 with (2 ^ 32). apply Z.bits_inj'. intros j Hj.
  destruct (decide (j < 32)); [rewrite !Z.mod_pow2_bits_low by lia; apply Hb; lia | by rewrite !Z.mod_pow2_bits_high by lia].
Qed.

Lemma testbit_uint32 z j : 0 ≤ j < 32 → Z.testbit (uint32 z) j = Z.testbit z j.
Proof. intros Hj. unfold uint32. change 4294967296 with (2 ^ 32). apply Z.mod_pow2_bits_low. lia. Qed.

Lemma int32_add_uint32 a b : int32 (a + uint32 b) = int32 (a + b).
Proof.
  destruct (uint32_quot b) as [q Hq]. unfold two32 in Hq.
  rewrite Hq at 2. replace (a + (uint32 b + q * 4294967296)) with (a + uint32 b + q * 4294967296) by lia.
  by rewrite int32_shift.
Qed.

Lemma int32_int32_add a b : int32 (int32 a + b) = int32 (a + b).
Proof. destruct (int32_cong a) as [k ->]. rewrite <- (int32_shift (a + b) k). f_equal. lia. Qed.

Lemma immed_int32 i : is_int32 (immed i).
Proof. pose proof (immed_range i). unfold is_int32. lia. Qed.

Lemma branch_target xpc i :
  int32 (int32 (xpc + 4) + IndexToAddr (uint32 (immed i))) = int32 (xpc + 4 + Z.shiftl (immed i) 2).
Proof.
  unfold IndexToAddr. rewrite int32_int32_add, int32_add_uint32, !Z.shiftl_mul_pow2 by done. change (2 ^ 2) with 4.
  destruct (uint32_quot (immed i)) as [q Hq]. unfold two32 in Hq. rewrite Hq at 2.
  rewrite <- (int32_shift _ (q * 4)). f_equal. lia.
Qed.

Lemma link_value xpc : int32 (int32 (xpc + 4) + 4) = int32 (xpc + 8).
Proof. rewrite int32_int32_add. f_equal. lia. Qed.

Lemma lui_value w : int32 (Z.shiftl (uint32 (immed (int32 w))) 16) = int32 (Z.shiftl (int32 w) 16).
Proof.
  apply int32_bits. intros j Hj. destruct (decide (j < 16)); [by rewrite !Z.shiftl_spec_low by lia|].
  rewrite !Z.shiftl_spec, testbit_uint32 by lia. unfold immed. set (v := int32 w).
  destruct (negb _) eqn:E; change 0x8000 with (2 ^ 15) in E; rewrite land_pow2_testbit in E by done.
  - rewrite Z.lor_spec. destruct (decide (j - 16 = 15)) as [->|]; [by rewrite E|].
    change (-0x8000) with (Z.lnot (Z.ones 15)). rewrite Z.lnot_spec, Z.ones_spec_low by lia.
    by rewrite orb_false_r.
  - rewrite Z.land_spec. change 0x7fff with (Z.ones 15). destruct (decide (j - 16 = 15)) as [->|].
    + by rewrite E.
    + rewrite Z.ones_spec_low by lia. apply andb_true_r.
Qed.

(** The logical immediates of the machine are 16 bits. *)
Lemma logical_immediate (op : Z → Z → Z) a i :
  (∀ x y j, 0 ≤ j → Z.testbit (op x y) j = Z.testbit (op (Z.b2z (Z.testbit x j)) (Z.b2z (Z.testbit y j))) 0) →
  is_int32 (op a (immed i)) → 0 ≤ immed i →
  int32 (op (uint32 a) (Z.land (uint32 (immed i)) 0xffff)) = op a (immed i).
Proof.
  intros Hop Hi Hp. pose proof (immed_range i) as Hr. rewrite <- (int32_id _ Hi) at 1.
  rewrite (uint32_id (immed i)) by (unfold is_uint32; lia).
  change 0xffff with (Z.ones 16). rewrite Z.land_ones, (Z.mod_small (immed i)) by lia.
  apply int32_bits. intros j Hj. rewrite Hop, (Hop a) by lia. by rewrite testbit_uint32.
Qed.

Lemma jump_target xpc w :
  Z.land (int32 (xpc + 8)) 0xf0000000 = Z.land xpc 0xf0000000 →
  int32 (Z.lor (Z.land (int32 (xpc + 8)) 0xf0000000) (IndexToAddr (decode_extra JFMT w))) =
  int32 (Z.lor (Z.land xpc 0xf0000000) (Z.shiftl (Z.land (int32 w) 0x03ffffff) 2)).
Proof.
  intros ->. unfold IndexToAddr, decode_extra. change 0x3ffffff with (Z.ones 26). rewrite low_int32 by done.
  do 2 f_equal. pose proof (land_ones_range w 26 ltac:(done)) as Hr. change (2 ^ 26) with 67108864 in Hr.
  apply uint32_id. rewrite Z.shiftl_mul_pow2 by done. unfold is_uint32. lia.
Qed.

Lemma bcond_field w : Z.land w 0x1f0000 = Z.shiftl (rt (int32 w)) 16.
Proof.
  unfold rt. change 0x1f with (Z.ones 5). rewrite field_int32 by done.
  apply Z.bits_inj'. intros j Hj. change 0x1f0000 with (Z.shiftl (Z.ones 5) 16). rewrite Z.land_spec.
  destruct (decide (j < 16)); [by rewrite !Z.shiftl_spec_low, andb_false_r by lia|].
  rewrite !Z.shiftl_spec, Z.land_spec, Z.shiftr_spec by lia. do 2 f_equal. lia.
Qed.

(** *** The instructions *)

(** The fields of the word, as both read them. *)
Record fields (instr : Z) (i : Instruction) : Prop := {
  f_rs : MipsSim.rs i = rs instr;
  f_rt : MipsSim.rt i = rt instr;
  f_rd : MipsSim.rd i = rd instr;
}.

Lemma field_range z : 0 ≤ Z.land z 0x1f < 32.
Proof. apply (land_ones_range z 5). lia. Qed.
#[local] Hint Resolve field_range : core.
Lemma rs_range z : 0 ≤ rs z < 32. Proof. apply field_range. Qed.
Lemma rt_range z : 0 ≤ rt z < 32. Proof. apply field_range. Qed.
Lemma rd_range z : 0 ≤ rd z < 32. Proof. apply field_range. Qed.
#[local] Hint Resolve rs_range rt_range rd_range : core.

Lemma fits32_int32 v : int32 v = v → fits32 v = true.
Proof.
  intros <-. pose proof (int32_range v) as [H1 H2]. unfold fits32.
  by rewrite (proj2 (Z.leb_le _ _) H1), (proj2 (Z.ltb_lt _ _) H2).
Qed.

Lemma int32_immed i : int32 (uint32 (immed i)) = immed i.
Proof. rewrite int32_uint32. apply int32_id, immed_int32. Qed.

Section Instructions.
Context (xpc : Z) (c : Cpu) (m : Machine) (H : in_step xpc c m).
Context (instr : Z) (i : Instruction) (F : fields instr i).

Lemma to_rd_steps f g :
  (is_int32 (R c (rs instr)) → is_int32 (R c (rt instr)) →
   f (R c (rs instr)) (R c (rt instr)) = g (R c (rs instr)) (R c (rt instr)) ∧
   is_int32 (f (R c (rs instr)) (R c (rt instr)))) →
  steps (to_rd instr f) (rd_of i (npc c) g) c m.
Proof.
  destruct F as [Es Et Ed]. intros Hfg. unfold to_rd, rd_of. rewrite Es, Et, Ed.
  apply (steps_read xpc); [done..|]. intros Ha. apply (steps_read xpc); [done..|]. intros Hb.
  destruct (Hfg Ha Hb) as [<- Hi]. by apply (steps_put xpc).
Qed.

Lemma to_rt_steps f g :
  (is_int32 (R c (rs instr)) → f (R c (rs instr)) = g (R c (rs instr)) ∧ is_int32 (f (R c (rs instr)))) →
  steps (to_rt instr f) (rt_of i (npc c) g) c m.
Proof.
  destruct F as [Es Et Ed]. intros Hfg. unfold to_rt, rt_of. rewrite Es, Et.
  apply (steps_read xpc); [done..|]. intros Ha. destruct (Hfg Ha) as [<- Hi]. by apply (steps_put xpc).
Qed.

Lemma shift_v_steps f g :
  0 ≤ R c (rs instr) < 32 →
  (∀ a b, 0 ≤ a < 32 → is_int32 b → f a b = g a b ∧ is_int32 (f a b)) →
  steps (shift_v instr f) (rd_of i (npc c) g) c m.
Proof.
  intros Ha Hfg. destruct (reads xpc c m (rs instr) H) as (E & _ & _); [done|].
  unfold steps, shift_v. st_step E.
  rewrite (proj2 (Z.leb_le _ _)), (proj2 (Z.ltb_lt _ _)) by lia. cbn [andb].
  apply to_rd_steps. auto.
Qed.

(** ADD, ADDI and SUB when there is no overflow. *)
Lemma add_steps :
  int32 (R c (rs instr) + R c (rt instr)) = R c (rs instr) + R c (rt instr) →
  steps (to_rd instr (λ a b, int32 (a + b))) (exec_add i (npc c)) c m.
Proof.
  destruct F as [Es Et Ed]. intros Hf. unfold to_rd, exec_add. rewrite Es, Et, Ed.
  apply (steps_read xpc); [done..|]. intros Ha. apply (steps_read xpc); [done..|]. intros Hb.
  rewrite add_test, fits32_int32 by done. by apply (steps_put xpc).
Qed.

Lemma sub_steps :
  int32 (R c (rs instr) - R c (rt instr)) = R c (rs instr) - R c (rt instr) →
  steps (to_rd instr (λ a b, int32 (a - b))) (exec_sub i (npc c)) c m.
Proof.
  destruct F as [Es Et Ed]. intros Hf. unfold to_rd, exec_sub. rewrite Es, Et, Ed.
  apply (steps_read xpc); [done..|]. intros Ha. apply (steps_read xpc); [done..|]. intros Hb.
  rewrite sub_test, fits32_int32 by done. by apply (steps_put xpc).
Qed.

Lemma addi_steps :
  extra i = uint32 (immed instr) →
  int32 (R c (rs instr) + immed instr) = R c (rs instr) + immed instr →
  steps (to_rt instr (λ a, int32 (a + immed instr))) (exec_addi i (npc c)) c m.
Proof.
  destruct F as [Es Et Ed]. intros Hx Hf. unfold to_rt, exec_addi. rewrite Es, Et, Hx.
  apply (steps_read xpc); [done..|]. intros Ha.
  rewrite addi_test by done. rewrite int32_immed, fits32_int32, int32_add_uint32 by done.
  by apply (steps_put xpc).
Qed.

Lemma div_steps :
  R c (rt instr) ≠ 0 → ¬ (R c (rs instr) = -2147483648 ∧ R c (rt instr) = -1) →
  steps (let* a := get_reg (rs instr) in let* b := get_reg (rt instr) in div_signed a b)
    (exec_div i (npc c)) c m.
Proof.
  destruct F as [Es Et Ed]. intros Hb Hab. unfold exec_div. rewrite Es, Et.
  apply (steps_read xpc); [done..|]. intros _. apply (steps_read xpc); [done..|]. intros _.
  unfold div_signed. rewrite (proj2 (Z.eqb_neq _ _) Hb).
  destruct ((R c (rs instr) =? -2147483648) && (R c (rt instr) =? -1)) eqn:E; [|by apply (steps_hi_lo xpc)].
  apply andb_true_iff in E as [E1%Z.eqb_eq E2%Z.eqb_eq]. by destruct Hab.
Qed.

Lemma divu_steps :
  R c (rt instr) ≠ 0 →
  steps (let* a := get_reg (rs instr) in let* b := get_reg (rt instr) in div_unsigned a b)
    (exec_divu i (npc c)) c m.
Proof.
  destruct F as [Es Et Ed]. intros Hb. unfold exec_divu. rewrite Es, Et.
  apply (steps_read xpc); [done..|]. intros _. apply (steps_read xpc); [done..|]. intros Hi.
  assert (uint32 (R c (rt instr)) ≠ 0) as Hu.
  { intros E. destruct (uint32_quot (R c (rt instr))) as [q Hq]. rewrite E in Hq. unfold is_int32, two32 in *. lia. }
  unfold div_unsigned. rewrite (proj2 (Z.eqb_neq _ _) Hu). by apply (steps_hi_lo xpc).
Qed.

(** Where control goes; [Hnext]: the PC after the delay slot. *)
Context (Hnext : npc c = int32 (xpc + 8)).

Lemma jr_steps :
  steps (let* a := get_reg (rs instr) in upd (set_npc a)) (jump_reg i false) c m.
Proof.
  unfold jump_reg. apply (steps_next xpc); [done|]. rewrite (f_rs _ _ F).
  change (st_bind (st_ret tt) ?k) with (k tt). apply (steps_read xpc); [done..|]. intros _. by apply (steps_npc xpc).
Qed.

Lemma jalr_steps :
  rd instr ≠ rs instr →
  steps (let* a := get_reg (rs instr) in let* _ := upd (set_npc a) in put_reg (rd instr) (int32 (xpc + 8)))
    (jump_reg i true) c m.
Proof.
  destruct F as [Es Et Ed]. intros Hne. unfold jump_reg. apply (steps_next xpc); [done|]. rewrite Es, Ed, link_value.
  destruct (reads xpc c m (rs instr) H) as (E1 & _ & _); [done|].
  destruct (writes xpc c m (rd instr) (int32 (xpc + 8)) H) as (E2 & E3 & H'); [done..|].
  destruct (reads xpc _ _ (rs instr) H') as (_ & E4 & _); [done|].
  assert (Hr : R (put (rd instr) (int32 (xpc + 8)) c) (rs instr) = R c (rs instr)).
  { unfold R, put. cbn [Reg set_Reg]. rewrite list_lookup_insert_ne; [done|].
    pose proof (rs_range instr). pose proof (rd_range instr). lia. }
  exists (set_npc (R c (rs instr)) (put (rd instr) (int32 (xpc + 8)) c)), (put_m (rd instr) (int32 (xpc + 8)) m).
  split; [|split].
  - st_step E1. unfold upd, st_bind. cbn beta iota. unfold put_reg in *. cbn [Reg set_npc].
    destruct (arr_set (Reg c) (rd instr) (int32 (xpc + 8))) as [r|]; [|done]. cbn [res_bind] in *. by injection E2 as ->.
  - st_step E3. st_step E4. by rewrite Hr.
  - destruct (is_rel _ _ _ H') as [? ? ? ?]. done.
Qed.

Lemma jump_steps w (link : bool) :
  extra i = decode_extra JFMT w → instr = int32 w →
  Z.land (int32 (xpc + 8)) 0xf0000000 = Z.land xpc 0xf0000000 →
  steps (let* _ := (if link then put_reg 31 (int32 (xpc + 8)) else st_ret tt) in jump_to xpc instr)
    (jump i (npc c) link) c m.
Proof.
  intros Hx -> Hp. unfold jump. apply (steps_next xpc); [done|]. rewrite Hx, Hnext, jump_target by done.
  destruct link.
  - rewrite link_value. apply (steps_write xpc); [done..|]. intros H'. by apply (steps_npc xpc).
  - by apply (steps_npc xpc).
Qed.

Lemma lui_steps w :
  extra i = uint32 (immed instr) → instr = int32 w →
  steps (put_reg (rt instr) (int32 (Z.shiftl instr 16)))
    (let* _ := set_reg (MipsSim.rt i) (int32 (Z.shiftl (extra i) 16)) in st_ret (Advance (npc c) 0 0)) c m.
Proof.
  intros Hx Ew. rewrite (f_rt _ _ F), Hx, Ew, lui_value, <- Ew. by apply (steps_put xpc).
Qed.

(** The branches after the link, from any state. *)
Lemma branch_tail c1 m1 x (test : bool) :
  in_step xpc c1 m1 → extra i = uint32 (immed instr) → npc c1 = npc c →
  x = (if test then upd (set_npc (int32 (xpc + 4 + Z.shiftl (immed instr) 2))) else st_ret tt) →
  steps x (st_ret (Advance (if test then int32 (int32 (xpc + 4) + IndexToAddr (extra i)) else npc c) 0 0)) c1 m1.
Proof.
  intros H1 Hx Hn ->. rewrite Hx, branch_target. destruct test; [by apply (steps_npc xpc)|].
  rewrite <- Hn. by apply (steps_ret xpc).
Qed.

Lemma branch_steps t :
  extra i = uint32 (immed instr) → steps (branch_if xpc instr t) (branch i (npc c) false t) c m.
Proof.
  destruct F as [Es Et Ed]. intros Hx. unfold branch_if, branch. apply (steps_next xpc); [done|].
  rewrite Es, Et. change (st_bind (st_ret tt) ?k) with (k tt).
  apply (steps_read xpc); [done..|]. intros _. apply (steps_read xpc); [done..|]. intros _.
  by apply branch_tail.
Qed.

Lemma bcond_steps (link : bool) t t' :
  extra i = uint32 (immed instr) → (∀ a b, is_int32 a → t a = t' a b) →
  steps (let* _ := (if link then put_reg 31 (int32 (xpc + 8)) else st_ret tt) in bcond_if xpc instr t)
    (branch i (npc c) link t') c m.
Proof.
  destruct F as [Es Et Ed]. intros Hx Ht. unfold bcond_if, branch. apply (steps_next xpc); [done|].
  rewrite link_value, Es, Et.
  assert (Htail : ∀ c1 m1, in_step xpc c1 m1 → npc c1 = npc c →
    steps (bcond_if xpc instr t) (let* a := reg (rs instr) in let* b := reg (rt instr) in
      st_ret (Advance (if t' a b then int32 (int32 (xpc + 4) + IndexToAddr (extra i)) else npc c) 0 0)) c1 m1).
  { intros c1 m1 H1 Hn. unfold bcond_if. apply (steps_read xpc); [done..|]. intros Ha.
    apply (steps_read_m xpc); [done..|]. rewrite (Ht _ (R c1 (rt instr)) Ha). by apply branch_tail. }
  destruct link.
  - apply (steps_write xpc); [done..|]. intros H'. by apply Htail.
  - by apply Htail.
Qed.
End Instructions.

(** *** Decoding *)

Lemma op_field w : Z.land (Z.shiftr (int32 w) 26) 0x3f = Z.land (Z.shiftr w 26) 0x3f.
Proof. by apply (field_int32 w 26 6). Qed.
Lemma funct_field w : Z.land (int32 w) 0x3f = Z.land w 0x3f.
Proof. by apply (low_int32 w 6). Qed.

Lemma decode_fields w i : Decode w = Ok i → fields (int32 w) i.
Proof.
  unfold Decode. intros E. apply res_bind_Ok_inv in E as (p & _ & E). apply res_bind_Ok_inv in E as (o & _ & [= <-]).
  by split; cbn [MipsSim.rs MipsSim.rt MipsSim.rd]; unfold rs, rt, rd; change 0x1f with (Z.ones 5); rewrite field_int32.
Qed.

Lemma decode_shamt w : decode_extra RFMT w = shamt (int32 w).
Proof. unfold shamt. change 0x1f with (Z.ones 5). by rewrite field_int32. Qed.

Lemma decode_special w i :
  Z.land (Z.shiftr w 26) 0x3f = 0 → Decode w = Ok i →
  arr_get specialTable (Z.land (int32 w) 0x3f) = Ok (opCode i) ∧ extra i = shamt (int32 w).
Proof.
  unfold Decode. intros ->. change (arr_get opTable 0) with (Ok (mkOpInfo SPECIAL RFMT)). cbn [res_bind op_code].
  rewrite bool_decide_true by done. intros E. apply res_bind_Ok_inv in E as (o & E1 & [= <-]).
  cbn [opCode extra]. rewrite funct_field, <- decode_shamt. done.
Qed.

Lemma decode_other w i p :
  arr_get opTable (Z.land (Z.shiftr w 26) 0x3f) = Ok p → op_code p ≠ SPECIAL → Decode w = Ok i →
  opCode i = (if bool_decide (op_code p = BCOND) then decode_bcond w else op_code p) ∧
  extra i = decode_extra (op_format p) w.
Proof.
  unfold Decode. intros -> Hne. cbn [res_bind]. rewrite bool_decide_false by done.
  case_bool_decide; cbn [res_bind]; intros [= <-]; done.
Qed.

(** Choose the case of a [switch] on a number. *)
Ltac dispatch :=
  cbn [Z.eqb Pos.eqb orb I_SPECIAL I_BCOND I_J I_JAL I_BEQ I_BNE I_BLEZ I_BGTZ I_ADDI I_ADDIU I_SLTI
    I_SLTIU I_ANDI I_ORI I_XORI I_LUI I_SLL I_SRL I_SRA I_SLLV I_SRLV I_SRAV I_JR I_JALR I_SYSCALL
    I_BREAK I_MFHI I_MTHI I_MFLO I_MTLO I_MULT I_MULTU I_DIV I_DIVU I_ADD I_ADDU I_SUB I_SUBU I_AND
    I_OR I_XOR I_NOR I_SLT I_SLTU I_BLTZ I_BGEZ I_BLTZAL I_BGEZAL].

Lemma existsb_In (x : Z) l : existsb (Z.eqb x) l = true → x ∈ l.
Proof. intros E. apply existsb_exists in E as (y & Hy & ->%Z.eqb_eq). by apply list_elem_of_In. Qed.

Lemma shift_amount_id a : 0 ≤ a < 32 → Z.land a 0x1f = a.
Proof. intros Ha. change 0x1f with (Z.ones 5). rewrite Z.land_ones by done. by apply Z.mod_small. Qed.

Lemma is_int32_bool (b : bool) : is_int32 (if b then 1 else 0).
Proof. by destruct b. Qed.
#[local] Hint Resolve is_int32_bool is_int32_land is_int32_lor is_int32_lxor is_int32_lnot : core.

(** One goal for each member of a list. *)
Ltac cases_of Hin :=
  repeat (apply elem_of_cons in Hin as [Hin|Hin]); [.. | by apply not_elem_of_nil in Hin].

(** The operation that a number of the special table stands for. *)
Ltac special_case Ho Hf :=
  let f := lazymatch type of Hf with _ = ?f => f end in
  let f := eval cbv in f in
  unfold special; cbv zeta; rewrite Hf in Ho; rewrite Hf;
  let o := eval vm_compute in (arr_get specialTable f) in
  change (arr_get specialTable _) with o in Ho;
  injection Ho as Ho; unfold exec; rewrite <- Ho; dispatch.

Section Agreement.
Context (trap break : ST Cpu unit) (xpc w : Z) (c : Cpu) (m : Machine) (i : Instruction).
Context (H : in_step xpc c m) (Hnext : npc c = int32 (xpc + 8)) (Hd : Decode w = Ok i).

Lemma special_steps :
  Z.land (Z.shiftr w 26) 0x3f = 0 → special_agrees (R c) (int32 w) = true →
  steps (special trap break xpc (int32 w)) (exec i (npc c)) c m.
Proof.
  intros Hop Ha. destruct (decode_special w i Hop Hd) as [Ho Hx]. pose proof (decode_fields w i Hd) as F.
  pose proof (field_range (Z.shiftr (int32 w) 6)) as Hsh. change (Z.land _ 0x1f) with (shamt (int32 w)) in Hsh.
  unfold special_agrees in Ha. rewrite !orb_true_iff, !andb_true_iff, !negb_true_iff, !Z.eqb_eq, !Z.eqb_neq, !Z.leb_le, !Z.ltb_lt in Ha.
  destruct Ha as [ [ [ [ [ [Ha|Ha]|Ha]|Ha]|Ha]|Ha]|Ha].
  - apply existsb_In in Ha. cases_of Ha; special_case Ho Ha.
    + apply (to_rd_steps xpc); [done..|]. intros _ _. by rewrite Hx.
    + apply (to_rd_steps xpc); [done..|]. intros _ _. by rewrite Hx.
    + apply (to_rd_steps xpc); [done..|]. intros _ ?. rewrite Hx. split; [done|]. apply is_int32_shr; [done|lia].
    + by apply (jr_steps xpc).
    + rewrite (f_rd _ _ F). by apply (steps_from_hi xpc).
    + rewrite (f_rs _ _ F). by apply (steps_to_hi_lo xpc).
    + rewrite (f_rd _ _ F). by apply (steps_from_lo xpc).
    + rewrite (f_rs _ _ F). by apply (steps_to_hi_lo xpc).
    + by apply (to_rd_steps xpc).
    + by apply (to_rd_steps xpc).
    + apply (to_rd_steps xpc); auto.
    + apply (to_rd_steps xpc); auto.
    + apply (to_rd_steps xpc); auto.
    + apply (to_rd_steps xpc); auto.
    + apply (to_rd_steps xpc); auto.
    + apply (to_rd_steps xpc); auto.
  - destruct Ha as [ [Ha Hl] Hu]. apply existsb_In in Ha. cases_of Ha; special_case Ho Ha.
    all: apply (shift_v_steps xpc); [done..|]; intros a b Hab Hb; rewrite shift_amount_id by done; split; [done|]; auto.
    apply is_int32_shr; [done|lia].
  - destruct Ha as [Ha Hne]. special_case Ho Ha. by apply (jalr_steps xpc).
  - destruct Ha as [ [Ha Hb] Hab]. special_case Ho Ha. apply (div_steps xpc); [done..|].
    intros [E1 E2]. by rewrite E1, E2 in Hab.
  - destruct Ha as [Ha Hb]. special_case Ho Ha. by apply (divu_steps xpc).
  - destruct Ha as [Ha Hs]. special_case Ho Ha. by apply (add_steps xpc).
  - destruct Ha as [Ha Hs]. special_case Ho Ha. by apply (sub_steps xpc).
Qed.

Lemma bcond_op_steps :
  Z.land (Z.shiftr w 26) 0x3f = 1 → rt (int32 w) ∈ [I_BLTZ; I_BGEZ; I_BLTZAL; I_BGEZAL] →
  steps (bcond xpc (int32 w)) (exec i (npc c)) c m.
Proof.
  intros Hop Hin. pose proof (decode_fields w i Hd) as F.
  destruct (decode_other w i (mkOpInfo BCOND IFMT)) as [Ho Hx]; [by rewrite Hop | done | done |].
  cbn [op_code op_format] in *. rewrite bool_decide_true in Ho by done. rewrite extra_immed in Hx.
  unfold decode_bcond in Ho. rewrite bcond_field in Ho.
  assert (Hs : ∀ a, is_int32 a → (a <? 0) = sign_of a) by (intros; by rewrite sign_of_int32).
  assert (Hn : ∀ a, is_int32 a → (a >=? 0) = negb (sign_of a)).
  { intros a Ha. rewrite sign_of_int32 by done. rewrite Z.geb_leb. by rewrite Z.leb_antisym. }
  cases_of Hin; unfold bcond; cbv zeta; rewrite Hin in Ho |- *;
    lazymatch type of Ho with _ = ?x => let y := eval vm_compute in x in change (opCode i = y) in Ho end;
    unfold exec; rewrite Ho; dispatch.
  - by apply (bcond_steps xpc c m H (int32 w) i F false); auto.
  - by apply (bcond_steps xpc c m H (int32 w) i F false); auto.
  - by apply (bcond_steps xpc c m H (int32 w) i F true); auto.
  - by apply (bcond_steps xpc c m H (int32 w) i F true); auto.
Qed.

(** The operation of a word by its first field. *)
Ltac op_case Hf :=
  let f := lazymatch type of Hf with _ = ?f => f end in
  let f := eval cbv in f in
  let p := eval vm_compute in (arr_get opTable f) in
  lazymatch p with
  | Ok ?p =>
      let Ho := fresh "Ho" in let Hx := fresh "Hx" in
      destruct (decode_other w i p) as [Ho Hx]; [by rewrite Hf | done | done |];
      cbn [op_code op_format] in Ho, Hx; rewrite bool_decide_false in Ho by done;
      unfold switch; cbv zeta; rewrite op_field, Hf; unfold exec; rewrite Ho; dispatch
  end.

Lemma switch_steps :
  agrees (R c) xpc (int32 w) = true → steps (switch trap break xpc (int32 w)) (exec i (npc c)) c m.
Proof.
  intros Ha.  pose proof (decode_fields w i Hd) as F. unfold agrees in Ha. cbv zeta in Ha. rewrite op_field in Ha.
  rewrite !orb_true_iff, !andb_true_iff, !Z.eqb_eq, !Z.leb_le in Ha.
  destruct Ha as [ [ [ [ [Ha|Ha]|Ha]|Ha]|Ha]|Ha].
  - destruct Ha as [Hop Ha]. unfold switch. cbv zeta. rewrite op_field, Hop. dispatch. by apply special_steps.
  - destruct Ha as [Hop Ha%existsb_In]. unfold switch. cbv zeta. rewrite op_field, Hop. dispatch. by apply bcond_op_steps.
  - destruct Ha as [Hop%existsb_In Hp]. cases_of Hop; op_case Hop.
    + by apply (jump_steps xpc c m H (int32 w) i F Hnext w false).
    + by apply (jump_steps xpc c m H (int32 w) i F Hnext w true).
  - apply existsb_In in Ha. cases_of Ha; op_case Ha; rewrite extra_immed in Hx.
    + by apply (branch_steps xpc).
    + by apply (branch_steps xpc).
    + by apply (bcond_steps xpc c m H (int32 w) i F false).
    + by apply (bcond_steps xpc c m H (int32 w) i F false).
    + apply (to_rt_steps xpc); [done..|]. intros _. rewrite Hx, int32_add_uint32. auto.
    + apply (to_rt_steps xpc); [done..|]. intros _. rewrite Hx, int32_immed. auto.
    + apply (to_rt_steps xpc); [done..|]. intros _. rewrite Hx. auto.
    + by apply (lui_steps xpc c m H (int32 w) i F w).
  - destruct Ha as [Hop Hs]. op_case Hop. rewrite extra_immed in Hx. by apply (addi_steps xpc).
  - destruct Ha as [Ha%existsb_In Hp]. pose proof (immed_int32 (int32 w)) as Hi.
    cases_of Ha; op_case Ha; rewrite extra_immed in Hx; apply (to_rt_steps xpc); try done; intros Hr; rewrite Hx.
    + rewrite (logical_immediate Z.land); [by auto| |by auto|done].
      intros x y j Hj. rewrite !Z.land_spec, !Z.b2z_bit0; done.
    + rewrite (logical_immediate Z.lor); [by auto| |by auto|done].
      intros x y j Hj. rewrite !Z.lor_spec, !Z.b2z_bit0; done.
    + rewrite (logical_immediate Z.lxor); [by auto| |by auto|done].
      intros x y j Hj. rewrite !Z.lxor_spec, !Z.b2z_bit0; done.
Qed.
End Agreement.

(** C18. The two simulators of the repository agree: on the instructions of
    [agrees] - which leaves out, beside those [special_agrees] lists, loads and stores, a
    J or JAL whose delay slot is followed by another 256 MB region, and the division of the
    least int by -1 - the machine of the kernel and the stand-alone interpreter, started with the
    same registers before the instruction at [xpc], come to the same registers, HI and LO
    included, and continue at the same place after the delay slot. What a decoded word
    means does not depend on which of the two programs runs it. *)
Theorem switch_agrees (trap break : ST Cpu unit) (xpc w : Z) (c : Cpu) (m : Machine) (i : Instruction) :
  machine_wf m → related c m →
  registers m !! Z.to_nat NextPCReg = Some (int32 (xpc + 4)) → npc c = int32 (xpc + 8) →
  Decode w = Ok i → agrees (R c) xpc (int32 w) = true →
  ∃ c' m', switch trap break xpc (int32 w) c = Ok (tt, c') ∧
    exec i (npc c) m = Ok (Advance (npc c') 0 0, m') ∧ related c' m'.
Proof. intros Hwf Hr Hn Hnpc Hd Ha. by apply switch_steps. Qed.

(** BGEZAL r1, -3 at address 64, with r1 = 5. *)
Definition demo_regs : list Z := <[1%nat := 5]> (<[35%nat := 68]> (replicate 40 0)).
Definition demo_machine : Machine := set_registers demo_regs one_page.
Definition demo_cpu : Cpu := mkCpu (take 32 demo_regs) 0 0 ∅ 68 72.

Lemma switch_agrees_witness :
  ∃ i c' m', Decode 0x0431fffd = Ok i ∧ switch (st_ret tt) (st_ret tt) 64 (int32 0x0431fffd) demo_cpu = Ok (tt, c') ∧
    exec i 72 demo_machine = Ok (Advance (npc c') 0 0, m') ∧ npc c' = 56 ∧ registers m' !! 31%nat = Some 72.
Proof.
  destruct (Decode 0x0431fffd) as [i|] eqn:Hd; [|done].
  destruct (switch_agrees (st_ret tt) (st_ret tt) 64 0x0431fffd demo_cpu demo_machine i)
    as (c' & m' & E1 & E2 & [Hr _ _ _]); try done.
  - split; try done.
    + by repeat constructor.
    + exists 0. done.
    + split; [done|]. by repeat constructor.
  - split; try done. intros n Hn. cbn [Reg demo_cpu registers demo_machine set_registers]. by rewrite lookup_take_lt.
  - exists i, c', m'. do 3 (split; [done|]). rewrite <- Hr by lia. vm_compute in E1. injection E1 as <-. done.
Defined.

(** The high word of the interpreter's product drops the carries between the partial
    products: 131071 * 131071 is 3 * 2^32 + 4294705153. *)
Example mult_high_word :
  mult_signed 131071 131071 = (1, -262143) ∧ Mult 131071 131071 true = (3, -262143).
Proof. vm_compute. done. Qed.

(** A negative logical immediate: ORI r2, r1, 0x8000 with r1 = 5. *)
Example ori_extends_sign :
  res_bind (switch (st_ret tt) (st_ret tt) 64 (int32 0x34228000) demo_cpu) (λ r, arr_get (Reg r.2) 2) = Ok (-32763) ∧
  res_bind (Decode 0x34228000) (λ i, res_bind (exec i 72 demo_machine) (λ r, arr_get (registers r.2) 2)) = Ok 32773.
Proof. split; vm_compute; reflexivity. Qed.

(** [ilog2] is the length of a word in bits, where the table above it has 1 for 2. *)
Example ilog2_two : ilog2 2 = 2 ∧ ilog2 1 = 1 ∧ ilog2 0 = 0 ∧ ilog2 0xffffffff = 32.
Proof. vm_compute. done. Qed.
End Execute.
