(* ===== verification/Interrupt.v ===== *)
(** * Interrupts and simulated time (machine/interrupt.cc, interrupt.h, stats.cc, stats.h)

    The pending interrupts are the sequence of (key, item) pairs that LinkedList.v
    proves the sorted list to implement. What an interrupt handler does is a parameter
    here ([Handlers]); Devices.v and Kernel.v give the handlers of the machine.
    [Interrupt::OneTick] may end in [Thread::Yield], a context switch: this file has
    the part of it before the switch, Kernel.v the rest. *)
From S2P Require Import Prelude LinkedList.

(** ** Data *)

Inductive IntStatus := IntOff | IntOn.
Inductive MachineStatus := IdleMode | SystemMode | UserMode.
Inductive IntType :=
  | TimerInt | DiskInt | ConsoleWriteInt | ConsoleReadInt | NetworkSendInt | NetworkRecvInt.

#[global] Instance IntStatus_eq_dec : EqDecision IntStatus.
Proof. solve_decision. Defined.
#[global] Instance MachineStatus_eq_dec : EqDecision MachineStatus.
Proof. solve_decision. Defined.
#[global] Instance IntType_eq_dec : EqDecision IntType.
Proof. solve_decision. Defined.

Definition UserTick : Z := 1.
Definition SystemTick : Z := 10.
Definition RotationTime : Z := 500.
Definition SeekTime : Z := 500.
Definition ConsoleTime : Z := 100.
Definition NetworkTime : Z := 100.
Definition TimerTicks : Z := 100.

(** class Statistics; the [long long] and [int] counters are kept as integers. *)
Record Statistics := mkStatistics {
  totalTicks : Z; idleTicks : Z; systemTicks : Z; userTicks : Z;
  numDiskReads : Z; numDiskWrites : Z;
  numConsoleCharsRead : Z; numConsoleCharsWritten : Z;
  numPageFaults : Z; numPacketsSent : Z; numPacketsRecvd : Z }.

Definition new_Statistics : Statistics := mkStatistics 0 0 0 0 0 0 0 0 0 0 0.

(** The counters the devices and the exception handlers increment. *)
Inductive counter :=
  | DiskReads | DiskWrites | ConsoleCharsRead | ConsoleCharsWritten
  | PageFaults | PacketsSent | PacketsRecvd.

Definition bump (c : counter) (s : Statistics) : Statistics :=
  let '(mkStatistics t i sy u dr dw cr cw pf ps pr) := s in
  match c with
  | DiskReads => mkStatistics t i sy u (dr + 1) dw cr cw pf ps pr
  | DiskWrites => mkStatistics t i sy u dr (dw + 1) cr cw pf ps pr
  | ConsoleCharsRead => mkStatistics t i sy u dr dw (cr + 1) cw pf ps pr
  | ConsoleCharsWritten => mkStatistics t i sy u dr dw cr (cw + 1) pf ps pr
  | PageFaults => mkStatistics t i sy u dr dw cr cw (pf + 1) ps pr
  | PacketsSent => mkStatistics t i sy u dr dw cr cw pf (ps + 1) pr
  | PacketsRecvd => mkStatistics t i sy u dr dw cr cw pf ps (pr + 1)
  end.

(** [totalTicks += dt] together with the counter of the mode the time was spent in. *)
Definition spend (m : MachineStatus) (dt : Z) (s : Statistics) : Statistics :=
  let '(mkStatistics t i sy u dr dw cr cw pf ps pr) := s in
  match m with
  | IdleMode => mkStatistics (t + dt) (i + dt) sy u dr dw cr cw pf ps pr
  | SystemMode => mkStatistics (t + dt) i (sy + dt) u dr dw cr cw pf ps pr
  | UserMode => mkStatistics (t + dt) i sy (u + dt) dr dw cr cw pf ps pr
  end.

(** The lines of Statistics::Print, as the numbers printed. *)
Definition Print (s : Statistics) : list (list Z) :=
  [[totalTicks s; idleTicks s; systemTicks s; userTicks s];
   [numDiskReads s; numDiskWrites s];
   [numConsoleCharsRead s; numConsoleCharsWritten s];
   [numPageFaults s];
   [numPacketsRecvd s; numPacketsSent s]].

(** class PendingInterrupt; [handler] stands for the function and its argument. *)
Record PendingInterrupt (H : Type) := mkPending { handler : H; when : Z; type : IntType }.
Arguments mkPending {H} handler when type.
Arguments handler {H} _.
Arguments when {H} _.
Arguments type {H} _.

(** class Interrupt *)
Record Interrupt (H : Type) := mkInterrupt {
  level : IntStatus;
  pending : list (Z * PendingInterrupt H);
  inHandler : bool;
  yieldOnReturn : bool;
  status : MachineStatus }.
Arguments mkInterrupt {H} level pending inHandler yieldOnReturn status.
Arguments level {H} _.
Arguments pending {H} _.
Arguments inHandler {H} _.
Arguments yieldOnReturn {H} _.
Arguments status {H} _.

Definition new_Interrupt {H} : Interrupt H := mkInterrupt IntOff [] false false SystemMode.

(** The globals [interrupt] and [stats], and the rest of the kernel. *)
Record World (H X : Type) := mkWorld { interrupt : Interrupt H; stats : Statistics; rest : X }.
Arguments mkWorld {H X} interrupt stats rest.
Arguments interrupt {H X} _.
Arguments stats {H X} _.
Arguments rest {H X} _.

(** What a handler asks of the interrupt system: [interrupt->Schedule],
    [interrupt->YieldOnReturn()] and [stats->c++]. *)
Inductive act (H : Type) :=
  | ASchedule (h : H) (fromNow : Z) (ty : IntType)
  | AYieldOnReturn
  | ACount (c : counter).
Arguments ASchedule {H} h fromNow ty.
Arguments AYieldOnReturn {H}.
Arguments ACount {H} c.

(** The functions the kernel gives to [Schedule], run at a time of the clock, and what
    a delayed load of the user program does ([machine->DelayedLoad(0, 0)]). *)
Class Handlers (H X : Type) := {
  run_handler : H → Z → X → res (X * list (act H));
  delayed_load : X → res X;
}.

Section Operations.
Context {H X : Type} {hs : Handlers H X}.
Implicit Types (w : World H X) (i : Interrupt H).

Definition set_interrupt i w : World H X := mkWorld i (stats w) (rest w).
Definition set_stats (s : Statistics) w : World H X := mkWorld (interrupt w) s (rest w).
Definition set_rest (x : X) w : World H X := mkWorld (interrupt w) (stats w) x.
Definition set_level (l : IntStatus) w : World H X :=
  let i := interrupt w in
  set_interrupt (mkInterrupt l (pending i) (inHandler i) (yieldOnReturn i) (status i)) w.
Definition set_pending (p : list (Z * PendingInterrupt H)) w : World H X :=
  let i := interrupt w in
  set_interrupt (mkInterrupt (level i) p (inHandler i) (yieldOnReturn i) (status i)) w.
Definition set_inHandler (b : bool) w : World H X :=
  let i := interrupt w in
  set_interrupt (mkInterrupt (level i) (pending i) b (yieldOnReturn i) (status i)) w.
Definition set_yieldOnReturn (b : bool) w : World H X :=
  let i := interrupt w in
  set_interrupt (mkInterrupt (level i) (pending i) (inHandler i) b (status i)) w.
Definition set_status (m : MachineStatus) w : World H X :=
  let i := interrupt w in
  set_interrupt (mkInterrupt (level i) (pending i) (inHandler i) (yieldOnReturn i) m) w.

Definition now w : Z := totalTicks (stats w).

(** [BlockUserAbort] and [UnBlockUserAbort] mask a signal of the host. *)
Definition ChangeLevel (new : IntStatus) w : World H X := set_level new w.

Definition Schedule (h : H) (fromNow : Z) (ty : IntType) : ST (World H X) unit := λ w,
  let when := now w + fromNow in
  let toOccur := mkPending h when ty in
  let? _ := ASSERT (fromNow >? 0) in
  Ok (tt, set_pending (spec_sorted_insert toOccur when (pending (interrupt w))) w).

Definition YieldOnReturn : ST (World H X) unit := λ w,
  let? _ := ASSERT (bool_decide (inHandler (interrupt w) = true)) in
  Ok (tt, set_yieldOnReturn true w).

Definition run_act (a : act H) : ST (World H X) unit :=
  match a with
  | ASchedule h fromNow ty => Schedule h fromNow ty
  | AYieldOnReturn => YieldOnReturn
  | ACount c => λ w, Ok (tt, set_stats (bump c (stats w)) w)
  end.

Fixpoint run_acts (l : list (act H)) : ST (World H X) unit :=
  match l with
  | [] => st_ret tt
  | a :: l => let* _ := run_act a in run_acts l
  end.

(** [( *(toOccur->handler))(toOccur->arg)] *)
Definition call_handler (h : H) : ST (World H X) unit := λ w,
  let? r := run_handler h (now w) (rest w) in
  run_acts r.2 (set_rest r.1 w).

(** The end of CheckIfDue: the interrupt [toOccur], already off the list, is delivered. *)
Definition deliver (toOccur : PendingInterrupt H) : ST (World H X) unit := λ w,
  let old := status (interrupt w) in
  let? x := (if bool_decide (old = UserMode) then delayed_load (rest w) else Ok (rest w)) in
  let w := set_status SystemMode (set_inHandler true (set_rest x w)) in
  let? r := call_handler (handler toOccur) w in
  Ok (tt, set_inHandler false (set_status old r.2)).

Definition CheckIfDue (advanceClock : bool) : ST (World H X) bool := λ w,
  let? _ := ASSERT (bool_decide (level (interrupt w) = IntOff)) in
  match pending (interrupt w) with
  | [] => Ok (false, w)
  | (when, toOccur) :: others =>
      let late := when >? now w in
      if negb advanceClock && late then
        Ok (false, set_pending (spec_sorted_insert toOccur when others) w)
      else
        let w :=
          if advanceClock && late then set_stats (spend IdleMode (when - now w) (stats w)) w
          else w in
        if bool_decide (status (interrupt w) = IdleMode) && bool_decide (type toOccur = TimerInt)
           && bool_decide (others = [])
        then Ok (false, set_pending (spec_sorted_insert toOccur when others) w)
        else
          let? r := deliver toOccur (set_pending others w) in
          Ok (true, r.2)
  end.

(** [while (CheckIfDue(FALSE));] *)
Fixpoint check_all (fuel : nat) : ST (World H X) unit := λ w,
  match fuel with
  | O => Fail OutOfFuel
  | S fuel =>
      let? r := CheckIfDue false w in
      if r.1 then check_all fuel r.2 else Ok (tt, r.2)
  end.

(** Handlers only schedule interrupts for later, so the loop turns at most once for
    each interrupt pending when it starts (see [check_all_ok]). *)
Definition check_due : ST (World H X) unit := λ w,
  check_all (S (length (pending (interrupt w)))) w.

(** OneTick up to the test of [yieldOnReturn]. *)
Definition OneTick_interrupts : ST (World H X) unit := λ w,
  let w :=
    set_stats
      (match status (interrupt w) with
       | SystemMode => spend SystemMode SystemTick (stats w)
       | _ => spend UserMode UserTick (stats w)
       end) w in
  let w := ChangeLevel IntOff w in
  let? r := check_due w in
  Ok (tt, ChangeLevel IntOn r.2).

(** Idle; when nothing is left to wait for it halts the machine, which ends the
    program in [Cleanup] and [Exit(0)]. *)
Definition Idle : ST (World H X) unit := λ w,
  let w := set_status IdleMode w in
  let? r := CheckIfDue true w in
  if r.1 then
    let? r := check_due r.2 in
    Ok (tt, set_status SystemMode (set_yieldOnReturn false r.2))
  else Fail (Exited 0).

(** The times and types DumpState prints. *)
Definition DumpState w : Z * IntStatus * list (Z * IntType) :=
  (now w, level (interrupt w), (λ e, (when e.2, type e.2)) <$> pending (interrupt w)).
End Operations.

(** ** What the kernel promises of its handlers *)

(** Interrupts are only scheduled for later. *)
Definition act_ok {H} (a : act H) : Prop :=
  match a with ASchedule _ fromNow _ => 0 < fromNow | _ => True end.

(** [I] is the kernel's invariant of the rest of its state. A handler never fails, keeps
    [I] and schedules only for later. *)
Class HandlerLaws {H X : Type} (hs : Handlers H X) (I : X → Prop) := {
  run_handler_ok h t x : I x → ∃ x' acts,
    run_handler h t x = Ok (x', acts) ∧ I x' ∧ Forall act_ok acts;
  delayed_load_ok x : I x → ∃ x', delayed_load x = Ok x' ∧ I x';
}.

(** ** Invariants and facts *)
Section Facts.
Context {H X : Type} {hs : Handlers H X} {I : X → Prop} {laws : HandlerLaws hs I}.
Implicit Types (w : World H X) (p q : list (Z * PendingInterrupt H)).

(** The sorted list holds entries filed under their time, and every tick of the clock
    is accounted for in one mode. *)
Record time_wf w : Prop := {
  tw_sorted : Sorted key_le (pending (interrupt w));
  tw_keys : Forall (λ e, e.1 = when e.2) (pending (interrupt w));
  tw_clock : totalTicks (stats w) =
    idleTicks (stats w) + systemTicks (stats w) + userTicks (stats w);
}.

Definition due (t : Z) p := filter (λ e, e.1 ≤ t) p.

Lemma bump_ticks c s :
  totalTicks (bump c s) = totalTicks s ∧ idleTicks (bump c s) = idleTicks s ∧
  systemTicks (bump c s) = systemTicks s ∧ userTicks (bump c s) = userTicks s.
Proof. by destruct s, c. Qed.

Lemma spend_ticks m dt s :
  totalTicks (spend m dt s) = totalTicks s + dt ∧
  (totalTicks s = idleTicks s + systemTicks s + userTicks s →
   totalTicks (spend m dt s) =
     idleTicks (spend m dt s) + systemTicks (spend m dt s) + userTicks (spend m dt s)).
Proof. destruct s, m; simpl; split; lia. Qed.

(** The entries [new], in the order they are scheduled. *)
Definition insert_all p (new : list (Z * PendingInterrupt H)) :=
  foldl (λ q e, spec_sorted_insert e.2 e.1 q) p new.

Lemma insert_all_sorted p new : Sorted key_le p → Sorted key_le (insert_all p new).
Proof.
  revert p. induction new as [|e new IH]; intros p Hp; simpl; [done|].
  by apply IH, spec_sorted_insert_sorted.
Qed.

Lemma insert_all_perm p new : insert_all p new ≡ₚ new ++ p.
Proof.
  revert p. induction new as [|[k x] new IH]; intros p; simpl; [done|].
  rewrite IH, spec_sorted_insert_perm. simpl. by rewrite Permutation_middle.
Qed.

Lemma spec_sorted_insert_app (x : PendingInterrupt H) k p q :
  Forall (λ e, e.1 ≤ k) p → spec_sorted_insert x k (p ++ q) = p ++ spec_sorted_insert x k q.
Proof.
  induction 1 as [|[k' y] p Hk Hp IH]; simpl in *; [done|].
  destruct (Z.ltb_spec k k'); [lia|]. by rewrite IH.
Qed.

(** Later interrupts go after those that are due. *)
Lemma insert_all_app t p q new :
  Forall (λ e, e.1 ≤ t) p → Forall (λ e, t < e.1) new →
  insert_all (p ++ q) new = p ++ insert_all q new.
Proof.
  intros Hp Hn. revert q. induction Hn as [|[k x] new Hk Hn IH]; intros q; simpl in *; [done|].
  rewrite spec_sorted_insert_app; [apply IH|]. eapply Forall_impl; [exact Hp|]. simpl. lia.
Qed.

Lemma due_split t p :
  Sorted key_le p → ∃ l, p = due t p ++ l ∧ Forall (λ e, t < e.1) l.
Proof.
  intros Hs. apply Sorted_StronglySorted in Hs; [|intros ???; unfold key_le; lia].
  unfold due. induction Hs as [|[k x] p _ IH Hhd]; [by exists []|].
  destruct (decide (k ≤ t)).
  - destruct IH as (late & Hl & Hf). exists late. rewrite filter_cons_True by done. simpl. by rewrite <- Hl.
  - exists ((k, x) :: p). rewrite filter_none.
    + split; [done|]. constructor; [simpl; lia|]. eapply Forall_impl; [exact Hhd|].
      unfold key_le. simpl. lia.
    + intros e [-> | He]%elem_of_cons; simpl; [lia|].
      rewrite Forall_forall in Hhd. specialize (Hhd e He). unfold key_le in Hhd. simpl in Hhd. lia.
Qed.

Lemma Forall_due t p : Forall (λ e, e.1 ≤ t) (due t p).
Proof. apply Forall_forall. intros e [? _]%list_elem_of_filter. done. Qed.

(** What running the requests of a handler changes. *)
Record scheduled w w' (new : list (Z * PendingInterrupt H)) : Prop := {
  sc_pending : pending (interrupt w') = insert_all (pending (interrupt w)) new;
  sc_new : Forall (λ e, now w < e.1 ∧ e.1 = when e.2) new;
  sc_now : now w' = now w;
  sc_level : level (interrupt w') = level (interrupt w);
  sc_clock : totalTicks (stats w) = idleTicks (stats w) + systemTicks (stats w) + userTicks (stats w) →
    totalTicks (stats w') = idleTicks (stats w') + systemTicks (stats w') + userTicks (stats w');
}.

Lemma scheduled_refl w : scheduled w w [].
Proof. by split. Qed.

Lemma scheduled_wf w w' new : time_wf w → scheduled w w' new → time_wf w'.
Proof.
  intros [Hs Hk Hc] []. split; [rewrite sc_pending0; by apply insert_all_sorted| |by apply sc_clock0].
  rewrite sc_pending0, insert_all_perm. apply Forall_app. split; [|done].
  eapply Forall_impl; [exact sc_new0|]. naive_solver.
Qed.

Lemma scheduled_trans w1 w2 w3 n1 n2 :
  scheduled w1 w2 n1 → scheduled w2 w3 n2 → scheduled w1 w3 (n1 ++ n2).
Proof.
  intros [] []. split; try congruence; auto.
  - rewrite sc_pending1, sc_pending0. unfold insert_all. by rewrite foldl_app.
  - apply Forall_app. split; [done|]. by rewrite sc_now0 in sc_new1.
Qed.

Lemma run_acts_ok l w :
  Forall act_ok l → (AYieldOnReturn ∈ l → inHandler (interrupt w) = true) →
  ∃ w' new, run_acts l w = Ok (tt, w') ∧ scheduled w w' new ∧ rest w' = rest w ∧
    inHandler (interrupt w') = inHandler (interrupt w) ∧
    status (interrupt w') = status (interrupt w).
Proof.
  intros Hl. revert w. induction Hl as [|a l Ha Hl IH]; intros w Hin; simpl.
  { exists w, []. auto using scheduled_refl. }
  assert (∃ w1 n1, run_act a w = Ok (tt, w1) ∧ scheduled w w1 n1 ∧ rest w1 = rest w ∧
    inHandler (interrupt w1) = inHandler (interrupt w) ∧ status (interrupt w1) = status (interrupt w))
    as (w1 & n1 & E1 & Hs1 & Hr1 & Hi1 & Ht1).
  { destruct a as [h fromNow ty| |c]; simpl in *.
    - unfold Schedule. destruct (Z.gtb_spec fromNow 0); [|lia]. cbn [ASSERT res_bind].
      eexists _, [(now w + fromNow, mkPending h (now w + fromNow) ty)].
      split; [reflexivity|]. split; [|done].
      split; simpl; auto. constructor; [simpl; lia|done].
    - unfold YieldOnReturn. rewrite bool_decide_true by (apply Hin; set_solver).
      eexists _, []. split; [reflexivity|]. by split; [split; simpl|].
    - eexists _, []. split; [reflexivity|]. destruct (bump_ticks c (stats w)) as (H1 & H2 & H3 & H4).
      split; [|done]. split; unfold now; simpl; auto. by rewrite H1, H2, H3, H4. }
  destruct (IH w1) as (w2 & n2 & E2 & Hs2 & Hr2 & Hi2 & Ht2).
  { intros Hy. rewrite Hi1. apply Hin. set_solver. }
  exists w2, (n1 ++ n2). rewrite (st_bind_Ok _ _ _ _ _ E1).
  pose proof (scheduled_trans w w1 w2 n1 n2 Hs1 Hs2).
  split; [done|]. split; [done|]. split; [congruence|]. split; congruence.
Qed.

Lemma deliver_ok e w :
  I (rest w) →
  ∃ w' new, deliver e w = Ok (tt, w') ∧ scheduled w w' new ∧ I (rest w') ∧
    inHandler (interrupt w') = false ∧ status (interrupt w') = status (interrupt w).
Proof.
  intros HI. unfold deliver.
  assert (∃ x, (if bool_decide (status (interrupt w) = UserMode) then delayed_load (rest w)
                else Ok (rest w)) = Ok x ∧ I x) as (x & -> & HIx).
  { case_bool_decide; [by apply delayed_load_ok | eauto]. }
  cbn [res_bind]. unfold call_handler.
  destruct (run_handler_ok (handler e) (now w) x HIx) as (x' & acts & Hr & HIx' & Ha).
  cbn [rest set_status set_inHandler set_rest set_interrupt].
  change (now (set_status _ _)) with (now w). rewrite Hr. cbn [res_bind fst snd].
  set (w1 := set_rest x' (set_status SystemMode (set_inHandler true (set_rest x w)))).
  destruct (run_acts_ok acts w1 Ha (λ _, eq_refl)) as (w2 & new & -> & [] & Hr2 & Hi2 & Ht2).
  cbn [res_bind]. eexists _, new. split; [reflexivity|]. split; [by split|].
  cbn. split; [|done]. by rewrite Hr2.
Qed.

(** ** The loop of OneTick and Idle *)

Fixpoint deliver_all p : ST (World H X) unit :=
  match p with
  | [] => st_ret tt
  | e :: p => λ w,
      let? r := deliver e.2 (set_pending (tail (pending (interrupt w))) w) in
      deliver_all p r.2
  end.

Lemma deliver_all_ok d w l :
  I (rest w) → pending (interrupt w) = d ++ l → Forall (λ e, e.1 ≤ now w) d →
  ∃ w' new, deliver_all d w = Ok (tt, w') ∧ scheduled (set_pending l w) w' new ∧
    I (rest w') ∧ status (interrupt w') = status (interrupt w) ∧
    (inHandler (interrupt w) = false → inHandler (interrupt w') = false).
Proof.
  revert w l. induction d as [|e d IH]; intros w l HI Hp Hd; simpl.
  { exists w, []. split; [done|]. split; [split; simpl; auto|done]. }
  inversion Hd as [|?? He Hd']; subst. rewrite Hp. simpl.
  destruct (deliver_ok e.2 (set_pending (d ++ l) w)) as (w1 & n1 & -> & [] & HI1 & Hi1 & Ht1); [done|].
  cbn [res_bind snd]. simpl in *. change (now (set_pending _ _)) with (now w) in *.
  destruct (IH w1 (insert_all l n1)) as (w2 & n2 & E2 & [] & HI2 & Ht2 & Hih2); [done| |by rewrite sc_now0|].
  { rewrite sc_pending0. apply (insert_all_app (now w)); [done|].
    eapply Forall_impl; [exact sc_new0|]. naive_solver. }
  simpl in *. exists w2, (n1 ++ n2). split; [done|]. split; [|split; [done|split; [congruence|by auto] ] ].
  split; simpl; auto.
  - rewrite sc_pending1. unfold insert_all. by rewrite foldl_app.
  - apply Forall_app. split; [done|]. change (now (set_pending _ w)) with (now w).
    change (now (set_pending _ w1)) with (now w1) in sc_new1. by rewrite sc_now0 in sc_new1.
  - change (now (set_pending _ w1)) with (now w1) in sc_now1. change (now (set_pending _ w)) with (now w).
    congruence.
  - congruence.
Qed.

(** The peek that ends the loop: the first entry is taken off and filed again. *)
Definition put_back w : World H X :=
  match pending (interrupt w) with
  | [] => w
  | (k, x) :: others => set_pending (spec_sorted_insert x k others) w
  end.

Lemma put_back_pending w : pending (interrupt (put_back w)) ≡ₚ pending (interrupt w).
Proof.
  unfold put_back. destruct (pending (interrupt w)) as [|[k x] p] eqn:E; [by rewrite E|].
  simpl. apply spec_sorted_insert_perm.
Qed.

Lemma put_back_frame w :
  now (put_back w) = now w ∧ stats (put_back w) = stats w ∧ rest (put_back w) = rest w ∧
  level (interrupt (put_back w)) = level (interrupt w) ∧
  status (interrupt (put_back w)) = status (interrupt w) ∧
  yieldOnReturn (interrupt (put_back w)) = yieldOnReturn (interrupt w) ∧
  inHandler (interrupt (put_back w)) = inHandler (interrupt w).
Proof. unfold put_back. by destruct (pending (interrupt w)) as [|[] ]. Qed.

Lemma put_back_wf w : time_wf w → time_wf (put_back w).
Proof.
  intros []. pose proof (put_back_pending w) as Hp.
  split; [|by rewrite Hp|by rewrite (proj1 (proj2 (put_back_frame w)))].
  unfold put_back. destruct (pending (interrupt w)) as [|[k x] p] eqn:E; [by rewrite E|].
  simpl. apply spec_sorted_insert_sorted. by inversion tw_sorted0.
Qed.

(** An interrupt the machine would rather halt than wait for. *)
Definition lone_timer (e : Z * PendingInterrupt H) w : Prop :=
  status (interrupt w) = IdleMode ∧ type e.2 = TimerInt ∧ pending (interrupt w) = [e].

Lemma CheckIfDue_none w :
  level (interrupt w) = IntOff → Forall (λ e, now w < e.1) (pending (interrupt w)) →
  CheckIfDue false w = Ok (false, put_back w).
Proof.
  intros Hl Hp. unfold CheckIfDue, put_back. rewrite bool_decide_true by done.
  destruct (pending (interrupt w)) as [|[k x] p]; [done|]. simpl.
  inversion Hp; simpl in *; subst. destruct (Z.gtb_spec k (now w)); [done|lia].
Qed.

Lemma CheckIfDue_fires w e p :
  level (interrupt w) = IntOff → pending (interrupt w) = e :: p → e.1 ≤ now w →
  CheckIfDue false w =
    if bool_decide (status (interrupt w) = IdleMode) && bool_decide (type e.2 = TimerInt)
       && bool_decide (p = [])
    then Ok (false, put_back w)
    else let? r := deliver e.2 (set_pending p w) in Ok (true, r.2).
Proof.
  intros Hl Hp He. unfold CheckIfDue, put_back. rewrite bool_decide_true by done. rewrite Hp.
  destruct e as [k x]. simpl in *. by destruct (Z.gtb_spec k (now w)); [lia|].
Qed.

(** The loop delivers, in order, the interrupts that are due when it starts, save a last
    timer interrupt when the machine idles, and needs no more fuel than there are. *)
Lemma check_all_ok fuel d w late :
  I (rest w) → level (interrupt w) = IntOff → pending (interrupt w) = d ++ late →
  Forall (λ e, e.1 ≤ now w) d → Forall (λ e, now w < e.1) late → (length d < fuel)%nat →
  ∃ d1 d2 w1, d = d1 ++ d2 ∧ deliver_all d1 w = Ok (tt, w1) ∧
    check_all fuel w = Ok (tt, put_back w1) ∧
    (d2 = [] ∨ ∃ e, d2 = [e] ∧ lone_timer e w1).
Proof.
  revert fuel w late. induction d as [|e d IH]; intros fuel w late HI Hl Hp Hd Hlate Hf;
    (destruct fuel as [|fuel]; [simpl in Hf; lia|]); cbn [check_all].
  { rewrite CheckIfDue_none by (done || by rewrite Hp). exists [], [], w. simpl. eauto. }
  inversion Hd as [|?? He Hd']; subst.
  rewrite (CheckIfDue_fires w e (d ++ late)) by done.
  destruct (bool_decide (status (interrupt w) = IdleMode) && bool_decide (type e.2 = TimerInt)
       && bool_decide (d ++ late = [])) eqn:Hidle.
  { cbn [res_bind fst snd].
    apply andb_true_iff in Hidle as [ [?%bool_decide_eq_true ?%bool_decide_eq_true]%andb_true_iff
      [-> ->]%bool_decide_eq_true%app_nil].
    exists [], [e], w. simpl. split; [done|]. split; [done|]. split; [done|].
    right. by exists e. }
  destruct (deliver_ok e.2 (set_pending (d ++ late) w)) as (w1 & n1 & E1 & Hs & HI1 & Hi1 & Ht1); [done|].
  rewrite E1. cbn [res_bind fst snd].
  pose proof (sc_now _ _ _ Hs) as Hnow. pose proof (sc_new _ _ _ Hs) as Hnew.
  change (now (set_pending (d ++ late) w)) with (now w) in *.
  destruct (IH fuel w1 (insert_all late n1)) as (d1 & d2 & w2 & -> & E2 & E3 & Hend); try done.
  - by rewrite (sc_level _ _ _ Hs).
  - rewrite (sc_pending _ _ _ Hs). apply (insert_all_app (now w)); [done|].
    eapply Forall_impl; [exact Hnew|]. naive_solver.
  - by rewrite Hnow.
  - rewrite Hnow, insert_all_perm. apply Forall_app. split; [|done].
    eapply Forall_impl; [exact Hnew|]. naive_solver.
  - simpl in Hf. lia.
  - exists (e :: d1), d2, w2. split; [done|]. split; [|done]. simpl. rewrite Hp. simpl.
    by rewrite E1.
Qed.

Lemma check_due_ok w :
  I (rest w) → level (interrupt w) = IntOff → time_wf w →
  ∃ d2 d1 w1, due (now w) (pending (interrupt w)) = d1 ++ d2 ∧ deliver_all d1 w = Ok (tt, w1) ∧
    check_due w = Ok (tt, put_back w1) ∧
    (d2 = [] ∨ ∃ e, d2 = [e] ∧ lone_timer e w1).
Proof.
  intros HI Hl [Hs Hk Hc]. destruct (due_split (now w) _ Hs) as (late & Hp & Hlate).
  destruct (check_all_ok (S (length (pending (interrupt w)))) (due (now w) (pending (interrupt w)))
    w late) as (d1 & d2 & w1 & ?); try done.
  - apply Forall_due.
  - apply Nat.lt_succ_r. unfold due. apply length_filter.
  - naive_solver.
Qed.

(** What is left after the due interrupts are delivered. *)
Lemma delivered_wf w d1 d2 w1 :
  I (rest w) → time_wf w → due (now w) (pending (interrupt w)) = d1 ++ d2 →
  deliver_all d1 w = Ok (tt, w1) →
  time_wf w1 ∧ I (rest w1) ∧ now w1 = now w ∧ level (interrupt w1) = level (interrupt w) ∧
  status (interrupt w1) = status (interrupt w) ∧ due (now w) (pending (interrupt w1)) = d2 ∧
  (inHandler (interrupt w) = false → inHandler (interrupt w1) = false).
Proof.
  intros HI [Hs Hk Hc] Hdue E. destruct (due_split (now w) _ Hs) as (late & Hp & Hlate).
  rewrite Hdue in Hp. pose proof (Forall_due (now w) (pending (interrupt w))) as Hd.
  rewrite Hdue in Hd. apply Forall_app in Hd as [Hd1 Hd2].
  rewrite <- app_assoc in Hp.
  destruct (deliver_all_ok d1 w (d2 ++ late) HI Hp Hd1) as (w' & new & E' & [] & HI' & Ht & Hih).
  rewrite E in E'. injection E' as <-. simpl in *.
  change (now (set_pending _ w)) with (now w) in *.
  assert (Hnew : Forall (λ e, now w < e.1) new) by (eapply Forall_impl; [exact sc_new0|]; naive_solver).
  rewrite Hp in Hk. apply Forall_app in Hk as [_ Hk].
  split; [|split; [done|split; [done|split; [done|split; [done|split; [|done] ] ] ] ] ].
  - split; [|rewrite sc_pending0, insert_all_perm|auto].
    + rewrite sc_pending0. apply insert_all_sorted. rewrite Hp in Hs.
      apply Sorted_StronglySorted in Hs; [|intros ???; unfold key_le; lia].
      apply StronglySorted_app_1_r in Hs. by apply StronglySorted_Sorted.
    + apply Forall_app. split; [|done]. eapply Forall_impl; [exact sc_new0|]. naive_solver.
  - rewrite sc_pending0, (insert_all_app (now w)) by done. unfold due.
    rewrite filter_app, (filter_none _ (insert_all late new)), app_nil_r.
    + by apply filter_all.
    + intros e He. rewrite insert_all_perm, elem_of_app in He. rewrite Forall_forall in Hnew, Hlate.
      destruct He as [He|He]; [specialize (Hnew e He)|specialize (Hlate e He)]; lia.
Qed.

(** ** OneTick, SetLevel and Idle *)

(** OneTick before the deliveries: the clock moves and interrupts go off. *)
Definition tick w : World H X :=
  let mode := if bool_decide (status (interrupt w) = SystemMode) then SystemMode else UserMode in
  let dt := if bool_decide (status (interrupt w) = SystemMode) then SystemTick else UserTick in
  set_level IntOff (set_stats (spend mode dt (stats w)) w).

Lemma tick_wf w : time_wf w → time_wf (tick w).
Proof. intros []. split; simpl; [done|done|]. by apply spend_ticks. Qed.

Lemma OneTick_interrupts_eq w :
  OneTick_interrupts w = let? r := check_due (tick w) in Ok (tt, set_level IntOn r.2).
Proof. unfold OneTick_interrupts, tick, ChangeLevel. by destruct (status (interrupt w)). Qed.

Lemma OneTick_ok w :
  I (rest w) → time_wf w → status (interrupt w) ≠ IdleMode →
  ∃ w1, deliver_all (due (now (tick w)) (pending (interrupt w))) (tick w) = Ok (tt, w1) ∧
    OneTick_interrupts w = Ok (tt, set_level IntOn (put_back w1)) ∧
    time_wf w1 ∧ I (rest w1) ∧ now w1 = now (tick w) ∧
    status (interrupt w1) = status (interrupt w) ∧
    (inHandler (interrupt w) = false → inHandler (interrupt w1) = false) ∧
    Forall (λ e, now (tick w) < e.1) (pending (interrupt w1)).
Proof.
  intros HI Hwf Hst. pose proof (tick_wf w Hwf) as Hwf1.
  destruct (check_due_ok (tick w)) as (d2 & d1 & w1 & Hd & E1 & E2 & Hend); [done..|].
  destruct (delivered_wf (tick w) d1 d2 w1 HI Hwf1 Hd E1) as (Hwf2 & HI2 & Hn & Hl & Ht & Hdue & Hih).
  assert (d2 = []) as ->.
  { destruct Hend as [->|(e & _ & Hi & _)]; [done|]. rewrite Ht in Hi. by destruct Hst. }
  rewrite app_nil_r in Hd. change (pending (interrupt (tick w))) with (pending (interrupt w)) in Hd.
  rewrite Hd. exists w1. rewrite OneTick_interrupts_eq, E2. simpl.
  split; [done|]. split; [done|]. split; [done|]. split; [done|]. split; [done|]. split; [done|].
  split; [done|]. apply Forall_forall. intros e He. destruct (decide (e.1 ≤ now (tick w))); [|lia].
  assert (e ∈ due (now (tick w)) (pending (interrupt w1))) as Hin by by apply list_elem_of_filter.
  rewrite Hdue in Hin. by apply not_elem_of_nil in Hin.
Qed.

(** The clock advanced, while idle, to the time of the first pending interrupt. *)
Definition advance (k : Z) w : World H X :=
  if k >? now w then set_stats (spend IdleMode (k - now w) (stats w)) w else w.

Lemma advance_now k w : now (advance k w) = Z.max (now w) k.
Proof.
  unfold advance. destruct (Z.gtb_spec k (now w)); [|lia]. unfold now. simpl.
  rewrite (proj1 (spend_ticks _ _ _)). unfold now in *. lia.
Qed.

Lemma Idle_ok w :
  I (rest w) → time_wf w → level (interrupt w) = IntOff →
  match pending (interrupt w) with
  | [] => Idle w = Fail (Exited 0)
  | e :: others =>
      let w0 := set_pending others (advance e.1 (set_status IdleMode w)) in
      if bool_decide (type e.2 = TimerInt) && bool_decide (others = []) then Idle w = Fail (Exited 0)
      else ∃ w1 w2 d1 d2,
        deliver e.2 w0 = Ok (tt, w1) ∧
        due (now w0) (pending (interrupt w1)) = d1 ++ d2 ∧
        deliver_all d1 w1 = Ok (tt, w2) ∧ (d2 = [] ∨ ∃ e, d2 = [e] ∧ lone_timer e w2) ∧
        Idle w = Ok (tt, set_status SystemMode (set_yieldOnReturn false (put_back w2))) ∧
        time_wf w2 ∧ I (rest w2) ∧ now w2 = Z.max (now w) e.1 ∧ level (interrupt w2) = IntOff ∧
        inHandler (interrupt w2) = false
  end.
Proof.
  intros HI [Hs Hk Hc] Hl. unfold Idle, CheckIfDue.
  change (level (interrupt (set_status IdleMode w))) with (level (interrupt w)).
  change (pending (interrupt (set_status IdleMode w))) with (pending (interrupt w)).
  rewrite bool_decide_true by done. cbn [ASSERT res_bind].
  destruct (pending (interrupt w)) as [|[k x] others] eqn:Hp; [done|].
  cbn [negb andb fst snd]. cbv zeta. fold (advance k (set_status IdleMode w)).
  set (wa := advance k (set_status IdleMode w)).
  assert (Hst : status (interrupt wa) = IdleMode ∧ level (interrupt wa) = IntOff ∧ rest wa = rest w ∧
    now wa = Z.max (now w) k ∧ totalTicks (stats wa) =
      idleTicks (stats wa) + systemTicks (stats wa) + userTicks (stats wa)).
  { pose proof (advance_now k (set_status IdleMode w)) as Hn. fold wa in Hn. revert Hn.
    unfold wa, advance. intros Hn. destruct (k >? now (set_status IdleMode w)); cbn [interrupt status set_status
      set_stats set_interrupt level rest stats]; split_and!; try done. by apply spend_ticks. }
  destruct Hst as (Hst & Hlv & Hr & Hn & Hcl). clearbody wa. rewrite Hst.
  rewrite (bool_decide_true (IdleMode = IdleMode)) by done. cbn [andb fst snd]. simpl type.
  destruct (bool_decide (type x = TimerInt) && bool_decide (others = [])); [done|].
  set (w0 := set_pending others wa).
  assert (HI0 : I (rest w0)) by (simpl; by rewrite Hr).
  destruct (deliver_ok x w0 HI0) as (w1 & new & E1 & [] & HI1 & Hi1 & Ht1).
  rewrite E1. cbn [res_bind fst snd].
  apply Forall_cons in Hk as [Hkx Hko]. inversion Hs as [|?? Hso Hhd]; subst.
  assert (Hwf1 : time_wf w1).
  { split; [rewrite sc_pending0; by apply insert_all_sorted| |by apply sc_clock0].
    rewrite sc_pending0, insert_all_perm. apply Forall_app. split; [|done].
    eapply Forall_impl; [exact sc_new0|]. naive_solver. }
  assert (Hl1 : level (interrupt w1) = IntOff) by (rewrite sc_level0; done).
  destruct (check_due_ok w1 HI1 Hl1 Hwf1) as (d2 & d1 & w2 & Hd & E2 & E3 & Hend).
  destruct (delivered_wf w1 d1 d2 w2 HI1 Hwf1 Hd E2) as (Hwf2 & HI2 & Hn2 & Hl2 & _ & _ & Hih2).
  rewrite E3. cbn [res_bind fst snd]. exists w1, w2, d1, d2.
  split; [done|]. split; [by rewrite sc_now0 in Hd|]. split; [done|]. split; [done|]. split; [done|].
  split; [done|]. split; [done|]. split; [rewrite Hn2, sc_now0; exact Hn|].
  split; [congruence|by auto].
Qed.

(** C21. A tick moves the clock by 10 in system mode and by 1 in user mode, and then
    delivers every interrupt that has become due, each once, in the order of the pending
    list, and no other; handlers may schedule more. Afterwards nothing due is pending,
    the list is sorted, every tick is accounted for in one mode, interrupts are on, and
    the fuel of the loop was enough. *)
Theorem OneTick_delivers w :
  I (rest w) → time_wf w → status (interrupt w) ≠ IdleMode →
  let t := now w + (if decide (status (interrupt w) = SystemMode) then 10 else 1) in
  ∃ w1 w2, deliver_all (due t (pending (interrupt w))) (tick w) = Ok (tt, w1) ∧
    OneTick_interrupts w = Ok (tt, w2) ∧
    rest w2 = rest w1 ∧ stats w2 = stats w1 ∧ pending (interrupt w2) ≡ₚ pending (interrupt w1) ∧
    time_wf w2 ∧ now w2 = t ∧ level (interrupt w2) = IntOn ∧
    status (interrupt w2) = status (interrupt w) ∧
    Forall (λ e, now w2 < e.1) (pending (interrupt w2)).
Proof.
  intros HI Hwf Hst t. destruct (OneTick_ok w HI Hwf Hst) as (w1 & E1 & E2 & Hwf1 & HI1 & Hn & Ht & _ & Hp).
  assert (now (tick w) = t) as Htick.
  { unfold tick, now, t. simpl. rewrite (proj1 (spend_ticks _ _ _)). unfold now.
    by case_bool_decide; case_decide. }
  rewrite Htick in *. destruct (put_back_frame w1) as (Fn & Fs & Fr & Fl & Ft & Fy & Fh).
  pose proof (put_back_wf w1 Hwf1) as [].
  exists w1, (set_level IntOn (put_back w1)). split_and!; try done.
  - apply put_back_pending.
  - change (now (put_back w1) = t). by rewrite Fn.
  - simpl. by rewrite Ft.
  - change (now (set_level IntOn (put_back w1))) with (now (put_back w1)). rewrite Fn, Hn. simpl.
    by rewrite put_back_pending.
Qed.

(** C22. With nothing ready to run, [Idle] halts the machine exactly when no interrupt is
    pending or only a timer interrupt is; otherwise it moves the clock to the first
    pending interrupt if that is later, charges the time to idleTicks, and delivers that
    interrupt first and then those due, but not a timer interrupt left alone. *)
Theorem Idle_advances w :
  I (rest w) → time_wf w → level (interrupt w) = IntOff →
  (Idle w = Fail (Exited 0) ↔
    match pending (interrupt w) with
    | [] => True
    | e :: others => type e.2 = TimerInt ∧ others = []
    end) ∧
  (∀ r, Idle w = Ok r →
    ∃ e others w1, pending (interrupt w) = e :: others ∧
      deliver e.2 (set_pending others (advance e.1 (set_status IdleMode w))) = Ok (tt, w1) ∧
      (∃ d1 d2 w2, due (Z.max (now w) e.1) (pending (interrupt w1)) = d1 ++ d2 ∧
        deliver_all d1 w1 = Ok (tt, w2) ∧ rest r.2 = rest w2 ∧
        (d2 = [] ∨ ∃ e', d2 = [e'] ∧ type e'.2 = TimerInt ∧ pending (interrupt w2) = [e'])) ∧
      now r.2 = Z.max (now w) e.1 ∧ time_wf r.2 ∧
      status (interrupt r.2) = SystemMode ∧ yieldOnReturn (interrupt r.2) = false) ∧
  (∃ r, Idle w = r ∧ (r = Fail (Exited 0) ∨ ∃ w', r = Ok (tt, w'))).
Proof.
  intros HI Hwf Hl. pose proof (Idle_ok w HI Hwf Hl) as HId.
  destruct (pending (interrupt w)) as [|e others] eqn:Hp.
  { rewrite HId. split_and!; [done|intros r Hr; discriminate Hr|eauto]. }
  cbv zeta in HId. destruct (bool_decide (type e.2 = TimerInt) && bool_decide (others = [])) eqn:Hb.
  { apply andb_true_iff in Hb as [H1%bool_decide_eq_true H2%bool_decide_eq_true].
    rewrite HId. split_and!; [done|intros r Hr; discriminate Hr|eauto]. }
  destruct HId as (w1 & w2 & d1 & d2 & E1 & E2 & E3 & Hend & E4 & Hwf2 & HI2 & Hn & Hl2 & _).
  rewrite E4. destruct (put_back_frame w2) as (Fn & Fs & Fr & Fl & Ft & Fy & Fh).
  pose proof (put_back_wf w2 Hwf2) as Hwf3. split_and!; [|intros r [= <-]|eauto].
  - split; [intros Hf; discriminate Hf|]. intros [H1 H2].
    rewrite !bool_decide_true in Hb by done. discriminate Hb.
  - exists e, others, w1. split; [done|]. split; [done|]. split.
    { exists d1, d2, w2. split; [|split; [done|split; [done|] ] ].
      - rewrite <- E2. f_equal. symmetry. apply (advance_now e.1 (set_status IdleMode w)).
      - destruct Hend as [->|(e' & -> & H1 & H2 & H3)]; [by left|right; by exists e']. }
    split; [|split; [by destruct Hwf3|done] ]. change (now (put_back w2) = Z.max (now w) e.1).
    by rewrite Fn, Hn.
Qed.
End Facts.

(** ** Runs *)
Section Examples.

(** A device that asks to be called again every 100 ticks, and counts. *)
#[local] Instance beeper : Handlers unit Z := {
  run_handler _ _ n := Ok (n + 1, [ASchedule tt TimerTicks TimerInt; AYieldOnReturn; ACount PageFaults]);
  delayed_load n := Ok n;
}.
#[local] Instance beeper_laws : HandlerLaws beeper (λ _, True).
Proof.
  split; [|by eauto]. intros [] t n _. eexists _, _. split; [reflexivity|]. split; [done|].
  by repeat constructor.
Qed.

Definition beeping : World unit Z :=
  mkWorld (mkInterrupt IntOff
    [(5, mkPending tt 5 TimerInt); (8, mkPending tt 8 DiskInt); (300, mkPending tt 300 TimerInt)]
    false false SystemMode) new_Statistics 0.

Lemma beeping_wf : time_wf beeping.
Proof. split; [|by repeat constructor|done]. repeat constructor; by unfold key_le. Qed.

(** Both due interrupts run, and the clock is at 10. *)
Lemma OneTick_delivers_witness :
  (∃ w1 w2, deliver_all (due 10 (pending (interrupt beeping))) (tick beeping) = Ok (tt, w1) ∧
    OneTick_interrupts beeping = Ok (tt, w2) ∧ rest w2 = rest w1 ∧
    now w2 = 10 ∧ rest w1 = 2 ∧ rest w2 = 2).
Proof.
  destruct (OneTick_delivers beeping I beeping_wf ltac:(discriminate))
    as (w1 & w2 & E1 & E2 & Er & _ & _ & _ & En & _).
  exists w1, w2. split; [exact E1|]. split; [exact E2|]. split; [exact Er|]. split; [exact En|].
  assert (rest w1 = 2).
  { revert E1. vm_compute. intros [= <-]. reflexivity. }
  split; [done|]. by rewrite Er.
Defined.

Lemma Idle_advances_witness :
  (Idle (set_pending [] beeping) = Fail (Exited 0)) ∧
  (∃ r, Idle beeping = Ok r ∧ now r.2 = 5 ∧ idleTicks (stats r.2) = 5 ∧ rest r.2 = 1).
Proof.
  split.
  - apply (Idle_advances (set_pending [] beeping)); [exact I| |reflexivity|exact I].
    split; [constructor|constructor|reflexivity].
  - eexists. split; [vm_compute; reflexivity|]. split; [reflexivity|]. split; reflexivity.
Defined.
End Examples.
