(* ===== verification/Pending.v ===== *)
(** * Invariants that tie pending interrupts to the rest of the kernel

    [J pending yield rest] relates the interrupts still to come, whether the current
    thread has been asked to yield, and the kernel's state. If every handler keeps it, so
    do ticks and idling. *)
From S2P Require Import Prelude LinkedList Interrupt.

Section Joint.
Context {H X : Type} {hs : Handlers H X}.
Implicit Types (w : World H X) (p : list (Z * PendingInterrupt H)).

(** What the requests of a handler that runs at time [t] add to the list. *)
Definition news (t : Z) (l : list (act H)) : list (Z * PendingInterrupt H) :=
  l ≫= λ a, match a with
            | ASchedule h fromNow ty => [(t + fromNow, mkPending h (t + fromNow) ty)]
            | _ => []
            end.
Definition yields (l : list (act H)) : bool :=
  existsb (λ a, match a with AYieldOnReturn => true | _ => false end) l.

Class Joint (J : list (Z * PendingInterrupt H) → bool → X → Prop) := {
  joint_perm p p' y x : p ≡ₚ p' → J p y x → J p' y x;
  joint_fire e p y x t x' acts :
    J (e :: p) y x → run_handler (handler e.2) t x = Ok (x', acts) →
    J (news t acts ++ p) (y || yields acts) x';
  joint_load p y x x' : J p y x → delayed_load x = Ok x' → J p y x';
}.

Context (J : list (Z * PendingInterrupt H) → bool → X → Prop) {joint : Joint J}.

Definition holds w : Prop := J (pending (interrupt w)) (yieldOnReturn (interrupt w)) (rest w).

Lemma run_acts_effect l w w' :
  run_acts l w = Ok (tt, w') →
  pending (interrupt w') ≡ₚ news (now w) l ++ pending (interrupt w) ∧
  yieldOnReturn (interrupt w') = yieldOnReturn (interrupt w) || yields l ∧
  rest w' = rest w ∧ now w' = now w ∧ level (interrupt w') = level (interrupt w).
Proof.
  revert w. induction l as [|a l IH]; intros w E; cbn [run_acts] in E.
  { injection E as <-. by rewrite orb_false_r. }
  apply st_bind_Ok_inv in E as ([] & w1 & E1 & E). destruct (IH w1 E) as (Hp & Hy & Hr & Hn & Hl).
  destruct a as [h n ty| |c]; cbn [run_act] in E1.
  - unfold Schedule in E1. apply res_bind_Ok_inv in E1 as (u & _ & E1). injection E1 as <-.
    cbn in Hp, Hy, Hr, Hl |- *. change (now (set_pending _ w)) with (now w) in *.
    split_and!; try done. rewrite Hp, spec_sorted_insert_perm. symmetry. apply Permutation_middle.
  - unfold YieldOnReturn in E1. apply res_bind_Ok_inv in E1 as (u & _ & E1). injection E1 as <-.
    cbn in Hp, Hy, Hr, Hl |- *. rewrite Hy. split_and!; try done. by rewrite orb_true_r.
  - injection E1 as <-. destruct (bump_ticks c (stats w)) as (Ht & _).
    cbn in Hp, Hy, Hr, Hl |- *.
    assert (Hnow : now (set_stats (bump c (stats w)) w) = now w) by (unfold now; cbn; by rewrite Ht).
    rewrite Hnow in *. by split_and!.
Qed.

Lemma deliver_holds e w w' :
  J (e :: pending (interrupt w)) (yieldOnReturn (interrupt w)) (rest w) →
  deliver e.2 w = Ok (tt, w') → holds w'.
Proof.
  intros HJ E. unfold deliver in E. apply res_bind_Ok_inv in E as (x & Ex & E).
  apply res_bind_Ok_inv in E as ([ [] w2] & Ew & E). injection E as <-. cbn [snd].
  assert (HJx : J (e :: pending (interrupt w)) (yieldOnReturn (interrupt w)) x).
  { case_bool_decide; [by apply (joint_load _ _ (rest w))|by injection Ex as <-]. }
  unfold call_handler in Ew. apply res_bind_Ok_inv in Ew as ([x' acts] & Er & Ew). cbn [fst snd rest] in *.
  pose proof (joint_fire _ _ _ _ _ _ _ HJx Er) as HJ'.
  destruct (run_acts_effect _ _ _ Ew) as (Hp & Hy & Hr & _ & _). unfold holds. cbn in *.
  rewrite Hy, Hr. apply (joint_perm (news (now w) acts ++ pending (interrupt w))); [|done].
  rewrite Hp. done.
Qed.

Lemma CheckIfDue_holds b w r w' :
  holds w → CheckIfDue b w = Ok (r, w') → holds w'.
Proof.
  unfold holds. intros HJ E. unfold CheckIfDue in E. apply res_bind_Ok_inv in E as (u & _ & E).
  destruct (pending (interrupt w)) as [|[k x] others] eqn:Hp; [by injection E as <- <-; rewrite Hp|].
  assert (Hback : J (spec_sorted_insert x k others) (yieldOnReturn (interrupt w)) (rest w)).
  { apply (joint_perm ((k, x) :: others)); [|done]. by rewrite spec_sorted_insert_perm. }
  destruct (negb b && (k >? now w)); [injection E as <- <-; exact Hback|].
  set (w1 := if b && (k >? now w) then _ else w) in E.
  assert (Hw1 : yieldOnReturn (interrupt w1) = yieldOnReturn (interrupt w) ∧ rest w1 = rest w)
    by (unfold w1; by destruct (b && _)).
  destruct Hw1 as [Hy Hr]. clearbody w1.
  destruct (_ && bool_decide (others = [])); [injection E as <- <-; cbn; by rewrite Hy, Hr|].
  apply res_bind_Ok_inv in E as ([ [] w2] & Ed & E). injection E as <- <-. cbn [snd].
  apply (deliver_holds (k, x) (set_pending others w1)); [cbn; by rewrite Hy, Hr|done].
Qed.

Lemma check_all_holds n w w' : holds w → check_all n w = Ok (tt, w') → holds w'.
Proof.
  revert w. induction n as [|n IH]; intros w HJ E; [done|]. cbn [check_all] in E.
  apply res_bind_Ok_inv in E as ([r w1] & E1 & E). pose proof (CheckIfDue_holds _ _ _ _ HJ E1) as HJ1.
  destruct r; [by apply (IH w1)|by injection E as <-].
Qed.

Lemma OneTick_holds w w' : holds w → OneTick_interrupts w = Ok (tt, w') → holds w'.
Proof.
  intros HJ E. rewrite OneTick_interrupts_eq in E. apply res_bind_Ok_inv in E as ([ [] w1] & E1 & E).
  injection E as <-. exact (check_all_holds _ (tick w) w1 HJ E1).
Qed.

Lemma Idle_holds w w' :
  (∀ p x, J p true x → J p false x) → holds w → Idle w = Ok (tt, w') → holds w'.
Proof.
  intros Hy HJ E. unfold Idle in E. apply res_bind_Ok_inv in E as ([r w1] & E1 & E).
  pose proof (CheckIfDue_holds _ _ _ _ (HJ : holds (set_status IdleMode w)) E1) as HJ1.
  cbn [fst snd] in E. destruct r; [|done]. apply res_bind_Ok_inv in E as ([ [] w2] & E2 & E).
  pose proof (check_all_holds _ _ _ HJ1 E2) as HJ2. injection E as <-. unfold holds in *. cbn.
  destruct (yieldOnReturn (interrupt w2)); auto.
Qed.
End Joint.

(** Idling with no timer about leaves nothing due, and the clock moves. *)
Section Late.
Context {H X : Type} {hs : Handlers H X} {I : X → Prop} {laws : HandlerLaws hs I}.
Implicit Types (w : World H X).

Lemma Idle_late w w' :
  I (rest w) → time_wf w → level (interrupt w) = IntOff → Idle w = Ok (tt, w') →
  Forall (λ e, type e.2 ≠ TimerInt) (pending (interrupt w')) →
  Forall (λ e, now w' < e.1) (pending (interrupt w')) ∧ now w ≤ now w' ∧
  (Forall (λ e, now w < e.1) (pending (interrupt w)) → now w < now w').
Proof.
  intros HI Hwf Hl E Hcalm. pose proof (Idle_ok w HI Hwf Hl) as Hok.
  destruct (pending (interrupt w)) as [|e others] eqn:Hp; [congruence|]. cbv zeta in Hok.
  destruct (_ && _); [congruence|].
  destruct Hok as (w1 & w2 & d1 & d2 & E1 & Hd & E2 & Hend & E3 & Hwf2 & HI2 & Hn & _).
  rewrite E3 in E. injection E as <-. destruct (put_back_frame w2) as (Fn & _).
  pose proof (put_back_pending w2) as Hpb. cbn in Hcalm |- *.
  change (now (set_status _ _)) with (now (put_back w2)). rewrite Fn.
  assert (Hd2 : d2 = []).
  { destruct Hend as [->|(e' & -> & _ & Ht & Hp2)]; [done|]. rewrite Hpb, Hp2, Forall_singleton in Hcalm. done. }
  subst d2. rewrite app_nil_r in Hd.
  set (w0 := set_pending others (advance e.1 (set_status IdleMode w))) in *.
  assert (Hwf0 : time_wf w0).
  { destruct Hwf as [Hs Hk Hc]. rewrite Hp in Hs, Hk. split; cbn.
    - by inversion Hs.
    - by inversion Hk.
    - unfold advance. destruct (e.1 >? _); [by apply spend_ticks|done]. }
  assert (Hn0 : now w0 = Z.max (now w) e.1) by (change (now w0) with (now (advance e.1 (set_status IdleMode w))); by rewrite advance_now).
  assert (HI0 : I (rest w0)) by (unfold w0, advance; cbn; by destruct (e.1 >? _)).
  destruct (deliver_ok e.2 w0 HI0) as (w1' & new & E1' & Hsc & HI1 & _).
  assert (w1' = w1) as -> by congruence.
  destruct (delivered_wf w1 d1 [] w2 HI1 (scheduled_wf _ _ _ Hwf0 Hsc)) as (_ & _ & Hn2 & _ & _ & Hdue & _); [|done|].
  { rewrite app_nil_r, (sc_now _ _ _ Hsc). done. }
  split; [|split; [lia|] ].
  - rewrite Hpb. apply Forall_forall. intros x Hx. destruct (decide (x.1 ≤ now w1)) as [Hle|]; [|lia].
    assert (x ∈ due (now w1) (pending (interrupt w2))) as Hin by by apply list_elem_of_filter.
    rewrite Hdue in Hin. by apply elem_of_nil in Hin.
  - intros Hlate. apply Forall_cons in Hlate as [Hlate _]. lia.
Qed.
End Late.
