(* ===== verification/Disk.v ===== *)
(** * The simulated disk (machine/disk.cc, disk.h)

    The UNIX file behind the disk is its list of sectors; DiskFile.v has the file. A request is a function of the
    clock and the disk; what it asks of the interrupt system is the list of [act] it
    returns. *)
From S2P Require Import Prelude Words LinkedList Interrupt SectorIO.

Definition MagicNumber : Z := 0x456789ab.
Definition MagicSize : Z := 4.
Definition DiskSize : Z := MagicSize + NumSectors * SectorSize.

(** class Disk; [store] is the file after the magic number. *)
Record Disk := mkDisk {
  store : list (list Z);
  active : bool;
  lastSector : Z;
  bufferInit : Z }.

(** [file]: the magic number and the sectors of the file if it exists. A new file is
    made by writing past its end, which reads as zeros. *)
Definition new_Disk (file : option (Z * list (list Z))) : res Disk :=
  match file with
  | Some (magicNum, sectors) =>
      let? _ := ASSERT (magicNum =? MagicNumber) in Ok (mkDisk sectors false 0 0)
  | None => Ok (mkDisk mem_blank false 0 0)
  end.

(** The time to the new track, and the wait for the next whole sector in [rotate]. The
    clock is a [long long], the results are [int]. *)
Definition TimeToSeek (totalTicks : Z) (d : Disk) (newSector : Z) : Z * Z :=
  let newTrack := Z.quot newSector SectorsPerTrack in
  let oldTrack := Z.quot (lastSector d) SectorsPerTrack in
  let seek := int32 (Z.abs (newTrack - oldTrack) * SeekTime) in
  let over := int32 (Z.rem (totalTicks + seek) RotationTime) in
  let rotate := if over >? 0 then RotationTime - over else 0 in
  (seek, rotate).

Definition ModuloDiff (to from : Z) : Z :=
  let toOffset := Z.rem to SectorsPerTrack in
  let fromOffset := Z.rem from SectorsPerTrack in
  Z.rem ((toOffset - fromOffset) + SectorsPerTrack) SectorsPerTrack.

Definition ComputeLatency (totalTicks : Z) (d : Disk) (newSector : Z) (writing : bool) : Z :=
  let '(seek, rotation) := TimeToSeek totalTicks d newSector in
  let timeAfter := int32 (totalTicks + seek + rotation) in
  if negb writing && (seek =? 0) &&
     (Z.quot (int32 (timeAfter - bufferInit d)) RotationTime >?
      ModuloDiff newSector (Z.quot (bufferInit d) RotationTime))
  then RotationTime
  else
    let rotation :=
      rotation + ModuloDiff newSector (Z.quot timeAfter RotationTime) * RotationTime in
    seek + rotation + RotationTime.

Definition UpdateLast (totalTicks : Z) (newSector : Z) (d : Disk) : Disk :=
  let '(seek, rotate) := TimeToSeek totalTicks d newSector in
  mkDisk (store d) (active d) newSector
    (if negb (seek =? 0) then int32 (totalTicks + seek + rotate) else bufferInit d).

Definition set_active (b : bool) (d : Disk) : Disk :=
  mkDisk (store d) b (lastSector d) (bufferInit d).

Section Requests.
Context {H : Type} (DiskDone : H).

Definition ReadRequest (totalTicks sectorNumber : Z) (d : Disk)
    : res (list Z * Disk * list (act H)) :=
  let ticks := ComputeLatency totalTicks d sectorNumber false in
  let? _ := ASSERT (negb (active d)) in
  let? _ := ASSERT ((sectorNumber >=? 0) && (sectorNumber <? NumSectors)) in
  let? data := arr_get (store d) sectorNumber in
  let d := UpdateLast totalTicks sectorNumber (set_active true d) in
  Ok (data, d, [ACount DiskReads; ASchedule DiskDone ticks DiskInt]).

Definition WriteRequest (totalTicks sectorNumber : Z) (data : list Z) (d : Disk)
    : res (Disk * list (act H)) :=
  let ticks := ComputeLatency totalTicks d sectorNumber true in
  let? _ := ASSERT (negb (active d)) in
  let? _ := ASSERT ((sectorNumber >=? 0) && (sectorNumber <? NumSectors)) in
  let? store := arr_set (store d) sectorNumber data in
  let d := UpdateLast totalTicks sectorNumber
             (set_active true (mkDisk store (active d) (lastSector d) (bufferInit d))) in
  Ok (d, [ACount DiskWrites; ASchedule DiskDone ticks DiskInt]).
End Requests.

(** The disk's part of HandleInterrupt; the handler it then calls is
    [SynchDisk::RequestDone]. *)
Definition HandleInterrupt (d : Disk) : Disk := set_active false d.

(** The words PrintSector shows. *)
Definition PrintSector (data : list Z) : list Z := bytes_uints (Z.to_nat (SectorSize / 4)) data.

(** ** Facts *)

Lemma ModuloDiff_range to from : 0 ≤ to → 0 ≤ ModuloDiff to from < SectorsPerTrack.
Proof. unfold ModuloDiff, SectorsPerTrack. intros. Z.to_euclidean_division_equations. lia. Qed.

Lemma TimeToSeek_range t d s :
  0 ≤ t → valid_sector (lastSector d) → valid_sector s →
  let '(seek, rotate) := TimeToSeek t d s in
  seek = Z.abs (s / 32 - lastSector d / 32) * 500 ∧ 0 ≤ seek ≤ 15500 ∧ 0 ≤ rotate < 500 ∧
  (t + seek + rotate) mod 500 = 0.
Proof.
  intros Ht Hl Hs. unfold TimeToSeek, SeekTime, RotationTime, SectorsPerTrack.
  unfold valid_sector, NumSectors, SectorsPerTrack, NumTracks in *.
  rewrite !Z.quot_div_nonneg by lia.
  assert (0 ≤ Z.abs (s / 32 - lastSector d / 32) ≤ 31) as Hk by (Z.to_euclidean_division_equations; lia).
  set (k := Z.abs _) in *. rewrite (int32_id (k * 500)) by (unfold is_int32; lia).
  rewrite Z.rem_mod_nonneg by lia.
  pose proof (Z.mod_pos_bound (t + k * 500) 500). rewrite int32_id by (unfold is_int32; lia).
  destruct (Z.gtb_spec ((t + k * 500) mod 500) 0); split_and!; try lia;
    Z.to_euclidean_division_equations; lia.
Qed.

(** When the sector [s] has passed under the head: the transfer takes the rotation time
    number [p], counted from the start of the machine. *)
Definition passes (s p : Z) : Prop := 0 ≤ p ∧ p mod SectorsPerTrack = s mod SectorsPerTrack.

Lemma ModuloDiff_passes s p :
  0 ≤ s → 0 ≤ p → passes s (p + ModuloDiff s p) ∧
  ∀ q, p ≤ q → passes s q → p + ModuloDiff s p ≤ q.
Proof.
  intros Hs Hp. pose proof (ModuloDiff_range s p Hs) as Hr. unfold passes, ModuloDiff, SectorsPerTrack in *.
  rewrite !Z.rem_mod_nonneg in * by (Z.to_euclidean_division_equations; lia).
  split; [|intros q Hq [Hq0 Hqs] ]; Z.to_euclidean_division_equations; lia.
Qed.

Lemma ComputeLatency_range t d s writing :
  0 ≤ t → valid_sector (lastSector d) → valid_sector s →
  RotationTime ≤ ComputeLatency t d s writing < 64 * RotationTime.
Proof.
  intros Ht Hl Hs. unfold ComputeLatency. pose proof (TimeToSeek_range t d s Ht Hl Hs) as H.
  destruct (TimeToSeek t d s) as [seek rotate]. destruct H as (_ & Hk & Hr & _).
  destruct (_ && _); unfold RotationTime; [lia|].
  pose proof (ModuloDiff_range s (Z.quot (int32 (t + seek + rotate)) 500)) as Hd.
  unfold valid_sector, SectorsPerTrack in *. specialize (Hd ltac:(lia)). lia.
Qed.

(** The disk between requests, at a time of the clock that fits an [int]. *)
Record disk_ok (t : Z) (d : Disk) : Prop := {
  dk_ready : mem_ready (store d);
  dk_last : valid_sector (lastSector d);
  dk_clock : 0 ≤ t < 2147483648 - 64 * RotationTime;
  dk_buffer : 0 ≤ bufferInit d < 2147483648;
  dk_aligned : bufferInit d mod RotationTime = 0;
}.

Lemma UpdateLast_ok t s d : disk_ok t d → valid_sector s → disk_ok t (UpdateLast t s d).
Proof.
  intros [Hm Hl Hc Hb Ha] Hs. unfold UpdateLast.
  pose proof (TimeToSeek_range t d s (proj1 Hc) Hl Hs) as H.
  destruct (TimeToSeek t d s) as [k rotate]. destruct H as (_ & Hk & Hr & Hm').
  unfold RotationTime in *. split; simpl; try done.
  - destruct (negb _); [|done]. rewrite int32_id by (unfold is_int32; lia). lia.
  - destruct (negb _); [|done]. rewrite int32_id by (unfold is_int32; lia). done.
Qed.

(** The track buffer has the sector: a read, no seek, and a whole passage of the sector
    since the buffer began to load, over when the head reaches the next sector boundary. *)
Definition buffered (t : Z) (d : Disk) (s : Z) (writing : bool) : Prop :=
  writing = false ∧ s / SectorsPerTrack = lastSector d / SectorsPerTrack ∧
  ∃ p, passes s p ∧ bufferInit d ≤ p * RotationTime ∧ (p + 1) * RotationTime < t + RotationTime.

(** The test of ComputeLatency is that condition: [b] is the rotation that began to load
    the buffer, [a] the one the head can start with. *)
Lemma buffer_test s a b :
  0 ≤ s → 0 ≤ b →
  (Z.quot (a * 500 - b * 500) 500 >? ModuloDiff s b) = true ↔
  ∃ p, passes s p ∧ b ≤ p ∧ p < a.
Proof.
  intros Hs Hb. destruct (ModuloDiff_passes s b Hs Hb) as [Hp Hq].
  pose proof (ModuloDiff_range s b Hs) as Hr.
  rewrite <- Z.mul_sub_distr_r, Z.quot_mul, Z.gtb_gt by lia. split.
  - intros Hlt. exists (b + ModuloDiff s b). split; [done | lia].
  - intros (p & Hps & Hbp & Hpa). pose proof (Hq p Hbp Hps). lia.
Qed.

(** C31. As long as the clock fits an [int], a request takes the time the comments of
    the disk promise. A read on the track already under the head of a sector that has
    passed since the track buffer began to load takes one rotation time, wherever the
    sector is. Any other request takes the seek, the wait until the sector next comes
    under the head after the seek, and its transfer, ending on a sector boundary - no
    earlier passage of the sector would do. *)
Theorem ComputeLatency_correct t d s writing :
  disk_ok t d → valid_sector s →
  let latency := ComputeLatency t d s writing in
  let seek := Z.abs (s / SectorsPerTrack - lastSector d / SectorsPerTrack) * SeekTime in
  (buffered t d s writing → latency = RotationTime) ∧
  (¬ buffered t d s writing →
   ∃ p, passes s p ∧ t + seek ≤ p * RotationTime ∧ t + latency = (p + 1) * RotationTime ∧
     ∀ q, passes s q → t + seek ≤ q * RotationTime → p ≤ q).
Proof.
  intros [Hm Hl Hc Hb Ha] Hs latency seek. unfold latency, ComputeLatency.
  pose proof (TimeToSeek_range t d s (proj1 Hc) Hl Hs) as H.
  destruct (TimeToSeek t d s) as [k rotate]. destruct H as (Hk & Hk' & Hr & Hm').
  unfold RotationTime, SectorsPerTrack in *.
  replace seek with k by (unfold seek, SeekTime; lia). clear seek.
  unfold valid_sector in Hs. rewrite (int32_id (t + k + rotate)) by (unfold is_int32; lia).
  rewrite (int32_id (t + k + rotate - bufferInit d)) by (unfold is_int32; lia).
  rewrite !(Z.quot_div_nonneg (t + k + rotate)), (Z.quot_div_nonneg (bufferInit d)) by lia.
  set (b := bufferInit d / 500) in *. set (a := (t + k + rotate) / 500).
  assert (Ea : t + k + rotate = a * 500) by (unfold a; Z.to_euclidean_division_equations; lia).
  assert (Eb : bufferInit d = b * 500) by (unfold b; Z.to_euclidean_division_equations; lia).
  assert (0 ≤ b) by lia. clearbody a b. rewrite Ea, Eb.
  pose proof (buffer_test s a b ltac:(lia) ltac:(lia)) as Hbuf.
  assert (Hiff : negb writing && (k =? 0) && (Z.quot (a * 500 - b * 500) 500 >? ModuloDiff s b) = true
                 ↔ buffered t d s writing).
  { unfold buffered, RotationTime, SectorsPerTrack.
    rewrite !andb_true_iff, negb_true_iff, Z.eqb_eq, Hbuf, Eb. split.
    - intros [[Hw Hk0] (p & Hp & Hbp & Hpa)]. split; [done|]. split; [lia|].
      exists p. split; [done | lia].
    - intros (Hw & Hk0 & p & Hp & Hbp & Hpa). split; [split; [done | lia]|].
      exists p. split; [done | lia]. }
  destruct (_ && _) eqn:Ht; [split; [done | by intros Hn; destruct Hn; apply Hiff]|].
  split; [by intros ?%Hiff|]. intros _. destruct (ModuloDiff_passes s a) as [Hp Hq]; [lia | lia |].
  exists (a + ModuloDiff s a). split; [exact Hp|]. pose proof (ModuloDiff_range s a ltac:(lia)).
  split; [lia|]. split; [lia|]. intros q Hpq Hle. apply Hq; [lia | done].
Qed.

(** Two reads on the first track at tick 1234, the buffer loading since the start: sector
    1 has passed in rotation 1 and comes from the buffer, sector 7 has not passed yet;
    and a write of sector 1, which waits for its next passage, in rotation 33. *)
Lemma ComputeLatency_correct_witness :
  let d := mkDisk mem_blank false 0 0 in
  disk_ok 1234 d ∧ ComputeLatency 1234 d 1 false = 500 ∧
  (∃ p, passes 7 p ∧ 1234 ≤ p * 500 ∧ 1234 + ComputeLatency 1234 d 7 false = (p + 1) * 500) ∧
  (∃ p, passes 1 p ∧ 1234 ≤ p * 500 ∧ 1234 + ComputeLatency 1234 d 1 true = (p + 1) * 500).
Proof.
  intros d. assert (Hd : disk_ok 1234 d).
  { split; simpl; try (unfold valid_sector, RotationTime; vm_compute; intuition discriminate).
    exact mem_blank_ready. }
  assert (H1 : valid_sector 1) by (split; done). assert (H7 : valid_sector 7) by (split; done).
  split; [exact Hd|]. split; [|split].
  - apply (ComputeLatency_correct 1234 d 1 false Hd H1). split; [done|]. split; [done|].
    exists 1. split; [split; done | done].
  - destruct (ComputeLatency_correct 1234 d 7 false Hd H7) as [_ Hn].
    destruct Hn as (p & Hp & Hle & He & _); [|exists p; split; [exact Hp|]; split; [exact Hle | exact He] ].
    intros (_ & _ & p & [Hp0 Hp] & _ & Hlt). change (7 mod SectorsPerTrack) with 7 in Hp.
    unfold RotationTime in Hlt. pose proof (Z.mod_le p SectorsPerTrack Hp0 ltac:(done)). lia.
  - destruct (ComputeLatency_correct 1234 d 1 true Hd H1) as [_ Hn].
    destruct Hn as (p & Hp & Hle & He & _); [by intros [? _]|].
    exists p. split; [exact Hp|]. split; [exact Hle | exact He].
Defined.

(** ** Requests *)

(** What the kernel keeps of the disk whatever the clock says. *)
Record disk_wf (d : Disk) : Prop := {
  dw_ready : mem_ready (store d);
  dw_last : valid_sector (lastSector d);
}.

Lemma UpdateLast_wf t s d : disk_wf d → valid_sector s → disk_wf (UpdateLast t s d).
Proof. intros [] Hs. unfold UpdateLast. destruct (TimeToSeek t d s). by split. Qed.

Lemma UpdateLast_frame t s d :
  store (UpdateLast t s d) = store d ∧ active (UpdateLast t s d) = active d.
Proof. unfold UpdateLast. by destruct (TimeToSeek t d s). Qed.

Section RequestFacts.
Context {H : Type} (DiskDone : H).

Lemma valid_sector_check s :
  valid_sector s → (s >=? 0) && (s <? NumSectors) = true.
Proof. unfold valid_sector. intros Hs. apply andb_true_iff. lia. Qed.

(** A request while one is in progress, or for a sector that is not on the disk, stops
    at an assertion. *)
Lemma ReadRequest_busy t s d :
  active d = true ∨ ¬ valid_sector s → ReadRequest DiskDone t s d = Fail AssertFailure.
Proof.
  intros Hs. unfold ReadRequest. destruct (active d) eqn:Ha; [done|].
  destruct Hs as [|Hs]; [done|]. cbn [negb ASSERT res_bind].
  destruct ((s >=? 0) && (s <? NumSectors)) eqn:E; [|done].
  exfalso. apply Hs. unfold valid_sector. lia.
Qed.

Lemma WriteRequest_busy t s data d :
  active d = true ∨ ¬ valid_sector s → WriteRequest DiskDone t s data d = Fail AssertFailure.
Proof.
  intros Hs. unfold WriteRequest. destruct (active d) eqn:Ha; [done|].
  destruct Hs as [|Hs]; [done|]. cbn [negb ASSERT res_bind].
  destruct ((s >=? 0) && (s <? NumSectors)) eqn:E; [|done].
  exfalso. apply Hs. unfold valid_sector. lia.
Qed.

Lemma ReadRequest_ok t s d :
  disk_wf d → active d = false → valid_sector s → 0 ≤ t →
  ∃ d' ticks, ReadRequest DiskDone t s d =
      Ok (mem_sector (store d) s, d', [ACount DiskReads; ASchedule DiskDone ticks DiskInt]) ∧
    500 ≤ ticks < 32000 ∧ disk_wf d' ∧ active d' = true ∧ store d' = store d ∧
    (disk_ok t d → disk_ok t d').
Proof.
  intros Hd Ha Hs Ht. pose proof (dw_last _ Hd) as Hl.
  pose proof (ComputeLatency_range t d s false Ht Hl Hs) as Hr. unfold RotationTime in Hr.
  unfold ReadRequest. rewrite Ha, valid_sector_check by done. cbn [negb ASSERT res_bind].
  destruct (dw_ready _ Hd) as (Hlen & Hf). unfold valid_sector in Hs.
  destruct (arr_get_in (store d) s) as (x & -> & Hx); [lia|]. cbn [res_bind].
  destruct (UpdateLast_frame t s (set_active true d)) as [F1 F2].
  eexists _, _. split.
  { unfold mem_sector. rewrite decide_True, Hx by lia. reflexivity. }
  split; [lia|]. split; [by apply UpdateLast_wf; [destruct Hd|] |].
  split; [done|]. split; [done|]. intros Hok. apply UpdateLast_ok; [|done]. by destruct Hok.
Qed.

Lemma WriteRequest_ok t s data d :
  disk_wf d → active d = false → valid_sector s → 0 ≤ t → length data = Z.to_nat SectorSize →
  ∃ d' ticks, WriteRequest DiskDone t s data d =
      Ok (d', [ACount DiskWrites; ASchedule DiskDone ticks DiskInt]) ∧
    500 ≤ ticks < 32000 ∧ disk_wf d' ∧ active d' = true ∧
    (∀ m, mem_sector (store d') m = if decide (m = s) then data else mem_sector (store d) m) ∧
    (disk_ok t d → disk_ok t d').
Proof.
  intros Hd Ha Hs Ht Hdata. pose proof (dw_last _ Hd) as Hl.
  pose proof (ComputeLatency_range t d s true Ht Hl Hs) as Hr. unfold RotationTime in Hr.
  unfold WriteRequest. rewrite Ha, valid_sector_check by done. cbn [negb ASSERT res_bind].
  destruct (@WriteSector_ok _ mem_device (store d) s data (dw_ready _ Hd) Hs Hdata) as (st & E & Hst & Hsec).
  revert E. unfold WriteSector, mem_device, mem_write.
  destruct (arr_set (store d) s data) as [st'|]; [|done]. intros [= ->]. cbn [res_bind].
  set (d1 := mkDisk st false (lastSector d) (bufferInit d)).
  destruct (UpdateLast_frame t s (set_active true d1)) as [F1 F2].
  eexists _, _. split; [reflexivity|]. fold d1.
  split; [lia|]. split; [by apply UpdateLast_wf; [split|] |].
  split; [done|]. split; [by rewrite F1|]. intros Hok. apply UpdateLast_ok; [|done]. by destruct Hok.
Qed.
End RequestFacts.
