(* ===== verification/DiskFile.v ===== *)
(** * The UNIX file behind the simulated disk (machine/disk.cc)

    The class Disk as it is written, with its sectors in a file of the host behind a magic
    number; Disk.v has the sectors themselves. The two go together, request by request,
    and the file is what the next Nachos starts from. *)
From S2P Require Import Prelude Words Sysdep SectorIO Interrupt Disk.
Import Sysdep.

Module DiskFile.

(** class Disk *)
Record Disk := mkDisk {
  fileno : Z;
  active : bool;
  lastSector : Z;
  bufferInit : Z }.

(** The disk of Disk.v with the sectors [s]. The times do not depend on them. *)
Definition with_store (s : list (list Z)) (d : Disk) : Disk.Disk :=
  Disk.mkDisk s (active d) (lastSector d) (bufferInit d).
Definition of_sectors (fileno : Z) (d : Disk.Disk) : Disk :=
  mkDisk fileno (Disk.active d) (Disk.lastSector d) (Disk.bufferInit d).

Definition ComputeLatency (totalTicks : Z) (d : Disk) (newSector : Z) (writing : bool) : Z :=
  Disk.ComputeLatency totalTicks (with_store [] d) newSector writing.
Definition UpdateLast (totalTicks newSector : Z) (d : Disk) : Disk :=
  of_sectors (fileno d) (Disk.UpdateLast totalTicks newSector (with_store [] d)).
Definition set_active (b : bool) (d : Disk) : Disk :=
  mkDisk (fileno d) b (lastSector d) (bufferInit d).

(** ** The operations *)

Section Operations.
Context (permits : list Z → bool) (room : Z).

Definition new_Disk (nm : list Z) : ST Host Disk :=
  let* fileno := OpenForReadWrite permits nm false in
  let* fileno :=
    if fileno >=? 0 then
      let* magicNum := Read fileno MagicSize in
      let* _ := st_lift (ASSERT (bytes_int magicNum =? MagicNumber)) in
      st_ret fileno
    else
      let* fileno := OpenForWrite permits nm in
      let* _ := WriteFile room fileno (int_bytes MagicNumber) MagicSize in
      let* _ := Lseek fileno (DiskSize - 4) SEEK_SET in
      let* _ := WriteFile room fileno (int_bytes 0) 4 in
      st_ret fileno in
  st_ret (mkDisk fileno false 0 0).

Definition delete_Disk (d : Disk) : ST Host unit := Close (fileno d).

Context {H : Type} (DiskDone : H).

Definition ReadRequest (totalTicks sectorNumber : Z) (d : Disk)
    : ST Host (list Z * Disk * list (act H)) :=
  let ticks := ComputeLatency totalTicks d sectorNumber false in
  let* _ := st_lift (ASSERT (negb (active d))) in
  let* _ := st_lift (ASSERT ((sectorNumber >=? 0) && (sectorNumber <? NumSectors))) in
  let* _ := Lseek (fileno d) (SectorSize * sectorNumber + MagicSize) SEEK_SET in
  let* data := Read (fileno d) SectorSize in
  let d := UpdateLast totalTicks sectorNumber (set_active true d) in
  st_ret (data, d, [ACount DiskReads; ASchedule DiskDone ticks DiskInt]).

Definition WriteRequest (totalTicks sectorNumber : Z) (data : list Z) (d : Disk)
    : ST Host (Disk * list (act H)) :=
  let ticks := ComputeLatency totalTicks d sectorNumber true in
  let* _ := st_lift (ASSERT (negb (active d))) in
  let* _ := st_lift (ASSERT ((sectorNumber >=? 0) && (sectorNumber <? NumSectors))) in
  let* _ := Lseek (fileno d) (SectorSize * sectorNumber + MagicSize) SEEK_SET in
  let* _ := WriteFile room (fileno d) data SectorSize in
  let d := UpdateLast totalTicks sectorNumber (set_active true d) in
  st_ret (d, [ACount DiskWrites; ASchedule DiskDone ticks DiskInt]).

Definition HandleInterrupt (d : Disk) : Disk := set_active false d.
End Operations.

(** ** The image of a disk *)

(** [b] is a file with the number [magic] and the sectors [s]. *)
Definition image (magic : Z) (s : list (list Z)) (b : list Z) : Prop :=
  mem_ready s ∧ ∃ tail, b = int_bytes magic ++ mjoin s ++ tail.

(** What the host has under a name: nothing, or the image of a disk. *)
Definition on_host (nm : list Z) (h : Host) (file : option (Z * list (list Z))) : Prop :=
  match file with
  | Some (magic, s) =>
      ∃ i b, names h !! nm = Some i ∧ nodes h !! i = Some b ∧ image magic s b ∧ is_int32 magic
  | None => names h !! nm = None
  end.

(** Arithmetic with the constants of the disk. *)
Ltac disk_lia :=
  unfold DiskSize, SectorSize, MagicSize, NumSectors, SectorsPerTrack, NumTracks in *; lia.

Section Image.
Implicit Types (s : list (list Z)) (b : list Z).

Lemma length_join k s :
  Forall (λ d, length d = k) s → length (mjoin s) = (k * length s)%nat.
Proof. induction 1 as [|d s Hd _ IH]; simpl; [lia|]. rewrite length_app. lia. Qed.

Lemma join_split k s n d :
  Forall (λ d, length d = k) s → s !! n = Some d →
  mjoin s = mjoin (take n s) ++ d ++ mjoin (drop (S n) s) ∧ length (mjoin (take n s)) = (k * n)%nat ∧
  length d = k.
Proof.
  intros Hs Hn. split_and!.
  - rewrite <- (take_drop_middle s n d Hn) at 1. by rewrite join_app.
  - rewrite (length_join k) by by apply Forall_take. rewrite length_take.
    apply lookup_lt_Some in Hn. lia.
  - by rewrite Forall_lookup in Hs; eapply Hs.
Qed.

Lemma length_image magic s b : image magic s b → DiskSize ≤ Z.of_nat (length b).
Proof.
  intros ([Hl Hs] & tail & ->). rewrite !length_app. rewrite (length_join 128) by done.
  change (length (int_bytes magic)) with 4%nat. rewrite Hl.
  change (Z.to_nat NumSectors) with (Z.to_nat 1024). change DiskSize with 131076. lia.
Qed.

Lemma image_lookup magic s b n :
  image magic s b → 0 ≤ n < NumSectors →
  ∃ d, s !! Z.to_nat n = Some d ∧ slice b (Z.to_nat (SectorSize * n + MagicSize)) 128 = d.
Proof.
  intros ([Hl Hs] & tail & ->) Hn.
  destruct (lookup_lt_is_Some_2 s (Z.to_nat n)) as [d Hd]; [rewrite Hl; lia|].
  exists d. split; [done|]. destruct (join_split 128 s _ d Hs Hd) as (E & Hp & Hdl).
  rewrite E, <- !(assoc_L (++)), (assoc_L (++) (int_bytes magic)). unfold slice.
  rewrite drop_app_length'; [|rewrite length_app, Hp; change (length (int_bytes magic)) with 4%nat;
    unfold SectorSize, MagicSize; lia].
  by apply take_app_length'.
Qed.

Lemma image_insert magic s b n data :
  image magic s b → 0 ≤ n < NumSectors → length data = 128%nat →
  image magic (<[Z.to_nat n := data]> s) (splice b (Z.to_nat (SectorSize * n + MagicSize)) data).
Proof.
  intros ([Hl Hs] & tail & ->) Hn Hd. split; [split; [by rewrite length_insert | by apply Forall_insert]|].
  exists tail. destruct (lookup_lt_is_Some_2 s (Z.to_nat n)) as [d Hlk]; [rewrite Hl; lia|].
  destruct (join_split 128 s _ d Hs Hlk) as (E & Hp & Hdl).
  destruct (join_split 128 (<[Z.to_nat n := data]> s) (Z.to_nat n) data) as (-> & _ & _).
  { by apply Forall_insert. }
  { apply list_lookup_insert_eq. rewrite Hl. lia. }
  rewrite take_insert_ge, drop_insert_lt, E by lia. unfold splice.
  set (p := mjoin (take (Z.to_nat n) s)) in *. set (q := mjoin (drop (S (Z.to_nat n)) s)).
  assert (Ho : Z.to_nat (SectorSize * n + MagicSize) = length (int_bytes magic ++ p)).
  { rewrite length_app, Hp. change (length (int_bytes magic)) with 4%nat. unfold SectorSize, MagicSize. lia. }
  rewrite <- !(assoc_L (++)), (assoc_L (++) (int_bytes magic)), Ho, take_app_length, Hd, <- Hdl.
  rewrite (assoc_L (++) _ d), drop_app_length' by (by rewrite !length_app). by rewrite <- !(assoc_L (++)).
Qed.

Lemma join_blank n k : mjoin (replicate n (replicate k 0)) = replicate (n * k) 0.
Proof. induction n as [|n IH]; simpl; [done|]. by rewrite IH, replicate_add. Qed.

(** The file the constructor makes. *)
Lemma image_new magic : image magic mem_blank (put (int_bytes 0) (DiskSize - 4) (int_bytes magic)).
Proof.
  split; [apply mem_blank_ready|]. exists []. unfold mem_blank. rewrite join_blank, app_nil_r.
  change (put (int_bytes 0) (DiskSize - 4) (int_bytes magic))
    with (take (Z.to_nat (DiskSize - 4)) (int_bytes magic ++ replicate (Z.to_nat (DiskSize - 4)) 0) ++
          replicate 4 0 ++ drop (Z.to_nat (DiskSize - 4) + 4) (int_bytes magic)).
  change (DiskSize - 4) with 131072. change (Z.to_nat NumSectors) with (Z.to_nat 1024).
  rewrite (drop_ge (int_bytes magic)) by (change (length (int_bytes magic)) with 4%nat; lia).
  rewrite app_nil_r, take_app_ge by (change (length (int_bytes magic)) with 4%nat; lia).
  change (length (int_bytes magic)) with 4%nat. rewrite take_replicate, <- (assoc_L (++)), <- replicate_add.
  by replace ((Z.to_nat 131072 - 4) `min` Z.to_nat 131072 + 4)%nat with (Z.to_nat 1024 * 128)%nat by lia.
Qed.
End Image.

(** ** Request by request *)

Inductive disk_op :=
  | DRead (totalTicks sectorNumber : Z)
  | DWrite (totalTicks sectorNumber : Z) (data : list Z)
  | DDone.

(** The data read and what is asked of the interrupt system, on the sectors and on the file. *)
Definition sector_step (o : disk_op) (d : Disk.Disk) : res (list Z * list (act unit) * Disk.Disk) :=
  match o with
  | DRead t n => let? r := Disk.ReadRequest tt t n d in Ok (r.1.1, r.2, r.1.2)
  | DWrite t n data => let? r := Disk.WriteRequest tt t n data d in Ok ([], r.2, r.1)
  | DDone => Ok ([], [], Disk.HandleInterrupt d)
  end.

Definition file_step (room : Z) (o : disk_op) (d : Disk) : ST Host (list Z * list (act unit) * Disk) :=
  match o with
  | DRead t n => let* r := ReadRequest tt t n d in st_ret (r.1.1, r.2, r.1.2)
  | DWrite t n data => let* r := WriteRequest room tt t n data d in st_ret ([], r.2, r.1)
  | DDone => st_ret ([], [], HandleInterrupt d)
  end.

Fixpoint sector_run (os : list disk_op) (d : Disk.Disk)
    : res (list (list Z * list (act unit)) * Disk.Disk) :=
  match os with
  | [] => Ok ([], d)
  | o :: os =>
      let? r := sector_step o d in
      let? rs := sector_run os r.2 in
      Ok (r.1 :: rs.1, rs.2)
  end.

Fixpoint file_run (room : Z) (os : list disk_op) (d : Disk)
    : ST Host (list (list Z * list (act unit)) * Disk) :=
  match os with
  | [] => st_ret ([], d)
  | o :: os =>
      let* r := file_step room o d in
      let* rs := file_run room os r.2 in
      st_ret (r.1 :: rs.1, rs.2)
  end.

(** A request writes a whole sector. *)
Definition op_ok (o : disk_op) : bool :=
  match o with DWrite _ _ data => (length data =? 128)%nat | _ => true end.

(** ** The file implements the sectors *)

Section Refinement.
Context (permits : list Z → bool) (room : Z) (Hroom : DiskSize ≤ room) (nm : list Z).
Implicit Types (h : Host) (d : Disk) (D : Disk.Disk).

Record stands h d D : Prop := {
  st_named : named nm (fileno d) h;
  st_regs : D = with_store (store D) d;
  st_image : ∃ f, view (fileno d) h = Some f ∧ image MagicNumber (store D) (bytes f)
}.

Lemma UpdateLast_store t n d s : Disk.UpdateLast t n (with_store s d) = with_store s (UpdateLast t n d).
Proof.
  unfold UpdateLast, Disk.UpdateLast, of_sectors.
  change (TimeToSeek t (with_store [] d) n) with (TimeToSeek t (with_store s d) n).
  by destruct (TimeToSeek t (with_store s d) n).
Qed.

Lemma fileno_UpdateLast t n d : fileno (UpdateLast t n d) = fileno d.
Proof. done. Qed.

Lemma in_range n : ASSERT ((n >=? 0) && (n <? NumSectors)) = Ok tt ∧ 0 ≤ n < NumSectors ∨
                   ASSERT ((n >=? 0) && (n <? NumSectors)) = Fail AssertFailure.
Proof.
  destruct (Z.geb_spec n 0), (Z.ltb_spec n NumSectors); simpl; (by right) || (left; split; [done|lia]).
Qed.

(** A sector is at its place in the file. *)
Lemma seek_sector h fd f n :
  view fd h = Some f → 0 ≤ n < NumSectors →
  Lseek fd (SectorSize * n + MagicSize) SEEK_SET h =
    Ok (tt, set_view fd (mkFd (SectorSize * n + MagicSize) (bytes f)) h).
Proof.
  intros Hv Hn. apply Lseek_ok; [done|..]; unfold is_int32; disk_lia.
Qed.

Lemma ReadRequest_refines h d D t n :
  stands h d D →
  match sector_step (DRead t n) D with
  | Ok (o, D') => ∃ d' h', file_step room (DRead t n) d h = Ok (o, d', h') ∧ stands h' d' D'
  | Fail f => file_step room (DRead t n) d h = Fail f
  end.
Proof.
  intros [Hnm HD (f & Hv & Him)]. destruct D as [s a l b]. cbn [store] in *.
  unfold with_store in HD. injection HD as -> -> ->. fold (with_store s d).
  cbn [sector_step file_step]. unfold ReadRequest, Disk.ReadRequest. cbn [Disk.active with_store].
  unfold st_bind at 1 2. destruct (active d); [done|]. cbn [negb ASSERT res_bind st_lift].
  destruct (in_range n) as [[E Hn]|E]; unfold st_bind at 1, st_lift; rewrite E; [|done]. cbn [res_bind store with_store].
  destruct (image_lookup _ _ _ n Him Hn) as (x & Hx & Hsl).
  rewrite (arr_get_lookup s n x) by (done || lia). cbn [res_bind fst snd].
  erewrite st_bind_Ok by by apply seek_sector. cbv beta.
  pose proof (length_image _ _ _ Him) as Hlen.
  erewrite st_bind_Ok.
  2: { apply host_Read_ok; [by eapply set_view_eq | done | |];
       cbn [offset bytes]; disk_lia. }
  cbn [offset bytes]. change (Z.to_nat SectorSize) with 128%nat. rewrite Hsl.
  do 2 eexists. split; [done|].
  change (Disk.set_active true (with_store s d)) with (with_store s (set_active true d)).
  rewrite UpdateLast_store. erewrite set_view_twice by done. split.
  - by eapply named_set_view.
  - done.
  - eexists. split; [by eapply set_view_eq | done].
Qed.

Lemma WriteRequest_refines h d D t n data :
  stands h d D → op_ok (DWrite t n data) = true →
  match sector_step (DWrite t n data) D with
  | Ok (o, D') => ∃ d' h', file_step room (DWrite t n data) d h = Ok (o, d', h') ∧ stands h' d' D'
  | Fail f => file_step room (DWrite t n data) d h = Fail f
  end.
Proof.
  intros [Hnm HD (f & Hv & Him)] Hd%Nat.eqb_eq. destruct D as [s a l b]. cbn [store] in *.
  unfold with_store in HD. injection HD as -> -> ->. fold (with_store s d).
  cbn [sector_step file_step]. unfold WriteRequest, Disk.WriteRequest. cbn [Disk.active with_store].
  unfold st_bind at 1 2. destruct (active d); [done|]. cbn [negb ASSERT res_bind st_lift].
  destruct (in_range n) as [[E Hn]|E]; unfold st_bind at 1, st_lift; rewrite E; [|done].
  cbn [res_bind store with_store].
  rewrite (arr_set_in s n) by (rewrite (proj1 (proj1 Him)); lia). cbn [res_bind fst snd].
  erewrite st_bind_Ok by by apply seek_sector. cbv beta.
  pose proof (length_image _ _ _ Him) as Hlen. pose proof (image_insert _ _ _ n data Him Hn Hd) as Him'.
  erewrite st_bind_Ok.
  2: { apply WriteFile_ok; [by eapply set_view_eq | rewrite Hd; unfold SectorSize; lia | intros _; cbn [offset]; disk_lia]. }
  cbn [offset bytes]. rewrite take_ge by (rewrite Hd; unfold SectorSize; lia).
  rewrite put_inside by (rewrite ?Hd; disk_lia).
  do 2 eexists. split; [done|].
  change (Disk.set_active true _) with (with_store (<[Z.to_nat n := data]> s) (set_active true d)).
  rewrite UpdateLast_store. erewrite set_view_twice by done. split.
  - by eapply named_set_view.
  - done.
  - eexists. split; [by eapply set_view_eq | done].
Qed.

Lemma image_step_refines h d D o :
  stands h d D → op_ok o = true →
  match sector_step o D with
  | Ok (r, D') => ∃ d' h', file_step room o d h = Ok (r, d', h') ∧ stands h' d' D'
  | Fail f => file_step room o d h = Fail f
  end.
Proof.
  intros Hs Ho. destruct o as [t n|t n data|].
  - by apply ReadRequest_refines.
  - by apply WriteRequest_refines.
  - do 2 eexists. split; [done|]. destruct Hs as [Hn HD Hi]. split; [done | | done]. by rewrite HD.
Qed.

Lemma image_run_refines os : ∀ h d D,
  stands h d D → forallb op_ok os = true →
  match sector_run os D with
  | Ok (outs, D') => ∃ d' h', file_run room os d h = Ok (outs, d', h') ∧ stands h' d' D'
  | Fail f => file_run room os d h = Fail f
  end.
Proof.
  induction os as [|o os IH]; intros h d D Hs Hok; simpl in *; [by eauto|].
  apply andb_true_iff in Hok as [Ho Hok]. pose proof (image_step_refines h d D o Hs Ho) as H1.
  destruct (sector_step o D) as [[r D1]|f]; cbn [res_bind fst snd]; [|by apply st_bind_Fail].
  destruct H1 as (d1 & h1 & E1 & Hs1). specialize (IH h1 d1 D1 Hs1 Hok). st_step E1.
  destruct (sector_run os D1) as [[rs D']|f]; cbn [res_bind fst snd]; [|by apply st_bind_Fail].
  destruct IH as (d' & h' & E & Hs'). st_step E. eauto.
Qed.

Lemma stands_on_host h d D : stands h d D → on_host nm h (Some (MagicNumber, store D)).
Proof.
  intros [Hn _ (f & Hv & Hi)]. destruct (named_view _ _ _ _ Hn Hv) as (i & ? & ?).
  exists i, (bytes f). split_and!; try done.
Qed.

(** The constructor: on a file that is there, and on none. *)
Lemma new_Disk_existing h magic s :
  permits nm = true → on_host nm h (Some (magic, s)) →
  match Disk.new_Disk (Some (magic, s)) with
  | Ok D => ∃ d h', new_Disk permits room nm h = Ok (d, h') ∧ stands h' d D
  | Fail f => new_Disk permits room nm h = Fail f
  end.
Proof.
  intros Hp (i & b & Hn & Hb & Him & Hm). unfold new_Disk.
  destruct (open_existing permits nm h i b false Hp Hn Hb) as (fd & h1 & E & Hfd & Hv & Hnm).
  st_step E. rewrite (proj2 (Z.geb_le fd 0)) by lia.
  pose proof (length_image _ _ _ Him) as Hlen.
  assert (Er : Read fd MagicSize h1 = Ok (int_bytes magic, set_view fd (mkFd 4 b) h1)).
  { rewrite (host_Read_ok fd h1 (mkFd 0 b)) by (done || (cbn [offset bytes]; disk_lia)).
    destruct Him as (_ & tail & ->). cbn [offset bytes]. done. }
  unfold st_bind, st_lift. rewrite Er. cbv beta iota. rewrite bytes_int_bytes by done.
  unfold Disk.new_Disk. destruct (Z.eqb_spec magic MagicNumber) as [->|]; [|done]. cbn [ASSERT res_bind].
  do 2 eexists. split; [done|]. split; [by eapply named_set_view | done|].
  eexists. split; [by eapply set_view_eq | done].
Qed.

Lemma new_Disk_missing h :
  permits nm = true → names h !! nm = None →
  ∃ d h', new_Disk permits room nm h = Ok (d, h') ∧ stands h' d (Disk.mkDisk mem_blank false 0 0).
Proof.
  intros Hp Hn. unfold new_Disk. st_step (open_missing permits nm h Hn). cbn [Z.geb Z.compare].
  destruct (OpenForWrite_ok permits nm h Hp) as (fd & h1 & E & Hfd & Hv & Hnm).
  { intros i. by rewrite Hn. }
  pose proof (WriteFile_ok room fd h1 (mkFd 0 []) (int_bytes MagicNumber) MagicSize Hv ltac:(done)) as W1.
  cbn [offset bytes] in W1. specialize (W1 ltac:(disk_lia)).
  set (f1 := mkFd _ _) in W1. assert (Hf1 : f1 = mkFd 4 (int_bytes MagicNumber)) by reflexivity.
  assert (L : Lseek fd (DiskSize - 4) SEEK_SET (set_view fd f1 h1) =
              Ok (tt, set_view fd (mkFd (DiskSize - 4) (int_bytes MagicNumber)) h1)).
  { rewrite (Lseek_ok fd _ f1) by first [by eapply set_view_eq | done]. rewrite Hf1. cbn [bytes].
    by erewrite set_view_twice by done. }
  set (f2 := mkFd (DiskSize - 4) (int_bytes MagicNumber)) in L.
  pose proof (WriteFile_ok room fd (set_view fd f2 h1) f2 (int_bytes 0) 4
    (set_view_eq fd h1 _ f2 Hv) ltac:(done) ltac:(unfold f2; cbn [offset]; disk_lia)) as W2.
  rewrite (set_view_twice fd h1 _ _ _ Hv) in W2. set (f3 := mkFd _ _) in W2.
  unfold st_bind at 1 2. rewrite E. cbv beta iota. unfold st_bind. rewrite W1, L, W2.
  do 2 eexists. split; [done|]. split; [by eapply named_set_view | done|].
  exists f3. split; [by eapply set_view_eq|]. exact (image_new MagicNumber).
Qed.

(** C30. The simulated disk keeps its sectors in its UNIX file: started on a file or on
    none, it fails on a wrong magic number and otherwise, through any sequence of
    requests and interrupts, gives the data, the interrupts and the failed assertions of
    a disk that is the array of its sectors; and the file is then one that the next
    Nachos starts from with those sectors. *)
Theorem disk_file_refines h file os :
  permits nm = true → on_host nm h file → forallb op_ok os = true →
  match Disk.new_Disk file with
  | Fail f => new_Disk permits room nm h = Fail f
  | Ok D0 =>
      ∃ d0 h0, new_Disk permits room nm h = Ok (d0, h0) ∧
      match sector_run os D0 with
      | Fail f => file_run room os d0 h0 = Fail f
      | Ok (outs, D) =>
          ∃ d h', file_run room os d0 h0 = Ok (outs, d, h') ∧ D = with_store (store D) d ∧
            on_host nm h' (Some (MagicNumber, store D))
      end
  end.
Proof.
  intros Hp Hf Hok.
  assert (Hnew : match Disk.new_Disk file with
    | Ok D => ∃ d h', new_Disk permits room nm h = Ok (d, h') ∧ stands h' d D
    | Fail f => new_Disk permits room nm h = Fail f end).
  { destruct file as [[magic s]|]; [by apply new_Disk_existing | by apply new_Disk_missing]. }
  destruct (Disk.new_Disk file) as [D0|f]; [|done]. destruct Hnew as (d0 & h0 & E & Hs).
  exists d0, h0. split; [done|]. pose proof (image_run_refines os h0 d0 D0 Hs Hok) as Hrun.
  destruct (sector_run os D0) as [[outs D]|f]; [|done]. destruct Hrun as (d & h' & Er & Hs').
  exists d, h'. split_and!; [done | apply Hs' | by eapply stands_on_host].
Qed.
End Refinement.

(** A new disk, one sector written; then, from the file, read. *)
Lemma disk_file_refines_witness :
  ∃ d0 h0 d h', new_Disk (λ _, true) 200000 [68] (mkHost ∅ [] []) = Ok (d0, h0) ∧
    file_run 200000 [DWrite 0 3 (replicate 128 7); DDone] d0 h0 =
      Ok ([([], [ACount DiskWrites; ASchedule tt 2000 DiskInt]); ([], [])], d, h') ∧
    on_host [68] h' (Some (MagicNumber, <[3%nat := replicate 128 7]> mem_blank)).
Proof.
  destruct (disk_file_refines (λ _, true) 200000 ltac:(done) [68] (mkHost ∅ [] []) None
    [DWrite 0 3 (replicate 128 7); DDone] eq_refl (lookup_empty _) eq_refl) as (d0 & h0 & E0 & d & h' & E & _ & Ho).
  exists d0, h0, d, h'. split_and!; [exact E0 | exact E | exact Ho].
Defined.
End DiskFile.
