(* ===== verification/Threads.v ===== *)
(** * Threads, the scheduler and semaphores (threads/thread.cc, scheduler.cc, synch.cc,
    system.cc; the tail of machine/interrupt.cc)

    Kernel code runs in threads that hand the processor over at [SWITCH]. A thread that is
    not running is its control stack: the calls it has still to return from. [frame] lists
    the places where a call can be left by a context switch, and [resume] runs the current
    thread on from the innermost one. Where the stack is empty the thread is in code of
    its own, which may make any [request]. Ready lists and queues are the sequences
    LinkedList.v proves the lists to implement. *)
From S2P Require Import Prelude Words LinkedList Interrupt Machine MipsSim.

(** ** Data *)

Inductive ThreadStatus := JUST_CREATED | RUNNING | READY | BLOCKED.
#[global] Instance ThreadStatus_eq_dec : EqDecision ThreadStatus.
Proof. solve_decision. Defined.

Abbreviation tid := positive (only parsing).
Abbreviation semid := positive (only parsing).
Abbreviation spaceid := positive (only parsing).

Inductive frame :=
  | FSleep                      (** the [while] of Thread::Sleep *)
  | FSwitched                   (** Scheduler::Run, after SWITCH *)
  | FBegin                      (** SetupThreadState *)
  | FP (s : semid) (oldLevel : IntStatus)    (** the [while] of Semaphore::P *)
  | FYield (oldLevel : IntStatus)            (** Thread::Yield, after Run *)
  | FTick (old : MachineStatus).             (** Interrupt::OneTick, after Yield *)

#[global] Instance frame_eq_dec : EqDecision frame.
Proof. solve_decision. Defined.

(** class Thread; [frames] is what the stack of the thread holds. *)
Record Thread := mkThread {
  t_status : ThreadStatus;
  frames : list frame;
  space : option spaceid;
  userRegisters : list Z }.

(** class Semaphore; [value] is an [int] that 2^31 unmatched V would overflow. *)
Record Semaphore := mkSemaphore { value : Z; queue : list tid }.

(** class AddrSpace *)
Record AddrSpace := mkAddrSpace { as_pageTable : list TranslationEntry; numPages : Z }.

(** The globals of system.cc and the semaphores; [D] is the state of the devices.
    [pt_owner] is the space [machine->pageTable] points into. *)
Record KState (D : Type) := mkK {
  threads : gmap tid Thread;
  currentThread : tid;
  threadToBeDestroyed : option tid;
  readyList : list tid;
  halted : bool;
  sems : gmap semid Semaphore;
  spaces : gmap spaceid AddrSpace;
  pt_owner : option spaceid;
  machine : Machine;
  dev : D }.
Arguments mkK {D} threads currentThread threadToBeDestroyed readyList halted sems spaces pt_owner
  machine dev.
Arguments threads {D} _.
Arguments currentThread {D} _.
Arguments threadToBeDestroyed {D} _.
Arguments readyList {D} _.
Arguments halted {D} _.
Arguments sems {D} _.
Arguments spaces {D} _.
Arguments pt_owner {D} _.
Arguments machine {D} _.
Arguments dev {D} _.

(** The devices: what the function given to [Schedule] does to them, the semaphores it
    V's and its requests to the interrupt system; and the operations threads perform. *)
Class Devices (H D O : Type) := {
  fire : H → Z → D → res (D * list semid * list (act H));
  dev_op : O → Z → D → res (D * list (act H));
}.

Section State.
Context {D : Type}.
Implicit Types (k : KState D).

Definition set_threads m k : KState D :=
  mkK m (currentThread k) (threadToBeDestroyed k) (readyList k) (halted k) (sems k) (spaces k)
    (pt_owner k) (machine k) (dev k).
Definition set_current t k : KState D :=
  mkK (threads k) t (threadToBeDestroyed k) (readyList k) (halted k) (sems k) (spaces k)
    (pt_owner k) (machine k) (dev k).
Definition set_destroy o k : KState D :=
  mkK (threads k) (currentThread k) o (readyList k) (halted k) (sems k) (spaces k)
    (pt_owner k) (machine k) (dev k).
Definition set_ready l k : KState D :=
  mkK (threads k) (currentThread k) (threadToBeDestroyed k) l (halted k) (sems k) (spaces k)
    (pt_owner k) (machine k) (dev k).
Definition set_halted b k : KState D :=
  mkK (threads k) (currentThread k) (threadToBeDestroyed k) (readyList k) b (sems k) (spaces k)
    (pt_owner k) (machine k) (dev k).
Definition set_sems m k : KState D :=
  mkK (threads k) (currentThread k) (threadToBeDestroyed k) (readyList k) (halted k) m (spaces k)
    (pt_owner k) (machine k) (dev k).
Definition set_spaces m k : KState D :=
  mkK (threads k) (currentThread k) (threadToBeDestroyed k) (readyList k) (halted k) (sems k) m
    (pt_owner k) (machine k) (dev k).
Definition set_machine p mc k : KState D :=
  mkK (threads k) (currentThread k) (threadToBeDestroyed k) (readyList k) (halted k) (sems k)
    (spaces k) p mc (dev k).
Definition set_dev d k : KState D :=
  mkK (threads k) (currentThread k) (threadToBeDestroyed k) (readyList k) (halted k) (sems k)
    (spaces k) (pt_owner k) (machine k) d.

(** A dangling pointer is a [MemoryFault]. *)
Definition get_thread (t : tid) k : res Thread :=
  match threads k !! t with Some th => Ok th | None => Fail MemoryFault end.
Definition get_sem (s : semid) k : res Semaphore :=
  match sems k !! s with Some sm => Ok sm | None => Fail MemoryFault end.

Definition upd_thread (f : Thread → Thread) (t : tid) k : KState D :=
  set_threads (alter f t (threads k)) k.
Definition setStatus (st : ThreadStatus) : tid → KState D → KState D :=
  upd_thread (λ th, mkThread st (frames th) (space th) (userRegisters th)).
Definition set_frames (fs : list frame) : tid → KState D → KState D :=
  upd_thread (λ th, mkThread (t_status th) fs (space th) (userRegisters th)).
Definition set_userRegisters (r : list Z) : tid → KState D → KState D :=
  upd_thread (λ th, mkThread (t_status th) (frames th) (space th) r).

Definition push (f : frame) k : KState D :=
  upd_thread (λ th, mkThread (t_status th) (f :: frames th) (space th) (userRegisters th))
    (currentThread k) k.
Definition pop k : KState D :=
  upd_thread (λ th, mkThread (t_status th) (tail (frames th)) (space th) (userRegisters th))
    (currentThread k) k.
Definition cur_frames k : list frame := default [] (frames <$> threads k !! currentThread k).

(** ** class Scheduler *)

Definition ReadyToRun (t : tid) k : KState D :=
  let k := setStatus READY t k in
  set_ready (readyList k ++ [t]) k.

Definition FindNextToRun k : option tid * KState D :=
  if halted k then (None, k)
  else match readyList k with
       | [] => (None, k)
       | t :: l => (Some t, set_ready l k)
       end.

(** Scheduler::Halt *)
Definition Scheduler_Halt k : KState D := set_halted true k.

(** V between its two SetLevel. *)
Definition V_body (s : semid) k : res (KState D) :=
  let? sm := get_sem s k in
  let k :=
    match queue sm with
    | [] => k
    | t :: l => ReadyToRun t k
    end in
  Ok (set_sems (<[s := mkSemaphore (value sm + 1) (tail (queue sm))]> (sems k)) k).

Fixpoint V_all (l : list semid) k : res (KState D) :=
  match l with
  | [] => Ok k
  | s :: l => let? k := V_body s k in V_all l k
  end.

(** SaveUserState and RestoreUserState: all registers, with the checks of ReadRegister
    and WriteRegister on the loop bound. *)
Definition SaveUserState k : KState D :=
  set_userRegisters (registers (machine k)) (currentThread k) k.
Definition RestoreUserState k : res (KState D) :=
  let? th := get_thread (currentThread k) k in
  Ok (set_machine (pt_owner k) (set_registers (userRegisters th) (machine k)) k).

(** AddrSpace::RestoreState *)
Definition RestoreState (sp : spaceid) k : res (KState D) :=
  match spaces k !! sp with
  | Some a =>
      let m := machine k in
      Ok (set_machine (Some sp)
            (mkMachine (mainMemory m) (registers m) (tlb m) (Some (as_pageTable a)) (numPages a)
               (singleStep m) (runUntilTime m)) k)
  | None => Fail MemoryFault
  end.

(** [delete threadToBeDestroyed], whose destructor asserts that the thread is not the
    current one. *)
Definition destroy k : res (KState D) :=
  match threadToBeDestroyed k with
  | None => Ok k
  | Some t =>
      let? _ := ASSERT (negb (bool_decide (t = currentThread k))) in
      Ok (set_destroy None (set_threads (delete t (threads k)) k))
  end.

(** The end of Scheduler::Run, after SWITCH, and the beginning of SetupThreadState. *)
Definition arrive k : res (KState D) :=
  let? k := destroy k in
  let? th := get_thread (currentThread k) k in
  match space th with
  | Some sp => let? k := RestoreUserState k in RestoreState sp k
  | None => Ok k
  end.
End State.

(** ** The kernel *)

Section Kernel.
Context {H D O : Type} {dv : Devices H D O}.

(** A handler of the devices and then the V's it ends in; the delayed load of the user
    program. *)
#[export] Instance kernel_handlers : Handlers H (KState D) := {
  run_handler h t k :=
    let? r := fire h t (dev k) in
    let '(d, vs, acts) := r in
    let? k := V_all vs (set_dev d k) in
    Ok (k, acts);
  delayed_load k :=
    let? r := DelayedLoad 0 0 (machine k) in
    Ok (set_machine (pt_owner k) r.2 k);
}.

Abbreviation world := (World H (KState D)).
Implicit Types (w : world).

Definition lift_k (f : KState D → res (KState D)) : ST world unit := λ w,
  let? k := f (rest w) in Ok (tt, set_rest k w).
Definition mod_k (f : KState D → KState D) : ST world unit := λ w, Ok (tt, set_rest (f (rest w)) w).
Definition mod_w (f : world → world) : ST world unit := λ w, Ok (tt, f w).

(** Scheduler::Run up to SWITCH; the fencepost of the host stack is taken to be intact. *)
Definition Run (nextThread : tid) : ST world unit := λ w,
  let? _ := ASSERT (bool_decide (level (interrupt w) = IntOff)) in
  let k := rest w in
  let? th := get_thread (currentThread k) k in
  let k := match space th with Some _ => SaveUserState k | None => k end in
  let k := push FSwitched k in
  let k := set_current nextThread k in
  let? _ := get_thread nextThread k in
  Ok (tt, set_rest (setStatus RUNNING nextThread k) w).

(** Thread::Sleep up to its loop. *)
Definition Sleep : ST world unit := λ w,
  let? _ := ASSERT (bool_decide (level (interrupt w) = IntOff)) in
  let k := rest w in
  Ok (tt, set_rest (push FSleep (setStatus BLOCKED (currentThread k) k)) w).

(** [SetLevel(IntOff)] never ticks. *)
Definition DisableInterrupts : ST world IntStatus := λ w,
  Ok (level (interrupt w), ChangeLevel IntOff w).

(** Thread::Yield up to its last SetLevel. When no other thread is ready that call
    follows at once. *)
Definition Yield : ST world unit :=
  let* oldLevel := DisableInterrupts in
  let* _ := mod_k (push (FYield oldLevel)) in
  λ w, let '(nextThread, k) := FindNextToRun (rest w) in
       match nextThread with
       | Some t => Run t (set_rest (ReadyToRun (currentThread k) k) w)
       | None => Ok (tt, set_rest k w)
       end.

Definition OneTick : ST world unit := λ w,
  let old := status (interrupt w) in
  let? r := OneTick_interrupts w in
  let w := r.2 in
  if yieldOnReturn (interrupt w) then
    let w := set_status SystemMode (set_yieldOnReturn false w) in
    Yield (set_rest (push (FTick old) (rest w)) w)
  else Ok (tt, w).

Definition SetLevel (new : IntStatus) : ST world unit := λ w,
  let old := level (interrupt w) in
  let? _ := ASSERT (bool_decide (new = IntOff) || negb (inHandler (interrupt w))) in
  let w := ChangeLevel new w in
  if bool_decide (new = IntOn) && bool_decide (old = IntOff) then OneTick w else Ok (tt, w).

(** [while (value == 0)] once, and what follows it; FP is on top of the stack. *)
Definition P_turn (s : semid) (oldLevel : IntStatus) : ST world unit := λ w,
  let? sm := get_sem s (rest w) in
  if value sm =? 0 then
    Sleep (set_rest (set_sems (<[s := mkSemaphore (value sm) (queue sm ++ [currentThread (rest w)])]>
                       (sems (rest w))) (rest w)) w)
  else
    let k := set_sems (<[s := mkSemaphore (value sm - 1) (queue sm)]> (sems (rest w))) (rest w) in
    SetLevel oldLevel (set_rest (pop k) w).

(** Semaphore::P as far as its loop. *)
Definition P (s : semid) : ST world unit :=
  let* oldLevel := DisableInterrupts in
  mod_k (push (FP s oldLevel)).

Definition V (s : semid) : ST world unit :=
  let* oldLevel := DisableInterrupts in
  let* _ := lift_k (V_body s) in
  SetLevel oldLevel.

(** Lock: a semaphore of value 1. *)
Definition Acquire (l : semid) : ST world unit := P l.
Definition Release (l : semid) : ST world unit := V l.

Definition Finish : ST world unit := λ w,
  let w := ChangeLevel IntOff w in
  let? _ := ASSERT (bool_decide (threadToBeDestroyed (rest w) = None)) in
  Sleep (set_rest (set_destroy (Some (currentThread (rest w))) (rest w)) w).

(** [new Thread]: the registers a new thread would be given are what the allocation left,
    but for the delayed load; it shares the space of its parent. *)
Definition new_registers (garbage : list Z) : list Z :=
  <[Z.to_nat LoadReg := 0]> (<[Z.to_nat LoadValueReg := 0]> garbage).
Definition new_Thread (t : tid) (garbage : list Z) : ST world unit := λ w,
  let k := rest w in
  let? th := get_thread (currentThread k) k in
  Ok (tt, set_rest (set_threads (<[t := mkThread JUST_CREATED [] (space th) (new_registers garbage)]> (threads k)) k) w).

(** StackAllocate lays out a stack that enters SetupThreadState. *)
Definition StackAllocate (t : tid) (k : KState D) : KState D := set_frames [FBegin] t k.

Definition Start (t : tid) : ST world unit := λ w,
  let? th := get_thread t (rest w) in
  let? _ := ASSERT (bool_decide (t_status th = JUST_CREATED)) in
  let w := set_rest (StackAllocate t (rest w)) w in
  (let* oldLevel := DisableInterrupts in
   let* _ := mod_k (ReadyToRun t) in
   SetLevel oldLevel) w.

Definition new_Semaphore (s : semid) (initialValue : Z) : ST world unit :=
  mod_k (λ k, set_sems (<[s := mkSemaphore initialValue []]> (sems k)) k).

(** The condition variables are stubs. *)
Definition Condition_op : ST world unit := st_fail AssertFailure.

(** The machine's page table pointer points into the space: what the machine writes there
    is in the space. *)
Definition put_machine (m : Machine) (k : KState D) : KState D :=
  let k := set_machine (pt_owner k) m k in
  match pt_owner k, pageTable m with
  | Some sp, Some t => set_spaces (alter (λ a, mkAddrSpace t (numPages a)) sp (spaces k)) k
  | _, _ => k
  end.

(** One turn of the loop of Machine::Run. An exception enters the kernel: the handler of
    exception.cc is code of the thread, and ends in [return_to_user]. *)
Definition user_turn : ST world (option ExceptionType) := λ w,
  let? r := OneInstruction (machine (rest w)) in
  match r.1 with
  | None =>
      let? r := OneTick (set_rest (put_machine r.2 (rest w)) w) in Ok (None, r.2)
  | Some (which, badVAddr) =>
      let? r := RaiseException_enter badVAddr r.2 in
      Ok (Some which, set_status SystemMode (set_rest (put_machine r.2 (rest w)) w))
  end.
Definition return_to_user : ST world unit := λ w, OneTick (set_status UserMode w).

(** [new AddrSpace], whose page table [a] holds; AddrSpace.v has the constructor. *)
Definition new_space (sp : spaceid) (a : AddrSpace) : ST world unit :=
  mod_k (λ k, set_spaces (<[sp := a]> (spaces k)) k).

(** StartProcess of progtest.cc: the thread is given a space and enters user mode. *)
Definition enter_space (sp : spaceid) : ST world unit := λ w,
  let k := rest w in
  let k := upd_thread (λ th, mkThread (t_status th) (frames th) (Some sp) (userRegisters th))
             (currentThread k) k in
  let? k := RestoreState sp k in
  Ok (tt, set_rest k w).

Definition do_dev (o : O) : ST world unit := λ w,
  let? r := dev_op o (now w) (dev (rest w)) in
  run_acts r.2 (set_rest (set_dev r.1 (rest w)) w).

(** ** Threads at work *)

(** What the current thread does next when its control stack is not empty. *)
Definition resume : ST world unit := λ w,
  match cur_frames (rest w) with
  | [] => Fail AssertFailure
  | FSleep :: _ =>
      let '(nextThread, k) := FindNextToRun (rest w) in
      match nextThread with
      | None => Idle w
      | Some t => Run t (set_rest (pop k) w)
      end
  | FSwitched :: _ =>
      let? k := arrive (pop (rest w)) in Ok (tt, set_rest k w)
  | FBegin :: _ =>
      let? k := arrive (pop (rest w)) in SetLevel IntOn (set_rest k w)
  | FP s oldLevel :: _ => P_turn s oldLevel w
  | FYield oldLevel :: _ => SetLevel oldLevel (set_rest (pop (rest w)) w)
  | FTick old :: _ => Ok (tt, set_status old (set_rest (pop (rest w)) w))
  end.

Inductive request :=
  | RP (s : semid) | RV (s : semid) | RYield | RFinish | RHalt
  | RNew (t : tid) (garbage : list Z) | RStart (t : tid)
  | RSemaphore (s : semid) (initialValue : Z)
  | RSetLevel (l : IntStatus)
  | RDev (o : O)
  | RUserMode | RUser | RReturn | RSpace (sp : spaceid) (a : AddrSpace) | REnter (sp : spaceid)
  | RMachine (op : ST Machine unit).

Definition request_do (r : request) : ST world unit :=
  match r with
  | RP s => P s
  | RV s => V s
  | RYield => Yield
  | RFinish => Finish
  | RHalt => mod_k Scheduler_Halt
  | RNew t g => new_Thread t g
  | RStart t => Start t
  | RSemaphore s v => new_Semaphore s v
  | RSetLevel l => SetLevel l
  | RDev o => do_dev o
  | RUserMode => mod_w (set_status UserMode)
  | RUser => let* _ := user_turn in st_ret tt
  | RReturn => return_to_user
  | RSpace sp a => new_space sp a
  | REnter sp => enter_space sp
  | RMachine op => λ w,
      let? r := op (machine (rest w)) in Ok (tt, set_rest (put_machine r.2 (rest w)) w)
  end.
End Kernel.
