(* ===== verification/SchedInv.v ===== *)
(** * The scheduling invariant of Threads.v

    Which thread is where: on the processor, on the ready list, in the queue of a
    semaphore, finishing, or not started; and why no wake-up is lost. *)
From S2P Require Import Prelude Words LinkedList Interrupt Machine MipsSim Threads.

(** ** Control stacks *)

Definition switched (fs : list frame) : bool :=
  match fs with FSwitched :: _ | FBegin :: _ => true | _ => false end.
Definition asleep (fs : list frame) : bool :=
  match fs with FSleep :: _ => true | _ => false end.

(** The stack without the frame of the switch itself. *)
Definition inner (fs : list frame) : list frame :=
  match fs with FSleep :: b | FSwitched :: b | FBegin :: b => b | _ => fs end.

(** The semaphore the thread is waiting to pass. *)
Definition pend (fs : list frame) : option semid :=
  match inner fs with FP s _ :: _ => Some s | _ => None end.

Definition tick_frame (f : frame) : bool :=
  match f with
  | FTick m => negb (bool_decide (m = IdleMode))
  | _ => false
  end.
Definition ticks (fs : list frame) : bool := forallb tick_frame fs.

(** Where a thread that is neither switching nor waiting can be: in interrupted ticks,
    perhaps inside a Yield. *)
Definition base (fs : list frame) : bool :=
  match fs with FYield _ :: b => ticks b | _ => ticks fs end.

(** Switches and waits happen on top of those; a new thread begins outside calls. *)
Definition frames_ok (fs : list frame) : bool :=
  match fs with
  | FBegin :: b => ticks b
  | _ => match inner fs with FP _ _ :: b => ticks b | b => base b end
  end.

Lemma ticks_base fs : ticks fs = true → base fs = true.
Proof. by destruct fs as [|[] fs]. Qed.

Lemma base_inner fs : base fs = true → inner fs = fs ∧ switched fs = false ∧ asleep fs = false ∧
  pend fs = None ∧ frames_ok fs = true.
Proof. destruct fs as [|[] fs]; try done; intros Hb; repeat split; done. Qed.

(** ** The invariant *)

(** [Leaving n]: the current thread is in [Run n], [n] off the ready list. *)
Inductive mode := Normal | Leaving (n : tid).

Section Invariant.
Context {D : Type}.
Implicit Types (k : KState D) (th : Thread) (t : tid) (s : semid).

Definition cur_ok (m : mode) th : Prop :=
  match m with
  | Normal => if asleep (frames th) then t_status th = BLOCKED ∨ t_status th = READY
              else t_status th = RUNNING
  | Leaving _ => (t_status th = BLOCKED ∨ t_status th = READY) ∧ inner (frames th) = frames th
  end.

Definition other_ok th : Prop :=
  (t_status th = JUST_CREATED ∧ frames th = []) ∨
  ((t_status th = READY ∨ t_status th = BLOCKED) ∧ switched (frames th) = true).

Definition queued th s : Prop := t_status th = BLOCKED ∧ pend (frames th) = Some s.
Definition awake th s : Prop := t_status th ≠ BLOCKED ∧ pend (frames th) = Some s.
#[global] Instance awake_dec th s : Decision (awake th s).
Proof. unfold awake. apply _. Defined.

(** The threads on their way to test the semaphore again. *)
Definition woken s k : gset tid := dom (filter (λ p, awake p.2 s) (threads k)).

Record kinv (m : mode) k : Prop := {
  ki_cur : ∃ th, threads k !! currentThread k = Some th ∧ cur_ok m th;
  ki_other t th : threads k !! t = Some th → t ≠ currentThread k → other_ok th;
  ki_frames t th : threads k !! t = Some th → frames_ok (frames th) = true;
  ki_nodup : NoDup (readyList k);
  ki_ready t : t ∈ readyList k ↔
    m ≠ Leaving t ∧ ∃ th, threads k !! t = Some th ∧ t_status th = READY;
  ki_leaving n : m = Leaving n → ∃ th, threads k !! n = Some th ∧ t_status th = READY;
  ki_queue s sm : sems k !! s = Some sm → NoDup (queue sm) ∧ 0 ≤ value sm ∧
    ∀ t, t ∈ queue sm ↔ ∃ th, threads k !! t = Some th ∧ queued th s;
  ki_sem t th s : threads k !! t = Some th → pend (frames th) = Some s → is_Some (sems k !! s);
  ki_blocked t th : threads k !! t = Some th → t_status th = BLOCKED → pend (frames th) = None →
    threadToBeDestroyed k = Some t;
  ki_dying t : threadToBeDestroyed k = Some t →
    ∃ th, threads k !! t = Some th ∧ t_status th = BLOCKED ∧ pend (frames th) = None ∧
      (t = currentThread k ∨ m = Normal ∧ switched (cur_frames k) = true);
  ki_wake s sm : sems k !! s = Some sm → queue sm ≠ [] → value sm ≤ Z.of_nat (size (woken s k));
}.

Lemma elem_of_woken s k t : t ∈ woken s k ↔ ∃ th, threads k !! t = Some th ∧ awake th s.
Proof.
  unfold woken. rewrite elem_of_dom. unfold is_Some. setoid_rewrite map_lookup_filter_Some. done.
Qed.

Lemma cur_frames_eq k th :
  threads k !! currentThread k = Some th → cur_frames k = frames th.
Proof. intros E. unfold cur_frames. by rewrite E. Qed.

(** A dying thread that is current is asleep or leaving. *)
Lemma woken_ext s k k' :
  (∀ t, (∃ th, threads k' !! t = Some th ∧ awake th s) ↔ (∃ th, threads k !! t = Some th ∧ awake th s)) →
  woken s k' = woken s k.
Proof. intros He. apply set_eq. intros t. by rewrite !elem_of_woken, He. Qed.

Lemma woken_add s k k' t :
  (∀ t', t' ∈ woken s k' ↔ t' = t ∨ t' ∈ woken s k) → t ∉ woken s k →
  size (woken s k') = S (size (woken s k)).
Proof.
  intros He Hn. replace (woken s k') with ({[t]} ∪ woken s k) by set_solver.
  rewrite size_union by set_solver. rewrite size_singleton. lia.
Qed.

Lemma upd_thread_threads (f : Thread → Thread) t k th :
  threads k !! t = Some th → threads (upd_thread f t k) = <[t := f th]> (threads k).
Proof.
  intros E. apply map_eq. intros t'. simpl. destruct (decide (t' = t)) as [->|Hne].
  - by rewrite lookup_alter_eq, E, lookup_insert_eq.
  - by rewrite lookup_alter_ne, lookup_insert_ne.
Qed.

(** ** V *)

(** What V and the interrupt handlers change: a thread may become ready. *)
Record nudged k k' : Prop := {
  nu_current : currentThread k' = currentThread k;
  nu_threads t : threads k' !! t = threads k !! t ∨
    ∃ th, threads k !! t = Some th ∧ t_status th = BLOCKED ∧
      threads k' !! t = Some (mkThread READY (frames th) (space th) (userRegisters th));
  nu_sems s : is_Some (sems k !! s) → is_Some (sems k' !! s);
  nu_spaces : spaces k' = spaces k;
  nu_owner : pt_owner k' = pt_owner k;
  nu_halted : halted k' = halted k;
  nu_ready : ∃ l, readyList k' = readyList k ++ l;
}.

Lemma ready_same (l : list tid) : ∃ l', l = l ++ l'.
Proof. exists []. by rewrite app_nil_r. Qed.

Lemma ready_trans (l1 l2 l3 : list tid) :
  (∃ l, l2 = l1 ++ l) → (∃ l, l3 = l2 ++ l) → ∃ l, l3 = l1 ++ l.
Proof. intros [l ->] [l' ->]. exists (l ++ l'). by rewrite app_assoc. Qed.

Lemma nudged_refl k : nudged k k.
Proof. split; auto using ready_same. Qed.

Lemma nudged_trans k1 k2 k3 : nudged k1 k2 → nudged k2 k3 → nudged k1 k3.
Proof.
  intros [] []. split; try congruence; [|by auto|by apply (ready_trans _ (readyList k2))]. intros t.
  destruct (nu_threads0 t) as [E1|(th & E1 & Hb & E2)], (nu_threads1 t) as [E3|(th' & E3 & Hb' & E4)].
  - left. congruence.
  - right. exists th'. split; [congruence|]. done.
  - right. exists th. split; [done|]. split; [done|]. congruence.
  - rewrite E2 in E3. injection E3 as <-. simpl in Hb'. done.
Qed.

Lemma nudged_frames k k' : nudged k k' → cur_frames k' = cur_frames k.
Proof.
  intros []. unfold cur_frames. rewrite nu_current0.
  destruct (nu_threads0 (currentThread k)) as [->|(th & -> & _ & ->)]; done.
Qed.

Lemma V_empty_kinv m s sm k :
  kinv m k → sems k !! s = Some sm → queue sm = [] →
  kinv m (set_sems (<[s := mkSemaphore (value sm + 1) []]> (sems k)) k).
Proof.
  intros [] Es Hq. split; simpl; try done.
  - intros s' sm'. upd_cases s' s; [|by apply ki_queue0].
    intros [= <-]. simpl. destruct (ki_queue0 s sm Es) as (Hn & Hv & He). rewrite Hq in *.
    split; [done|]. split; [lia|done].
  - intros t th s' E Hp. upd_cases s' s; [done|by apply (ki_sem0 t th)].
  - intros s' sm'. upd_cases s' s; [|by apply ki_wake0]. intros [= <-] Hne. done.
Qed.

(** The first thread of a queue is made ready and the semaphore counted up. *)
Lemma V_wake_kinv m s sm t l k :
  kinv m k → sems k !! s = Some sm → queue sm = t :: l →
  kinv m (set_sems (<[s := mkSemaphore (value sm + 1) l]> (sems k)) (ReadyToRun t k)).
Proof.
  intros [] Es Hq. destruct (ki_queue0 s sm Es) as (Hn & Hv & He). rewrite Hq in *.
  apply NoDup_cons in Hn as [Hnl Hn].
  destruct (proj1 (He t)) as (th & Et & Hb & Hp); [set_solver|].
  assert (HT : threads (ReadyToRun t k) = <[t := mkThread READY (frames th) (space th) (userRegisters th)]> (threads k))
    by (unfold ReadyToRun, setStatus; simpl; by apply (upd_thread_threads (λ th, mkThread READY (frames th) (space th) (userRegisters th)))).
  assert (Htr : t ∉ readyList k).
  { rewrite ki_ready0. intros (_ & th' & E' & H'). congruence. }
  assert (Hcf : cur_frames (ReadyToRun t k) = cur_frames k).
  { unfold cur_frames. rewrite HT. simpl. destruct (decide (currentThread k = t)) as [Heq|Hne];
      [rewrite Heq, lookup_insert_eq; by rewrite Et | by rewrite lookup_insert_ne]. }
  split; simpl; try done.
  - destruct ki_cur0 as (thc & Ec & Hc). simpl. unfold ReadyToRun in HT. simpl in HT. rewrite HT.
    destruct (decide (currentThread k = t)) as [Heq|Hne];
      [rewrite Heq in *; rewrite lookup_insert_eq | rewrite lookup_insert_ne by done; eauto].
    eexists. split; [done|]. assert (thc = th) as -> by congruence. unfold cur_ok in *. simpl.
    destruct m; [destruct (asleep (frames th)); [by right|congruence]|]. destruct Hc; split; [by right|done].
  - intros t' th'. simpl in HT. rewrite HT. upd_cases t' t; [|by apply ki_other0].
    intros [= <-] Hne. destruct (ki_other0 t th Et Hne) as [ [H1 H2]|[H1 H2] ]; [congruence|].
    right. simpl. auto.
  - intros t' th'. simpl in HT. rewrite HT. upd_cases t' t; [|by apply ki_frames0].
    intros [= <-]. simpl. by apply (ki_frames0 t th).
  - apply NoDup_app. split; [done|]. split; [set_solver|]. apply NoDup_singleton.
  - intros t'. rewrite elem_of_app, list_elem_of_singleton, ki_ready0. simpl in HT. rewrite HT.
    upd_cases t' t.
    + split; [intros _|by right]. split; [|eauto]. intros ->.
      destruct (ki_leaving0 t eq_refl) as (th' & E' & H'). congruence.
    + split; [intros [?|?]; [done|done]|by left].
  - intros n Hm. simpl in HT. rewrite HT. destruct (ki_leaving0 n Hm) as (th' & E' & H').
    upd_cases n t; [eauto|eauto].
  - intros s' sm' E'. simpl in HT. rewrite HT. upd_cases s' s.
    + injection E' as <-. simpl. split; [done|]. split; [lia|]. intros t'. upd_cases t' t.
      * split; [done|]. intros (th' & [= <-] & Hb' & _). done.
      * rewrite <- He. set_solver.
    + destruct (ki_queue0 s' sm' E') as (Hn' & Hv' & He'). split; [done|]. split; [done|].
      intros t'. rewrite He'. upd_cases t' t; [|done]. split.
      * intros (th' & E1 & _ & H2). congruence.
      * intros (th' & [= <-] & Hb' & _). done.
  - intros t' th' s'. simpl in HT. rewrite HT. intros E' Hp'.
    assert (is_Some (sems k !! s')) as Hs.
    { upd_cases t' t; [injection E' as <-; by apply (ki_sem0 t th)|by apply (ki_sem0 t' th')]. }
    upd_cases s' s; done.
  - intros t' th'. simpl in HT. rewrite HT. upd_cases t' t; [|by apply ki_blocked0].
    intros [= <-]. done.
  - intros t' Hd. destruct (ki_dying0 t' Hd) as (th' & E' & Hb' & Hp' & Hw). simpl in HT. rewrite HT.
    exists th'. split; [|]; [|split; [done|split; [done|] ] ].
    + upd_cases t' t; [congruence|done].
    + destruct Hw as [?|[? Hw] ]; [by left|right]. split; [done|]. rewrite <- Hcf in Hw. exact Hw.
  - intros s' sm' E' Hne. set (k' := set_sems _ _).
    assert (Hw : ∀ t' s'', t' ∈ woken s'' k' ↔ (t' = t ∧ s'' = s) ∨ t' ∈ woken s'' k).
    { intros t' s''. rewrite !elem_of_woken. unfold k'. simpl in *. rewrite HT. upd_cases t' t.
      - split; [|intros [ [_ ->]|(th' & E1 & H1 & H2)] ].
        + intros (th' & [= <-] & _ & H2). simpl in H2. left. split; [done|congruence].
        + eexists. split; [done|]. split; [done|]. done.
        + eexists. split; [done|]. split; [done|]. simpl. congruence.
      - split; [by right|]. by intros [ [? _]|?]. }
    upd_cases s' s.
    + injection E' as <-. simpl in *. rewrite (woken_add s k k' t).
      * specialize (ki_wake0 s sm Es). rewrite Hq in ki_wake0. specialize (ki_wake0 ltac:(done)). lia.
      * intros t'. rewrite Hw. naive_solver.
      * rewrite elem_of_woken. intros (th' & E1 & H1 & _). congruence.
    + replace (woken s' k') with (woken s' k); [by apply ki_wake0|].
      apply set_eq. intros t'. rewrite Hw. naive_solver.
Qed.

Lemma V_body_kinv m s k :
  kinv m k → is_Some (sems k !! s) →
  ∃ k', V_body s k = Ok k' ∧ kinv m k' ∧ nudged k k' ∧ machine k' = machine k ∧ dev k' = dev k.
Proof.
  intros Hk [sm Es]. unfold V_body, get_sem. rewrite Es. cbn [res_bind].
  destruct (queue sm) as [|t l] eqn:Hq.
  - eexists. split; [done|]. split; [by apply V_empty_kinv|]. split; [|done].
    split; simpl; auto using ready_same. intros s'. upd_cases s' s; done.
  - eexists. split; [done|]. split; [exact (V_wake_kinv m s sm t l k Hk Es Hq)|]. split; [|done].
    destruct (proj2 (proj2 (ki_queue _ _ Hk s sm Es)) t) as [Hin _]. rewrite Hq in Hin.
    destruct Hin as (th & Et & Hb & Hp); [set_solver|].
    split; simpl; auto.
    + intros t'. destruct (decide (t' = t)) as [->|Hne].
      * right. exists th. rewrite lookup_alter_eq, Et. done.
      * left. by rewrite lookup_alter_ne.
    + intros s'. upd_cases s' s; done.
    + by exists [t].
Qed.

Lemma V_all_kinv m l k :
  kinv m k → Forall (λ s, is_Some (sems k !! s)) l →
  ∃ k', V_all l k = Ok k' ∧ kinv m k' ∧ nudged k k' ∧ machine k' = machine k ∧ dev k' = dev k.
Proof.
  revert k. induction l as [|s l IH]; intros k Hk Hl; simpl.
  { exists k. auto using nudged_refl. }
  apply Forall_cons in Hl as [Hs Hl].
  destruct (V_body_kinv m s k Hk Hs) as (k1 & -> & Hk1 & Hn1 & Hm1 & Hd1). cbn [res_bind].
  destruct (IH k1 Hk1) as (k2 & -> & Hk2 & Hn2 & Hm2 & Hd2).
  { eapply Forall_impl; [exact Hl|]. intros s' Hs'. by apply (nu_sems _ _ Hn1). }
  exists k2. split; [done|]. split; [done|]. split; [by apply (nudged_trans k k1)|]. split; congruence.
Qed.
(** ** What the invariant does not look at *)

(** Threads with the same status and stack. *)
Definition similar (o o' : option Thread) : Prop :=
  (λ th, (t_status th, frames th)) <$> o = (λ th, (t_status th, frames th)) <$> o'.

Lemma similar_Some o th :
  similar o (Some th) → ∃ th', o = Some th' ∧ t_status th' = t_status th ∧ frames th' = frames th.
Proof. unfold similar. destruct o as [th'|]; simpl; [|done]. intros [=]. eauto. Qed.

Lemma similar_sym o o' : similar o o' → similar o' o.
Proof. unfold similar. congruence. Qed.

Record alike k k' : Prop := {
  al_threads t : similar (threads k' !! t) (threads k !! t);
  al_current : currentThread k' = currentThread k;
  al_destroy : threadToBeDestroyed k' = threadToBeDestroyed k;
  al_ready : readyList k' = readyList k;
  al_sems : sems k' = sems k;
}.

Lemma alike_kinv m k k' : alike k k' → kinv m k → kinv m k'.
Proof.
  intros [Ht Hc Hd Hr Hs] [].
  assert (Hto : ∀ t th, threads k !! t = Some th →
    ∃ th', threads k' !! t = Some th' ∧ t_status th' = t_status th ∧ frames th' = frames th).
  { intros t th E. apply similar_Some. rewrite <- E. apply Ht. }
  assert (Hfrom : ∀ t th, threads k' !! t = Some th →
    ∃ th', threads k !! t = Some th' ∧ t_status th' = t_status th ∧ frames th' = frames th).
  { intros t th E. apply similar_Some. rewrite <- E. apply similar_sym, Ht. }
  assert (Hw : ∀ s, woken s k' = woken s k).
  { intros s. apply woken_ext. intros t. unfold awake. split; intros (th & E & H1 & H2).
    - destruct (Hfrom t th E) as (th' & ? & E1 & E2). exists th'. rewrite E1, E2. done.
    - destruct (Hto t th E) as (th' & ? & E1 & E2). exists th'. rewrite E1, E2. done. }
  assert (Hcf : cur_frames k' = cur_frames k).
  { destruct ki_cur0 as (th & E & _). destruct (Hto _ _ E) as (th' & E' & _ & Hf).
    unfold cur_frames. rewrite Hc, E, E'. simpl. by rewrite Hf. }
  split; rewrite ?Hc, ?Hd, ?Hr, ?Hs, ?Hcf; try done.
  - destruct ki_cur0 as (th & E & Hok). destruct (Hto _ _ E) as (th' & E' & E1 & E2).
    exists th'. split; [done|]. unfold cur_ok in *. by rewrite E1, E2.
  - intros t th E Hne. destruct (Hfrom t th E) as (th' & E' & E1 & E2).
    unfold other_ok. rewrite <- E1, <- E2. by apply (ki_other0 t).
  - intros t th E. destruct (Hfrom t th E) as (th' & E' & E1 & E2). rewrite <- E2. by apply (ki_frames0 t).
  - intros t. rewrite ki_ready0. split; intros (Hm & th & E & Hst); (split; [done|]).
    + destruct (Hto t th E) as (th' & E' & E1 & E2). exists th'. by rewrite E1.
    + destruct (Hfrom t th E) as (th' & E' & E1 & E2). exists th'. by rewrite E1.
  - intros n Hm. destruct (ki_leaving0 n Hm) as (th & E & Hst).
    destruct (Hto n th E) as (th' & E' & E1 & E2). exists th'. by rewrite E1.
  - intros s sm E. destruct (ki_queue0 s sm E) as (Hn & Hv & He). split; [done|]. split; [done|].
    intros t. rewrite He. unfold queued. split; intros (th & E' & H1 & H2).
    + destruct (Hto t th E') as (th' & ? & E1 & E2). exists th'. by rewrite E1, E2.
    + destruct (Hfrom t th E') as (th' & ? & E1 & E2). exists th'. by rewrite E1, E2.
  - intros t th s E. destruct (Hfrom t th E) as (th' & E' & E1 & E2). rewrite <- E2. by apply (ki_sem0 t).
  - intros t th E. destruct (Hfrom t th E) as (th' & E' & E1 & E2). rewrite <- E1, <- E2.
    by apply (ki_blocked0 t).
  - intros t Hdt. destruct (ki_dying0 t Hdt) as (th & E & H1 & H2 & H3).
    destruct (Hto t th E) as (th' & E' & E1 & E2). exists th'. by rewrite E1, E2.
  - intros s sm E Hq. rewrite Hw. by apply ki_wake0.
Qed.

Lemma upd_thread_alike (f : Thread → Thread) t k :
  (∀ th, t_status (f th) = t_status th ∧ frames (f th) = frames th) → alike k (upd_thread f t k).
Proof.
  intros Hf. split; try done. intros t'. unfold upd_thread. simpl. unfold similar.
  destruct (decide (t' = t)) as [->|Hne]; [|by rewrite lookup_alter_ne].
  rewrite lookup_alter_eq. destruct (threads k !! t) as [th|]; simpl; [|done].
  destruct (Hf th) as [-> ->]. done.
Qed.

Lemma alike_refl k : alike k k.
Proof. by split. Qed.

(** ** The current thread's stack *)

(** A thread running code of its own owes nothing to a dead one. *)
Lemma running_no_dying k th :
  kinv Normal k → threads k !! currentThread k = Some th → asleep (frames th) = false →
  switched (frames th) = false → threadToBeDestroyed k = None ∧ t_status th = RUNNING.
Proof.
  intros [] E Ha Hs. destruct ki_cur0 as (th' & E' & Hc). assert (th' = th) as -> by congruence.
  simpl in Hc. rewrite Ha in Hc. split; [|done].
  destruct (threadToBeDestroyed k) as [t|] eqn:Ed; [|done].
  destruct (ki_dying0 t eq_refl) as (th' & Et & Hb & _ & [->|[_ Hw] ]); [congruence|].
  rewrite (cur_frames_eq k th E) in Hw. congruence.
Qed.

(** Calls and returns of the current thread, and the start of a P. *)
Lemma set_frames_kinv k th fs :
  kinv Normal k → threads k !! currentThread k = Some th →
  asleep (frames th) = false → switched (frames th) = false → pend (frames th) = None →
  frames_ok fs = true → asleep fs = false →
  (∀ s, pend fs = Some s → is_Some (sems k !! s)) →
  kinv Normal (set_frames fs (currentThread k) k).
Proof.
  intros Hk E Ha Hs Hp Hfs Hafs Hps.
  destruct (running_no_dying k th Hk E Ha Hs) as [Hd Hr]. destruct Hk.
  assert (HT : threads (set_frames fs (currentThread k) k) =
    <[currentThread k := mkThread (t_status th) fs (space th) (userRegisters th)]> (threads k))
    by (unfold set_frames; by apply (upd_thread_threads (λ th, mkThread (t_status th) fs (space th) (userRegisters th)))).
  set (c := currentThread k) in *.
  split; rewrite ?HT; change (currentThread (set_frames fs c k)) with c;
    change (readyList (set_frames fs c k)) with (readyList k);
    change (sems (set_frames fs c k)) with (sems k);
    change (threadToBeDestroyed (set_frames fs c k)) with (threadToBeDestroyed k); try done.
  - rewrite lookup_insert_eq. eexists. split; [done|]. simpl. by rewrite Hafs.
  - intros t th' E' Hne. rewrite lookup_insert_ne in E' by done. by apply (ki_other0 t).
  - intros t th' E'. upd_cases t c; [by injection E' as <-|by apply (ki_frames0 t)].
  - intros t. rewrite ki_ready0. upd_cases t c; [|done].
    split; intros (Hm & th' & E' & Hst); exfalso.
    + congruence.
    + injection E' as <-. simpl in Hst. congruence.
  - intros s sm E'. destruct (ki_queue0 s sm E') as (Hn & Hv & He). split; [done|]. split; [done|].
    intros t. rewrite He. upd_cases t c; [|done]. unfold queued.
    split; intros (th' & E1 & H1 & H2); exfalso; [congruence|].
    injection E1 as <-. simpl in H1. congruence.
  - intros t th' s E'. upd_cases t c; [injection E' as <-; apply Hps|by apply (ki_sem0 t)].
  - intros t th' E'. upd_cases t c; [injection E' as <-; simpl; congruence|by apply (ki_blocked0 t)].
  - intros t Hdt. congruence.
  - intros s sm E' Hq. etrans; [by apply (ki_wake0 s sm)|]. apply inj_le, subseteq_size.
    intros t. rewrite !elem_of_woken, HT. intros (th' & E1 & H1 & H2).
    upd_cases t c; [exfalso; congruence|by exists th'].
Qed.

(** ** P *)

(** The stack of the current thread with the semaphore it passes or queues on. *)
Definition put_thread (th : Thread) k : KState D :=
  set_threads (<[currentThread k := th]> (threads k)) k.

Lemma P_pass_kinv k th s sm b old :
  kinv Normal k → threads k !! currentThread k = Some th → frames th = FP s old :: b →
  sems k !! s = Some sm → value sm ≠ 0 →
  kinv Normal (pop (set_sems (<[s := mkSemaphore (value sm - 1) (queue sm)]> (sems k)) k)).
Proof.
  intros Hk E Hf Es Hv.
  assert (Ha : asleep (frames th) = false) by by rewrite Hf.
  assert (Hs : switched (frames th) = false) by by rewrite Hf.
  destruct (running_no_dying k th Hk E Ha Hs) as [Hd Hr]. destruct Hk.
  set (c := currentThread k) in *.
  set (k' := pop _).
  assert (HT : threads k' = <[c := mkThread RUNNING b (space th) (userRegisters th)]> (threads k)).
  { unfold k', pop. rewrite (upd_thread_threads _ _ _ th) by done. simpl. by rewrite Hf, Hr. }
  assert (Hb : base b = true) by (apply ticks_base; specialize (ki_frames0 c th E); by rewrite Hf in ki_frames0).
  destruct (base_inner b Hb) as (Hbi & Hbs & Hba & Hbp & Hbo).
  split; rewrite ?HT; change (currentThread k') with c; change (readyList k') with (readyList k);
    change (sems k') with (<[s := mkSemaphore (value sm - 1) (queue sm)]> (sems k));
    change (threadToBeDestroyed k') with (threadToBeDestroyed k); try done.
  - rewrite lookup_insert_eq. eexists. split; [done|]. simpl. by rewrite Hba.
  - intros t th' E' Hne. rewrite lookup_insert_ne in E' by done. by apply (ki_other0 t).
  - intros t th' E'. upd_cases t c; [by injection E' as <-|by apply (ki_frames0 t)].
  - intros t. rewrite ki_ready0. upd_cases t c; [|done].
    split; intros (Hm & th' & E' & Hst); exfalso; [congruence|].
    injection E' as <-. simpl in Hst. congruence.
  - intros s' sm' E'.
    assert (∃ sm0, sems k !! s' = Some sm0 ∧ queue sm' = queue sm0 ∧ 0 ≤ value sm') as (sm0 & E0 & Hq & Hv').
    { destruct (decide (s' = s)) as [->|Hne].
      - rewrite lookup_insert_eq in E'. injection E' as <-. exists sm. split; [done|]. split; [done|].
        simpl. destruct (ki_queue0 s sm Es) as (_ & ? & _). lia.
      - rewrite lookup_insert_ne in E' by done. exists sm'. by destruct (ki_queue0 s' sm' E') as (_ & ? & _). }
    destruct (ki_queue0 s' sm0 E0) as (Hn & _ & He). rewrite Hq. split; [done|]. split; [done|].
    intros t. rewrite He. upd_cases t c; [|done]. unfold queued.
    split; intros (th' & E1 & H1 & H2); exfalso; [congruence|].
    injection E1 as <-. simpl in H1. congruence.
  - intros t th' s' E' Hp.
    assert (is_Some (sems k !! s')).
    { upd_cases t c; [injection E' as <-; simpl in Hp; congruence|by apply (ki_sem0 t th')]. }
    upd_cases s' s; done.
  - intros t th' E'. upd_cases t c; [injection E' as <-; simpl; congruence|by apply (ki_blocked0 t)].
  - intros t Hdt. congruence.
  - intros s' sm' E' Hq.
    assert (Hw : ∀ t s'', t ∈ woken s'' k ↔ (t = c ∧ s'' = s) ∨ t ∈ woken s'' k').
    { intros t s''. rewrite !elem_of_woken, HT. upd_cases t c.
      - split; [|intros [ [_ ->]|(th' & E1 & H1 & H2)] ].
        + intros (th' & E1 & H1 & H2). assert (th' = th) as -> by congruence. left.
          split; [done|]. rewrite Hf in H2. cbv [pend inner] in H2. congruence.
        + exists th. split; [done|]. split; [by rewrite Hr|by rewrite Hf].
        + injection E1 as <-. simpl in H2. congruence.
      - split; [by right|]. by intros [ [? _]|?]. }
    destruct (decide (s' = s)) as [->|Hne].
    + rewrite lookup_insert_eq in E'. injection E' as <-. cbn [value queue] in *.
      specialize (ki_wake0 s sm Es Hq). rewrite (woken_add s k' k c) in ki_wake0; [lia| |].
      * intros t. rewrite Hw. naive_solver.
      * rewrite elem_of_woken, HT, lookup_insert_eq. intros (th' & E1 & _ & H2).
        injection E1 as <-. simpl in H2. congruence.
    + rewrite lookup_insert_ne in E' by done. replace (woken s' k') with (woken s' k); [by apply ki_wake0|].
      apply set_eq. intros t. rewrite Hw. naive_solver.
Qed.

(** The thread goes to sleep in the queue of a semaphore of value 0. *)
Lemma P_wait_kinv k th s sm b old :
  kinv Normal k → threads k !! currentThread k = Some th → frames th = FP s old :: b →
  sems k !! s = Some sm → value sm = 0 →
  kinv Normal (push FSleep (setStatus BLOCKED (currentThread k)
    (set_sems (<[s := mkSemaphore (value sm) (queue sm ++ [currentThread k])]> (sems k)) k))).
Proof.
  intros Hk E Hf Es Hv.
  assert (Ha : asleep (frames th) = false) by by rewrite Hf.
  assert (Hs : switched (frames th) = false) by by rewrite Hf.
  destruct (running_no_dying k th Hk E Ha Hs) as [Hd Hr]. destruct Hk.
  set (c := currentThread k) in *.
  set (k' := push _ _).
  set (th' := mkThread BLOCKED (FSleep :: frames th) (space th) (userRegisters th)).
  assert (HT : threads k' = <[c := th']> (threads k)).
  { unfold k', push, setStatus. erewrite upd_thread_threads;
      [|erewrite upd_thread_threads by exact E; apply lookup_insert_eq].
    erewrite upd_thread_threads by exact E. simpl. by rewrite insert_insert_eq. }
  assert (Hpt : pend (frames th') = Some s) by (simpl; by rewrite Hf).
  split; rewrite ?HT; change (currentThread k') with c; change (readyList k') with (readyList k);
    change (sems k') with (<[s := mkSemaphore (value sm) (queue sm ++ [c])]> (sems k));
    change (threadToBeDestroyed k') with (threadToBeDestroyed k); try done.
  - rewrite lookup_insert_eq. eexists. split; [done|]. by left.
  - intros t th0 E' Hne. rewrite lookup_insert_ne in E' by done. by apply (ki_other0 t).
  - intros t th0 E'. upd_cases t c; [|by apply (ki_frames0 t)]. injection E' as <-.
    specialize (ki_frames0 c th E). rewrite Hf in ki_frames0. simpl. by rewrite Hf.
  - intros t. rewrite ki_ready0. upd_cases t c; [|done].
    split; intros (Hm & th0 & E' & Hst); exfalso; [congruence|].
    injection E' as <-. done.
  - intros s' sm' E'. destruct (decide (s' = s)) as [->|Hne].
    + rewrite lookup_insert_eq in E'. injection E' as <-. simpl.
      destruct (ki_queue0 s sm Es) as (Hn & _ & He).
      assert (c ∉ queue sm) by (rewrite He; intros (th0 & E1 & H1 & _); congruence).
      split; [|split; [lia|] ].
      * apply NoDup_app. split; [done|]. split; [set_solver|apply NoDup_singleton].
      * intros t. rewrite elem_of_app, list_elem_of_singleton, He. upd_cases t c.
        -- split; [intros _; by exists th'|by right].
        -- split; [intros [?|?]; done|by left].
    + rewrite lookup_insert_ne in E' by done. destruct (ki_queue0 s' sm' E') as (Hn & Hv' & He).
      split; [done|]. split; [done|]. intros t. rewrite He. upd_cases t c; [|done].
      split; intros (th0 & E1 & H1 & H2); exfalso; [congruence|].
      injection E1 as <-. congruence.
  - intros t th0 s' E' Hp.
    assert (is_Some (sems k !! s')).
    { upd_cases t c; [injection E' as <-|by apply (ki_sem0 t th0)].
      assert (s' = s) as -> by congruence. done. }
    upd_cases s' s; done.
  - intros t th0 E'. upd_cases t c; [injection E' as <-; congruence|by apply (ki_blocked0 t)].
  - intros t Hdt. congruence.
  - intros s' sm' E' Hq. destruct (decide (s' = s)) as [->|Hne].
    + rewrite lookup_insert_eq in E'. injection E' as <-. simpl. lia.
    + rewrite lookup_insert_ne in E' by done. replace (woken s' k') with (woken s' k); [by apply ki_wake0|].
      apply set_eq. intros t. rewrite !elem_of_woken, HT. upd_cases t c; [|done].
      split; intros (th0 & E1 & H1 & H2); exfalso.
      * assert (th0 = th) as -> by congruence. rewrite Hf in H2. cbv [pend inner] in H2. congruence.
      * injection E1 as <-. done.
Qed.

(** ** Finish *)

Lemma finish_kinv k th :
  kinv Normal k → threads k !! currentThread k = Some th → base (frames th) = true →
  kinv Normal (push FSleep (setStatus BLOCKED (currentThread k) (set_destroy (Some (currentThread k)) k))).
Proof.
  intros Hk E Hb. destruct (base_inner _ Hb) as (Hbi & Hs & Ha & Hp & Ho).
  destruct (running_no_dying k th Hk E Ha Hs) as [Hd Hr]. destruct Hk.
  set (c := currentThread k) in *. set (k' := push _ _).
  set (th' := mkThread BLOCKED (FSleep :: frames th) (space th) (userRegisters th)).
  assert (HT : threads k' = <[c := th']> (threads k)).
  { unfold k', push, setStatus. erewrite upd_thread_threads;
      [|erewrite upd_thread_threads by exact E; apply lookup_insert_eq].
    erewrite upd_thread_threads by exact E. simpl. by rewrite insert_insert_eq. }
  assert (Hpt : pend (frames th') = None).
  { unfold pend. simpl. unfold pend in Hp. by rewrite Hbi in Hp. }
  split; rewrite ?HT; change (currentThread k') with c; change (readyList k') with (readyList k);
    change (sems k') with (sems k); change (threadToBeDestroyed k') with (Some c); try done.
  - rewrite lookup_insert_eq. eexists. split; [done|]. by left.
  - intros t th0 E' Hne. rewrite lookup_insert_ne in E' by done. by apply (ki_other0 t).
  - intros t th0 E'. upd_cases t c; [|by apply (ki_frames0 t)]. injection E' as <-.
    unfold th', frames_ok. cbn [frames inner]. clear - Hb. by destruct (frames th) as [|[] ?].
  - intros t. rewrite ki_ready0. upd_cases t c; [|done].
    split; intros (Hm & th0 & E' & Hst); exfalso; [congruence|].
    injection E' as <-. done.
  - intros s sm E'. destruct (ki_queue0 s sm E') as (Hn & Hv & He).
    split; [done|]. split; [done|]. intros t. rewrite He. upd_cases t c; [|done].
    split; intros (th0 & E1 & H1 & H2); exfalso; [congruence|].
    injection E1 as <-. congruence.
  - intros t th0 s E' Hps. upd_cases t c; [injection E' as <-; congruence|by apply (ki_sem0 t th0)].
  - intros t th0 E' Hst Hps. upd_cases t c; [done|]. specialize (ki_blocked0 t th0 E' Hst Hps). congruence.
  - intros t [= <-]. exists th'. rewrite lookup_insert_eq. split_and!; try done. by left.
  - intros s sm E' Hq. replace (woken s k') with (woken s k); [by apply ki_wake0|].
    apply set_eq. intros t. rewrite !elem_of_woken, HT. upd_cases t c; [|done].
    split; intros (th0 & E1 & H1 & H2); exfalso; [congruence|]. injection E1 as <-. done.
Qed.

(** ** Leaving the processor *)

(** From Sleep: the next thread is off the list and the loop is over. *)
Lemma leave_sleep_kinv k th b n l :
  kinv Normal k → threads k !! currentThread k = Some th → frames th = FSleep :: b →
  readyList k = n :: l → kinv (Leaving n) (pop (set_ready l k)).
Proof.
  intros [] E Hf Hl. set (c := currentThread k) in *. set (k' := pop _).
  assert (HT : threads k' = <[c := mkThread (t_status th) b (space th) (userRegisters th)]> (threads k)).
  { unfold k', pop. rewrite (upd_thread_threads _ _ _ th) by done. simpl. by rewrite Hf. }
  destruct ki_cur0 as (th0 & E0 & Hc). assert (th0 = th) as -> by congruence. clear E0.
  simpl in Hc. rewrite Hf in Hc. simpl in Hc.
  pose proof (ki_frames0 c th E) as Hfo. rewrite Hf in Hfo. unfold frames_ok in Hfo. cbn [inner] in Hfo.
  assert (Hib : inner b = b ∧ frames_ok b = true).
  { destruct b as [|f b]; [done|]. destruct f; try done; simpl in Hfo; try done; split; done. }
  destruct Hib as [Hib Hfb].
  assert (Hpb : pend b = pend (frames th)) by (rewrite Hf; unfold pend; by rewrite Hib).
  assert (Hsame : ∀ t, (∃ th0, threads k' !! t = Some th0 ∧ t_status th0 = READY) ↔
                       (∃ th0, threads k !! t = Some th0 ∧ t_status th0 = READY)).
  { intros t. rewrite HT. upd_cases t c; [|done]. split; intros (th0 & E1 & H1).
    - injection E1 as <-. eauto.
    - eexists. split; [done|]. simpl. congruence. }
  rewrite Hl in *. apply NoDup_cons in ki_nodup0 as [Hnl Hnd].
  assert (Hnr : ∃ th0, threads k !! n = Some th0 ∧ t_status th0 = READY).
  { destruct (ki_ready0 n) as [Hn _]. destruct Hn as [_ Hn]; [set_solver|done]. }
  split; rewrite ?HT; change (currentThread k') with c; change (readyList k') with l;
    change (sems k') with (sems k); change (threadToBeDestroyed k') with (threadToBeDestroyed k); try done.
  - rewrite lookup_insert_eq. eexists. split; [done|]. by split.
  - intros t th0 E' Hne. rewrite lookup_insert_ne in E' by done. by apply (ki_other0 t).
  - intros t th0 E'. upd_cases t c; [by injection E' as <-|by apply (ki_frames0 t)].
  - intros t. rewrite <- HT, Hsame. destruct (ki_ready0 t) as [H1 H2].
    destruct (decide (t = n)) as [->|Hne]; [split; [done|intros [? _]; done] |].
    split; [intros Ht; split; [congruence|apply H1; set_solver]|].
    intros [_ Hex]. destruct (elem_of_cons l t n) as [Hx _]. destruct Hx as [->|Hx]; [|done|done].
    apply H2. by split.
  - intros n' [= <-]. rewrite <- HT. by apply Hsame.
  - intros s sm E'. destruct (ki_queue0 s sm E') as (Hn & Hv & He).
    split; [done|]. split; [done|]. intros t. rewrite He. upd_cases t c; [|done]. unfold queued.
    split; intros (th0 & E1 & H1 & H2).
    + assert (th0 = th) as -> by congruence. eexists. split; [done|]. simpl. by rewrite Hpb.
    + injection E1 as <-. exists th. split; [done|]. simpl in *. by rewrite <- Hpb.
  - intros t th0 s E'. upd_cases t c; [|by apply (ki_sem0 t)]. injection E' as <-.
    cbn [frames]. rewrite Hpb. by apply (ki_sem0 c).
  - intros t th0 E'. upd_cases t c; [|by apply (ki_blocked0 t)]. injection E' as <-.
    cbn [frames t_status]. rewrite Hpb. by apply (ki_blocked0 c).
  - intros t Hdt. destruct (ki_dying0 t Hdt) as (th0 & E0 & H1 & H2 & H3).
    assert (t = c) as ->.
    { destruct H3 as [|[_ Hsw] ]; [done|]. rewrite (cur_frames_eq k th E), Hf in Hsw. done. }
    assert (th0 = th) as -> by congruence. rewrite lookup_insert_eq.
    eexists. split; [done|]. cbn [frames t_status]. rewrite Hpb. auto.
  - intros s sm E' Hq. replace (woken s k') with (woken s k); [by apply ki_wake0|].
    apply set_eq. intros t. rewrite !elem_of_woken, HT. upd_cases t c; [|done]. unfold awake.
    split; intros (th0 & E1 & H1 & H2).
    + assert (th0 = th) as -> by congruence. eexists. split; [done|]. simpl. by rewrite Hpb.
    + injection E1 as <-. exists th. split; [done|]. simpl in *. by rewrite <- Hpb.
Qed.

(** From Yield: the thread goes to the end of the list. *)
Lemma leave_yield_kinv k th n l :
  kinv Normal k → threads k !! currentThread k = Some th → base (frames th) = true →
  readyList k = n :: l → kinv (Leaving n) (ReadyToRun (currentThread k) (set_ready l k)).
Proof.
  intros Hk E Hb Hl. destruct (base_inner _ Hb) as (Hbi & Hs & Ha & Hp & Ho).
  destruct (running_no_dying k th Hk E Ha Hs) as [Hd Hr]. destruct Hk.
  set (c := currentThread k) in *. set (k' := ReadyToRun _ _).
  assert (HT : threads k' = <[c := mkThread READY (frames th) (space th) (userRegisters th)]> (threads k)).
  { unfold k', ReadyToRun, setStatus. simpl.
    exact (upd_thread_threads (λ th, mkThread READY (frames th) (space th) (userRegisters th)) c k th E). }
  rewrite Hl in *. apply NoDup_cons in ki_nodup0 as [Hnl Hnd].
  assert (Hcn : c ∉ n :: l).
  { rewrite (ki_ready0 c). intros (_ & th0 & E1 & H1). congruence. }
  destruct (proj1 (ki_ready0 n)) as (_ & thn & En & Hrn); [set_solver|].
  split; rewrite ?HT; change (currentThread k') with c; change (readyList k') with (l ++ [c]);
    change (sems k') with (sems k); change (threadToBeDestroyed k') with (threadToBeDestroyed k).
  - rewrite lookup_insert_eq. eexists. split; [done|]. split; [by right|done].
  - intros t th0 E' Hne. rewrite lookup_insert_ne in E' by done. by apply (ki_other0 t).
  - intros t th0 E'. upd_cases t c; [by injection E' as <-|by apply (ki_frames0 t)].
  - apply NoDup_app. split; [done|]. split; [set_solver|apply NoDup_singleton].
  - intros t. rewrite elem_of_app, list_elem_of_singleton. upd_cases t c.
    + split; [intros _|by right]. split; [intros [= ->]; set_solver|eauto].
    + destruct (ki_ready0 t) as [H1 H2]. split.
      * intros [Ht|?]; [|done]. split; [intros [= ->]; done|]. apply H1. set_solver.
      * intros [Hne Hex]. left. destruct (elem_of_cons l t n) as [Hx _].
        destruct Hx as [->|Hx]; [apply H2; by split|done|done].
  - intros n' [= <-]. rewrite lookup_insert_ne by (intros ->; set_solver). eauto.
  - intros s sm E'. destruct (ki_queue0 s sm E') as (Hn & Hv & He).
    split; [done|]. split; [done|]. intros t. rewrite He. upd_cases t c; [|done].
    split; intros (th0 & E1 & H1 & H2); exfalso; [congruence|]. injection E1 as <-. done.
  - intros t th0 s E'. upd_cases t c; [|by apply (ki_sem0 t)]. injection E' as <-. cbn [frames]. intros Hx. by apply (ki_sem0 c th s E Hx).
  - intros t th0 E'. upd_cases t c; [injection E' as <-; done|by apply (ki_blocked0 t)].
  - intros t Hdt. congruence.
  - intros s sm E' Hq. replace (woken s k') with (woken s k); [by apply ki_wake0|].
    apply set_eq. intros t. rewrite !elem_of_woken, HT. upd_cases t c; [|done].
    split; intros (th0 & E1 & H1 & H2); exfalso.
    + congruence.
    + injection E1 as <-. simpl in H2. congruence.
Qed.

(** ** Run *)

(** The switch itself. *)
Definition switch_to (n : tid) k : KState D :=
  setStatus RUNNING n (set_current n (push FSwitched k)).

Lemma switch_threads k th n thn :
  threads k !! currentThread k = Some th → threads k !! n = Some thn →
  ∀ t, threads (switch_to n k) !! t =
    (if decide (t = n) then Some (mkThread RUNNING (if decide (n = currentThread k) then FSwitched :: frames thn else frames thn)
                                   (space thn) (userRegisters thn))
     else if decide (t = currentThread k) then
       Some (mkThread (t_status th) (FSwitched :: frames th) (space th) (userRegisters th))
     else threads k !! t).
Proof.
  intros E En t. unfold switch_to, setStatus, push, upd_thread, set_current, set_threads. simpl.
  destruct (decide (t = n)) as [->|Hn].
  - rewrite lookup_alter_eq. destruct (decide (n = currentThread k)) as [->|Hc].
    + rewrite lookup_alter_eq, En. done.
    + rewrite lookup_alter_ne, En by done. done.
  - rewrite lookup_alter_ne by done. destruct (decide (t = currentThread k)) as [->|Hc].
    + by rewrite lookup_alter_eq, E.
    + by rewrite lookup_alter_ne.
Qed.

Lemma switch_kinv n k : kinv (Leaving n) k → kinv Normal (switch_to n k).
Proof.
  intros []. destruct ki_cur0 as (th & E & Hst & Hin).
  destruct (ki_leaving0 n eq_refl) as (thn & En & Hrn).
  pose proof (switch_threads k th n thn E En) as HT. set (k' := switch_to n k) in *.
  set (c := currentThread k) in *.
  (* the stacks and statuses after the switch *)
  assert (Hfr : ∀ t th', threads k' !! t = Some th' → ∃ th0, threads k !! t = Some th0 ∧
    pend (frames th') = pend (frames th0) ∧ frames_ok (frames th') = true ∧
    (t_status th' = if decide (t = n) then RUNNING else t_status th0) ∧
    (t ≠ n → other_ok th') ∧ (t = n → switched (frames th') = true) ∧
    asleep (frames th') = false).
  { intros t th' E'. rewrite HT in E'.
    assert (Hpush : pend (FSwitched :: frames th) = pend (frames th) ∧
      frames_ok (FSwitched :: frames th) = true).
    { specialize (ki_frames0 c th E). unfold pend, frames_ok in *. clear - Hin ki_frames0.
      destruct (frames th) as [|[] b]; try done; simpl in Hin; by apply (f_equal length) in Hin; simpl in Hin; lia. }
    destruct (decide (t = n)) as [->|Hn].
    - injection E' as <-. exists thn. split; [done|]. cbn [frames t_status].
      destruct (decide (n = c)) as [->|Hc].
      + assert (thn = th) as -> by congruence. destruct Hpush. split_and!; done.
      + split; [done|]. split; [by apply (ki_frames0 n)|]. split; [done|]. split; [done|].
        destruct (ki_other0 n thn En Hc) as [ [? _]|[_ Hsw] ]; [congruence|].
        split; [done|]. by destruct (frames thn) as [|[] ?].
    - destruct (decide (t = c)) as [->|Hc].
      + injection E' as <-. exists th. split; [done|]. cbn [frames t_status]. destruct Hpush.
        split_and!; try done. intros _. right. split; [|done]. destruct Hst; auto.
      + exists th'. split; [done|]. split; [done|]. split; [by apply (ki_frames0 t)|]. split; [done|].
        pose proof (ki_other0 t th' E' Hc) as Ho. split; [done|]. split; [done|].
        destruct Ho as [ [_ ->]|[_ Hsw] ]; [done|]. by destruct (frames th') as [|[] ?]. }
  assert (Hto : ∀ t th0, threads k !! t = Some th0 → ∃ th', threads k' !! t = Some th' ∧
    pend (frames th') = pend (frames th0) ∧ t_status th' = if decide (t = n) then RUNNING else t_status th0).
  { intros t th0 E0. assert (∃ th', threads k' !! t = Some th') as [th' E'].
    { rewrite HT. destruct (decide (t = n)); [eauto|]. destruct (decide (t = c)); eauto. }
    destruct (Hfr t th' E') as (th1 & E1 & Hp & _ & Hs & _). assert (th1 = th0) as -> by congruence.
    eauto. }
  split; change (currentThread k') with n; change (readyList k') with (readyList k);
    change (sems k') with (sems k); change (threadToBeDestroyed k') with (threadToBeDestroyed k).
  - destruct (Hto n thn En) as (th' & E' & _ & Hs). destruct (Hfr n th' E') as (_ & _ & _ & _ & _ & _ & _ & Ha).
    exists th'. split; [done|]. simpl. rewrite Ha, Hs. by rewrite decide_True.
  - intros t th' E' Hne. by destruct (Hfr t th' E') as (_ & _ & _ & _ & _ & Ho & _); auto.
  - intros t th' E'. by destruct (Hfr t th' E') as (_ & _ & _ & ? & _).
  - done.
  - intros t. rewrite ki_ready0. split.
    + intros (Hm & th0 & E0 & H0). split; [done|]. destruct (Hto t th0 E0) as (th' & E' & _ & Hs).
      exists th'. split; [done|]. rewrite Hs. rewrite decide_False; [done|congruence].
    + intros (_ & th' & E' & H'). destruct (Hfr t th' E') as (th0 & E0 & _ & _ & Hs & _).
      rewrite Hs in H'. destruct (decide (t = n)) as [|Hn]; [done|]. split; [congruence|eauto].
  - done.
  - intros s sm E'. destruct (ki_queue0 s sm E') as (Hn & Hv & He). split; [done|]. split; [done|].
    intros t. rewrite He. unfold queued. split.
    + intros (th0 & E0 & H1 & H2). destruct (Hto t th0 E0) as (th' & Et & Hp & Hs).
      exists th'. rewrite Hs, Hp, decide_False; [done|congruence].
    + intros (th' & Et & H1 & H2). destruct (Hfr t th' Et) as (th0 & E0 & Hp & _ & Hs & _).
      exists th0. rewrite Hs in H1. rewrite Hp in H2. destruct (decide (t = n)); done.
  - intros t th' s E' Hp. destruct (Hfr t th' E') as (th0 & E0 & Hp0 & _).
    apply (ki_sem0 t th0); congruence.
  - intros t th' E' Hs Hp. destruct (Hfr t th' E') as (th0 & E0 & Hp0 & _ & Hs0 & _).
    rewrite Hs0 in Hs. destruct (decide (t = n)); [done|]. apply (ki_blocked0 t th0); congruence.
  - intros t Hd. destruct (ki_dying0 t Hd) as (th0 & E0 & H1 & H2 & _).
    destruct (Hto t th0 E0) as (th' & E' & Hp & Hs). exists th'. split; [done|].
    assert (t ≠ n) by congruence. rewrite Hs, Hp, decide_False by done. split; [done|]. split; [done|].
    right. split; [done|]. destruct (Hto n thn En) as (th1 & E1 & _).
    rewrite (cur_frames_eq k' th1 E1).
    destruct (Hfr n th1 E1) as (_ & _ & _ & _ & _ & _ & Hsn & _). by apply Hsn.
  - intros s sm E' Hq. etrans; [by apply (ki_wake0 s sm)|]. apply inj_le, subseteq_size.
    intros t. rewrite !elem_of_woken. intros (th0 & E0 & H1 & H2).
    destruct (Hto t th0 E0) as (th' & Et & Hp & Hs). exists th'. split; [done|].
    unfold awake. rewrite Hs, Hp. split; [|done]. by destruct (decide (t = n)).
Qed.

Lemma switch_switched n k : kinv (Leaving n) k → switched (cur_frames (switch_to n k)) = true.
Proof.
  intros []. destruct ki_cur0 as (th & E & Hst & Hin).
  destruct (ki_leaving0 n eq_refl) as (thn & En & Hrn).
  pose proof (switch_threads k th n thn E En n) as HT. rewrite decide_True in HT by done.
  change n with (currentThread (switch_to n k)) in HT at 1.
  rewrite (cur_frames_eq _ _ HT). cbn [frames].
  case_decide as Hc; [done|]. destruct (ki_other0 n thn En Hc) as [ [? _]|[_ ?] ]; [congruence|done].
Qed.

(** ** After the switch *)

(** The frame of the switch is popped and a finished thread deleted. *)
Lemma arrive_kinv k th b :
  kinv Normal k → threads k !! currentThread k = Some th → inner (frames th) = b →
  switched (frames th) = true →
  ∃ k', destroy (pop k) = Ok k' ∧ kinv Normal k' ∧ currentThread k' = currentThread k ∧
    threads k' !! currentThread k = Some (mkThread RUNNING b (space th) (userRegisters th)) ∧
    (∀ t, t ≠ currentThread k → threads k' !! t = threads k !! t ∨ threadToBeDestroyed k = Some t ∧ threads k' !! t = None) ∧
    threadToBeDestroyed k' = None ∧ readyList k' = readyList k ∧ sems k' = sems k ∧ spaces k' = spaces k ∧
    pt_owner k' = pt_owner k ∧ machine k' = machine k ∧ dev k' = dev k ∧ halted k' = halted k.
Proof.
  intros Hk E Hb Hsw. pose proof Hk as [].
  assert (frames th = FSwitched :: b ∨ frames th = FBegin :: b) as Hf.
  { destruct (frames th) as [|[] ?]; try done; simpl in Hb; subst; auto. }
  assert (Hpb : pend (frames th) = pend b ∧ frames_ok b = true ∧ asleep b = false ∧ tail (frames th) = b).
  { specialize (ki_frames0 _ th E). clear - ki_frames0 Hf. unfold frames_ok, pend in *.
    destruct Hf as [Hf|Hf]; rewrite Hf in *; destruct b as [|[] b]; try discriminate ki_frames0; done. }
  destruct Hpb as (Hpb & Hfb & Hab & Htb).
  assert (Hr : t_status th = RUNNING).
  { destruct ki_cur0 as (th0 & E0 & Hc). assert (th0 = th) as -> by congruence. simpl in Hc.
    by destruct Hf as [Hf|Hf]; rewrite Hf in Hc. }
  set (c := currentThread k) in *.
  set (th1 := mkThread RUNNING b (space th) (userRegisters th)).
  assert (HT : threads (pop k) = <[c := th1]> (threads k)).
  { unfold pop. rewrite (upd_thread_threads _ _ _ th) by done. unfold th1. by rewrite Hr, Htb. }
  assert (Hthr : ∃ m, (m = <[c := th1]> (threads k) ∧ threadToBeDestroyed k = None ∨
      ∃ d, threadToBeDestroyed k = Some d ∧ d ≠ c ∧ m = delete d (<[c := th1]> (threads k))) ∧
      destroy (pop k) = Ok (set_destroy None (set_threads m (pop k)))).
  { unfold destroy. change (threadToBeDestroyed (pop k)) with (threadToBeDestroyed k).
    change (currentThread (pop k)) with c.
    destruct (threadToBeDestroyed k) as [d|] eqn:Ed.
    - destruct (ki_dying0 d eq_refl) as (thd & Ed' & Hbd & _). assert (d ≠ c) by congruence.
      rewrite bool_decide_false by done. cbn [negb ASSERT res_bind].
      eexists. split; [right; exists d; split; [done|split; [done|reflexivity] ]|]. by rewrite HT.
    - eexists. split; [left; split; [reflexivity|done]|]. rewrite <- HT. f_equal.
      revert Ed. unfold pop, upd_thread. destruct k. simpl. by intros ->. }
  destruct Hthr as (m & Hm & ->). eexists. split; [reflexivity|].
  set (k' := set_destroy None _).
  assert (Hlk : ∀ t, threads k' !! t = if decide (t = c) then Some th1
    else if decide (threadToBeDestroyed k = Some t) then None else threads k !! t).
  { intros t. change (threads k') with m.
    destruct Hm as [ [-> Hn]|(d & Hd & Hdc & ->)].
    - upd_cases t c; [done|]. rewrite decide_False by congruence. done.
    - destruct (decide (t = c)) as [->|Hc]; [by rewrite lookup_delete_ne, lookup_insert_eq|].
      destruct (decide (threadToBeDestroyed k = Some t)) as [Hdt|Hdt].
      + assert (d = t) as -> by congruence. by rewrite lookup_delete_eq.
      + rewrite lookup_delete_ne by congruence. by rewrite lookup_insert_ne. }
  split; [|split_and!; try done; [by rewrite Hlk, decide_True|] ].
  2:{ intros t Hc. rewrite Hlk, decide_False by done.
      destruct (decide (threadToBeDestroyed k = Some t)); auto. }
  assert (Hdead : ∀ t th0, threadToBeDestroyed k = Some t → threads k !! t = Some th0 →
    t_status th0 = BLOCKED ∧ pend (frames th0) = None).
  { intros t th0 Hd E0. destruct (ki_dying0 t Hd) as (th' & E' & H1 & H2 & _).
    assert (th' = th0) as -> by congruence. done. }
  assert (Hfrom : ∀ t th0, threads k' !! t = Some th0 → t ≠ c → threads k !! t = Some th0 ∧ threadToBeDestroyed k ≠ Some t).
  { intros t th0 E0 Hc. rewrite Hlk, decide_False in E0 by done.
    destruct (decide (threadToBeDestroyed k = Some t)); done. }
  split; change (currentThread k') with c; change (readyList k') with (readyList k);
    change (sems k') with (sems k); change (threadToBeDestroyed k') with (@None tid); try done.
  - exists th1. split; [by rewrite Hlk, decide_True|]. simpl. by rewrite Hab.
  - intros t th0 E0 Hc. destruct (Hfrom t th0 E0 Hc). by apply (ki_other0 t).
  - intros t th0 E0. destruct (decide (t = c)) as [->|Hc].
    + rewrite Hlk, decide_True in E0 by done. by injection E0 as <-.
    + destruct (Hfrom t th0 E0 Hc). by apply (ki_frames0 t).
  - intros t. rewrite ki_ready0. destruct (decide (t = c)) as [->|Hc].
    + rewrite Hlk, decide_True by done. split; intros (? & th0 & E0 & H0); exfalso; [congruence|].
      injection E0 as <-. done.
    + split; intros (? & th0 & E0 & H0); (split; [done|]); exists th0.
      * rewrite Hlk, decide_False by done. rewrite decide_False; [done|].
        intros Hd. destruct (Hdead t th0 Hd E0). congruence.
      * split; [by apply Hfrom|done].
  - intros s sm E'. destruct (ki_queue0 s sm E') as (Hn & Hv & He). split; [done|]. split; [done|].
    intros t. rewrite He. destruct (decide (t = c)) as [->|Hc].
    + rewrite Hlk, decide_True by done. split; intros (th0 & E0 & H1 & H2); exfalso; [congruence|].
      injection E0 as <-. done.
    + split; intros (th0 & E0 & H1 & H2); exists th0.
      * rewrite Hlk, decide_False by done. rewrite decide_False; [done|].
        intros Hd. destruct (Hdead t th0 Hd E0). congruence.
      * split; [by apply Hfrom|done].
  - intros t th0 s E0 Hp. destruct (decide (t = c)) as [->|Hc].
    + rewrite Hlk, decide_True in E0 by done. injection E0 as <-. apply (ki_sem0 c th); [done|].
      simpl in Hp. congruence.
    + destruct (Hfrom t th0 E0 Hc). by apply (ki_sem0 t th0).
  - intros t th0 E0 H1 H2. destruct (decide (t = c)) as [->|Hc].
    + rewrite Hlk, decide_True in E0 by done. injection E0 as <-. done.
    + destruct (Hfrom t th0 E0 Hc) as [Ht Hd]. by destruct Hd; apply (ki_blocked0 t th0).
  - intros s sm E' Hq. etrans; [by apply (ki_wake0 s sm)|]. apply inj_le, subseteq_size.
    intros t. rewrite !elem_of_woken. intros (th0 & E0 & H1 & H2).
    destruct (decide (t = c)) as [->|Hc].
    + exists th1. rewrite Hlk, decide_True by done. split; [done|]. split; [done|].
      simpl. congruence.
    + exists th0. rewrite Hlk, decide_False by done. rewrite decide_False; [done|].
      intros Hd. destruct (Hdead t th0 Hd E0). congruence.
Qed.

(** ** New threads and semaphores *)

Lemma new_thread_kinv k t sp r :
  kinv Normal k → threads k !! t = None →
  kinv Normal (set_threads (<[t := mkThread JUST_CREATED [] sp r]> (threads k)) k).
Proof.
  intros [] Ht. set (k' := set_threads _ _). set (th' := mkThread JUST_CREATED [] sp r).
  assert (HT : threads k' = <[t := th']> (threads k)) by done.
  destruct ki_cur0 as (thc & Ec & Hc). assert (currentThread k ≠ t) as Hct by congruence.
  split; rewrite ?HT; change (currentThread k') with (currentThread k);
    change (readyList k') with (readyList k); change (sems k') with (sems k);
    change (threadToBeDestroyed k') with (threadToBeDestroyed k); try done.
  - exists thc. by rewrite lookup_insert_ne.
  - intros t' th0 E0 Hne. upd_cases t' t; [injection E0 as <-; by left|by apply (ki_other0 t')].
  - intros t' th0 E0. upd_cases t' t; [by injection E0 as <-|by apply (ki_frames0 t')].
  - intros t'. rewrite ki_ready0. upd_cases t' t; [|done].
    split; intros (_ & th0 & E0 & H0); exfalso; [congruence|by injection E0 as <-].
  - intros s sm E'. destruct (ki_queue0 s sm E') as (Hn & Hv & He). split; [done|]. split; [done|].
    intros t'. rewrite He. upd_cases t' t; [|done].
    split; intros (th0 & E0 & H0 & _); exfalso; [congruence|by injection E0 as <-].
  - intros t' th0 s E0 Hp. upd_cases t' t; [by injection E0 as <-|by apply (ki_sem0 t' th0)].
  - intros t' th0 E0 H0 Hp. upd_cases t' t; [by injection E0 as <-|by apply (ki_blocked0 t' th0)].
  - intros t' Hd. destruct (ki_dying0 t' Hd) as (th0 & E0 & H1 & H2 & H3).
    assert (t' ≠ t) by congruence. exists th0. rewrite lookup_insert_ne by done.
    split_and!; try done. destruct H3 as [?|[? H3] ]; [by left|right]. split; [done|].
    rewrite <- H3. unfold cur_frames. change (currentThread k') with (currentThread k). f_equal.
    f_equal. rewrite HT. by rewrite lookup_insert_ne.
  - intros s sm E' Hq. replace (woken s k') with (woken s k); [by apply ki_wake0|].
    symmetry. apply woken_ext. intros t'. rewrite HT. upd_cases t' t; [|done].
    split; intros (th0 & E0 & H1 & H2); exfalso; [by injection E0 as <-|congruence].
Qed.

(** A created thread is given its first frame and put on the ready list. *)
Lemma start_kinv k t th :
  kinv Normal k → threads k !! t = Some th → t_status th = JUST_CREATED →
  kinv Normal (ReadyToRun t (set_frames [FBegin] t k)).
Proof.
  intros [] Ht Hst. set (k' := ReadyToRun _ _).
  set (th' := mkThread READY [FBegin] (space th) (userRegisters th)).
  assert (HT : threads k' = <[t := th']> (threads k)).
  { unfold k', ReadyToRun, setStatus, set_frames. cbn [threads set_ready].
    erewrite upd_thread_threads; [|erewrite upd_thread_threads by exact Ht; apply lookup_insert_eq].
    erewrite upd_thread_threads by exact Ht. simpl. by rewrite insert_insert_eq. }
  destruct ki_cur0 as (thc & Ec & Hc).
  assert (currentThread k ≠ t) as Hct.
  { intros <-. assert (thc = th) as -> by congruence. simpl in Hc.
    destruct (asleep (frames th)); [destruct Hc|]; congruence. }
  assert (Hpn : pend (frames th) = None).
  { destruct (ki_other0 t th Ht) as [ [_ ->]|[ [?|?] _] ]; [done|done|congruence|congruence]. }
  assert (Htr : t ∉ readyList k) by (rewrite ki_ready0; intros (_ & th0 & E0 & H0); congruence).
  split; rewrite ?HT; change (currentThread k') with (currentThread k);
    change (readyList k') with (readyList k ++ [t]); change (sems k') with (sems k);
    change (threadToBeDestroyed k') with (threadToBeDestroyed k); try done.
  - exists thc. by rewrite lookup_insert_ne.
  - intros t' th0 E0 Hne. upd_cases t' t; [|by apply (ki_other0 t')].
    injection E0 as <-. right. split; [by left|done].
  - intros t' th0 E0. upd_cases t' t; [by injection E0 as <-|by apply (ki_frames0 t')].
  - apply NoDup_app. split; [done|]. split; [set_solver|apply NoDup_singleton].
  - intros t'. rewrite elem_of_app, list_elem_of_singleton, ki_ready0. upd_cases t' t.
    + split; [intros _|by right]. split; [done|by exists th'].
    + split; [intros [?|?]; done|by left].
  - intros s sm E'. destruct (ki_queue0 s sm E') as (Hn & Hv & He). split; [done|]. split; [done|].
    intros t'. rewrite He. upd_cases t' t; [|done].
    split; intros (th0 & E0 & H0 & _); exfalso; [congruence|by injection E0 as <-].
  - intros t' th0 s E0 Hp. upd_cases t' t; [by injection E0 as <-|by apply (ki_sem0 t' th0)].
  - intros t' th0 E0 H0 Hp. upd_cases t' t; [by injection E0 as <-|by apply (ki_blocked0 t' th0)].
  - intros t' Hd. destruct (ki_dying0 t' Hd) as (th0 & E0 & H1 & H2 & H3).
    assert (t' ≠ t) by congruence. exists th0. rewrite lookup_insert_ne by done.
    split_and!; try done. destruct H3 as [?|[? H3] ]; [by left|right]. split; [done|].
    rewrite <- H3. unfold cur_frames. change (currentThread k') with (currentThread k).
    f_equal. f_equal. rewrite HT. by rewrite lookup_insert_ne.
  - intros s sm E' Hq. replace (woken s k') with (woken s k); [by apply ki_wake0|].
    symmetry. apply woken_ext. intros t'. rewrite HT. upd_cases t' t; [|done].
    split; intros (th0 & E0 & H1 & H2); exfalso; [by injection E0 as <-|congruence].
Qed.

Lemma new_semaphore_kinv k s v :
  kinv Normal k → sems k !! s = None → 0 ≤ v →
  kinv Normal (set_sems (<[s := mkSemaphore v []]> (sems k)) k).
Proof.
  intros [] Hs Hv. split; simpl; try done.
  - intros s' sm'. upd_cases s' s; [|by apply ki_queue0]. intros [= <-]. simpl.
    split; [constructor|]. split; [done|]. intros t. split; [by intros ?%elem_of_nil|].
    intros (th & E & _ & Hp). destruct (ki_sem0 t th s E Hp) as [? ?]. congruence.
  - intros t th s' E Hp. upd_cases s' s; [done|by apply (ki_sem0 t th)].
  - intros s' sm'. upd_cases s' s; [|by apply ki_wake0]. by intros [= <-].
Qed.
End Invariant.
