(* ===== verification/Kernel.v ===== *)
(** * The kernel at work: every step of every thread keeps the invariant

    [kernel_step] is one step of the machine of Threads.v: the current thread runs on in
    the call it is in, or, in code of its own, makes any request of its contract. The
    devices enter through [DeviceLaws]. *)
From S2P Require Import Prelude Words LinkedList Interrupt Machine MipsSim Threads SchedInv.

(** What the kernel asks of its devices: [DI] is their invariant and [irq] the semaphores
    their handlers signal. *)
Class DeviceLaws {H D O} (dv : Devices H D O) (DI : D → Prop) (irq : semid → Prop) := {
  fire_ok h t d : DI d → ∃ d' vs acts,
    fire h t d = Ok (d', vs, acts) ∧ DI d' ∧ Forall irq vs ∧ Forall act_ok acts;
  dev_op_ok o t d d' acts : DI d → 0 ≤ t → dev_op o t d = Ok (d', acts) →
    DI d' ∧ Forall act_ok acts ∧ AYieldOnReturn ∉ acts;
}.

(** ** The registers of the machine *)

(** [int]s, and a pending load of a general register. *)
Definition regs_ok (r : list Z) : Prop :=
  length r = Z.to_nat NumTotalRegs ∧ Forall is_int32 r ∧
  ∃ l, r !! Z.to_nat LoadReg = Some l ∧ 0 ≤ l < NumGPRegs.

Lemma regs_get m n :
  regs_ok (registers m) → 0 ≤ n < NumTotalRegs →
  ∃ v, reg n m = Ok (v, m) ∧ registers m !! Z.to_nat n = Some v ∧ is_int32 v.
Proof.
  intros (Hl & Hi & _) Hn. unfold reg. change NumTotalRegs with 40 in *.
  destruct (arr_get_in (registers m) n) as (v & -> & Hv); [lia|].
  exists v. split; [done|]. split; [done|]. by apply (Forall_lookup_1 _ _ _ _ Hi Hv).
Qed.

Lemma regs_set m n v :
  regs_ok (registers m) → 0 ≤ n < NumTotalRegs → is_int32 v → (n = LoadReg → 0 ≤ v < NumGPRegs) →
  ∃ r, set_reg n v m = Ok (tt, set_registers r m) ∧ regs_ok r.
Proof.
  intros (Hl & Hi & l & El & Hlr) Hn Hv Hld. change NumTotalRegs with 40 in *.
  unfold set_reg. rewrite arr_set_in by lia. eexists. split; [reflexivity|].
  split; [by rewrite length_insert|]. split; [by apply Forall_insert|].
  destruct (decide (n = LoadReg)) as [->|Hne].
  - exists v. split; [|auto]. apply list_lookup_insert_eq. rewrite Hl. vm_compute. lia.
  - exists l. split; [|done]. rewrite list_lookup_insert_ne; [done|]. unfold LoadReg in *. lia.
Qed.

Lemma DelayedLoad_regs m :
  regs_ok (registers m) →
  ∃ r, DelayedLoad 0 0 m = Ok (tt, set_registers r m) ∧ regs_ok r.
Proof.
  intros Hr. unfold DelayedLoad. change NumTotalRegs with 40 in *.
  pose proof Hr as (Hl & Hi & l & El & Hlr).
  destruct (regs_get m LoadReg Hr) as (l' & E1 & Hl' & _); [done|]. st_step E1.
  assert (l' = l) as -> by congruence.
  destruct (regs_get m LoadValueReg Hr) as (v & E2 & _ & Hv); [done|]. st_step E2.
  change NumGPRegs with 32 in *.
  destruct (regs_set m l v Hr) as (r1 & E3 & H1); [change NumTotalRegs with 40; lia|done|unfold LoadReg; lia|].
  st_step E3.
  destruct (regs_set (set_registers r1 m) LoadReg 0 H1) as (r2 & E4 & H2); [done|done|done|]. st_step E4.
  destruct (regs_set (set_registers r2 (set_registers r1 m)) LoadValueReg 0 H2) as (r3 & E5 & H3); [done|done|done|].
  st_step E5.
  destruct (regs_set (set_registers r3 (set_registers r2 (set_registers r1 m))) 0 0 H3) as (r4 & E6 & H4); [done|done|done|].
  rewrite E6. exists r4. split; [|done]. by destruct m.
Qed.

(** ** The user-mode side of the kernel's state *)
Section UserState.
Context {D : Type}.
Implicit Types (k : KState D).

Definition space_ok (a : AddrSpace) : Prop :=
  Z.of_nat (length (as_pageTable a)) = numPages a ∧ Forall entry_ok (as_pageTable a).

(** The machine translates through the table of the space [pt_owner] names, and that is
    the space of the thread that runs. *)
Record minv k : Prop := {
  mi_regs : regs_ok (registers (machine k));
  mi_mem : map_Forall (λ _ b, is_byte b) (mainMemory (machine k));
  mi_tlb : tlb (machine k) = None;
  mi_users t th : threads k !! t = Some th → regs_ok (userRegisters th);
  mi_spaces sp a : spaces k !! sp = Some a → space_ok a;
  mi_owner : match pt_owner k with
             | None => pageTable (machine k) = None
             | Some sp => ∃ a, spaces k !! sp = Some a ∧
                 pageTable (machine k) = Some (as_pageTable a) ∧ pageTableSize (machine k) = numPages a
             end;
  mi_space t th sp : threads k !! t = Some th → space th = Some sp → is_Some (spaces k !! sp);
  mi_current th sp : switched (cur_frames k) = false → threads k !! currentThread k = Some th →
    space th = Some sp → pt_owner k = Some sp;
}.

Lemma minv_machine_wf k sp : minv k → pt_owner k = Some sp → machine_wf (machine k).
Proof.
  intros [ (Hl & Hi & Hld) Hm Ht _ Hs Ho _ _] Hp. rewrite Hp in Ho.
  destruct Ho as (a & Ea & Ept & Esz). split; try done.
  rewrite Ht, Ept, Esz. apply (Hs sp a Ea).
Qed.

(** Changes that leave the spaces and the owner alone, and of each thread the space. *)
Lemma minv_threads k k' :
  minv k → machine k' = machine k → spaces k' = spaces k → pt_owner k' = pt_owner k →
  (∀ t th', threads k' !! t = Some th' → regs_ok (userRegisters th') ∧
     ∀ sp, space th' = Some sp → is_Some (spaces k !! sp)) →
  (switched (cur_frames k') = false → ∀ th' sp, threads k' !! currentThread k' = Some th' →
     space th' = Some sp → pt_owner k = Some sp) →
  minv k'.
Proof.
  intros [] Em Es Eo Ht Hc. split; rewrite ?Em, ?Es, ?Eo; try done.
  - intros t th' E. by apply (Ht t).
  - intros t th' sp E. by apply (Ht t).
  - intros th sp Hs. by apply Hc.
Qed.

Lemma nudged_thread k k' t th' :
  nudged k k' → threads k' !! t = Some th' →
  ∃ th, threads k !! t = Some th ∧ frames th' = frames th ∧ space th' = space th ∧
    userRegisters th' = userRegisters th.
Proof.
  intros Hn E. destruct (nu_threads _ _ Hn t) as [E'|(th & E1 & _ & E2)].
  - rewrite E in E'. eauto.
  - rewrite E in E2. injection E2 as ->. eauto.
Qed.

Lemma minv_nudged k k' : minv k → nudged k k' → machine k' = machine k → minv k'.
Proof.
  intros Hm Hn Em. apply (minv_threads k); try done; try apply Hn.
  - intros t th' E. destruct (nudged_thread k k' t th' Hn E) as (th & E1 & _ & -> & ->).
    split; [by apply (mi_users _ Hm t)|]. intros sp. by apply (mi_space _ Hm t).
  - rewrite (nudged_frames k k' Hn). intros Hs th' sp E.
    destruct (nudged_thread k k' _ th' Hn E) as (th & E1 & _ & -> & _).
    rewrite (nu_current _ _ Hn) in E1. by apply (mi_current _ Hm th).
Qed.

Lemma minv_registers k r : minv k → regs_ok r →
  minv (set_machine (pt_owner k) (set_registers r (machine k)) k).
Proof. intros [] Hr. by split. Qed.
End UserState.

(** ** Steps of the kernel *)
Section Kernel.
Context {H D O : Type} {dv : Devices H D O} {DI : D → Prop} {irq : semid → Prop}.
Context {dlaws : DeviceLaws dv DI irq}.
Abbreviation world := (World H (KState D)).
Implicit Types (w : world) (k : KState D).

(** What the handlers rely on and keep. *)
Record kI k : Prop := {
  kI_k : kinv Normal k;
  kI_m : minv k;
  kI_dev : DI (dev k);
  kI_irq s : irq s → is_Some (sems k !! s);
}.

Definition kI_from k0 k : Prop := kI k ∧ nudged k0 k.

#[local] Instance kernel_handler_laws k0 : HandlerLaws kernel_handlers (kI_from k0).
Proof.
  split.
  - intros h t k [ [Hk Hm Hd Hq] Hn]. cbn [run_handler kernel_handlers].
    destruct (fire_ok h t (dev k) Hd) as (d' & vs & acts & -> & Hd' & Hvs & Ha). cbn [res_bind].
    assert (Hal : alike k (set_dev d' k)) by by split.
    destruct (V_all_kinv Normal vs (set_dev d' k)) as (k' & -> & Hk' & Hn' & Em & Ed).
    { by apply (alike_kinv _ k). }
    { eapply Forall_impl; [exact Hvs|]. apply Hq. }
    cbn [res_bind]. exists k', acts. split; [done|]. split; [|done].
    assert (Hn1 : nudged k (set_dev d' k)) by (split; auto using ready_same).
    pose proof (nudged_trans _ _ _ Hn1 Hn') as Hn2. split; [|by apply (nudged_trans k0 k)].
    split; [done|by apply (minv_nudged k)|by rewrite Ed|].
    intros s Hs. apply (nu_sems _ _ Hn2). by apply Hq.
  - intros k [ [Hk Hm Hd Hq] Hn]. cbn [delayed_load kernel_handlers].
    destruct (DelayedLoad_regs (machine k) (mi_regs _ Hm)) as (r & -> & Hr). cbn [res_bind snd].
    eexists. split; [reflexivity|]. split; [|apply (nudged_trans k0 k); [done|by split; auto using ready_same] ].
    split; try done; [|by apply minv_registers].
    apply (alike_kinv _ k); [by split|done].
Qed.

(** The state between calls, but for the level. *)
Record rinv w : Prop := {
  ri_k : kI (rest w);
  ri_time : time_wf w;
  ri_now : 0 ≤ now w;
  ri_handler : inHandler (interrupt w) = false;
  ri_status : status (interrupt w) ≠ IdleMode;
}.

(** Inside the calls of the scheduler interrupts are off. *)
Definition level_ok w : Prop :=
  match cur_frames (rest w) with
  | [] | FTick _ :: _ => True
  | _ => level (interrupt w) = IntOff
  end.

Definition winv w : Prop := rinv w ∧ level_ok w.

Lemma kI_alike k k' :
  alike k k' → kI k → minv k' → DI (dev k') → kI k'.
Proof.
  intros Ha [] Hm Hd. split; try done; [by apply (alike_kinv _ k)|]. by rewrite (al_sems _ _ Ha).
Qed.

(** *** The clock *)

Lemma tick_rinv w :
  rinv w →
  ∃ w', OneTick_interrupts w = Ok (tt, w') ∧ rinv w' ∧ nudged (rest w) (rest w') ∧
    level (interrupt w') = IntOn ∧ now w' = now (tick w) ∧ status (interrupt w') = status (interrupt w).
Proof.
  intros [Hk Ht Hn Hh Hs].
  destruct (OneTick_ok (laws := kernel_handler_laws (rest w)) w) as (w1 & _ & E & Hwf & HI & Hnow & Hst & Hih & _);
    [split; [done|apply nudged_refl]|done|done|].
  destruct (put_back_frame w1) as (Fn & Fs & Fr & Fl & Ft & Fy & Fh).
  exists (set_level IntOn (put_back w1)). split; [done|].
  destruct HI as [HI Hnu].
  assert (Hnt : now w ≤ now (tick w)).
  { unfold tick, now. simpl. rewrite (proj1 (spend_ticks _ _ _)). case_bool_decide; unfold SystemTick, UserTick; lia. }
  split; [|split; [by simpl; rewrite Fr|split; [done|split; [|by simpl; rewrite Ft] ] ] ].
  - split; simpl; rewrite ?Fr, ?Fh, ?Ft; auto.
    + destruct (put_back_wf w1 Hwf). by split.
    + change (now (set_level IntOn (put_back w1))) with (now (put_back w1)). rewrite Fn, Hnow. lia.
    + by rewrite Hst.
  - change (now (set_level IntOn (put_back w1))) with (now (put_back w1)). by rewrite Fn.
Qed.

Lemma Idle_rinv w :
  rinv w → level (interrupt w) = IntOff →
  Idle w = Fail (Exited 0) ∨
  ∃ w', Idle w = Ok (tt, w') ∧ rinv w' ∧ nudged (rest w) (rest w') ∧ level (interrupt w') = IntOff.
Proof.
  intros [Hk Ht Hn Hh Hs] Hl.
  pose proof (Idle_ok (laws := kernel_handler_laws (rest w)) w (conj Hk (nudged_refl _)) Ht Hl) as HI.
  destruct (pending (interrupt w)) as [|e others]; [by left|]. cbv zeta in HI.
  destruct (_ && _); [by left|right].
  destruct HI as (w1 & w2 & d1 & d2 & _ & _ & _ & _ & E & Hwf & [HI Hnu] & Hnow & Hl2 & Hih).
  destruct (put_back_frame w2) as (Fn & Fs & Fr & Fl & Ft & Fy & Fh).
  eexists. split; [exact E|]. split; [|split; simpl; [by rewrite Fr|by rewrite Fl] ].
  split; simpl; rewrite ?Fr, ?Fh; auto; [by destruct (put_back_wf w2 Hwf); split|].
  change (0 ≤ now (put_back w2)). rewrite Fn, Hnow. lia.
Qed.
(** *** Stacks *)

(** The threads that are not running keep their user registers and their spaces. *)
Definition user_side (th : Thread) : list Z * option spaceid := (userRegisters th, space th).

Definition kept k k' : Prop :=
  ∀ t th, t ≠ currentThread k → threads k !! t = Some th →
    user_side <$> (threads k' !! t) = Some (user_side th).

Lemma nudged_kept k k' : nudged k k' → kept k k'.
Proof.
  intros Hn t th _ E. destruct (nu_threads _ _ Hn t) as [->|(th' & E' & _ & ->)]; [by rewrite E|].
  by assert (th' = th) as -> by congruence.
Qed.

Lemma kept_trans k1 k2 k3 :
  kept k1 k2 → currentThread k2 = currentThread k1 → kept k2 k3 → kept k1 k3.
Proof.
  intros H12 Hc H23 t th Ht E. specialize (H12 t th Ht E). destruct (threads k2 !! t) as [th2|] eqn:E2; [|done].
  rewrite (H23 t th2); [done|congruence|done].
Qed.

Lemma set_frames_kept fs k : kept k (set_frames fs (currentThread k) k).
Proof. intros t th Ht E. unfold set_frames, upd_thread. simpl. by rewrite lookup_alter_ne, E. Qed.

Lemma upd_frames_eq (g : list frame → list frame) k :
  upd_thread (λ th, mkThread (t_status th) (g (frames th)) (space th) (userRegisters th)) (currentThread k) k =
  set_frames (g (cur_frames k)) (currentThread k) k.
Proof.
  unfold set_frames, upd_thread. f_equal. apply alter_ext. intros th E. by rewrite (cur_frames_eq k th E).
Qed.
Lemma push_eq f k : push f k = set_frames (f :: cur_frames k) (currentThread k) k.
Proof. apply (upd_frames_eq (cons f)). Qed.
Lemma pop_eq k : pop k = set_frames (tail (cur_frames k)) (currentThread k) k.
Proof. apply (upd_frames_eq (@tail frame)). Qed.

Lemma set_frames_cur fs k th :
  threads k !! currentThread k = Some th →
  threads (set_frames fs (currentThread k) k) !! currentThread k =
    Some (mkThread (t_status th) fs (space th) (userRegisters th)).
Proof. intros E. unfold set_frames, upd_thread. simpl. by rewrite lookup_alter_eq, E. Qed.

Lemma cur_frames_set fs k :
  is_Some (threads k !! currentThread k) → cur_frames (set_frames fs (currentThread k) k) = fs.
Proof.
  intros [th E]. unfold cur_frames. change (currentThread (set_frames _ _ _)) with (currentThread k).
  by rewrite (set_frames_cur fs k th E).
Qed.

Lemma minv_frames fs k :
  minv k → switched (cur_frames k) = false → minv (set_frames fs (currentThread k) k).
Proof.
  intros Hm Hs. apply (minv_threads k); try done.
  - intros t th' E. unfold set_frames, upd_thread in E. simpl in E.
    destruct (decide (t = currentThread k)) as [->|Hne].
    + rewrite lookup_alter_eq in E. destruct (threads k !! currentThread k) as [th|] eqn:Et; [|done].
      injection E as <-. split; [exact (mi_users _ Hm _ _ Et)|]. intros sp. exact (mi_space _ Hm _ _ sp Et).
    + rewrite lookup_alter_ne in E by done. split; [by apply (mi_users _ Hm t)|].
      intros sp. by apply (mi_space _ Hm t).
  - intros _ th' sp E Hsp. change (currentThread (set_frames _ _ _)) with (currentThread k) in E.
    destruct (threads k !! currentThread k) as [th|] eqn:Et.
    + rewrite (set_frames_cur fs k th Et) in E. injection E as <-. by apply (mi_current _ Hm th).
    + unfold set_frames, upd_thread in E. simpl in E. by rewrite lookup_alter_eq, Et in E.
Qed.

Lemma kI_current k : kI k → ∃ th, threads k !! currentThread k = Some th ∧ cur_frames k = frames th.
Proof.
  intros [Hk _ _ _]. destruct (ki_cur _ _ Hk) as (th & E & _). exists th.
  by rewrite (cur_frames_eq k th E).
Qed.

(** A thread in code of its own, or in interrupted ticks, makes a call. *)
Lemma kI_set_frames fs k :
  kI k → base (cur_frames k) = true → frames_ok fs = true → asleep fs = false →
  (∀ s, pend fs = Some s → is_Some (sems k !! s)) →
  kI (set_frames fs (currentThread k) k).
Proof.
  intros HI Hb Hf Ha Hp. destruct (base_inner _ Hb) as (_ & Hs & Has & Hpn & _).
  destruct (kI_current k HI) as (th & E & Ec). rewrite Ec in *. destruct HI as [Hk Hm Hd Hq].
  split; try done.
  - by apply (set_frames_kinv k th).
  - apply minv_frames; [done|]. by rewrite Ec.
Qed.

Lemma rinv_rest w k : rinv w → kI k → rinv (set_rest k w).
Proof. intros [Hk Ht Hn Hh Hs] HI. split; simpl; auto. by destruct Ht. Qed.

Lemma rinv_level w l : rinv w → rinv (set_level l w).
Proof. intros [Hk Ht Hn Hh Hs]. split; simpl; auto. by destruct Ht. Qed.

(** *** The switch *)

Lemma Run_ok w n :
  kinv (Leaving n) (rest w) → minv (rest w) → DI (dev (rest w)) →
  (∀ s, irq s → is_Some (sems (rest w) !! s)) → time_wf w → 0 ≤ now w →
  inHandler (interrupt w) = false → status (interrupt w) ≠ IdleMode → level (interrupt w) = IntOff →
  ∃ w', Run n w = Ok (tt, w') ∧ winv w' ∧ kept (rest w) (rest w') ∧
    currentThread (rest w') = n ∧ switched (cur_frames (rest w')) = true ∧
    interrupt w' = interrupt w ∧ stats w' = stats w ∧ machine (rest w') = machine (rest w) ∧
    pt_owner (rest w') = pt_owner (rest w) ∧ readyList (rest w') = readyList (rest w) ∧
    (∀ th, threads (rest w) !! currentThread (rest w) = Some th →
       ∃ th', threads (rest w') !! currentThread (rest w) = Some th' ∧ space th' = space th ∧
         userRegisters th' = if space th then registers (machine (rest w)) else userRegisters th).
Proof.
  intros Hk Hm Hd Hq Ht Hn Hh Hs Hl. set (k := rest w) in *.
  destruct (ki_cur _ _ Hk) as (th & E & _). destruct (ki_leaving _ _ Hk n eq_refl) as (thn & En & _).
  set (k1 := match space th with Some _ => SaveUserState k | None => k end).
  assert (Ha : alike k k1).
  { unfold k1. destruct (space th); [|apply alike_refl]. by apply upd_thread_alike. }
  assert (E1 : threads k1 !! currentThread k = Some (mkThread (t_status th) (frames th) (space th)
    (if space th then registers (machine k) else userRegisters th))).
  { unfold k1. destruct (space th) eqn:Esp.
    - unfold SaveUserState, set_userRegisters, upd_thread. simpl. by rewrite lookup_alter_eq, E, <- Esp.
    - rewrite E. f_equal. destruct th; simpl in *; by subst. }
  assert (Hne : ∀ t, t ≠ currentThread k → threads k1 !! t = threads k !! t).
  { intros t Hc. unfold k1. destruct (space th); [|done].
    unfold SaveUserState, set_userRegisters, upd_thread. simpl. by rewrite lookup_alter_ne. }
  assert (Hc1 : currentThread k1 = currentThread k) by (apply (al_current _ _ Ha)).
  assert (Hsame : machine k1 = machine k ∧ spaces k1 = spaces k ∧ pt_owner k1 = pt_owner k ∧ dev k1 = dev k ∧ sems k1 = sems k ∧ readyList k1 = readyList k)
    by (unfold k1; by destruct (space th)).
  destruct Hsame as (Em & Es & Eo & Ed & Esm & Erd).
  pose proof (alike_kinv _ _ _ Ha Hk) as Hk1.
  set (k2 := switch_to n k1).
  assert (ER : Run n w = Ok (tt, set_rest k2 w)).
  { unfold Run. rewrite bool_decide_true by done. cbn [ASSERT res_bind]. fold k. unfold get_thread at 1.
    rewrite E. cbn [res_bind]. fold k1.
    assert (is_Some (threads (set_current n (push FSwitched k1)) !! n)) as [x Ex].
    { unfold push, upd_thread. simpl. rewrite Hc1. destruct (decide (n = currentThread k)) as [->|Hnc].
      - by rewrite lookup_alter_eq, E1.
      - rewrite lookup_alter_ne, Hne, En by congruence. eauto. }
    unfold get_thread. rewrite Ex. reflexivity. }
  clearbody k1. exists (set_rest k2 w). split; [exact ER|]. clear ER.
  destruct (ki_leaving _ _ Hk1 n eq_refl) as (thn1 & En1 & _).
  pose proof (switch_threads k1 _ n thn1 ltac:(rewrite Hc1; exact E1) En1) as HT. fold k2 in HT. rewrite Hc1 in HT.
  pose proof (switch_switched n k1 Hk1) as Hsw. fold k2 in Hsw.
  pose proof (switch_kinv n k1 Hk1) as Hk2. fold k2 in Hk2.
  assert (Hur : ∀ t th', threads k2 !! t = Some th' → ∃ th0, threads k1 !! t = Some th0 ∧
    userRegisters th' = userRegisters th0 ∧ space th' = space th0).
  { intros t th' E'. rewrite HT in E'. destruct (decide (t = n)) as [->|]; [injection E' as <-; eauto|].
    destruct (decide (t = currentThread k)) as [->|]; [injection E' as <-; eauto|eauto]. }
  assert (Hm2 : minv k2).
  { apply (minv_threads k); try done; try (by rewrite <- ?Em, <- ?Es, <- ?Eo).
    - intros t th' E'. destruct (Hur t th' E') as (th0 & E0 & -> & ->).
      destruct (decide (t = currentThread k)) as [->|Hnc].
      + rewrite E1 in E0. injection E0 as <-. simpl. split.
        * destruct (space th); [apply Hm|exact (mi_users _ Hm _ _ E)].
        * intros sp. exact (mi_space _ Hm _ _ sp E).
      + rewrite Hne in E0 by done. split; [by apply (mi_users _ Hm t)|]. intros sp. by apply (mi_space _ Hm t).
    - rewrite Hsw. done. }
  split; [split|].
  - split; simpl; auto; [|by destruct Ht]. split; try done; [by simpl; rewrite Ed|].
    intros s Hs'. simpl. rewrite Esm. by apply Hq.
  - unfold level_ok. simpl. destruct (cur_frames k2) as [|[] ?]; done.
  - split; [|split; [done|split; [done|split; [done|split; [done|split; [done|split; [done|split; [done|] ] ] ] ] ] ] ].
    + intros t th' Hc E'. simpl. rewrite <- (Hne t) in E' by done. rewrite HT.
      destruct (decide (t = n)) as [->|]; [assert (th' = thn1) as -> by congruence; done|].
      rewrite decide_False by done. by rewrite E'.
    + intros th0 E0. assert (th0 = th) as -> by congruence. simpl. rewrite HT.
      destruct (decide (currentThread k = n)) as [<-|].
      * eexists. split; [reflexivity|]. assert (thn1 = mkThread (t_status th) (frames th) (space th)
          (if space th then registers (machine k) else userRegisters th)) as -> by congruence. done.
      * rewrite decide_True by done. eexists. split; [reflexivity|]. done.
Qed.

(** A part of a step in which the processor stays with the current thread. *)
Record stays k k' : Prop := {
  st_kept : kept k k';
  st_current : currentThread k' = currentThread k;
  st_space th : threads k !! currentThread k = Some th →
    ∃ th', threads k' !! currentThread k = Some th' ∧ (is_Some (space th) → is_Some (space th'));
  st_ready : ∃ l, readyList k' = readyList k ++ l;
}.

Lemma stays_trans k1 k2 k3 : stays k1 k2 → stays k2 k3 → stays k1 k3.
Proof.
  intros [Hk1 Hc1 Hs1 Hr1] [Hk2 Hc2 Hs2 Hr2]. split.
  - by apply (kept_trans k1 k2).
  - congruence.
  - intros th E. destruct (Hs1 th E) as (th1 & E1 & H1). rewrite <- Hc1 in *.
    destruct (Hs2 th1 E1) as (th2 & E2 & H2). eauto.
  - by apply (ready_trans _ (readyList k2)).
Qed.

Lemma stays_same k k' :
  threads k' = threads k → currentThread k' = currentThread k → readyList k' = readyList k →
  stays k k'.
Proof. intros Ht Hc Hr. split; [intros t th _ E; by rewrite Ht, E|done| |rewrite Hr; apply ready_same]. rewrite Ht. eauto. Qed.

Lemma nudged_stays k k' : nudged k k' → stays k k'.
Proof.
  intros Hn. split; [by apply nudged_kept|apply Hn| |apply Hn]. intros th E.
  destruct (nu_threads _ _ Hn (currentThread k)) as [->|(th0 & E0 & _ & ->)]; [eauto|].
  eexists. split; [reflexivity|]. assert (th0 = th) as -> by congruence. done.
Qed.

Lemma set_frames_stays fs k : stays k (set_frames fs (currentThread k) k).
Proof.
  split; [apply set_frames_kept|done| |apply ready_same].
  intros th E. rewrite (set_frames_cur fs k th E). eauto.
Qed.

(** What a step does. The user contexts of the other threads stay, and a thread that
    leaves the processor has its registers saved; who gets the processor was the head of
    the ready list, whose order stays. *)
Record stepk k k' : Prop := {
  sk_kept : kept k k';
  sk_saves th : switched (cur_frames k') = true → threads k !! currentThread k = Some th →
    is_Some (space th) → ∃ th', threads k' !! currentThread k = Some th' ∧ is_Some (space th') ∧
      userRegisters th' = registers (machine k');
  sk_ready :
    (switched (cur_frames k') = false ∧ currentThread k' = currentThread k ∧
       ∃ l, readyList k' = readyList k ++ l) ∨
    (switched (cur_frames k') = true ∧ ∃ l, readyList k ++ l = currentThread k' :: readyList k');
}.

(** A step without a switch. *)
Lemma stepk_stay k k' : stays k k' → switched (cur_frames k') = false → stepk k k'.
Proof. intros [] Hs. split; [done|congruence|by left]. Qed.

Lemma stepk_pre k1 k2 k3 : stays k1 k2 → stepk k2 k3 → stepk k1 k3.
Proof.
  intros [Hk Hc Hsp Hrd] [Hk' Hs Hr]. split; [by apply (kept_trans k1 k2)| |].
  - intros th Hsw E Hsome. destruct (Hsp th E) as (th2 & E2 & Es2). rewrite <- Hc in *.
    destruct (Hs th2 Hsw E2) as (th3 & E3 & Es3 & Hreg); [by apply Es2|]. exists th3. done.
  - destruct Hr as [(? & ? & ?)|(? & l & Hl)]; [left|right]; (split; [done|]).
    + split; [congruence|]. by apply (ready_trans _ (readyList k2)).
    + destruct Hrd as [l' Hl']. exists (l' ++ l). rewrite <- Hl, Hl'. by rewrite app_assoc.
Qed.

#[local] Hint Resolve nudged_kept nudged_stays set_frames_kept set_frames_stays nu_current ready_same : core.

(** *** Yield, ticks and levels *)

Lemma Yield_ok w :
  rinv w → ticks (cur_frames (rest w)) = true →
  ∃ w', Yield w = Ok (tt, w') ∧ winv w' ∧ stepk (rest w) (rest w').
Proof.
  intros Hr Hb. unfold Yield. st_step (eq_refl (DisableInterrupts w)).
  set (old := level (interrupt w)). set (w0 := ChangeLevel IntOff w).
  unfold mod_k. unfold st_bind at 1. cbn [rest set_rest].
  change (rest w0) with (rest w). rewrite push_eq.
  destruct (kI_current _ (ri_k _ Hr)) as (th & E & Ec).
  set (k := rest w) in *. set (k1 := set_frames (FYield old :: cur_frames k) (currentThread k) k).
  assert (HI1 : kI k1).
  { apply kI_set_frames; [apply Hr|by apply ticks_base|exact Hb|done|done]. }
  assert (Hc1 : cur_frames k1 = FYield old :: cur_frames k) by (apply cur_frames_set; eauto).
  assert (Hb1 : base (cur_frames k1) = true) by (rewrite Hc1; exact Hb).
  assert (Hr1 : rinv (set_rest k1 w0)) by (apply rinv_rest; [by apply rinv_level|done]).
  assert (Hst1 : stays k k1) by apply set_frames_stays.
  clearbody k1. unfold FindNextToRun. cbn [set_rest rest].
  destruct (if halted k1 then _ else _) as [next k2] eqn:Hf.
  assert (Hcase : next = None ∧ k2 = k1 ∨ ∃ n l, next = Some n ∧ readyList k1 = n :: l ∧ k2 = set_ready l k1).
  { destruct (halted k1); [injection Hf as <- <-; by left|].
    destruct (readyList k1) as [|n l]; injection Hf as <- <-; [by left|right; eauto]. }
  clear Hf. destruct Hcase as [ [-> ->]|(n & l & -> & Hl & ->)].
  - eexists. split; [reflexivity|]. split; [split; [done|] |].
    + unfold level_ok. cbn [set_rest rest]. by rewrite Hc1.
    + apply stepk_stay; [done|]. cbn [set_rest rest]. by rewrite Hc1.
  - pose proof HI1 as [Hk1 Hm1 Hd1 Hq1].
    destruct (kI_current _ HI1) as (th1 & E1 & Ec1).
    change (currentThread (set_ready l k1)) with (currentThread k1).
    set (k3 := ReadyToRun (currentThread k1) (set_ready l k1)).
    assert (Hk3 : kinv (Leaving n) k3) by (apply (leave_yield_kinv k1 th1); congruence).
    assert (E3 : threads k3 !! currentThread k1 = Some (mkThread READY (frames th1) (space th1) (userRegisters th1))).
    { unfold k3, ReadyToRun, setStatus, upd_thread. simpl. by rewrite lookup_alter_eq, E1. }
    assert (Hm3 : minv k3).
    { apply (minv_threads k1); try done.
      - intros t th' E'. unfold k3, ReadyToRun, setStatus, upd_thread in E'. simpl in E'.
        destruct (decide (t = currentThread k1)) as [->|Hne].
        + rewrite lookup_alter_eq, E1 in E'. injection E' as <-. split; [exact (mi_users _ Hm1 _ _ E1)|].
          intros sp. exact (mi_space _ Hm1 _ _ sp E1).
        + rewrite lookup_alter_ne in E' by done. split; [exact (mi_users _ Hm1 _ _ E')|].
          intros sp. exact (mi_space _ Hm1 _ _ sp E').
      - intros _ th' sp E' Hsp. change (currentThread k3) with (currentThread k1) in E'.
        rewrite E3 in E'. injection E' as <-. apply (mi_current _ Hm1 th1); [|done|done].
        rewrite Hc1. done. }
    assert (Hkept3 : kept k1 k3).
    { intros t th' Ht E'. unfold k3, ReadyToRun, setStatus, upd_thread. simpl. by rewrite lookup_alter_ne, E'. }
    destruct (Run_ok (set_rest k3 (set_rest k1 w0)) n) as (w' & ER & Hw & Hkp & Hcw & Hsw & _ & _ & Em & Eo & Hrd & Hsave);
      try done; try (by destruct Hr1); try apply Hr1.
    { by destruct (ri_time _ Hr1). }
    exists w'. split; [exact ER|]. split; [done|]. apply (stepk_pre k k1); auto.
    split; [by apply (kept_trans k1 k3)| |].
    + intros th0 _ E0 [sp Hsp]. cbn [set_rest rest] in Hsave.
      destruct (Hsave _ E3) as (th' & E' & Es & Er). change (currentThread k3) with (currentThread k1) in E'.
      exists th'. cbn [space] in *. assert (th0 = th1) as -> by congruence. rewrite Hsp in *.
      split; [done|]. split; [rewrite Es; eauto|]. rewrite Er. by rewrite Em.
    + right. split; [done|]. exists [currentThread k1]. cbn [set_rest rest] in Hrd, Hcw.
      rewrite Hcw, Hrd, Hl. done.
Qed.

Lemma OneTick_ok' w :
  rinv w → ticks (cur_frames (rest w)) = true →
  ∃ w', OneTick w = Ok (tt, w') ∧ winv w' ∧ stepk (rest w) (rest w').
Proof.
  intros Hr Hb. unfold OneTick.
  destruct (tick_rinv w Hr) as (w1 & -> & Hr1 & Hn & Hl & _ & Hst). cbn [res_bind snd].
  pose proof (nudged_frames _ _ Hn) as Hf.
  destruct (yieldOnReturn (interrupt w1)).
  - set (w2 := set_status SystemMode (set_yieldOnReturn false w1)).
    set (k1 := rest w1) in *. change (rest w2) with k1. rewrite push_eq, Hf.
    assert (Hr2 : rinv (set_rest (set_frames (FTick (status (interrupt w)) :: cur_frames (rest w)) (currentThread k1) k1) w2)).
    { apply rinv_rest; [destruct Hr1 as [? [] ? ? ?]; by split|].
      apply kI_set_frames; [apply Hr1|rewrite Hf; by apply ticks_base| |done|done].
      unfold frames_ok. cbn. rewrite bool_decide_false by apply Hr. exact Hb. }
    destruct (kI_current _ (ri_k _ Hr1)) as (th & E & Ec).
    destruct (Yield_ok _ Hr2) as (w' & EY & Hw & Hk).
    { cbn [set_rest rest]. rewrite cur_frames_set by eauto. cbn.
      rewrite bool_decide_false by apply Hr. exact Hb. }
    exists w'. split; [exact EY|]. split; [done|].
    apply (stepk_pre _ k1); [auto|]. eapply stepk_pre; [apply set_frames_stays|exact Hk].
  - exists w1. split; [done|]. split.
    + split; [done|]. unfold level_ok. rewrite Hf. by destruct (cur_frames (rest w)) as [|[] ?].
    + apply stepk_stay; [auto|]. rewrite Hf. by destruct (cur_frames (rest w)) as [|[] ?].
Qed.

Lemma SetLevel_ok w l :
  rinv w → ticks (cur_frames (rest w)) = true →
  ∃ w', SetLevel l w = Ok (tt, w') ∧ winv w' ∧ stepk (rest w) (rest w').
Proof.
  intros Hr Hb. unfold SetLevel. rewrite (ri_handler _ Hr), orb_true_r. cbn [ASSERT res_bind].
  assert (Hr1 : rinv (ChangeLevel l w)) by by apply rinv_level.
  destruct (_ && _); [by apply (OneTick_ok' (ChangeLevel l w))|].
  eexists. split; [reflexivity|]. split; [split; [done|]|].
  - unfold level_ok. cbn. by destruct (cur_frames (rest w)) as [|[] ?].
  - apply stepk_stay; [by apply stays_same|]. cbn. by destruct (cur_frames (rest w)) as [|[] ?].
Qed.

(** *** P, V and Finish *)

Lemma minv_upd (f : Thread → Thread) t k :
  (∀ th, space (f th) = space th ∧ userRegisters (f th) = userRegisters th) →
  minv k → switched (cur_frames k) = false → minv (upd_thread f t k).
Proof.
  intros Hf Hm Hs.
  assert (Hfrom : ∀ t' th', threads (upd_thread f t k) !! t' = Some th' → ∃ th, threads k !! t' = Some th ∧
    space th' = space th ∧ userRegisters th' = userRegisters th).
  { intros t' th'. unfold upd_thread. simpl. destruct (decide (t' = t)) as [->|Hne].
    - rewrite lookup_alter_eq. destruct (threads k !! t) as [th|]; [|done]. intros [= <-].
      exists th. split; [done|]. apply Hf.
    - rewrite lookup_alter_ne by done. eauto. }
  apply (minv_threads k); try done.
  - intros t' th' E'. destruct (Hfrom t' th' E') as (th & E & -> & ->).
    split; [exact (mi_users _ Hm _ _ E)|]. intros sp. exact (mi_space _ Hm _ _ sp E).
  - intros _ th' sp E' Hsp. destruct (Hfrom _ th' E') as (th & E & Es & _). rewrite Es in Hsp.
    exact (mi_current _ Hm th sp Hs E Hsp).
Qed.

Lemma minv_sems m k : minv k → minv (set_sems m k).
Proof. intros []. by split. Qed.
Lemma minv_destroy o k : minv k → minv (set_destroy o k).
Proof. intros []. by split. Qed.
Lemma minv_ready l k : minv k → minv (set_ready l k).
Proof. intros []. by split. Qed.

Lemma irq_insert k s sm :
  (∀ s', irq s' → is_Some (sems k !! s')) → ∀ s', irq s' → is_Some (<[s := sm]> (sems k) !! s').
Proof. intros Hq s' Hs'. upd_cases s' s; [done|by apply Hq]. Qed.

(** A thread falls asleep: its frame goes on top, interrupts stay off. *)
Lemma Sleep_winv w k' :
  rinv w → level (interrupt w) = IntOff → kI k' → asleep (cur_frames k') = true →
  winv (set_rest k' w).
Proof.
  intros Hr Hl HI Ha. split; [by apply rinv_rest|]. unfold level_ok. cbn [set_rest rest].
  by destruct (cur_frames k') as [|[] ?].
Qed.

Lemma asleep_not_switched fs : asleep fs = true → switched fs = false.
Proof. by destruct fs as [|[] ?]. Qed.

Lemma push_sleep_facts th k :
  threads k !! currentThread k = Some th →
  cur_frames (push FSleep (setStatus BLOCKED (currentThread k) k)) = FSleep :: frames th ∧
  stays k (push FSleep (setStatus BLOCKED (currentThread k) k)).
Proof.
  intros E. split.
  - unfold cur_frames, push, setStatus, upd_thread. simpl.
    by rewrite lookup_alter_eq, lookup_alter_eq, E.
  - split; [|done| |apply ready_same].
    + intros t th0 Ht E0. unfold push, setStatus, upd_thread. simpl. by rewrite !lookup_alter_ne, E0.
    + intros th0 E0. unfold push, setStatus, upd_thread. simpl. rewrite !lookup_alter_eq, E0. simpl. eauto.
Qed.

Lemma P_pass_kI k s old b sm :
  kI k → cur_frames k = FP s old :: b → sems k !! s = Some sm → value sm ≠ 0 →
  let k1 := set_sems (<[s := mkSemaphore (value sm - 1) (queue sm)]> (sems k)) k in
  kI (pop k1) ∧ cur_frames (pop k1) = b.
Proof.
  intros HI Hf Es Hv k1. destruct (kI_current k HI) as (th & E & Ec). pose proof HI as [Hk Hm Hd Hq].
  split; [|rewrite pop_eq, cur_frames_set by eauto; change (cur_frames k1) with (cur_frames k); by rewrite Hf].
  rewrite Ec in Hf. split; try done.
  - exact (P_pass_kinv k th s sm b old Hk E Hf Es Hv).
  - rewrite pop_eq. apply minv_frames; [by apply minv_sems|].
    change (cur_frames k1) with (cur_frames k). by rewrite Ec, Hf.
  - by apply irq_insert.
Qed.

(** V's part between the two SetLevel. *)
Lemma V_body_kI k s :
  kI k → is_Some (sems k !! s) →
  ∃ k', V_body s k = Ok k' ∧ kI k' ∧ nudged k k' ∧ dev k' = dev k.
Proof.
  intros [Hk Hm Hd Hq] Hs. destruct (V_body_kinv Normal s k Hk Hs) as (k' & EV & Hk' & Hn & Em & Ed).
  exists k'. split; [done|]. split; [|done].
  split; [done|by apply (minv_nudged k)|by rewrite Ed|].
  intros s' Hs'. apply (nu_sems _ _ Hn). by apply Hq.
Qed.

Lemma P_turn_ok w s old b :
  rinv w → level (interrupt w) = IntOff → cur_frames (rest w) = FP s old :: b →
  ∃ w', P_turn s old w = Ok (tt, w') ∧ winv w' ∧ stepk (rest w) (rest w').
Proof.
  intros Hr Hl Hf. pose proof (ri_k _ Hr) as [Hk Hm Hd Hq]. set (k := rest w) in *.
  destruct (kI_current k (ri_k _ Hr)) as (th & E & Ec). rewrite Ec in Hf.
  destruct (ki_sem _ _ Hk _ th s E) as [sm Es]; [by rewrite Hf|].
  assert (Hsw : switched (cur_frames k) = false) by by rewrite Ec, Hf.
  unfold P_turn, get_sem. fold k. rewrite Es. cbn [res_bind].
  destruct (Z.eqb_spec (value sm) 0) as [Hv|Hv].
  - set (k1 := set_sems (<[s := mkSemaphore (value sm) (queue sm ++ [currentThread k])]> (sems k)) k).
    unfold Sleep. cbn [set_rest rest interrupt]. rewrite bool_decide_true by done. cbn [ASSERT res_bind].
    eexists. split; [reflexivity|]. cbn [set_rest rest].
    destruct (push_sleep_facts th k1 E) as [Hfr Hkp].
    split.
    + apply (Sleep_winv w); try done; [|by rewrite Hfr]. split; try done.
      * exact (P_wait_kinv k th s sm b old Hk E Hf Es Hv).
      * rewrite push_eq. apply minv_frames; [|].
        -- apply minv_upd; [done|by apply minv_sems|done].
        -- unfold cur_frames, setStatus, upd_thread. simpl. rewrite lookup_alter_eq, E. simpl. by rewrite Hf.
      * by apply irq_insert.
    + apply stepk_stay; [eapply stays_trans; [by apply (stays_same k k1)|exact Hkp]|]. by rewrite Hfr.
  - set (k1 := set_sems (<[s := mkSemaphore (value sm - 1) (queue sm)]> (sems k)) k).
    destruct (P_pass_kI k s old b sm (ri_k _ Hr) ltac:(by rewrite Ec) Es Hv) as [HI Hc1]. fold k1 in HI, Hc1.
    destruct (SetLevel_ok (set_rest (pop k1) w) old) as (w' & E' & Hw & Hs).
    { by apply rinv_rest. }
    { cbn [set_rest rest]. rewrite Hc1. specialize (ki_frames _ _ Hk _ th E). by rewrite Hf. }
    exists w'. split; [exact E'|]. split; [done|]. rewrite pop_eq in Hs.
    refine (stepk_pre k k1 _ _ (stepk_pre _ _ _ (set_frames_stays (tail (cur_frames k1)) k1) Hs)).
    by apply stays_same.
Qed.

Lemma P_ok w s :
  rinv w → ticks (cur_frames (rest w)) = true → is_Some (sems (rest w) !! s) →
  ∃ w', P s w = Ok (tt, w') ∧ winv w' ∧ stepk (rest w) (rest w').
Proof.
  intros Hr Hb Hs. unfold P. st_step (eq_refl (DisableInterrupts w)). unfold mod_k.
  change (rest (ChangeLevel IntOff w)) with (rest w). rewrite push_eq.
  destruct (kI_current _ (ri_k _ Hr)) as (th & E & Ec).
  eexists. split; [reflexivity|]. cbn [set_rest rest].
  assert (Hc : cur_frames (set_frames (FP s (level (interrupt w)) :: cur_frames (rest w)) (currentThread (rest w)) (rest w))
    = FP s (level (interrupt w)) :: cur_frames (rest w)) by (apply cur_frames_set; eauto).
  split; [split|].
  - apply rinv_rest; [by apply rinv_level|].
    apply kI_set_frames; [apply Hr|by apply ticks_base|exact Hb|done|]. intros s'. by intros [= <-].
  - unfold level_ok. cbn [set_rest rest]. by rewrite Hc.
  - apply stepk_stay; [apply set_frames_stays|]. by rewrite Hc.
Qed.

Lemma V_ok w s :
  rinv w → ticks (cur_frames (rest w)) = true → is_Some (sems (rest w) !! s) →
  ∃ w', V s w = Ok (tt, w') ∧ winv w' ∧ stepk (rest w) (rest w').
Proof.
  intros Hr Hb Hs. unfold V. st_step (eq_refl (DisableInterrupts w)).
  destruct (V_body_kI (rest w) s (ri_k _ Hr) Hs) as (k' & EV & HI & Hn & _).
  unfold lift_k. unfold st_bind. change (rest (ChangeLevel IntOff w)) with (rest w). rewrite EV. cbn [res_bind].
  destruct (SetLevel_ok (set_rest k' (ChangeLevel IntOff w)) (level (interrupt w))) as (w' & E & Hw & Hst).
  { apply rinv_rest; [by apply rinv_level|done]. }
  { cbn [set_rest rest]. by rewrite (nudged_frames _ _ Hn). }
  exists w'. split; [exact E|]. split; [done|]. apply (stepk_pre _ k'); auto.
Qed.

Lemma Finish_ok w :
  rinv w → base (cur_frames (rest w)) = true →
  ∃ w', Finish w = Ok (tt, w') ∧ winv w' ∧ stepk (rest w) (rest w').
Proof.
  intros Hr Hb. pose proof (ri_k _ Hr) as [Hk Hm Hd Hq]. set (k := rest w) in *.
  destruct (kI_current k (ri_k _ Hr)) as (th & E & Ec). rewrite Ec in Hb.
  destruct (base_inner _ Hb) as (_ & Hs & Ha & _ & _).
  destruct (running_no_dying k th Hk E Ha Hs) as [Hno _].
  unfold Finish. change (rest (ChangeLevel IntOff w)) with k. rewrite bool_decide_true by done.
  cbn [ASSERT res_bind]. unfold Sleep. cbn [set_rest rest].
  rewrite bool_decide_true by done. cbn [ASSERT res_bind]. eexists. split; [reflexivity|].
  set (k1 := set_destroy (Some (currentThread k)) k).
  destruct (push_sleep_facts th k1 E) as [Hfr Hkp]. cbn [set_rest rest].
  change (currentThread k1) with (currentThread k) in *. split.
  - apply (Sleep_winv (ChangeLevel IntOff w)); [by apply rinv_level|done| |by rewrite Hfr]. split; try done.
    + by apply (finish_kinv k th).
    + rewrite push_eq. apply minv_frames.
      * apply minv_upd; [done|by apply minv_destroy|]. change (cur_frames k1) with (cur_frames k). by rewrite Ec.
      * unfold cur_frames, setStatus, upd_thread. simpl. by rewrite lookup_alter_eq, E.
  - apply stepk_stay; [eapply stays_trans; [by apply (stays_same k k1)|exact Hkp]|]. by rewrite Hfr.
Qed.

(** *** Arriving from a switch *)

(** The thread runs again, its registers and its page table in the machine. *)
Lemma arrive_ok k :
  kI k → switched (cur_frames k) = true →
  ∃ k' th, arrive (pop k) = Ok k' ∧ kI k' ∧ threads k !! currentThread k = Some th ∧
    currentThread k' = currentThread k ∧ cur_frames k' = inner (cur_frames k) ∧
    switched (cur_frames k') = false ∧
    (∀ t th, t ≠ currentThread k → threads k !! t = Some th → threadToBeDestroyed k ≠ Some t →
       threads k' !! t = Some th) ∧
    readyList k' = readyList k ∧
    (∃ th1, threads k' !! currentThread k = Some th1 ∧ space th1 = space th) ∧
    match space th with
    | None => machine k' = machine k
    | Some sp => registers (machine k') = userRegisters th ∧ pt_owner k' = Some sp ∧
        (∃ a, spaces k !! sp = Some a ∧ pageTable (machine k') = Some (as_pageTable a) ∧
           pageTableSize (machine k') = numPages a)
    end.
Proof.
  intros HI Hsw. pose proof HI as [Hk Hm Hd Hq]. destruct (kI_current k HI) as (th & E & Ec).
  rewrite Ec in *.
  destruct (arrive_kinv k th (inner (frames th)) Hk E eq_refl Hsw)
    as (k1 & ED & Hk1 & Hc1 & E1 & Hothers & Hd1 & Hr1 & Hs1 & Hsp1 & Ho1 & Hm1 & Hdv1 & Hh1).
  unfold arrive. rewrite ED. cbn [res_bind]. unfold get_thread. rewrite Hc1, E1. cbn [res_bind space].
  assert (Hfrom : ∀ t th', threads k1 !! t = Some th' → t ≠ currentThread k → threads k !! t = Some th').
  { intros t th' E' Hne. destruct (Hothers t Hne) as [He|[_ He] ]; congruence. }
  assert (Halive : ∀ t th', t ≠ currentThread k → threads k !! t = Some th' →
    threadToBeDestroyed k ≠ Some t → threads k1 !! t = Some th').
  { intros t th' Hne E' Hd'. destruct (Hothers t Hne) as [He|[? _] ]; congruence. }
  assert (Hfr : cur_frames k1 = inner (frames th)).
  { unfold cur_frames. by rewrite Hc1, E1. }
  assert (Hnsw : switched (inner (frames th)) = false).
  { specialize (ki_frames _ _ Hk _ th E). unfold frames_ok. by destruct (frames th) as [|[] [|[] ?] ]. }
  assert (Husers : ∀ t th', threads k1 !! t = Some th' → regs_ok (userRegisters th') ∧
     ∀ sp, space th' = Some sp → is_Some (spaces k !! sp)).
  { intros t th' E'. destruct (decide (t = currentThread k)) as [->|Hne].
    - rewrite E1 in E'. injection E' as <-. split; [exact (mi_users _ Hm _ _ E)|].
      intros sp. exact (mi_space _ Hm _ _ sp E).
    - specialize (Hfrom t th' E' Hne). split; [exact (mi_users _ Hm _ _ Hfrom)|].
      intros sp. exact (mi_space _ Hm _ _ sp Hfrom). }
  destruct (space th) as [sp|] eqn:Esp.
  - destruct (mi_space _ Hm _ _ sp E Esp) as [a Ea].
    unfold RestoreUserState, get_thread. rewrite Hc1, E1. cbn [res_bind userRegisters].
    unfold RestoreState. cbn [spaces set_machine]. rewrite Hsp1, Ea.
    eexists _, th. split; [reflexivity|]. split; [|split; [done|split; [done|split; [done|split; [|split; [|split; [exact Hr1|split; [eexists; split; [exact E1|done]|rewrite Esp] ] ] ] ] ] ] ].
    + split; try (by simpl; rewrite ?Hdv1, ?Hs1); [|].
      * apply (alike_kinv _ k1); [by split|done].
      * destruct Hm. split; simpl; rewrite ?Hsp1; try done.
        -- exact (mi_users0 _ _ E).
        -- by rewrite Hm1.
        -- by rewrite Hm1.
        -- intros t th' E'. by apply (Husers t).
        -- eauto.
        -- intros t th' sp' E'. by apply (Husers t).
        -- intros th' sp' _. rewrite Hc1, E1. intros [= <-]. simpl. congruence.
    + unfold cur_frames. simpl. by rewrite Hc1, E1.
    + exact Halive.
    + split; [done|]. split; [done|]. exists a. done.
  - exists k1, th. split; [done|]. split; [|split; [done|split; [done|split; [done|split; [by rewrite Hfr|split; [|split; [exact Hr1|split; [eexists; split; [exact E1|done]|rewrite Esp; done] ] ] ] ] ] ] ].
    + split; try done; [|by rewrite Hdv1|by rewrite Hs1].
      apply (minv_threads k); try done. intros _ th' sp'. rewrite Hc1, E1. intros [= <-]. simpl. congruence.
    + exact Halive.
Qed.

End Kernel.
