(* ===== verification/AddrSpace.v ===== *)
(** * Address spaces (userprog/addrspace.cc, bin/noff.h)

    A program file is loaded into the machine's memory, page n in frame n, with page 0
    left invalid. The constructor reads the file through the open file's [ReadAt], so it
    runs on the machine and on the device the file is on. *)
From S2P Require Import Prelude Words SectorIO FileHdr OpenFile Interrupt Machine Threads Kernel.

Definition UserStacksAreaSize : Z := 4 * 1024.
Definition USER_START_ADDRESS : Z := 0x80.
Definition NOFFMAGIC : Z := 0xbadfad.

Record Segment := mkSegment { virtualAddr : Z; inFileAddr : Z; seg_size : Z }.
Record NoffHeader := mkNoff { noffMagic : Z; code : Segment; initData : Segment; uninitData : Segment }.
Definition sizeof_NoffHeader : Z := 40.

(** The bytes of the struct: ten [int]s. *)
Definition noff_of (b : list Z) : NoffHeader :=
  let i n := bytes_int (take 4 (drop (4 * n) b)) in
  mkNoff (i 0%nat) (mkSegment (i 1%nat) (i 2%nat) (i 3%nat)) (mkSegment (i 4%nat) (i 5%nat) (i 6%nat))
    (mkSegment (i 7%nat) (i 8%nat) (i 9%nat)).

Definition SwapHeader (h : NoffHeader) : NoffHeader :=
  let swap z := int32 (WordToHost host_big_endian (uint32 z)) in
  let seg s := mkSegment (swap (virtualAddr s)) (swap (inFileAddr s)) (swap (seg_size s)) in
  mkNoff (swap (noffMagic h)) (seg (code h)) (seg (initData h)) (seg (uninitData h)).

(** The page table the constructor fills; [virtualPage] is not set. *)
Definition identity_table (garbage : nat → Z) (numPages : Z) : list TranslationEntry :=
  (λ i, mkTranslation (garbage i) (Z.of_nat i) true false false false) <$> seq 0 (Z.to_nat numPages).

(** [e.valid = FALSE] *)
Definition invalidate (e : TranslationEntry) : TranslationEntry :=
  mkTranslation (virtualPage e) (physicalPage e) false (readOnly e) (use e) (dirty e).

Section AddrSpace.
Context {W : Type} `{SectorDevice W} (garbage page_garbage : nat → Z).

(** [executable->ReadAt(&(machine->mainMemory[virtualAddr]), size, inFileAddr)] *)
Definition load_segment (executable : FileHeader) (s : Segment) : ST (Machine * W) unit := λ mw,
  if seg_size s >? 0 then
    let? r := ReadAt garbage executable (seg_size s) (inFileAddr s) mw.2 in
    let? m := set_mem_bytes (virtualAddr s) r.1 mw.1 in
    Ok (tt, (m, r.2))
  else Ok (tt, mw).

(** AddrSpace::AddrSpace; [local] is what the local variable [noffH] held. *)
Definition new_AddrSpace (executable : FileHeader) (local : list Z) : ST (Machine * W) AddrSpace := λ mw,
  let? r := ReadAt garbage executable sizeof_NoffHeader 0 mw.2 in
  let noffH := noff_of (r.1 ++ drop (length r.1) local) in
  let noffH :=
    if negb (noffMagic noffH =? NOFFMAGIC) &&
       (WordToHost host_big_endian (uint32 (noffMagic noffH)) =? NOFFMAGIC)
    then SwapHeader noffH else noffH in
  let? _ := ASSERT (noffMagic noffH =? NOFFMAGIC) in
  let size := uint32 (seg_size (code noffH) + seg_size (initData noffH) + seg_size (uninitData noffH)
                      + UserStacksAreaSize) in
  let numPages := divRoundUp size PageSize in
  if numPages >? NumPhysPages then Fail Thrown
  else
    let pageTable := identity_table page_garbage numPages in
    (let* _ := load_segment executable (code noffH) in
     let* _ := load_segment executable (initData noffH) in
     let* e := st_lift (arr_get pageTable 0) in
     let* pageTable := st_lift (arr_set pageTable 0 (invalidate e)) in
     st_ret (mkAddrSpace pageTable numPages)) (mw.1, r.2).
End AddrSpace.

Definition InitRegisters (a : AddrSpace) : ST Machine unit :=
  let* _ := st_for 0 NumTotalRegs (λ i, WriteRegister i 0) in
  let* _ := WriteRegister PCReg USER_START_ADDRESS in
  let* pc := ReadRegister PCReg in
  let* _ := WriteRegister NextPCReg (pc + 4) in
  WriteRegister StackReg (int32 (uint32 (numPages a * PageSize - 16))).

(** AddrSpace::SaveState *)
Definition SaveState (a : AddrSpace) : ST Machine unit := st_ret tt.

(** ** Facts *)

(** The machine once [RestoreState] has given it the space. *)
Definition in_space (a : AddrSpace) (m : Machine) : Machine :=
  mkMachine (mainMemory m) (registers m) (tlb m) (Some (as_pageTable a)) (numPages a) (singleStep m)
    (runUntilTime m).

Section Facts.
Implicit Types (m : Machine).

Lemma set_mem_bytes_eq m a bs :
  0 ≤ a → a + Z.of_nat (length bs) ≤ MemorySize →
  ∃ mem, set_mem_bytes a bs m = Ok (set_mainMemory mem m) ∧
    ∀ x, mem !! x = if decide (a ≤ x < a + Z.of_nat (length bs)) then bs !! Z.to_nat (x - a)
                    else mainMemory m !! x.
Proof.
  revert m a. induction bs as [|b bs IH]; intros m a Ha Hn.
  - exists (mainMemory m). split; [by destruct m|]. intros x. by rewrite decide_False by (simpl; lia).
  - simpl in Hn. simpl. unfold set_mem_byte. rewrite decide_True by lia. simpl.
    destruct (IH (set_mainMemory (<[a := b]> (mainMemory m)) m) (a + 1)) as (mem & -> & Hm); [lia|lia|].
    exists mem. split; [done|]. intros x. rewrite Hm. simpl.
    destruct (decide (x = a)) as [->|Hne].
    + rewrite decide_False, decide_True by lia. rewrite lookup_insert_eq.
      by replace (Z.to_nat (a - a)) with 0%nat by lia.
    + rewrite lookup_insert_ne by done. destruct (decide (a + 1 ≤ x < a + 1 + Z.of_nat (length bs))).
      * rewrite decide_True by lia.
        by replace (Z.to_nat (x - a)) with (S (Z.to_nat (x - (a + 1)))) by lia.
      * by rewrite decide_False by lia.
Qed.

(** *** The registers of a new program *)
Lemma WriteRegister_eq m n v :
  length (registers m) = 40%nat → 0 ≤ n < NumTotalRegs →
  WriteRegister n v m = Ok (tt, set_registers (<[Z.to_nat n := v]> (registers m)) m).
Proof.
  intros Hl Hn. change NumTotalRegs with 40 in Hn. unfold WriteRegister, set_reg.
  rewrite ASSERT_true by (rewrite andb_true_iff, Z.geb_le, Z.ltb_lt; change NumTotalRegs with 40; lia).
  cbn [res_bind]. by rewrite arr_set_in by lia.
Qed.

Lemma clear_registers m :
  length (registers m) = 40%nat →
  st_for 0 NumTotalRegs (λ i, WriteRegister i 0) m = Ok (tt, set_registers (replicate 40 0) m).
Proof.
  intros Hl.
  destruct (st_for_inv (λ i m', 0 ≤ i ∧ m' = set_registers (replicate (Z.to_nat i) 0 ++ drop (Z.to_nat i) (registers m)) m)
    0 NumTotalRegs (λ i, WriteRegister i 0) m) as (m' & E & _ & ->).
  - done.
  - split; [done|]. rewrite drop_0. by destruct m.
  - intros i m1 Hi [_ ->]. change NumTotalRegs with 40 in Hi. rewrite WriteRegister_eq.
    + eexists. split; [reflexivity|]. split; [lia|].
      unfold set_registers; cbn; f_equal.
      destruct (lookup_lt_is_Some_2 (registers m) (Z.to_nat i)) as [x Hx]; [lia|].
      rewrite (drop_S _ _ _ Hx). replace (Z.to_nat (i + 1)) with (S (Z.to_nat i)) by lia.
      rewrite insert_app_r_alt by (rewrite length_replicate; lia). rewrite length_replicate, Nat.sub_diag.
      rewrite replicate_S_end, <- app_assoc. done.
    + cbn [registers set_registers]. rewrite length_app, length_replicate, length_drop. lia.
    + change NumTotalRegs with 40. lia.
  - rewrite E. change (Z.to_nat NumTotalRegs) with 40%nat.
    rewrite drop_ge, app_nil_r by (rewrite Hl; lia). done.
Qed.

Lemma InitRegisters_eq a m :
  length (registers m) = 40%nat →
  InitRegisters a m =
    Ok (tt, set_registers
      (<[Z.to_nat StackReg := int32 (uint32 (numPages a * PageSize - 16))]>
        (<[Z.to_nat NextPCReg := USER_START_ADDRESS + 4]>
          (<[Z.to_nat PCReg := USER_START_ADDRESS]> (replicate 40 0)))) m).
Proof.
  intros Hl. unfold InitRegisters. st_step (clear_registers m Hl).
  set (m0 := set_registers (replicate 40 0) m).
  st_step (WriteRegister_eq m0 PCReg USER_START_ADDRESS eq_refl ltac:(done)).
  set (m1 := set_registers (<[Z.to_nat PCReg := USER_START_ADDRESS]> (registers m0)) m0).
  assert (E : ReadRegister PCReg m1 = Ok (USER_START_ADDRESS, m1)) by reflexivity. st_step E.
  st_step (WriteRegister_eq m1 NextPCReg (USER_START_ADDRESS + 4) eq_refl ltac:(done)).
  by rewrite WriteRegister_eq.
Qed.

(** *** What a program file says it holds *)

(** A segment is in the file and in the pages of the space. *)
Definition segment_ok (fileLength pages : Z) (s : Segment) : Prop :=
  0 ≤ seg_size s < 2 ^ 30 ∧
  (0 < seg_size s → 0 ≤ virtualAddr s ∧ virtualAddr s + seg_size s ≤ pages * PageSize ∧
                    0 ≤ inFileAddr s ∧ inFileAddr s + seg_size s ≤ fileLength).

(** The memory after a segment of the file [b] has been copied. *)
Definition loaded (b : list Z) (s : Segment) (mem : Z → option Z) (x : Z) : option Z :=
  if decide (virtualAddr s ≤ x < virtualAddr s + seg_size s)
  then b !! Z.to_nat (inFileAddr s + (x - virtualAddr s)) else mem x.

Definition space_pages (h : NoffHeader) : Z :=
  (seg_size (code h) + seg_size (initData h) + seg_size (uninitData h) + UserStacksAreaSize + 127) / 128.

Record noff_ok (fileLength : Z) (h : NoffHeader) : Prop := {
  nf_magic : noffMagic h = NOFFMAGIC;
  nf_code : segment_ok fileLength (space_pages h) (code h);
  nf_init : segment_ok fileLength (space_pages h) (initData h);
  nf_uninit : 0 ≤ seg_size (uninitData h) < 2 ^ 30;
}.

Section Load.
Context {W : Type} `{SectorDevice W} (garbage page_garbage : nat → Z).
Implicit Types (w : W).

Lemma load_segment_ok exe s pages m w :
  hdr_wf exe → ready w → segment_ok (numBytes exe) pages s → pages ≤ NumPhysPages →
  ∃ mem w', load_segment garbage exe s (m, w) = Ok (tt, (set_mainMemory mem m, w')) ∧ ready w' ∧
    same_disk w w' ∧ ∀ x, mem !! x = loaded (contents w exe) s (λ x, mainMemory m !! x) x.
Proof.
  intros Hh Hr [Hs Hin] Hp. pose proof (hdr_max_bytes _ Hh) as Hlen. change MaxFileSize with 3840 in Hlen. unfold load_segment, loaded.
  destruct (Z.gtb_spec (seg_size s) 0) as [Hpos|Hpos].
  - destruct (Hin ltac:(lia)) as (Hv & Hvp & Hf & Hfl).
    destruct (ReadAt_ok garbage exe (seg_size s) (inFileAddr s) w Hh Hr Hf) as (w' & E & Hr' & Hd);
      [unfold is_int32; lia|].
    cbn [fst snd]. rewrite E. cbn [res_bind fst snd].
    set (bs := slice (contents w exe) (Z.to_nat (inFileAddr s)) (Z.to_nat (seg_size s))).
    assert (Hbs : Z.of_nat (length bs) = seg_size s)
      by (unfold bs; rewrite length_slice; [|rewrite length_contents]; lia).
    destruct (set_mem_bytes_eq m (virtualAddr s) bs) as (mem & -> & Hmem); [done| |].
    { unfold MemorySize, NumPhysPages, PageSize in *. lia. }
    cbn [res_bind]. exists mem, w'. split_and!; try done. intros x. rewrite Hmem, Hbs.
    case_decide; [|done]. unfold bs. rewrite lookup_slice by lia. f_equal. lia.
  - exists (mainMemory m), w. split_and!; try done; [by destruct m|].
    intros x. rewrite decide_False by lia. done.
Qed.

(** The table of a new space. *)
Definition space_table (pages : Z) : list TranslationEntry :=
  <[0%nat := invalidate (mkTranslation (page_garbage 0%nat) 0 true false false false)]>
    (identity_table page_garbage pages).

Lemma length_identity_table pages : 0 ≤ pages → Z.of_nat (length (identity_table page_garbage pages)) = pages.
Proof. intros Hp. unfold identity_table. rewrite length_fmap, length_seq. lia. Qed.

Lemma lookup_identity_table pages i :
  0 ≤ i < pages →
  identity_table page_garbage pages !! Z.to_nat i =
    Some (mkTranslation (page_garbage (Z.to_nat i)) i true false false false).
Proof.
  intros Hi. unfold identity_table. rewrite list_lookup_fmap, lookup_seq_lt by lia. simpl.
  do 2 f_equal. lia.
Qed.

Lemma space_table_ok pages : 0 < pages ≤ NumPhysPages → space_ok (mkAddrSpace (space_table pages) pages).
Proof.
  intros Hp. split; unfold space_table; cbn [as_pageTable numPages].
  - rewrite length_insert. apply length_identity_table. lia.
  - apply Forall_insert; [|done]. apply Forall_fmap, Forall_forall. intros i [_ Hi]%elem_of_seq.
    unfold compose, entry_ok, is_uint32. cbn [physicalPage]. unfold NumPhysPages in Hp. lia.
Qed.

Lemma Translate_space pages m va size writing :
  0 < pages ≤ NumPhysPages → tlb m = None → size = 1 ∨ size = 2 ∨ size = 4 → aligned va size →
  ∃ m', Translate va size writing (in_space (mkAddrSpace (space_table pages) pages) m) =
    Ok (if pages * PageSize <=? uint32 va then inl AddressErrorException
        else if uint32 va <? PageSize then inl PageFaultException else inr (uint32 va), m').
Proof.
  intros Hp Ht Hs Ha. unfold Translate, in_space. rewrite align_check by done.
  rewrite bool_decide_true by done. cbn [negb tlb pageTable pageTableSize as_pageTable numPages]. rewrite Ht.
  rewrite (bool_decide_true (None = None)) by done.
  rewrite (bool_decide_false (Some _ = None)) by done. cbn [negb orb ASSERT res_bind default].
  pose proof (uint32_range va) as Hu. unfold is_uint32 in Hu. unfold PageSize in *.
  pose proof (Z.div_mod (uint32 va) 128 ltac:(lia)) as Hdm.
  pose proof (Z.mod_pos_bound (uint32 va) 128 ltac:(lia)) as Hmod.
  destruct (Z.leb_spec (pages * 128) (uint32 va)) as [Hge|Hlt].
  { destruct (Z.geb_spec (uint32 va / 128) pages); [eauto|lia]. }
  destruct (Z.geb_spec (uint32 va / 128) pages); [lia|].
  assert (Hv : 0 ≤ uint32 va / 128 < pages) by (split; [apply Z.div_pos|]; lia).
  unfold space_table. destruct (Z.ltb_spec (uint32 va) 128) as [Hz|Hz].
  - rewrite (Z.div_small (uint32 va) 128) by lia.
    rewrite (arr_get_lookup _ 0 (invalidate (mkTranslation (page_garbage 0%nat) 0 true false false false)));
      [cbn [res_bind valid invalidate negb]; eauto|done|].
    apply list_lookup_insert_eq. pose proof (length_identity_table pages). lia.
  - assert (1 ≤ uint32 va / 128) by lia.
    rewrite (arr_get_lookup _ _ (mkTranslation (page_garbage (Z.to_nat (uint32 va / 128))) (uint32 va / 128) true false false false));
      [|lia|].
    + cbn [res_bind valid negb]. rewrite use_entry_ok; [|unfold entry_ok, is_uint32; cbn; unfold NumPhysPages in *; lia|done|done].
      cbn [readOnly physicalPage andb]. destruct (Z.geb_spec (uint32 va / 128) NumPhysPages); [lia|].
      assert (uint32 va / 128 * PageSize + uint32 va mod PageSize = uint32 va) as -> by (unfold PageSize; lia).
      eauto.
    + cbn [from_option id]. rewrite list_lookup_insert_ne by lia. by apply lookup_identity_table.
Qed.

(** A space of [pages] pages holding the segments of the program. *)
Record holds_program (exe : FileHeader) w (h : NoffHeader) m a m' : Prop := {
  hp_pages : numPages a = space_pages h;
  hp_space : space_ok a;
  hp_regs : registers m' = registers m;
  hp_mem x : mainMemory m' !! x =
    loaded (contents w exe) (initData h) (loaded (contents w exe) (code h) (λ x, mainMemory m !! x)) x;
  hp_translate va size writing : size = 1 ∨ size = 2 ∨ size = 4 → aligned va size →
    ∃ m2, Translate va size writing (in_space a m') =
      Ok (if numPages a * PageSize <=? uint32 va then inl AddressErrorException
          else if uint32 va <? PageSize then inl PageFaultException else inr (uint32 va), m2);
}.

Lemma space_size h len :
  noff_ok len h →
  let size := seg_size (code h) + seg_size (initData h) + seg_size (uninitData h) + UserStacksAreaSize in
  uint32 size = size ∧ divRoundUp size PageSize = space_pages h ∧ 32 ≤ space_pages h.
Proof.
  intros [_ [Hc _] [Hi _] Hu] size. unfold size, space_pages, UserStacksAreaSize, PageSize. split_and!.
  - apply uint32_id. unfold is_uint32. lia.
  - rewrite divRoundUp_nonneg by lia. f_equal. lia.
  - apply Z.div_le_lower_bound; lia.
Qed.

Lemma noff_of_app b r : length b = 40%nat → noff_of (b ++ r) = noff_of b.
Proof.
  intros Hl. assert (Hn : ∀ n, (n < 10)%nat → take 4 (drop (4 * n) (b ++ r)) = take 4 (drop (4 * n) b)).
  { intros n Hn. rewrite drop_app_le, take_app_le by (rewrite ?length_drop; lia). done. }
  unfold noff_of. cbv beta zeta. rewrite !Hn by lia. done.
Qed.

Lemma new_AddrSpace_header exe local m w h :
  hdr_wf exe → ready w → sizeof_NoffHeader ≤ numBytes exe → noff_of (take 40 (contents w exe)) = h →
  ∃ w', ReadAt garbage exe sizeof_NoffHeader 0 (m, w).2 = Ok (take 40 (contents w exe), w') ∧
    ready w' ∧ same_disk w w' ∧ noff_of (take 40 (contents w exe) ++ drop (length (take 40 (contents w exe))) local) = h.
Proof.
  intros Hh Hr Hlen Hn. unfold sizeof_NoffHeader in *.
  destruct (ReadAt_ok garbage exe 40 0 w Hh Hr) as (w' & E & Hr' & Hd); [lia|unfold is_int32; lia|].
  exists w'. split_and!; try done. rewrite <- Hn. apply noff_of_app. rewrite length_take, length_contents. lia.
Qed.

Lemma new_AddrSpace_sound exe local m w h :
  hdr_wf exe → ready w → sizeof_NoffHeader ≤ numBytes exe → noff_of (take 40 (contents w exe)) = h →
  noff_ok (numBytes exe) h → tlb m = None →
  if bool_decide (space_pages h ≤ NumPhysPages) then
    ∃ a m' w', new_AddrSpace garbage page_garbage exe local (m, w) = Ok (a, (m', w')) ∧
      ready w' ∧ same_disk w w' ∧ holds_program exe w h m a m'
  else new_AddrSpace garbage page_garbage exe local (m, w) = Fail Thrown.
Proof.
  intros Hh Hr Hlen Hn Hok Ht. pose proof Hok as [Hm Hc Hi Hu].
  destruct (new_AddrSpace_header exe local m w h Hh Hr Hlen Hn) as (w1 & E1 & Hr1 & Hd1 & Hn1).
  unfold new_AddrSpace. rewrite E1. cbn [res_bind fst snd]. rewrite Hn1, Hm, Z.eqb_refl. cbn [negb andb].
  rewrite Hm, Z.eqb_refl. cbn [ASSERT res_bind].
  destruct (space_size h _ Hok) as (-> & -> & Hp).
  case_bool_decide as Hfit; destruct (Z.gtb_spec (space_pages h) NumPhysPages); try lia; [|done].
  destruct (load_segment_ok exe (code h) (space_pages h) m w1 Hh Hr1 Hc Hfit) as (mem1 & w2 & E2 & Hr2 & Hd2 & Hm1).
  destruct (load_segment_ok exe (initData h) (space_pages h) (set_mainMemory mem1 m) w2 Hh Hr2 Hi Hfit)
    as (mem2 & w3 & E3 & Hr3 & Hd3 & Hm2).
  st_step E2. st_step E3.
  rewrite (contents_same w w1) in Hm1 by done. rewrite (contents_same w w2) in Hm2 by (by etrans).
  pose proof (length_identity_table (space_pages h) ltac:(lia)) as Hlt.
  st_step_lift (arr_get_lookup _ 0 _ ltac:(done) (lookup_identity_table (space_pages h) 0 ltac:(lia))).
  st_step_lift (arr_set_in (identity_table page_garbage (space_pages h)) 0
    (invalidate (mkTranslation (page_garbage 0%nat) 0 true false false false)) ltac:(lia)).
  exists (mkAddrSpace (space_table (space_pages h)) (space_pages h)), (set_mainMemory mem2 m), w3.
  split; [done|]. split; [done|]. split; [etrans; [exact Hd1|by etrans]|]. split; try done.
  - apply space_table_ok. lia.
  - intros x. cbn [mainMemory set_mainMemory]. rewrite Hm2. unfold loaded at 1 2. case_decide; [done|]. apply Hm1.
  - intros va size writing Hs Ha. apply (Translate_space (space_pages h) (set_mainMemory mem2 m)); [lia|done..].
Qed.

Lemma new_AddrSpace_bad_magic exe local m w h :
  hdr_wf exe → ready w → sizeof_NoffHeader ≤ numBytes exe → noff_of (take 40 (contents w exe)) = h →
  noffMagic h ≠ NOFFMAGIC → new_AddrSpace garbage page_garbage exe local (m, w) = Fail AssertFailure.
Proof.
  intros Hh Hr Hlen Hn Hm.
  destruct (new_AddrSpace_header exe local m w h Hh Hr Hlen Hn) as (w1 & E1 & Hr1 & Hd1 & Hn1).
  unfold new_AddrSpace. rewrite E1. cbn [res_bind fst snd]. rewrite Hn1, (proj2 (Z.eqb_neq _ _) Hm). cbn [negb andb].
  destruct (WordToHost _ _ =? _) eqn:Ew; [|by rewrite (proj2 (Z.eqb_neq _ _) Hm)].
  exfalso. unfold WordToHost, host_big_endian in Ew. apply Z.eqb_eq in Ew. apply Hm.
  rewrite <- (int32_id (noffMagic h)), <- int32_uint32, Ew; [done|].
  rewrite <- Hn. cbn [noffMagic noff_of]. apply int32_range.
Qed.

(** C16. Loading a program file. If the header is sound and the segments fit, the
    constructor gives a space of as many pages as the segments and 4096 bytes of stack
    need, copies the code and then the initialised data from the file to their addresses
    and touches no other byte of memory, no register and no sector; through its table
    every aligned access of page 0 is a page fault, beyond the last page an address error,
    and otherwise goes to the physical address equal to the virtual one. A program of more
    than 4096 pages throws, a file without the magic number fails the assertion. *)
Theorem new_AddrSpace_loads exe local m w h :
  hdr_wf exe → ready w → sizeof_NoffHeader ≤ numBytes exe → noff_of (take 40 (contents w exe)) = h →
  (noffMagic h ≠ NOFFMAGIC → new_AddrSpace garbage page_garbage exe local (m, w) = Fail AssertFailure) ∧
  (noff_ok (numBytes exe) h → tlb m = None →
    if bool_decide (space_pages h ≤ NumPhysPages) then
      ∃ a m' w', new_AddrSpace garbage page_garbage exe local (m, w) = Ok (a, (m', w')) ∧
        ready w' ∧ same_disk w w' ∧ holds_program exe w h m a m'
    else new_AddrSpace garbage page_garbage exe local (m, w) = Fail Thrown).
Proof.
  intros Hh Hr Hlen Hn. split; [by apply (new_AddrSpace_bad_magic _ _ _ _ h)|by apply new_AddrSpace_sound].
Qed.
End Load.
End Facts.

(** ** A program of two instructions and one word *)

Definition tiny_noff : list Z :=
  ints_bytes [NOFFMAGIC; 128; 40; 8; 136; 48; 4; 0; 0; 100] ++ [1; 2; 3; 4; 5; 6; 7; 8; 9; 10; 11; 12] ++ replicate 76 0.
Definition tiny_disk : list (list Z) := <[7%nat := tiny_noff]> mem_blank.
Definition tiny_header : NoffHeader :=
  mkNoff NOFFMAGIC (mkSegment 128 40 8) (mkSegment 136 48 4) (mkSegment 0 0 100).

Lemma new_AddrSpace_loads_witness :
  ∃ a m' w', new_AddrSpace (λ _, 77) (λ _, 3) hdr200 [] (mkMachine ∅ (replicate 40 0) None None 0 false 0, tiny_disk)
      = Ok (a, (m', w')) ∧ numPages a = 33 ∧ mainMemory m' !! 137 = Some 10.
Proof.
  destruct (new_AddrSpace_loads (λ _, 77) (λ _, 3) hdr200 [] (mkMachine ∅ (replicate 40 0) None None 0 false 0) tiny_disk
    tiny_header) as [_ H].
  - apply hdr200_wf.
  - split; [reflexivity|]. apply Forall_insert; [apply mem_blank_ready|reflexivity].
  - vm_compute. discriminate.
  - vm_compute. reflexivity.
  - destruct H as (a & m' & w' & E & _ & _ & Hp); [|reflexivity|].
    + split; [reflexivity|split; vm_compute; intuition discriminate..|vm_compute; intuition discriminate].
    + exists a, m', w'. split; [exact E|]. split; [rewrite (hp_pages _ _ _ _ _ _ Hp); reflexivity|].
      rewrite (hp_mem _ _ _ _ _ _ Hp). vm_compute. reflexivity.
Defined.
