(* ===== verification/Coff.v ===== *)
(** * The program converter (bin/coff2noff.c, bin/coff.h)

    A linked MIPS object in COFF form is rewritten as the NOFF file the kernel loads: the
    text and the initialised data behind a header of forty bytes. The converter runs on
    the host; its files are those of Sysdep.v, bytes with an offset. *)
From S2P Require Import Prelude Words SectorIO FileHdr OpenFile Interrupt Machine Threads Kernel AddrSpace Sysdep.

Module Coff.

Definition int16 (z : Z) : Z := (z + 32768) mod 65536 - 32768.

(** The input and the output. *)
Record Files := mkFiles { fdIn : Fd; fdOut : Fd }.

Section Checked.
Context (room : Z).                   (** how long the host lets the output become *)

(** Read. A negative count, which asks [malloc] and [read] for more than any memory, is
    undefined; a file that is too short ends the program. *)
Definition Read (n : Z) : ST Files (list Z) := λ fs,
  if n <? 0 then Fail MemoryFault
  else
    let r := fd_read n (fdIn fs) in
    if Z.of_nat (length r.1) =? n then Ok (r.1, mkFiles r.2 (fdOut fs)) else Fail (Exited 1).

Definition Write (data : list Z) : ST Files unit := λ fs,
  if offset (fdOut fs) + Z.of_nat (length data) <=? room
  then Ok (tt, mkFiles (fdIn fs) (fd_write data (fdOut fs))) else Fail (Exited 1).

Definition lseek_in (off : Z) : ST Files unit := λ fs, Ok (tt, mkFiles (lseek off (fdIn fs)) (fdOut fs)).
Definition lseek_out (off : Z) : ST Files unit := λ fs, Ok (tt, mkFiles (fdIn fs) (lseek off (fdOut fs))).

(** ** The COFF headers *)

Definition ShortToHost (shortword : Z) : Z := Words.ShortToHost host_big_endian shortword.
Definition WordToHost (word : Z) : Z := Words.WordToHost host_big_endian word.

Definition MIPSELMAGIC : Z := 0x0162.
Definition OMAGIC : Z := 263.         (* 0407 *)

(** struct filehdr, of which two fields are used. *)
Record filehdr := mkFilehdr { f_magic : Z; f_nscns : Z }.
Definition sizeof_filehdr : Z := 20.
Definition filehdr_of (b : list Z) : filehdr :=
  mkFilehdr (uint16 (le_val (take 2 b))) (uint16 (le_val (take 2 (drop 2 b)))).

(** struct aouthdr, of which the magic number, a [short], is used. *)
Definition sizeof_aouthdr : Z := 56.
Definition aouthdr_magic (b : list Z) : Z := int16 (le_val (take 2 b)).

(** struct scnhdr; the fields nothing uses are left out. *)
Record scnhdr := mkScnhdr { s_name : list Z; s_paddr : Z; s_size : Z; s_scnptr : Z }.
Definition sizeof_scnhdr : Z := 40.
Definition scnhdr_of (b : list Z) : scnhdr :=
  let i n := bytes_int (take 4 (drop n b)) in
  mkScnhdr (take 8 b) (i 8%nat) (i 16%nat) (i 20%nat).

(** The loop that converts the sections to the host's byte order. *)
Definition swap_section (s : scnhdr) : scnhdr :=
  let swap z := int32 (WordToHost (uint32 z)) in
  mkScnhdr (s_name s) (swap (s_paddr s)) (swap (s_size s)) (swap (s_scnptr s)).

Fixpoint sections_of (n : nat) (b : list Z) : list scnhdr :=
  match n with
  | 0%nat => []
  | S n => scnhdr_of (take 40 b) :: sections_of n (drop 40 b)
  end.

(** [!strcmp(s_name, literal)]; the literals are shorter than the array, so the comparison
    stays inside it. *)
Definition name_is (literal : list Z) (s : scnhdr) : bool :=
  bool_decide (take (S (length literal)) (s_name s) = literal ++ [0]).
Definition text_ : list Z := [46; 116; 101; 120; 116].              (* .text *)
Definition data_ : list Z := [46; 100; 97; 116; 97].                (* .data *)
Definition rdata_ : list Z := [46; 114; 100; 97; 116; 97].          (* .rdata *)
Definition bss_ : list Z := [46; 98; 115; 115].                     (* .bss *)
Definition sbss_ : list Z := [46; 115; 98; 115; 115].               (* .sbss *)

(** ** The conversion *)

Definition set_code (s : Segment) (h : NoffHeader) : NoffHeader :=
  mkNoff (noffMagic h) s (initData h) (uninitData h).
Definition set_initData (s : Segment) (h : NoffHeader) : NoffHeader :=
  mkNoff (noffMagic h) (code h) s (uninitData h).
Definition set_uninitData (s : Segment) (h : NoffHeader) : NoffHeader :=
  mkNoff (noffMagic h) (code h) (initData h) s.

(** The header before the loop; [local] is what the variable held. *)
Definition init_noffH (local : NoffHeader) : NoffHeader :=
  let zero s := mkSegment (virtualAddr s) (inFileAddr s) 0 in
  mkNoff NOFFMAGIC (zero (code local)) (zero (initData local)) (zero (uninitData local)).

(** The bytes of a section, from the one file to the other. *)
Definition copy_section (s : scnhdr) : ST Files unit :=
  let* _ := lseek_in (s_scnptr s) in
  let* buffer := Read (s_size s) in
  Write buffer.

(** One turn of the loop over the sections, with [noffH] and [inNoffFile]. *)
Definition convert_section (s : scnhdr) (st : NoffHeader * Z) : ST Files (NoffHeader * Z) :=
  let '(noffH, inNoffFile) := st in
  if s_size s =? 0 then st_ret st
  else if name_is text_ s then
    let* _ := copy_section s in
    st_ret (set_code (mkSegment (s_paddr s) inNoffFile (s_size s)) noffH, int32 (inNoffFile + s_size s))
  else if name_is data_ s || name_is rdata_ s then
    if negb (seg_size (initData noffH) =? 0) then st_fail (Exited 1)
    else
      let* _ := copy_section s in
      st_ret (set_initData (mkSegment (s_paddr s) inNoffFile (s_size s)) noffH, int32 (inNoffFile + s_size s))
  else if name_is bss_ s || name_is sbss_ s then
    let u := uninitData noffH in
    if negb (seg_size u =? 0) then
      if s_paddr s >? int32 (virtualAddr u + seg_size u) then st_fail (Exited 1)
      else st_ret (set_uninitData (mkSegment (virtualAddr u) (inFileAddr u) (int32 (seg_size u + s_size s))) noffH,
                   inNoffFile)
    else st_ret (set_uninitData (mkSegment (s_paddr s) (-1) (s_size s)) noffH, inNoffFile)
  else st_fail (Exited 1).

Fixpoint convert_sections (l : list scnhdr) (st : NoffHeader * Z) : ST Files (NoffHeader * Z) :=
  match l with
  | [] => st_ret st
  | s :: l => let* st := convert_section s st in convert_sections l st
  end.

(** The header as it lies in the file. *)
Definition noff_bytes (h : NoffHeader) : list Z :=
  let seg s := [virtualAddr s; inFileAddr s; seg_size s] in
  ints_bytes (noffMagic h :: seg (code h) ++ seg (initData h) ++ seg (uninitData h)).

Definition convert (local : NoffHeader) : ST Files unit :=
  let* b := Read sizeof_filehdr in
  let fileh := filehdr_of b in
  if negb (ShortToHost (f_magic fileh) =? MIPSELMAGIC) then st_fail (Exited 1)
  else
    let* b := Read sizeof_aouthdr in
    if negb (int16 (ShortToHost (uint16 (aouthdr_magic b))) =? OMAGIC) then st_fail (Exited 1)
    else
      let numsections := ShortToHost (f_nscns fileh) in
      let* b := Read (numsections * sizeof_scnhdr) in
      let sections := swap_section <$> sections_of (Z.to_nat numsections) b in
      let* _ := lseek_out sizeof_NoffHeader in
      let* r := convert_sections sections (init_noffH local, sizeof_NoffHeader) in
      let* _ := lseek_out 0 in
      Write (noff_bytes r.1).
End Checked.

(** main: the output file, or the exit code of a failure, after which there is none. [None]
    is an input that cannot be opened; an output that cannot be opened has no room, since
    the test after its [open] looks at the input again. *)
Definition main (argc : Z) (input : option (list Z)) (room : Z) (local : NoffHeader) : res (list Z) :=
  if argc <? 2 then Fail (Exited 1)
  else match input with
       | None => Fail (Exited 1)
       | Some b =>
           let? r := convert room local (mkFiles (mkFd 0 b) (mkFd 0 [])) in
           Ok (bytes (fdOut r.2))
       end.

(** ** What a COFF file says *)

Definition is_text (s : scnhdr) : bool := negb (s_size s =? 0) && name_is text_ s.
Definition is_data (s : scnhdr) : bool :=
  negb (s_size s =? 0) && negb (name_is text_ s) && (name_is data_ s || name_is rdata_ s).
Definition is_bss (s : scnhdr) : bool :=
  negb (s_size s =? 0) && negb (name_is text_ s) && negb (name_is data_ s || name_is rdata_ s) &&
  (name_is bss_ s || name_is sbss_ s).

(** The bytes [b] are an object with the sections [ss]. *)
Record coff_file (b : list Z) (ss : list scnhdr) : Prop := {
  cf_length : 76 + 40 * Z.of_nat (length ss) ≤ Z.of_nat (length b);
  cf_magic : uint16 (le_val (take 2 b)) = MIPSELMAGIC;
  cf_count : uint16 (le_val (take 2 (drop 2 b))) = Z.of_nat (length ss);
  cf_omagic : int16 (le_val (take 2 (drop 20 b))) = OMAGIC;
  cf_sections : sections_of (length ss) (drop 76 b) = ss;
}.

(** The bytes of a section with bytes are in the file. *)
Definition stored_ok (b : list Z) (s : scnhdr) : Prop :=
  0 ≤ s_size s ∧ 0 ≤ s_scnptr s ∧ s_scnptr s + s_size s ≤ Z.of_nat (length b).

(** The .bss and .sbss sections each start no later than the ones before end; [seen] is the
    start and the size of those. *)
Fixpoint bss_adjoin (seen : option (Z * Z)) (ss : list scnhdr) : Prop :=
  match ss with
  | [] => True
  | s :: ss =>
      if is_bss s then
        match seen with
        | None => bss_adjoin (Some (s_paddr s, s_size s)) ss
        | Some (a, n) => s_paddr s ≤ a + n ∧ bss_adjoin (Some (a, n + s_size s)) ss
        end
      else bss_adjoin seen ss
  end.

Definition total (kind : scnhdr → bool) (ss : list scnhdr) : Z := foldr (λ s n, s_size s + n) 0 (filter kind ss).

(** A file the converter accepts and a NOFF header can describe. *)
Record convertible (b : list Z) (ss : list scnhdr) : Prop := {
  cv_known : Forall (λ s, s_size s = 0 ∨ is_text s ∨ is_data s ∨ is_bss s) ss;
  cv_stored : Forall (λ s, is_text s ∨ is_data s → stored_ok b s) ss;
  cv_text : (length (filter is_text ss) <= 1)%nat;
  cv_data : (length (filter is_data ss) <= 1)%nat;
  cv_bss : Forall (λ s, is_bss s → 0 ≤ s_size s ∧ 0 ≤ s_paddr s < 2 ^ 30) ss;
  cv_adjoin : bss_adjoin None ss;
  cv_total : total is_bss ss < 2 ^ 30;
}.

(** The memory with the section of [kind], if there is one, at its address. *)
Definition image (b : list Z) (kind : scnhdr → bool) (ss : list scnhdr) (mem : Z → option Z) (x : Z) : option Z :=
  match filter kind ss with
  | [] => mem x
  | s :: _ => if decide (s_paddr s ≤ x < s_paddr s + s_size s)
              then b !! Z.to_nat (s_scnptr s + (x - s_paddr s)) else mem x
  end.

Definition pages (ss : list scnhdr) : Z :=
  (total is_text ss + total is_data ss + total is_bss ss + UserStacksAreaSize + 127) / 128.

(** ** Facts *)

Lemma filter_cons_if (kind : scnhdr → bool) s ss :
  filter kind (s :: ss) = if kind s then s :: filter kind ss else filter kind ss.
Proof. rewrite filter_cons. case_decide as H; destruct (kind s); done. Qed.

Lemma total_cons kind s ss : total kind (s :: ss) = (if kind s then s_size s else 0) + total kind ss.
Proof. unfold total. rewrite filter_cons_if. by destruct (kind s). Qed.

(** The output so far: [body] behind room for the header, and the offset at its end. *)
Record out_at (body : list Z) (fs : Files) : Prop := {
  oa_offset : offset (fdOut fs) = 40 + Z.of_nat (length body);
  oa_body : drop 40 (bytes (fdOut fs)) = body;
  oa_length : (length (bytes (fdOut fs)) <= 40 + length body)%nat;
}.

Lemma fd_write_end body f data :
  offset f = 40 + Z.of_nat (length body) → drop 40 (bytes f) = body →
  (length (bytes f) <= 40 + length body)%nat →
  let f' := fd_write data f in
  offset f' = 40 + Z.of_nat (length (body ++ data)) ∧ drop 40 (bytes f') = body ++ data ∧
  (length (bytes f') <= 40 + length (body ++ data))%nat.
Proof.
  intros Ho Hb Hl f'. unfold f', fd_write. cbn [offset bytes]. rewrite Ho.
  replace (Z.to_nat (40 + Z.of_nat (length body))) with (40 + length body)%nat by lia.
  rewrite length_app. split; [lia|].
  rewrite (drop_ge (bytes f)) by lia. rewrite app_nil_r. split.
  - rewrite drop_app_le by (rewrite length_take, length_app, length_replicate; lia). f_equal.
    rewrite <- take_drop_commute, drop_app, Hb. apply take_app_length'. done.
  - rewrite !length_app, length_take, length_app, length_replicate. lia.
Qed.

(** What a copy does to the output, wherever its offset is. *)
Lemma copy_section_run room s fs :
  stored_ok (bytes (fdIn fs)) s → offset (fdOut fs) + s_size s ≤ room →
  ∃ f, copy_section room s fs =
    Ok (tt, mkFiles f (fd_write (slice (bytes (fdIn fs)) (Z.to_nat (s_scnptr s)) (Z.to_nat (s_size s))) (fdOut fs))) ∧
    bytes f = bytes (fdIn fs).
Proof.
  intros (Hs & Hp & Hl) Hr.
  set (data := slice (bytes (fdIn fs)) (Z.to_nat (s_scnptr s)) (Z.to_nat (s_size s))).
  assert (Hdata : length data = Z.to_nat (s_size s)) by (unfold data; rewrite length_slice; lia).
  set (fs1 := mkFiles (mkFd (s_scnptr s + Z.of_nat (length data)) (bytes (fdIn fs))) (fdOut fs)).
  assert (E : (let* _ := lseek_in (s_scnptr s) in Read (s_size s)) fs = Ok (data, fs1)).
  { unfold st_bind, lseek_in, lseek. rewrite (proj2 (Z.ltb_ge _ 0)) by done. unfold Read.
    rewrite (proj2 (Z.ltb_ge _ 0)) by done. cbn [fdIn fdOut fd_read offset bytes fst snd].
    change (take _ _) with data. unfold fs1. by rewrite Hdata, Z2Nat.id, Z.eqb_refl by done. }
  exists (fdIn fs1). split; [|done].
  unfold copy_section. unfold st_bind at 1. unfold st_bind in E at 1. cbv beta iota in E. cbn [lseek_in] in *.
  st_step E. unfold Write. cbn [fdOut fs1]. by rewrite (proj2 (Z.leb_le _ _)) by lia.
Qed.

Lemma copy_section_ok room b body s fs :
  stored_ok b s → out_at body fs → bytes (fdIn fs) = b → 40 + Z.of_nat (length body) + s_size s ≤ room →
  ∃ fs', copy_section room s fs = Ok (tt, fs') ∧ bytes (fdIn fs') = b ∧
    out_at (body ++ slice b (Z.to_nat (s_scnptr s)) (Z.to_nat (s_size s))) fs'.
Proof.
  intros Hst [Ho Hd Hn] Hb Hr. subst b.
  destruct (copy_section_run room s fs Hst) as (f & E & Hf); [lia|].
  destruct (fd_write_end body (fdOut fs) (slice (bytes (fdIn fs)) (Z.to_nat (s_scnptr s)) (Z.to_nat (s_size s))) Ho Hd Hn)
    as (H1 & H2 & H3).
  eexists. split; [exact E|]. done.
Qed.

(** The section [s] lies in the output where the segment says. *)
Record stored_at (b body : list Z) (s : scnhdr) (seg : Segment) : Prop := {
  sa_address : virtualAddr seg = s_paddr s;
  sa_size : seg_size seg = s_size s;
  sa_place : 40 ≤ inFileAddr seg ∧ inFileAddr seg + s_size s ≤ 40 + Z.of_nat (length body);
  sa_bytes : slice body (Z.to_nat (inFileAddr seg - 40)) (Z.to_nat (s_size s)) =
             slice b (Z.to_nat (s_scnptr s)) (Z.to_nat (s_size s));
  sa_source : 0 ≤ s_scnptr s;
}.

Lemma stored_at_app b body more s seg : stored_at b body s seg → stored_at b (body ++ more) s seg.
Proof.
  intros [Ha Hs Hp Hb Hsrc]. split; [done..| | |done].
  - rewrite length_app. lia.
  - rewrite <- Hb. unfold slice. destruct (decide (s_size s ≤ 0)).
    { by replace (Z.to_nat (s_size s)) with 0%nat by lia. }
    rewrite drop_app_le by lia. apply take_app_le. rewrite length_drop. lia.
Qed.

Definition bss_seen (h : NoffHeader) : option (Z * Z) :=
  let u := uninitData h in if seg_size u =? 0 then None else Some (virtualAddr u, seg_size u).

(** What the loop needs of the sections left. *)
Record loop_ok (room : Z) (b : list Z) (ss : list scnhdr) (h : NoffHeader) (body : list Z) : Prop := {
  lo_known : Forall (λ s, s_size s = 0 ∨ is_text s ∨ is_data s ∨ is_bss s) ss;
  lo_stored : Forall (λ s, is_text s ∨ is_data s → stored_ok b s) ss;
  lo_text : (length (filter is_text ss) <= 1)%nat;
  lo_data : (length (filter is_data ss) <= 1)%nat;
  lo_init : seg_size (initData h) ≠ 0 → filter is_data ss = [];
  lo_bss : Forall (λ s, is_bss s → 0 ≤ s_size s ∧ 0 ≤ s_paddr s < 2 ^ 30) ss;
  lo_adjoin : bss_adjoin (bss_seen h) ss;
  lo_uninit : 0 ≤ seg_size (uninitData h) ∧ seg_size (uninitData h) + total is_bss ss < 2 ^ 30;
  lo_seen : seg_size (uninitData h) ≠ 0 → 0 ≤ virtualAddr (uninitData h) < 2 ^ 30;
  lo_room : 40 + Z.of_nat (length body) + total is_text ss + total is_data ss ≤ room < 2 ^ 31;
}.

Definition seg_int32 (s : Segment) : Prop := is_int32 (virtualAddr s) ∧ is_int32 (inFileAddr s) ∧ is_int32 (seg_size s).

(** What it has done to the header and the body when it is through [ss]. *)
Record converted (b : list Z) (ss : list scnhdr) (h : NoffHeader) (body : list Z) (h' : NoffHeader) (body' : list Z)
    : Prop := {
  cd_magic : noffMagic h' = noffMagic h;
  cd_more : ∃ more, body' = body ++ more ∧ Z.of_nat (length more) = total is_text ss + total is_data ss;
  cd_text : match filter is_text ss with
            | [] => code h' = code h
            | s :: _ => stored_at b body' s (code h')
            end;
  cd_data : match filter is_data ss with
            | [] => initData h' = initData h
            | s :: _ => stored_at b body' s (initData h')
            end;
  cd_bss : seg_size (uninitData h') = seg_size (uninitData h) + total is_bss ss;
  cd_int : seg_int32 (uninitData h) → seg_int32 (uninitData h');
}.

Lemma total_nonneg (kind : scnhdr → bool) b ss :
  Forall (λ s, kind s → stored_ok b s) ss → 0 ≤ total kind ss.
Proof.
  induction 1 as [|s ss Hs _ IH]; [done|]. rewrite total_cons. destruct (kind s); [|lia].
  destruct (Hs I). lia.
Qed.

Lemma total_bss_nonneg ss :
  Forall (λ s, is_bss s → 0 ≤ s_size s ∧ 0 ≤ s_paddr s < 2 ^ 30) ss → 0 ≤ total is_bss ss.
Proof.
  induction 1 as [|s ss Hs _ IH]; [done|]. rewrite total_cons. destruct (is_bss s); [|lia]. destruct (Hs I). lia.
Qed.

(** The four ways a turn can go. *)
Inductive kind_of (s : scnhdr) : Prop :=
  | kind_empty : s_size s = 0 → is_text s = false → is_data s = false → is_bss s = false → kind_of s
  | kind_text : s_size s ≠ 0 → name_is text_ s = true → is_text s = true → is_data s = false → is_bss s = false → kind_of s
  | kind_data : s_size s ≠ 0 → name_is text_ s = false → name_is data_ s || name_is rdata_ s = true →
      is_text s = false → is_data s = true → is_bss s = false → kind_of s
  | kind_bss : s_size s ≠ 0 → name_is text_ s = false → name_is data_ s || name_is rdata_ s = false →
      name_is bss_ s || name_is sbss_ s = true → is_text s = false → is_data s = false → is_bss s = true → kind_of s.

Lemma kind_cases s : s_size s = 0 ∨ is_text s ∨ is_data s ∨ is_bss s → kind_of s.
Proof.
  destruct (Z.eqb_spec (s_size s) 0) as [Hz|Hz].
  { intros _. apply kind_empty; [done|unfold is_text, is_data, is_bss; by rewrite Hz..]. }
  apply Z.eqb_neq in Hz as Hz'.
  destruct (name_is text_ s) eqn:E1.
  { intros _. apply kind_text; try done; unfold is_text, is_data, is_bss; by rewrite Hz', E1. }
  destruct (name_is data_ s || name_is rdata_ s) eqn:E2.
  { intros _. apply kind_data; try done; unfold is_text, is_data, is_bss; by rewrite Hz', E1, ?E2. }
  destruct (name_is bss_ s || name_is sbss_ s) eqn:E3.
  { intros _. apply kind_bss; try done; unfold is_text, is_data, is_bss; by rewrite Hz', E1, ?E2, ?E3. }
  unfold is_text, is_data, is_bss. rewrite Hz', E1, E2, E3. naive_solver.
Qed.

Lemma stored_at_new b body s pos :
  stored_ok b s → pos = 40 + Z.of_nat (length body) →
  stored_at b (body ++ slice b (Z.to_nat (s_scnptr s)) (Z.to_nat (s_size s))) s
    (mkSegment (s_paddr s) pos (s_size s)).
Proof.
  intros (Hs & Hp & Hl) ->. split; cbn [virtualAddr seg_size inFileAddr]; [done..| | |done].
  - rewrite length_app, length_slice by lia. lia.
  - replace (Z.to_nat (40 + Z.of_nat (length body) - 40)) with (length body) by lia. unfold slice at 1. rewrite drop_app_length. apply take_ge.
    rewrite length_slice; lia.
Qed.

Lemma filter_at_most_one (kind : scnhdr → bool) s ss :
  (length (filter kind (s :: ss)) <= 1)%nat → kind s → filter kind ss = [].
Proof.
  rewrite filter_cons_if. destruct (kind s); [|done]. cbn [length]. intros H _.
  apply length_zero_iff_nil. lia.
Qed.

Lemma converted_cons b s ss h body h1 body1 h2 body2 :
  (length (filter is_text (s :: ss)) <= 1)%nat → (length (filter is_data (s :: ss)) <= 1)%nat →
  converted b [s] h body h1 body1 → converted b ss h1 body1 h2 body2 → converted b (s :: ss) h body h2 body2.
Proof.
  intros Ht Hd [A1 (m1 & -> & Am) A3 A4 A5 A6] [B1 (m2 & -> & Bm) B3 B4 B5 B6].
  pose proof (filter_at_most_one is_text s ss Ht) as Ht'. pose proof (filter_at_most_one is_data s ss Hd) as Hd'.
  rewrite !total_cons in *. change (total ?k []) with 0 in *. rewrite !filter_cons_if in A3, A4.
  split; rewrite ?filter_cons_if, ?total_cons.
  - congruence.
  - exists (m1 ++ m2). rewrite app_assoc, length_app. split; [done|lia].
  - destruct (is_text s); [rewrite (Ht' I) in B3; rewrite B3; by apply stored_at_app|].
    destruct (filter is_text ss); [congruence|done].
  - destruct (is_data s); [rewrite (Hd' I) in B4; rewrite B4; by apply stored_at_app|].
    destruct (filter is_data ss); [congruence|done].
  - lia.
  - auto.
Qed.

(** A section that is copied: the files, the body and what is known of the data. *)
Lemma copied room b s ss h body fs :
  loop_ok room b (s :: ss) h body → out_at body fs → bytes (fdIn fs) = b → is_text s ∨ is_data s →
  ∃ data fs1, copy_section room s fs = Ok (tt, fs1) ∧ bytes (fdIn fs1) = b ∧ out_at (body ++ data) fs1 ∧
    Z.of_nat (length data) = s_size s ∧ 0 ≤ s_size s ∧
    int32 (40 + Z.of_nat (length body) + s_size s) = 40 + Z.of_nat (length (body ++ data)) ∧
    stored_at b (body ++ data) s (mkSegment (s_paddr s) (40 + Z.of_nat (length body)) (s_size s)).
Proof.
  intros Hl Ho Hb Hk. pose proof (proj1 (Forall_cons _ _ _) (lo_stored _ _ _ _ _ Hl)) as [Hst Hst'].
  pose proof (Hst Hk) as Hsok. pose proof (lo_room _ _ _ _ _ Hl) as Hroom. rewrite !total_cons in Hroom.
  pose proof (total_nonneg is_text b ss ltac:(eapply Forall_impl; [exact Hst'|naive_solver])) as Htn.
  pose proof (total_nonneg is_data b ss ltac:(eapply Forall_impl; [exact Hst'|naive_solver])) as Hdn.
  assert (Hsz : 0 ≤ s_size s) by apply Hsok.
  assert (Hr : 40 + Z.of_nat (length body) + s_size s ≤ room).
  { destruct (is_text s), (is_data s); try lia. destruct Hk; done. }
  destruct (copy_section_ok room b body s fs Hsok Ho Hb Hr) as (fs1 & Ec & Hb1 & Ho1).
  eexists _, fs1. split; [exact Ec|]. split; [done|]. split; [exact Ho1|].
  assert (Hdata : Z.of_nat (length (slice b (Z.to_nat (s_scnptr s)) (Z.to_nat (s_size s)))) = s_size s)
    by (destruct Hsok as (? & ? & ?); rewrite length_slice; lia).
  split; [done|]. split; [done|]. split; [|by apply stored_at_new].
  rewrite length_app, int32_id by (unfold is_int32; lia). lia.
Qed.

(** What is left for the loop after a turn that made [h1] and [body1]. *)
Lemma loop_ok_tail room b s ss h body h1 body1 :
  loop_ok room b (s :: ss) h body →
  (seg_size (initData h1) ≠ 0 → is_data s ∨ seg_size (initData h) ≠ 0) →
  bss_adjoin (bss_seen h1) ss →
  seg_size (uninitData h1) = seg_size (uninitData h) + total is_bss [s] →
  (seg_size (uninitData h1) ≠ 0 → 0 ≤ virtualAddr (uninitData h1) < 2 ^ 30) →
  Z.of_nat (length body1) = Z.of_nat (length body) + total is_text [s] + total is_data [s] →
  loop_ok room b ss h1 body1.
Proof.
  intros [Hk Hst Ht Hd Hi Hbs Hadj Hu Hseen Hroom] Hi1 Hadj1 Hu1 Hseen1 Hb1.
  rewrite Forall_cons in Hk, Hst, Hbs. destruct Hk as [_ Hk'], Hst as [_ Hst'], Hbs as [Hb Hbs'].
  rewrite !total_cons in *. change (total ?k []) with 0 in *.
  assert (0 ≤ if is_bss s then s_size s else 0) by (destruct (is_bss s); [apply (Hb I)|lia]).
  pose proof (total_bss_nonneg ss Hbs').
  split; try done; try lia.
  - rewrite filter_cons_if in Ht. destruct (is_text s); cbn [length] in Ht; lia.
  - rewrite filter_cons_if in Hd. destruct (is_data s); cbn [length] in Hd; lia.
  - intros Hz. destruct (Hi1 Hz) as [Hs|Hz0]; [by eapply filter_at_most_one|].
    specialize (Hi Hz0). rewrite filter_cons_if in Hi. by destruct (is_data s).
Qed.

Lemma convert_bss_ok room b s ss h body :
  loop_ok room b (s :: ss) h body → is_bss s = true →
  let u := uninitData h in
  let h1 := set_uninitData (if seg_size u =? 0 then mkSegment (s_paddr s) (-1) (s_size s)
    else mkSegment (virtualAddr u) (inFileAddr u) (int32 (seg_size u + s_size s))) h in
  seg_size (uninitData h1) = seg_size u + s_size s ∧ bss_adjoin (bss_seen h1) ss ∧
  (seg_size u ≠ 0 → (s_paddr s >? int32 (virtualAddr u + seg_size u)) = false) ∧
  0 ≤ virtualAddr (uninitData h1) < 2 ^ 30 ∧ (seg_int32 u → seg_int32 (uninitData h1)).
Proof.
  intros [_ _ _ _ _ Hbs Hadj Hu Hseen _] Hk u h1. rewrite Forall_cons, Hk in Hbs. destruct Hbs as [Hb Hbs'].
  destruct (Hb I) as [Hsz Hpa]. pose proof (total_bss_nonneg ss Hbs'). rewrite total_cons, Hk in Hu.
  assert (Hz : s_size s ≠ 0).
  { intros H0. unfold is_bss in Hk. by rewrite H0 in Hk. }
  unfold h1. cbn [uninitData set_uninitData bss_adjoin] in *. unfold bss_seen in *. cbn [uninitData set_uninitData].
  rewrite Hk in Hadj. fold u in Hadj, Hu, Hseen. rewrite int32_id by (unfold is_int32; lia).
  destruct (Z.eqb_spec (seg_size u) 0) as [H0|H0]; cbn [virtualAddr seg_size].
  - rewrite (proj2 (Z.eqb_neq _ 0) Hz). split; [lia|]. split; [done|]. split; [done|].
    split; [lia|]. intros _. split; [|split]; cbn; unfold is_int32; lia.
  - rewrite (proj2 (Z.eqb_neq _ 0)) by lia. destruct Hadj as [Hle Hadj]. specialize (Hseen H0).
    split; [lia|]. split; [done|]. split.
    { intros _. rewrite int32_id by (unfold is_int32; lia).
      destruct (Z.gtb_spec (s_paddr s) (virtualAddr u + seg_size u)); [lia|done]. }
    split; [lia|]. intros (_ & Hf & _). split; [|split]; cbn; unfold is_int32 in *; lia.
Qed.

Lemma convert_section_ok room b s ss h body fs :
  loop_ok room b (s :: ss) h body → out_at body fs → bytes (fdIn fs) = b →
  ∃ h1 body1 fs1, convert_section room s (h, 40 + Z.of_nat (length body)) fs =
      Ok ((h1, 40 + Z.of_nat (length body1)), fs1) ∧
    out_at body1 fs1 ∧ bytes (fdIn fs1) = b ∧ loop_ok room b ss h1 body1 ∧ converted b [s] h body h1 body1.
Proof.
  intros Hl Ho Hb. pose proof Hl as [Hk _ _ _ Hi _ Hadj _ Hseen _]. apply Forall_cons in Hk as [Hk _].
  unfold convert_section. cbn [bss_adjoin] in Hadj.
  destruct (kind_cases s Hk) as [Hz E1 E2 E3|Hz N1 E1 E2 E3|Hz N1 N2 E1 E2 E3|Hz N1 N2 N3 E1 E2 E3];
    [rewrite (proj2 (Z.eqb_eq _ 0) Hz)|rewrite (proj2 (Z.eqb_neq _ 0) Hz)..].
  - rewrite E3 in Hadj. exists h, body, fs. split; [done|]. split; [done|]. split; [done|]. split.
    + apply (loop_ok_tail _ _ _ _ _ _ _ _ Hl); rewrite ?total_cons, ?E1, ?E2, ?E3; cbn; auto; lia.
    + split; rewrite ?filter_cons_if, ?total_cons, ?E1, ?E2, ?E3; try done; [exists []; by rewrite app_nil_r|cbn; lia].
  - rewrite E3 in Hadj. rewrite N1.
    destruct (copied room b s ss h body fs Hl Ho Hb) as (data & fs1 & Ec & Hb1 & Ho1 & Hd & Hsz & Hpos & Hsa);
      [left; by rewrite E1|].
    st_step Ec. unfold st_ret. rewrite Hpos. eexists _, (body ++ data), fs1. do 3 (split; [done|]). split.
    + apply (loop_ok_tail _ _ _ _ _ _ _ _ Hl); rewrite ?total_cons, ?length_app, ?E1, ?E2, ?E3; cbn; auto; lia.
    + split; rewrite ?filter_cons_if, ?total_cons, ?E1, ?E2, ?E3; try done; [exists data; cbn; split; [done|lia]|cbn; lia].
  - rewrite E3 in Hadj. rewrite N1, N2.
    destruct (decide (seg_size (initData h) = 0)) as [H0|H0].
    2: { specialize (Hi H0). rewrite filter_cons_if, E2 in Hi. done. }
    destruct (copied room b s ss h body fs Hl Ho Hb) as (data & fs1 & Ec & Hb1 & Ho1 & Hd & Hsz & Hpos & Hsa);
      [right; by rewrite E2|].
    rewrite H0. cbn [Z.eqb negb]. st_step Ec. unfold st_ret. rewrite Hpos.
    eexists _, (body ++ data), fs1. do 3 (split; [done|]). split.
    + apply (loop_ok_tail _ _ _ _ _ _ _ _ Hl); rewrite ?total_cons, ?length_app, ?E1, ?E2, ?E3; cbn; auto; lia.
    + split; rewrite ?filter_cons_if, ?total_cons, ?E1, ?E2, ?E3; try done; [exists data; cbn; split; [done|lia]|cbn; lia].
  - rewrite N1, N2, N3. destruct (convert_bss_ok room b s ss h body Hl E3) as (Hu1 & Hadj1 & Hgt & Hva & Hint).
    set (h1 := set_uninitData _ h) in *. exists h1, body, fs. split.
    { unfold h1, st_ret. destruct (Z.eqb_spec (seg_size (uninitData h)) 0) as [H0|H0]; cbn [negb]; [done|].
      by rewrite (Hgt H0). }
    split; [done|]. split; [done|]. split.
    + apply (loop_ok_tail _ _ _ _ _ _ _ _ Hl); rewrite ?total_cons, ?Hu1, ?E1, ?E2, ?E3; cbn; auto; lia.
    + split; rewrite ?filter_cons_if, ?total_cons, ?Hu1, ?E1, ?E2, ?E3; try done;
        [exists []; by rewrite app_nil_r|cbn; lia].
Qed.

Lemma convert_sections_ok room b ss h body fs :
  loop_ok room b ss h body → out_at body fs → bytes (fdIn fs) = b →
  ∃ h' body' fs', convert_sections room ss (h, 40 + Z.of_nat (length body)) fs =
      Ok ((h', 40 + Z.of_nat (length body')), fs') ∧
    out_at body' fs' ∧ converted b ss h body h' body'.
Proof.
  revert h body fs. induction ss as [|s ss IH]; intros h body fs Hl Ho Hb.
  { exists h, body, fs. split; [done|]. split; [done|]. split; try done; [|cbn; lia].
    exists []. by rewrite app_nil_r. }
  destruct (convert_section_ok room b s ss h body fs Hl Ho Hb) as (h1 & body1 & fs1 & E & Ho1 & Hb1 & Hl1 & Hc1).
  destruct (IH h1 body1 fs1 Hl1 Ho1 Hb1) as (h2 & body2 & fs2 & E2 & Ho2 & Hc2).
  exists h2, body2, fs2. cbn [convert_sections]. st_step E. split; [exact E2|]. split; [done|].
  by apply (converted_cons b s ss h body h1 body1); [apply Hl..| |].
Qed.

(** ** The header *)

Definition noff_int32 (h : NoffHeader) : Prop :=
  is_int32 (noffMagic h) ∧ seg_int32 (code h) ∧ seg_int32 (initData h) ∧ seg_int32 (uninitData h).

Lemma length_noff_bytes h : length (noff_bytes h) = 40%nat.
Proof. unfold noff_bytes. by rewrite length_ints_bytes. Qed.

Lemma noff_of_bytes h : noff_int32 h → noff_of (noff_bytes h) = h.
Proof.
  intros (Hm & (H1 & H2 & H3) & (H4 & H5 & H6) & (H7 & H8 & H9)). unfold noff_of, noff_bytes. cbv beta zeta.
  destruct h as [m [a1 a2 a3] [b1 b2 b3] [c1 c2 c3]]. cbn [app noffMagic code initData uninitData virtualAddr inFileAddr seg_size] in *.
  set (l := [m; a1; a2; a3; b1; b2; b3; c1; c2; c3]).
  assert (E : ∀ n x, l !! n = Some x → is_int32 x → bytes_int (take 4 (drop (4 * n) (ints_bytes l))) = x).
  { intros n x Hx Hi. rewrite (ints_bytes_lookup l n x Hx). by apply bytes_int_bytes. }
  by rewrite (E 0%nat m), (E 1%nat a1), (E 2%nat a2), (E 3%nat a3), (E 4%nat b1), (E 5%nat b2), (E 6%nat b3),
    (E 7%nat c1), (E 8%nat c2), (E 9%nat c3).
Qed.

Lemma Read_ok n fs :
  0 ≤ n → 0 ≤ offset (fdIn fs) → offset (fdIn fs) + n ≤ Z.of_nat (length (bytes (fdIn fs))) →
  Read n fs = Ok (slice (bytes (fdIn fs)) (Z.to_nat (offset (fdIn fs))) (Z.to_nat n),
                  mkFiles (mkFd (offset (fdIn fs) + n) (bytes (fdIn fs))) (fdOut fs)).
Proof.
  intros Hn Ho Hl. unfold Read. rewrite (proj2 (Z.ltb_ge _ 0)) by done. cbn [fd_read fst snd].
  change (take ?n (drop ?o ?l)) with (slice l o n).
  assert (Hs : Z.of_nat (length (slice (bytes (fdIn fs)) (Z.to_nat (offset (fdIn fs))) (Z.to_nat n))) = n)
    by (rewrite length_slice; lia).
  by rewrite Hs, Z.eqb_refl.
Qed.

Lemma sections_of_take n b : sections_of n (take (40 * n) b) = sections_of n b.
Proof.
  revert b. induction n as [|n IH]; intros b; [done|]. cbn [sections_of]. f_equal.
  - f_equal. rewrite take_take. f_equal. lia.
  - rewrite <- (IH (drop 40 b)). f_equal. rewrite take_drop_commute. do 2 f_equal. lia.
Qed.

Lemma swap_section_id s : swap_section (scnhdr_of s) = scnhdr_of s.
Proof.
  unfold swap_section, WordToHost, Words.WordToHost, host_big_endian, scnhdr_of. cbn [s_name s_paddr s_size s_scnptr].
  by rewrite !int32_uint32, !int32_id by apply int32_range.
Qed.

Lemma swap_sections_id n b : swap_section <$> sections_of n b = sections_of n b.
Proof.
  revert b. induction n as [|n IH]; intros b; [done|]. cbn [sections_of fmap list_fmap]. by rewrite swap_section_id, IH.
Qed.

Lemma sections_int32 n b : Forall (λ s, is_int32 (s_paddr s)) (sections_of n b).
Proof.
  revert b. induction n as [|n IH]; intros b; constructor; [apply int32_range|apply IH].
Qed.

Lemma loop_ok_start room b ss local :
  convertible b ss → 40 + total is_text ss + total is_data ss ≤ room < 2 ^ 31 → loop_ok room b ss (init_noffH local) [].
Proof.
  intros [] Hroom. pose proof (total_bss_nonneg ss cv_bss0).
  split; try done; cbn [length uninitData init_noffH seg_size]; lia.
Qed.

(** A segment of the header that is written. *)
Lemma segment_int32 (kind : scnhdr → bool) b ss body old seg :
  match filter kind ss with [] => seg = old | s :: _ => stored_at b body s seg end →
  seg_int32 old → Forall (λ s, kind s → stored_ok b s) ss → Forall (λ s, is_int32 (s_paddr s)) ss →
  40 + Z.of_nat (length body) < 2 ^ 31 → seg_int32 seg.
Proof.
  intros Hm Ho Hs Hp Hl. destruct (filter kind ss) as [|s l] eqn:E; [by subst seg|].
  assert (Hin : s ∈ filter kind ss) by (rewrite E; left).
  apply list_elem_of_filter in Hin as [Hk Hin]. rewrite Forall_forall in Hs, Hp.
  destruct (Hs s Hin Hk) as (Hsz & _ & _), Hm as [Ha Hz [Hp1 Hp2] _ _].
  split; [rewrite Ha; by apply Hp|]. rewrite Hz. unfold is_int32. lia.
Qed.

(** *** The headers, where the reads find them *)

Lemma file_header b ss : coff_file b ss → filehdr_of (slice b 0 20) = mkFilehdr MIPSELMAGIC (Z.of_nat (length ss)).
Proof.
  intros [_ Hm Hn _ _]. unfold filehdr_of, slice. change (drop 0 b) with b.
  rewrite take_drop_commute, !take_take. change (2 `min` 20)%nat with 2%nat.
  change ((2 + 2) `min` 20)%nat with (2 + 2)%nat. by rewrite <- take_drop_commute, Hm, Hn.
Qed.

Lemma system_header b ss : coff_file b ss → aouthdr_magic (slice b 20 56) = OMAGIC.
Proof. intros [_ _ _ Ho _]. unfold aouthdr_magic, slice. rewrite take_take. exact Ho. Qed.

Lemma section_headers b ss : coff_file b ss → sections_of (length ss) (slice b 76 (40 * length ss)) = ss.
Proof. intros [_ _ _ _ Hs]. unfold slice. by rewrite sections_of_take. Qed.

(** The headers read, the sections are converted. *)
Lemma convert_headers room b ss local :
  coff_file b ss →
  ∃ f, bytes f = b ∧ convert room local (mkFiles (mkFd 0 b) (mkFd 0 [])) =
    (let* r := convert_sections room ss (init_noffH local, sizeof_NoffHeader) in
     let* _ := lseek_out 0 in
     Write room (noff_bytes r.1)) (mkFiles f (mkFd sizeof_NoffHeader [])).
Proof.
  intros Hcf. pose proof (cf_length _ _ Hcf) as Hl. unfold convert.
  st_step (Read_ok sizeof_filehdr (mkFiles (mkFd 0 b) (mkFd 0 [])) ltac:(done) ltac:(done)
    ltac:(cbn; unfold sizeof_filehdr; lia)).
  cbn [fdIn fdOut offset bytes]. change (slice b _ _) with (slice b 0 20). rewrite (file_header b ss Hcf).
  cbn [f_magic f_nscns]. unfold ShortToHost, Words.ShortToHost, host_big_endian. rewrite Z.eqb_refl. cbn [negb].
  set (fs1 := mkFiles (mkFd (0 + sizeof_filehdr) b) (mkFd 0 [])).
  st_step (Read_ok sizeof_aouthdr fs1 ltac:(done) ltac:(done) ltac:(cbn; unfold sizeof_filehdr, sizeof_aouthdr; lia)).
  cbn [fdIn fdOut offset bytes fs1]. change (slice b _ _) with (slice b 20 56). rewrite (system_header b ss Hcf).
  change (negb (int16 (uint16 OMAGIC) =? OMAGIC)) with false. cbv beta iota.
  set (fs2 := mkFiles (mkFd (0 + sizeof_filehdr + sizeof_aouthdr) b) (mkFd 0 [])).
  st_step (Read_ok (Z.of_nat (length ss) * sizeof_scnhdr) fs2 ltac:(unfold sizeof_scnhdr; lia) ltac:(done)
    ltac:(cbn; unfold sizeof_filehdr, sizeof_aouthdr, sizeof_scnhdr; lia)).
  cbn [fdIn fdOut offset bytes fs2]. rewrite Nat2Z.id, swap_sections_id.
  replace (Z.to_nat (Z.of_nat (length ss) * sizeof_scnhdr)) with (40 * length ss)%nat by (unfold sizeof_scnhdr; lia).
  change (Z.to_nat (0 + sizeof_filehdr + sizeof_aouthdr)) with 76%nat. rewrite (section_headers b ss Hcf).
  eexists. split; [|reflexivity]. done.
Qed.

(** The program that is written: the header, the body and what they hold. *)
Lemma convert_ok room b ss local :
  coff_file b ss → convertible b ss → 40 + total is_text ss + total is_data ss ≤ room < 2 ^ 31 → noff_int32 local →
  ∃ h body fs, convert room local (mkFiles (mkFd 0 b) (mkFd 0 [])) = Ok (tt, fs) ∧
    bytes (fdOut fs) = noff_bytes h ++ body ∧ noff_int32 h ∧ converted b ss (init_noffH local) [] h body.
Proof.
  intros Hcf Hc Hroom (Lm & (L1 & L2 & L3) & (L4 & L5 & L6) & (L7 & L8 & L9)).
  destruct (convert_headers room b ss local Hcf) as (f & Hf & ->). set (fs3 := mkFiles f _).
  destruct (convert_sections_ok room b ss (init_noffH local) [] fs3 (loop_ok_start room b ss local Hc Hroom))
    as (h & body & fs4 & E & [Oo Ob Ol] & Hcv); [split; [reflexivity..|cbn; lia]|done|].
  st_step E. unfold st_bind, lseek_out. cbn [fst]. unfold Write. cbn [fdOut lseek offset Z.ltb Z.compare].
  rewrite length_noff_bytes. rewrite (proj2 (Z.leb_le _ room)).
  2: { pose proof (total_nonneg is_text b ss ltac:(eapply Forall_impl; [exact (cv_stored _ _ Hc)|naive_solver])).
       pose proof (total_nonneg is_data b ss ltac:(eapply Forall_impl; [exact (cv_stored _ _ Hc)|naive_solver])). lia. }
  exists h, body. eexists. split; [done|]. split; [|split; [|done] ].
  - cbn [fdOut fd_write bytes offset lseek]. change (Z.to_nat 0) with 0%nat. rewrite take_0. cbn [app].
    rewrite length_noff_bytes. change (0 + 40)%nat with 40%nat. by rewrite Ob.
  - destruct Hcv as [C1 (more & -> & Cm) C3 C4 C5 C6].
    assert (Hst : ∀ kind : scnhdr → bool, (∀ s, kind s → is_text s ∨ is_data s) → Forall (λ s, kind s → stored_ok b s) ss)
      by (intros kind Hk; eapply Forall_impl; [exact (cv_stored _ _ Hc)|naive_solver]).
    assert (Hp : Forall (λ s, is_int32 (s_paddr s)) ss) by (rewrite <- (cf_sections _ _ Hcf); apply sections_int32).
    assert (Hlen : 40 + Z.of_nat (length more) < 2 ^ 31) by lia. cbn [app] in *.
    split; [by rewrite C1|]. split; [|split].
    + eapply (segment_int32 is_text); [exact C3|by split|apply Hst; auto|done..].
    + eapply (segment_int32 is_data); [exact C4|by split|apply Hst; auto|done..].
    + apply C6. by split.
Qed.

(** ** Converted, then loaded *)

(** What a segment of the written header says of the sections of [kind]. *)
Definition describes (b body : list Z) (kind : scnhdr → bool) (ss : list scnhdr) (seg : Segment) : Prop :=
  match filter kind ss with [] => seg_size seg = 0 | s :: _ => stored_at b body s seg end.

Lemma describes_size b body (kind : scnhdr → bool) ss seg :
  describes b body kind ss seg → (length (filter kind ss) <= 1)%nat → seg_size seg = total kind ss.
Proof.
  unfold describes, total. destruct (filter kind ss) as [|s [|s' l] ]; cbn [length foldr]; [done| |lia].
  intros [_ -> _ _ _] _. lia.
Qed.

Lemma describes_segment_ok b body (kind : scnhdr → bool) ss seg pages :
  describes b body kind ss seg → 40 + Z.of_nat (length body) < 2 ^ 30 →
  Forall (λ s, kind s → 0 ≤ s_size s ∧ 0 ≤ s_paddr s ∧ s_paddr s + s_size s ≤ pages * PageSize) ss →
  segment_ok (40 + Z.of_nat (length body)) pages seg.
Proof.
  unfold describes. intros Hd Hl Hf. destruct (filter kind ss) as [|s l] eqn:E; [split; lia|].
  assert (Hin : s ∈ filter kind ss) by (rewrite E; left).
  apply list_elem_of_filter in Hin as [Hk Hin]. rewrite Forall_forall in Hf. destruct (Hf s Hin Hk) as (H0 & H1 & H2).
  destruct Hd as [Ha Hz Hp _ _]. split; lia.
Qed.

Lemma describes_image b hdr body (kind : scnhdr → bool) ss seg mem x :
  describes b body kind ss seg → length hdr = 40%nat →
  loaded (hdr ++ body) seg mem x = image b kind ss mem x.
Proof.
  unfold describes, image, loaded. intros Hd Hh. destruct (filter kind ss) as [|s l].
  { by rewrite decide_False by lia. }
  destruct Hd as [-> -> Hp Hb Hsrc]. case_decide as Hx; [|done].
  rewrite lookup_app_r by lia.
  replace (Z.to_nat (inFileAddr seg + (x - s_paddr s)) - length hdr)%nat
    with (Z.to_nat (inFileAddr seg - 40) + Z.to_nat (x - s_paddr s))%nat by lia.
  replace (Z.to_nat (s_scnptr s + (x - s_paddr s))) with (Z.to_nat (s_scnptr s) + Z.to_nat (x - s_paddr s))%nat by lia.
  rewrite <- !(lookup_slice _ _ (Z.to_nat (s_size s))) by lia. by rewrite Hb.
Qed.

Section Loaded.
Context {W : Type} `{SectorDevice W} (garbage page_garbage : nat → Z).
Implicit Types (w : W).

(** C17. From the linker to memory. A COFF object with at most one text and one data
    section, and uninitialised sections that follow each other, is converted whatever the
    order of its sections, and when the file written is put on the Nachos disk and loaded,
    the space has the pages the sections and the stacks need and every byte of memory is
    the byte of the object's section at that address, or what it was before. *)
Theorem coff2noff_loads argc room b ss local :
  2 ≤ argc → coff_file b ss → convertible b ss → noff_int32 local →
  40 + total is_text ss + total is_data ss ≤ room < 2 ^ 30 →
  Forall (λ s, is_text s ∨ is_data s → 0 ≤ s_paddr s ∧ s_paddr s + s_size s ≤ pages ss * PageSize) ss →
  pages ss ≤ NumPhysPages →
  ∃ noff, main argc (Some b) room local = Ok noff ∧
    Z.of_nat (length noff) = 40 + total is_text ss + total is_data ss ∧
    ∀ exe m w stack, hdr_wf exe → ready w → contents w exe = noff → tlb m = None →
    ∃ a m' w', new_AddrSpace garbage page_garbage exe stack (m, w) = Ok (a, (m', w')) ∧
      numPages a = pages ss ∧ same_disk w w' ∧ registers m' = registers m ∧
      ∀ x, mainMemory m' !! x = image b is_data ss (image b is_text ss (λ x, mainMemory m !! x)) x.
Proof.
  intros Hargc Hcf Hc Hlocal Hroom Hfit Hpages.
  destruct (convert_ok room b ss local Hcf Hc ltac:(lia) Hlocal) as (h & body & fs & E & Hout & Hint & Hcv).
  destruct Hcv as [C1 (more & -> & Cm) C3 C4 C5 C6]. cbn [app length] in *.
  exists (noff_bytes h ++ more). split.
  { unfold main. rewrite (proj2 (Z.ltb_ge argc 2)) by lia. rewrite E. cbn [res_bind snd]. by rewrite Hout. }
  split; [rewrite length_app, length_noff_bytes; lia|].
  intros exe m w stack Hh Hr Hexe Ht.
  assert (Dt : describes b more is_text ss (code h)).
  { unfold describes. destruct (filter is_text ss); [by rewrite C3|done]. }
  assert (Dd : describes b more is_data ss (initData h)).
  { unfold describes. destruct (filter is_data ss); [by rewrite C4|done]. }
  assert (Hlen : numBytes exe = 40 + Z.of_nat (length more)).
  { pose proof (length_contents w exe) as Hl. rewrite Hexe, length_app, length_noff_bytes in Hl.
    pose proof (hdr_len _ Hh). lia. }
  assert (Hn : noff_of (take 40 (contents w exe)) = h)
    by (rewrite Hexe, take_app_length' by (by rewrite length_noff_bytes); by apply noff_of_bytes).
  assert (Hst : ∀ kind : scnhdr → bool, (∀ s, kind s → is_text s ∨ is_data s) →
    Forall (λ s, kind s → 0 ≤ s_size s ∧ 0 ≤ s_paddr s ∧ s_paddr s + s_size s ≤ pages ss * PageSize) ss).
  { intros kind Hk. pose proof (cv_stored _ _ Hc) as Hs. rewrite Forall_forall in Hs, Hfit |- *. intros s Hin Hks.
    destruct (Hs s Hin (Hk s Hks)) as (? & _). split; [done|]. by apply Hfit, Hk. }
  assert (Hsp : space_pages h = pages ss).
  { unfold space_pages, pages. rewrite (describes_size _ _ _ _ _ Dt (cv_text _ _ Hc)), (describes_size _ _ _ _ _ Dd (cv_data _ _ Hc)).
    by rewrite C5. }
  assert (Hok : noff_ok (numBytes exe) h).
  { rewrite Hlen. split; [done| | |].
    - rewrite Hsp. eapply describes_segment_ok; [exact Dt|lia|apply Hst; auto].
    - rewrite Hsp. eapply describes_segment_ok; [exact Dd|lia|apply Hst; auto].
    - rewrite C5. pose proof (total_bss_nonneg ss (cv_bss _ _ Hc)). pose proof (cv_total _ _ Hc). cbn. lia. }
  pose proof (new_AddrSpace_sound garbage page_garbage exe stack m w h Hh Hr ltac:(unfold sizeof_NoffHeader; lia) Hn Hok Ht) as Hload.
  rewrite bool_decide_true in Hload by (by rewrite Hsp).
  destruct Hload as (a & m' & w' & El & _ & Hd & [Hpa _ Hregs Hmem _]).
  exists a, m', w'. split; [exact El|]. split; [by rewrite Hpa|]. split; [done|]. split; [done|].
  intros x. rewrite Hmem, Hexe. rewrite (describes_image b (noff_bytes h) more is_data ss) by (done || apply length_noff_bytes).
  unfold image at 1 2. destruct (filter is_data ss); [|case_decide; [done|] ];
    apply (describes_image b (noff_bytes h) more is_text ss); (done || apply length_noff_bytes).
Qed.
End Loaded.

(** ** An object of three sections, the data first *)

Definition small_section (name : list Z) (paddr size scnptr : Z) : list Z :=
  name ++ replicate (8 - length name) 0 ++ ints_bytes [paddr; paddr; size; scnptr; 0; 0; 0; 0].
Definition small_coff : list Z :=
  [98; 1; 3; 0] ++ replicate 16 0 ++ [7; 1] ++ replicate 54 0 ++
  small_section data_ 300 4 196 ++ small_section bss_ 304 100 0 ++ small_section text_ 128 156 200 ++
  [1; 2; 3; 4] ++ replicate 156 36.
Definition small_sections : list scnhdr :=
  Eval vm_compute in sections_of 3 (drop 76 small_coff).
Definition small_noff : list Z :=
  noff_bytes (mkNoff NOFFMAGIC (mkSegment 128 44 156) (mkSegment 300 40 4) (mkSegment 304 (-1) 100)) ++
  [1; 2; 3; 4] ++ replicate 156 36.
Definition small_disk : list (list Z) :=
  <[5%nat := drop 128 small_noff ++ replicate 56 0]> (<[7%nat := take 128 small_noff]> mem_blank).

Lemma coff2noff_loads_witness :
  main 3 (Some small_coff) 1000 (mkNoff 0 (mkSegment 1 1 1) (mkSegment 2 2 2) (mkSegment 3 3 3)) = Ok small_noff ∧
  ∃ a m' w', new_AddrSpace (λ _, 77) (λ _, 3) hdr200 [] (mkMachine ∅ (replicate 40 0) None None 0 false 0, small_disk)
      = Ok (a, (m', w')) ∧ numPages a = 35 ∧ mainMemory m' !! 302 = Some 3 ∧ mainMemory m' !! 128 = Some 36.
Proof.
  destruct (coff2noff_loads (λ _, 77) (λ _, 3) 3 1000 small_coff
    (sections_of 3 (drop 76 small_coff)) (mkNoff 0 (mkSegment 1 1 1) (mkSegment 2 2 2) (mkSegment 3 3 3)))
    as (noff & E & _ & Hload).
  - lia.
  - split; vm_compute; intuition discriminate.
  - change (sections_of 3 (drop 76 small_coff)) with small_sections. split.
    + repeat (apply Forall_cons; split); [right; right; left|right; right; right|right; left|]; done.
    + repeat (apply Forall_cons; split); [intros _..|]; [split; [|split]|intros|split; [|split]|]; vm_compute; try done; lia.
    + vm_compute. lia.
    + vm_compute. lia.
    + repeat (apply Forall_cons; split); [by intros []|intros _; cbn; lia|by intros []|done].
    + done.
    + by vm_compute.
  - split; [vm_compute; intuition discriminate|]. do 2 (split; [vm_compute; intuition discriminate|]).
    vm_compute; intuition discriminate.
  - vm_compute. intuition discriminate.
  - vm_compute. repeat constructor; intuition discriminate.
  - vm_compute. discriminate.
  - vm_compute in E. injection E as <-. split; [vm_compute; reflexivity|].
    destruct (Hload hdr200 (mkMachine ∅ (replicate 40 0) None None 0 false 0) small_disk [])
      as (a & m' & w' & El & Hp & _ & _ & Hm).
    + apply hdr200_wf.
    + split; [reflexivity|]. apply Forall_insert; [apply Forall_insert; [apply mem_blank_ready|reflexivity]|reflexivity].
    + vm_compute. reflexivity.
    + reflexivity.
    + exists a, m', w'. split; [exact El|]. split; [rewrite Hp; reflexivity|]. rewrite !Hm. split; vm_compute; reflexivity.
Defined.
End Coff.
