(* ===== verification/Flat.v ===== *)
(** * The flat files (bin/coff2flat.c)

    The converter from before NOFF: the sections of a COFF object one behind the other,
    and room for a stack, to be copied to the memory of the machine as they are. The
    headers it takes from the host are those of the format that bin/coff.h describes. *)
From S2P Require Import Prelude Words Interrupt Machine AddrSpace Sysdep Coff.

Module Flat.
Import Coff.

Definition StackSize : Z := 1024.

Section Program.
Context (room : Z).                   (** how long the host lets the output become *)

(** Read and Write are those of coff2noff.c. *)
Definition Read (n : Z) : ST Files (list Z) := Coff.Read n.
Definition Write (data : list Z) : ST Files unit := Coff.Write room data.

(** One turn of the loop, with [top]. *)
Definition load_section (s : scnhdr) (top : Z) : ST Files Z :=
  let top := if int32 (s_paddr s + s_size s) >? top then int32 (s_paddr s + s_size s) else top in
  if negb (name_is bss_ s) && negb (name_is sbss_ s) then
    let* _ := lseek_in (s_scnptr s) in
    let* buffer := Read (s_size s) in
    let* _ := Write buffer in
    st_ret top
  else st_ret top.

Fixpoint load_sections (l : list scnhdr) (top : Z) : ST Files Z :=
  match l with
  | [] => st_ret top
  | s :: l => let* top := load_section s top in load_sections l top
  end.

Definition convert : ST Files unit :=
  let* b := Read sizeof_filehdr in
  let fileh := filehdr_of b in
  if negb (f_magic fileh =? MIPSELMAGIC) then st_fail (Exited 1)
  else
    let* b := Read sizeof_aouthdr in
    if negb (aouthdr_magic b =? OMAGIC) then st_fail (Exited 1)
    else
      let numsections := f_nscns fileh in
      let* b := Read (numsections * sizeof_scnhdr) in
      let sections := sections_of (Z.to_nat numsections) b in
      let* top := load_sections sections 0 in
      let* _ := lseek_out (int32 (top + StackSize - 4)) in
      Write (int_bytes 0).
End Program.

(** main; the test after the [open] of the output looks at the input again, so an output
    that cannot be opened has no room. *)
Definition main (argc : Z) (input : option (list Z)) (room : Z) : res (list Z) :=
  if argc <? 2 then Fail (Exited 1)
  else match input with
       | None => Fail (Exited 1)
       | Some b =>
           let? r := convert room (mkFiles (mkFd 0 b) (mkFd 0 [])) in
           Ok (bytes (fdOut r.2))
       end.

(** ** The memory an object describes *)

Definition copied (s : scnhdr) : bool := negb (name_is bss_ s) && negb (name_is sbss_ s).
Definition top_of (ss : list scnhdr) : Z := foldl (λ top s, Z.max top (s_paddr s + s_size s)) 0 ss.

(** The sections with bytes are linked one behind the other from [pos] on. *)
Fixpoint packed (pos : Z) (ss : list scnhdr) : Prop :=
  match ss with
  | [] => True
  | s :: ss => if copied s then s_paddr s = pos ∧ packed (pos + s_size s) ss else packed pos ss
  end.

(** What is at the address [a]: the byte of the section that covers it, or zero. *)
Fixpoint byte_at (b : list Z) (ss : list scnhdr) (a : Z) : option Z :=
  match ss with
  | [] => Some 0
  | s :: ss =>
      if copied s && bool_decide (s_paddr s ≤ a < s_paddr s + s_size s)
      then b !! Z.to_nat (s_scnptr s + (a - s_paddr s)) else byte_at b ss a
  end.

(** The sections lie inside the file, and end below two gigabytes. *)
Definition section_ok (b : list Z) (s : scnhdr) : Prop :=
  (copied s → stored_ok b s) ∧ 0 ≤ s_paddr s ∧ 0 ≤ s_size s ∧ s_paddr s + s_size s < 2 ^ 30.

Definition body_of (b : list Z) (ss : list scnhdr) : list Z :=
  ss ≫= λ s, if copied s then slice b (Z.to_nat (s_scnptr s)) (Z.to_nat (s_size s)) else [].

(** ** Facts *)

Lemma top_mono ss t : t ≤ foldl (λ top s, Z.max top (s_paddr s + s_size s)) t ss.
Proof. revert t. induction ss as [|s ss IH]; intros t; [done|]. cbn [foldl]. etrans; [|apply IH]. lia. Qed.

Lemma fd_write_append f data :
  offset f = Z.of_nat (length (bytes f)) →
  bytes (fd_write data f) = bytes f ++ data ∧ offset (fd_write data f) = Z.of_nat (length (bytes f ++ data)).
Proof.
  intros Ho. unfold fd_write. cbn [bytes offset]. rewrite Ho, Nat2Z.id, length_app. split; [|lia].
  rewrite take_app_length, drop_ge, app_nil_r by lia. done.
Qed.

(** The sections in one piece, and where they end. *)
Lemma load_sections_ok room b ss : ∀ top fs,
  Forall (section_ok b) ss → bytes (fdIn fs) = b → offset (fdOut fs) = Z.of_nat (length (bytes (fdOut fs))) →
  Z.of_nat (length (bytes (fdOut fs) ++ body_of b ss)) ≤ room →
  ∃ f g, load_sections room ss top fs =
      Ok (foldl (λ top s, Z.max top (s_paddr s + s_size s)) top ss, mkFiles f g) ∧
    bytes g = bytes (fdOut fs) ++ body_of b ss.
Proof.
  induction ss as [|s ss IH]; intros top [fi fo] Hss Hb Ho Hr; cbn [fdIn fdOut] in *.
  { exists fi, fo. by rewrite app_nil_r. }
  apply Forall_cons in Hss as [(Hs & Hp & Hz & Ht) Hss]. cbn [load_sections foldl]. unfold load_section.
  rewrite int32_id by (unfold is_int32; lia).
  replace (if s_paddr s + s_size s >? top then s_paddr s + s_size s else top) with (Z.max top (s_paddr s + s_size s)).
  2: { rewrite Z.gtb_ltb. destruct (Z.ltb_spec top (s_paddr s + s_size s)); lia. }
  change (negb (name_is bss_ s) && negb (name_is sbss_ s)) with (copied s).
  cbn [body_of mbind list_bind] in *. fold (body_of b ss) in *. destruct (copied s) eqn:Ec.
  - specialize (Hs I). destruct Hs as (_ & Hq & Hl).
    set (data := slice b (Z.to_nat (s_scnptr s)) (Z.to_nat (s_size s))) in *.
    assert (Hd : length data = Z.to_nat (s_size s)) by (unfold data; rewrite length_slice; lia).
    rewrite !length_app in Hr.
    destruct (copy_section_run room s (mkFiles fi fo)) as (f & E & Hf); cbn [fdIn fdOut]; [by rewrite Hb|lia|].
    cbn [fdIn fdOut] in E. rewrite Hb in E. fold data in E.
    destruct (fd_write_append fo data Ho) as [W1 W2].
    assert (E' : (let* _ := lseek_in (s_scnptr s) in let* buffer := Read (s_size s) in let* _ := Write room buffer in
                  st_ret (Z.max top (s_paddr s + s_size s))) (mkFiles fi fo) =
                 Ok (Z.max top (s_paddr s + s_size s), mkFiles f (fd_write data fo))).
    { unfold copy_section in E. unfold st_bind in *. cbn [lseek_in] in *. unfold Read, Write.
      destruct (Coff.Read (s_size s) _) as [ [buf fs1] | ]; [|discriminate E]. by rewrite E. }
    st_step E'. destruct (IH (Z.max top (s_paddr s + s_size s)) (mkFiles f (fd_write data fo))) as (f' & g & E2 & Hg).
    + done.
    + cbn [fdIn]. by rewrite Hf.
    + cbn [fdOut]. by rewrite W2, W1.
    + cbn [fdOut]. rewrite W1, !length_app. lia.
    + exists f', g. split; [exact E2|]. rewrite Hg. cbn [fdOut]. by rewrite W1, <- app_assoc.
  - unfold st_bind at 1. cbn [st_ret]. apply IH; done.
Qed.

Lemma length_body b s ss :
  section_ok b s → length (body_of b (s :: ss)) = ((if copied s then Z.to_nat (s_size s) else 0) + length (body_of b ss))%nat.
Proof.
  intros (Hs & _ & _ & _). unfold body_of. cbn [mbind list_bind]. rewrite length_app. f_equal.
  destruct (copied s); [|done]. destruct (Hs I) as (H1 & H2 & H3). rewrite length_slice; lia.
Qed.

Lemma packed_top b ss : ∀ pos t,
  Forall (section_ok b) ss → packed pos ss → pos ≤ t →
  pos + Z.of_nat (length (body_of b ss)) ≤ foldl (λ top s, Z.max top (s_paddr s + s_size s)) t ss.
Proof.
  induction ss as [|s ss IH]; intros pos t Hss Hp Ht; [cbn; lia|].
  apply Forall_cons in Hss as [Hs Hss]. rewrite length_body by done. cbn [packed foldl] in *.
  destruct Hs as (_ & _ & Hz & _). destruct (copied s).
  - destruct Hp as [Hp1 Hp]. etrans; [|apply (IH (pos + s_size s)); [done..|lia] ]. lia.
  - apply (IH pos); [done..|lia].
Qed.

(** The piece, read by address. *)
Lemma body_image b ss : ∀ pos a,
  Forall (section_ok b) ss → packed pos ss → pos ≤ a →
  byte_at b ss a =
    if decide (a < pos + Z.of_nat (length (body_of b ss))) then body_of b ss !! Z.to_nat (a - pos) else Some 0.
Proof.
  induction ss as [|s ss IH]; intros pos a Hss Hp Ha.
  { rewrite decide_False by (cbn; lia). done. }
  apply Forall_cons in Hss as [Hs Hss]. rewrite length_body by done. cbn [packed byte_at] in *.
  assert (Eb : body_of b (s :: ss) =
    (if copied s then slice b (Z.to_nat (s_scnptr s)) (Z.to_nat (s_size s)) else []) ++ body_of b ss) by done.
  rewrite Eb. destruct Hs as (Hst & _ & Hz & _). destruct (copied s); cbn [andb app].
  2: { rewrite (IH pos) by done. done. }
  destruct Hp as [Hp1 Hp]. destruct (Hst I) as (_ & Hq & Hl).
  assert (Hd : length (slice b (Z.to_nat (s_scnptr s)) (Z.to_nat (s_size s))) = Z.to_nat (s_size s))
    by (rewrite length_slice; lia).
  case_bool_decide as Hin.
  - rewrite decide_True by lia. rewrite lookup_app_l by lia. rewrite lookup_slice by lia. f_equal. lia.
  - rewrite (IH (pos + s_size s)) by (done || lia). rewrite lookup_app_r by lia. rewrite Hd.
    replace (Z.to_nat (a - pos) - Z.to_nat (s_size s))%nat with (Z.to_nat (a - (pos + s_size s))) by lia.
    destruct (decide (a < pos + s_size s + Z.of_nat (length (body_of b ss)))).
    + by rewrite decide_True by lia.
    + by rewrite decide_False by lia.
Qed.

(** The headers read, the sections are copied. *)
Lemma flat_headers room b ss :
  coff_file b ss →
  ∃ f, bytes f = b ∧ convert room (mkFiles (mkFd 0 b) (mkFd 0 [])) =
    (let* top := load_sections room ss 0 in
     let* _ := lseek_out (int32 (top + StackSize - 4)) in
     Write room (int_bytes 0)) (mkFiles f (mkFd 0 [])).
Proof.
  intros Hcf. pose proof (cf_length _ _ Hcf) as Hl. unfold convert, Read.
  st_step (Read_ok sizeof_filehdr (mkFiles (mkFd 0 b) (mkFd 0 [])) ltac:(done) ltac:(done)
    ltac:(cbn; unfold sizeof_filehdr; lia)).
  cbn [fdIn fdOut offset bytes]. change (slice b _ _) with (slice b 0 20). rewrite (file_header b ss Hcf).
  cbn [f_magic f_nscns]. rewrite Z.eqb_refl. cbn [negb].
  set (fs1 := mkFiles (mkFd (0 + sizeof_filehdr) b) (mkFd 0 [])).
  st_step (Read_ok sizeof_aouthdr fs1 ltac:(done) ltac:(done) ltac:(cbn; unfold sizeof_filehdr, sizeof_aouthdr; lia)).
  cbn [fdIn fdOut offset bytes fs1]. change (slice b _ _) with (slice b 20 56). rewrite (system_header b ss Hcf).
  rewrite Z.eqb_refl. cbn [negb].
  set (fs2 := mkFiles (mkFd (0 + sizeof_filehdr + sizeof_aouthdr) b) (mkFd 0 [])).
  st_step (Read_ok (Z.of_nat (length ss) * sizeof_scnhdr) fs2 ltac:(unfold sizeof_scnhdr; lia) ltac:(done)
    ltac:(cbn; unfold sizeof_filehdr, sizeof_aouthdr, sizeof_scnhdr; lia)).
  cbn [fdIn fdOut offset bytes fs2]. rewrite Nat2Z.id.
  replace (Z.to_nat (Z.of_nat (length ss) * sizeof_scnhdr)) with (40 * length ss)%nat by (unfold sizeof_scnhdr; lia).
  change (Z.to_nat (0 + sizeof_filehdr + sizeof_aouthdr)) with 76%nat. rewrite (section_headers b ss Hcf).
  eexists. split; [|reflexivity]. done.
Qed.

(** C38. A flat file is the memory of the program. For an object whose sections with bytes
    are linked one behind the other from address 0, the converter writes a file that holds
    at every address what the object says - the byte of the section there, zero where
    there is none - with 1024 bytes for the stack above the highest section. (Sections that
    are linked with gaps are not put at their addresses: the program never moves the
    output to [s_paddr].) *)
Theorem coff2flat_image argc b ss room :
  2 ≤ argc → coff_file b ss → Forall (section_ok b) ss → packed 0 ss → top_of ss + StackSize ≤ room →
  top_of ss + StackSize < 2 ^ 31 →
  ∃ file, main argc (Some b) room = Ok file ∧ Z.of_nat (length file) = top_of ss + StackSize ∧
    ∀ a, 0 ≤ a < top_of ss + StackSize → file !! Z.to_nat a = byte_at b ss a.
Proof.
  intros Hargc Hcf Hss Hp Hroom Hmax. unfold main. rewrite (proj2 (Z.ltb_ge _ _)) by done.
  destruct (flat_headers room b ss Hcf) as (f & Hf & ->).
  pose proof (packed_top b ss 0 0 Hss Hp ltac:(done)) as Ht. pose proof (top_mono ss 0) as H0. fold (top_of ss) in Ht, H0.
  unfold StackSize in *. set (body := body_of b ss) in *.
  destruct (load_sections_ok room b ss 0 (mkFiles f (mkFd 0 [])) Hss Hf eq_refl) as (f' & g & E & Hg).
  { cbn [fdOut bytes app]. fold body. lia. }
  st_step E. fold (top_of ss). unfold st_bind, lseek_out, lseek, Write, Coff.Write, StackSize.
  cbn [fdIn fdOut bytes app] in *. fold body in Hg.
  rewrite int32_id by (unfold is_int32; lia). rewrite (proj2 (Z.ltb_ge _ _)) by lia. cbn [offset].
  change (length (int_bytes 0)) with 4%nat. rewrite (proj2 (Z.leb_le _ _)) by lia.
  cbn [res_bind snd fdOut fd_write offset bytes]. rewrite Hg.
  set (off := Z.to_nat (top_of ss + 1024 - 4)). change (length (int_bytes 0)) with 4%nat.
  change (int_bytes 0) with (replicate 4 0). rewrite (drop_ge body) by lia. rewrite app_nil_r.
  assert (Hl : length (take off (body ++ replicate off 0)) = off)
    by (rewrite length_take, length_app, length_replicate; lia).
  eexists. split; [reflexivity|]. split; [rewrite length_app, Hl; cbn; lia|]. intros a Ha.
  rewrite (body_image b ss 0 a Hss Hp) by lia. fold body. rewrite Z.sub_0_r.
  destruct (decide (a < 0 + Z.of_nat (length body))) as [Hin|Hin].
  - rewrite lookup_app_l by lia. rewrite lookup_take_lt by lia. by rewrite lookup_app_l by lia.
  - destruct (decide (Z.to_nat a < off)%nat).
    + rewrite lookup_app_l by lia. rewrite lookup_take_lt, lookup_app_r by lia. apply lookup_replicate_2. lia.
    + rewrite lookup_app_r by lia. rewrite Hl. apply lookup_replicate_2. lia.
Qed.

(** ** An object linked at 0: text, data and memory without bytes *)

Definition packed_coff : list Z :=
  [98; 1; 3; 0] ++ replicate 16 0 ++ [7; 1] ++ replicate 54 0 ++
  small_section text_ 0 8 196 ++ small_section data_ 8 4 204 ++ small_section bss_ 12 100 0 ++
  [36; 37; 38; 39; 40; 41; 42; 43] ++ [1; 2; 3; 4].

Definition packed_sections : list scnhdr := Eval vm_compute in sections_of 3 (drop 76 packed_coff).

Lemma coff2flat_image_witness :
  ∃ file, main 3 (Some packed_coff) 2000 = Ok file ∧ Z.of_nat (length file) = 1136 ∧
    file !! 7%nat = Some 43 ∧ file !! 10%nat = Some 3 ∧ file !! 600%nat = Some 0.
Proof.
  destruct (coff2flat_image 3 packed_coff (sections_of 3 (drop 76 packed_coff)) 2000) as (file & E & Hl & Hb).
  - lia.
  - split; vm_compute; intuition discriminate.
  - change (sections_of 3 (drop 76 packed_coff)) with packed_sections.
    repeat (apply Forall_cons; split); [..|by apply Forall_nil]; vm_compute; intuition discriminate.
  - by vm_compute.
  - vm_compute. discriminate.
  - by vm_compute.
  - exists file. split; [exact E|]. split; [rewrite Hl; by vm_compute|].
    split; [|split]; (etransitivity; [first [apply (Hb 7)|apply (Hb 10)|apply (Hb 600)]|]);
      vm_compute; intuition discriminate.
Defined.
End Flat.
