(* ===== verification/KernelSteps.v ===== *)
(** * The machine of Threads.v from step to step

    [kernel_step]: the current thread runs on in the call it is in, or, in code of its
    own, makes a request its contract [req_ok] allows. The invariant of Kernel.v holds
    along the way, so no assertion of the kernel fails; the ready list is served in
    order; user programs find their registers and page tables as they left them. *)
From S2P Require Import Prelude Words LinkedList Interrupt Machine MipsSim Threads SchedInv Kernel.

Section Steps.
Context {H D O : Type} {dv : Devices H D O} {DI : D → Prop} {irq : semid → Prop}.
Context {dlaws : DeviceLaws dv DI irq}.
Abbreviation world := (World H (KState D)).
Implicit Types (w : world) (k : KState D).

(** What a step does to the user contexts of the threads it leaves alive, and to the
    ready list. *)
Record user_step k k' : Prop := {
  us_kept t th : t ≠ currentThread k → threads k !! t = Some th → threadToBeDestroyed k ≠ Some t →
    user_side <$> (threads k' !! t) = Some (user_side th);
  us_saves th : switched (cur_frames k') = true → threads k !! currentThread k = Some th →
    is_Some (space th) → ∃ th', threads k' !! currentThread k = Some th' ∧ is_Some (space th') ∧
      userRegisters th' = registers (machine k');
  us_ready :
    (switched (cur_frames k') = false ∧ currentThread k' = currentThread k ∧
       ∃ l, readyList k' = readyList k ++ l) ∨
    (switched (cur_frames k') = true ∧ ∃ l, readyList k ++ l = currentThread k' :: readyList k');
}.

Lemma stepk_user k k' : stepk k k' → user_step k k'.
Proof. intros [Hk Hs Hr]. split; [|done|done]. intros t th Hne E _. by apply Hk. Qed.

Abbreviation kI := (Kernel.kI (DI := DI) (irq := irq)).
Abbreviation rinv := (Kernel.rinv (DI := DI) (irq := irq)).
Abbreviation winv := (Kernel.winv (DI := DI) (irq := irq)).

(** Thread::Sleep with another thread ready. *)
Lemma sleep_run_ok w th b n l :
  winv w → threads (rest w) !! currentThread (rest w) = Some th → frames th = FSleep :: b →
  halted (rest w) = false → readyList (rest w) = n :: l →
  ∃ w', resume w = Ok (tt, w') ∧ winv w' ∧ stepk (rest w) (rest w').
Proof.
  intros [Hr Hl] E Hf Hh Hl1. pose proof (ri_k _ Hr) as [Hk Hm Hd Hq].
  pose proof (cur_frames_eq _ _ E) as Ec. rewrite Hf in Ec.
  unfold resume, level_ok in *. rewrite Ec in *. unfold FindNextToRun. rewrite Hh, Hl1.
  set (k := rest w) in *. set (k1 := pop (set_ready l k)).
  assert (E1 : threads k1 !! currentThread k = Some (mkThread (t_status th) b (space th) (userRegisters th))).
  { unfold k1, pop, upd_thread. simpl. rewrite lookup_alter_eq, E. simpl. by rewrite Hf. }
  assert (Hm1 : minv k1).
  { apply minv_upd; [done|by apply minv_ready|]. change (cur_frames (set_ready l k)) with (cur_frames k). by rewrite Ec. }
  destruct (Run_ok (DI := DI) (irq := irq) (set_rest k1 w) n)
    as (w' & ER & Hw & Hkp & Hcw & Hsw & _ & _ & Em & _ & Hrd & Hsave); try done; try apply Hr.
  { exact (leave_sleep_kinv k th b n l Hk E Hf Hl1). }
  { by destruct (ri_time _ Hr). }
  exists w'. split; [exact ER|]. split; [done|]. split.
  - apply (kept_trans k k1); [|done|done]. intros t th0 Ht E0. unfold k1, pop, upd_thread. simpl.
    by rewrite lookup_alter_ne, E0.
  - intros th0 _ E0 [sp Hsp]. destruct (Hsave _ E1) as (th' & E' & Es & Er).
    exists th'. cbn [space] in *. assert (th0 = th) as -> by congruence. rewrite Hsp in *.
    split; [done|]. split; [rewrite Es; eauto|]. rewrite Er. by rewrite Em.
  - right. split; [done|]. exists []. rewrite Hcw, Hrd, app_nil_r. exact Hl1.
Qed.

(** ... and without. *)
Lemma sleep_idle w b :
  cur_frames (rest w) = FSleep :: b → halted (rest w) = true ∨ readyList (rest w) = [] →
  resume w = Idle w.
Proof. intros Hf Hn. unfold resume, FindNextToRun. rewrite Hf. destruct Hn as [->|Hl]; [done|]. rewrite Hl. by destruct (halted _). Qed.

Lemma resume_sleep_ok w th b :
  winv w → threads (rest w) !! currentThread (rest w) = Some th → frames th = FSleep :: b →
  resume w = Fail (Exited 0) ∨
  ∃ w', resume w = Ok (tt, w') ∧ winv w' ∧ stepk (rest w) (rest w').
Proof.
  intros Hw E Hf. pose proof Hw as [Hr Hl].
  pose proof (cur_frames_eq _ _ E) as Ec. rewrite Hf in Ec. unfold level_ok in Hl. rewrite Ec in Hl.
  assert (Hcase : (halted (rest w) = true ∨ readyList (rest w) = []) ∨
    ∃ n l, halted (rest w) = false ∧ readyList (rest w) = n :: l).
  { destruct (halted (rest w)); [by left; left|]. destruct (readyList (rest w)); [by left; right|right; eauto]. }
  destruct Hcase as [Hn|(n & l & Hh & Hl1)]; [|right; by apply (sleep_run_ok w th b n l)].
  rewrite (sleep_idle w b Ec Hn).
  destruct (Idle_rinv w Hr Hl) as [?|(w' & -> & Hr' & Hn' & Hl')]; [by left|right].
  pose proof (nudged_frames _ _ Hn') as Hfr. rewrite Ec in Hfr.
  exists w'. split; [done|]. split; [by split; [|unfold level_ok; rewrite Hfr]|].
  apply stepk_stay; [by apply nudged_stays|by rewrite Hfr].
Qed.

(** The end of a switch, then a step without one or [SetLevel]. *)
Lemma arrived_user k k1 th :
  (∀ t th0, t ≠ currentThread k → threads k !! t = Some th0 → threadToBeDestroyed k ≠ Some t →
     threads k1 !! t = Some th0) →
  currentThread k1 = currentThread k → readyList k1 = readyList k →
  threads k !! currentThread k = Some th →
  (∃ th1, threads k1 !! currentThread k = Some th1 ∧ space th1 = space th) →
  ∀ k', stepk k1 k' → user_step k k'.
Proof.
  intros Ho Hc Hr E (th1 & E1 & Es1) k' [Hk Hs Hrd]. split.
  - intros t th0 Hne E0 Hd. apply Hk; [by rewrite Hc|by apply Ho].
  - intros th0 Hsw E0 Hsome. assert (th0 = th) as -> by congruence. rewrite Hc in Hs.
    apply (Hs th1 Hsw E1). by rewrite Es1.
  - by rewrite <- Hc, <- Hr.
Qed.

(** A return to the code under a call. *)
Lemma pop_ok w f b :
  rinv w → cur_frames (rest w) = f :: b → base (f :: b) = true → ticks b = true →
  kI (pop (rest w)) ∧ cur_frames (pop (rest w)) = b ∧ stays (rest w) (pop (rest w)).
Proof.
  intros Hr Hf Hb Ht. destruct (kI_current _ (ri_k _ Hr)) as (th & E & Ec).
  rewrite pop_eq, Hf. cbn [tail]. split; [|split; [apply cur_frames_set; eauto|apply set_frames_stays] ].
  destruct (base_inner b (ticks_base _ Ht)) as (_ & _ & Ha & Hp & Hok).
  apply kI_set_frames; [apply Hr|by rewrite Hf|done|done|]. by rewrite Hp.
Qed.

Lemma resume_awake_ok w :
  winv w → cur_frames (rest w) ≠ [] → asleep (cur_frames (rest w)) = false →
  ∃ w', resume w = Ok (tt, w') ∧ winv w' ∧ user_step (rest w) (rest w').
Proof.
  intros Hw Hne Has. pose proof Hw as [Hr Hl]. pose proof (ri_k _ Hr) as [Hk Hm Hd Hq].
  destruct (kI_current _ (ri_k _ Hr)) as (th & E & Ec).
  pose proof (ki_frames _ _ Hk _ th E) as Hfo. rewrite <- Ec in Hfo.
  unfold level_ok in Hl. destruct (cur_frames (rest w)) as [|f b] eqn:Hf; [done|]. destruct f; [done|..].
  - unfold resume. rewrite Hf.
    destruct (arrive_ok (rest w) (ri_k _ Hr)) as (k' & th0 & -> & HI & E0 & Hc & Hfr & Hns & Ho & Hrd & Hsp & _);
      [by rewrite Hf|]. cbn [res_bind]. eexists. split; [reflexivity|]. cbn [set_rest rest].
    rewrite Hf in Hfr. cbn [inner] in Hfr. split; [split; [by apply rinv_rest|]|].
    + unfold level_ok. cbn [set_rest rest]. rewrite Hfr. destruct b as [|[] b]; try done; by rewrite Hl.
    + apply (arrived_user _ k' th0); try done. apply stepk_stay; [by apply stays_same|done].
  - unfold resume. rewrite Hf.
    destruct (arrive_ok (rest w) (ri_k _ Hr)) as (k' & th0 & -> & HI & E0 & Hc & Hfr & Hns & Ho & Hrd & Hsp & _);
      [by rewrite Hf|]. cbn [res_bind]. rewrite Hf in Hfr. cbn [inner] in Hfr.
    destruct (SetLevel_ok (DI := DI) (irq := irq) (set_rest k' w) IntOn) as (w' & ES & Hw' & Hst).
    { by apply rinv_rest. }
    { cbn [set_rest rest]. rewrite Hfr. exact Hfo. }
    exists w'. split; [done|]. split; [done|]. by apply (arrived_user _ k' th0).
  - unfold resume. rewrite Hf. destruct (P_turn_ok w s oldLevel b Hr Hl Hf) as (w' & ? & ? & ?).
    exists w'. auto using stepk_user.
  - unfold resume. rewrite Hf.
    destruct (pop_ok w (FYield oldLevel) b Hr Hf Hfo Hfo) as (HI & Hc & Hst).
    destruct (SetLevel_ok (DI := DI) (irq := irq) (set_rest (pop (rest w)) w) oldLevel) as (w' & ES & Hw' & Hst').
    { by apply rinv_rest. }
    { cbn [set_rest rest]. by rewrite Hc. }
    exists w'. split; [done|]. split; [done|]. apply stepk_user. by apply (stepk_pre _ (pop (rest w))).
  - unfold resume. rewrite Hf. assert (Ht : tick_frame (FTick old) && ticks b = true) by exact Hfo.
    apply andb_true_iff in Ht as [Hold Ht].
    destruct (pop_ok w (FTick old) b Hr Hf Hfo Ht) as (HI & Hc & Hst).
    eexists. split; [reflexivity|]. split; [split|].
    + destruct (rinv_rest w (pop (rest w)) Hr HI) as [? [] ? ? ?]. split; try done.
      cbn. intros ->. by simpl in Hold.
    + unfold level_ok. cbn. rewrite Hc. clear - Ht. by destruct b as [|[] b].
    + apply stepk_user, stepk_stay; [done|]. cbn. rewrite Hc. clear - Ht. by destruct b as [|[] b].
Qed.

Lemma resume_ok w :
  winv w → cur_frames (rest w) ≠ [] →
  resume w = Fail (Exited 0) ∨
  ∃ w', resume w = Ok (tt, w') ∧ winv w' ∧ user_step (rest w) (rest w').
Proof.
  intros Hw Hne. destruct (asleep (cur_frames (rest w))) eqn:Has.
  - destruct (kI_current _ (ri_k _ (proj1 Hw))) as (th & E & Ec).
    destruct (frames th) as [|[] b] eqn:Hf; rewrite Ec in Has; try done.
    destruct (resume_sleep_ok w th b Hw E Hf) as [?|(w' & ? & ? & ?)]; [by left|right].
    exists w'. auto using stepk_user.
  - right. by apply resume_awake_ok.
Qed.

(** ** Requests *)

(** What code of the kernel may do to the machine. *)
Record machine_kept (m m' : Machine) : Prop := {
  mk_regs : regs_ok (registers m');
  mk_mem : map_Forall (λ _ b, is_byte b) (mainMemory m');
  mk_tlb : tlb m' = None;
  mk_size : pageTableSize m' = pageTableSize m;
  mk_table : match pageTable m with
             | None => pageTable m' = None
             | Some t => ∃ t', pageTable m' = Some t' ∧ length t' = length t ∧ Forall entry_ok t'
             end;
}.

(** The contracts of the requests, for a thread in code of its own. *)
Definition req_ok w (r : request (O := O)) : Prop :=
  let k := rest w in
  match r with
  | RP s | RV s => is_Some (sems k !! s)
  | RYield | RFinish | RHalt | RSetLevel _ | RUserMode | RReturn => True
  | RNew t g => threads k !! t = None ∧ length g = Z.to_nat NumTotalRegs ∧ Forall is_int32 g
  | RStart t => ∃ th, threads k !! t = Some th ∧ t_status th = JUST_CREATED
  | RSemaphore s v => sems k !! s = None ∧ 0 ≤ v
  | RDev o => ∃ r, dev_op o (now w) (dev k) = Ok r
  | RUser => is_Some (pt_owner k) ∧ OneInstruction (machine k) ≠ Fail ArithFault
  | RSpace sp a => spaces k !! sp = None ∧ space_ok a
  | REnter sp => is_Some (spaces k !! sp)
  | RMachine op => ∃ m, op (machine k) = Ok (tt, m) ∧ machine_kept (machine k) m
  end.

Lemma put_machine_ok k m :
  kI k → machine_kept (machine k) m →
  kI (put_machine m k) ∧ stays k (put_machine m k) ∧ cur_frames (put_machine m k) = cur_frames k.
Proof.
  intros [Hk Hm Hd Hq] []. unfold put_machine. cbn [set_machine pt_owner].
  set (k1 := set_machine (pt_owner k) m k).
  assert (Hspaces : ∀ f : AddrSpace → AddrSpace, ∀ sp,
    alike k (set_spaces (alter f sp (spaces k1)) k1)) by by split.
  pose proof Hm as []. destruct (pt_owner k) as [sp|] eqn:Ho.
  - destruct mi_owner as (a & Ea & Ept & Esz). rewrite Ept in mk_table0.
    destruct mk_table0 as (t & Et & Hlen & Hent). rewrite Et. split; [|split; [by apply stays_same|done] ].
    split; try done; [by apply (alike_kinv _ k)|].
    split; simpl; try done.
    + intros sp' a'. destruct (decide (sp' = sp)) as [->|Hne].
      * rewrite lookup_alter_eq, Ea. intros [= <-]. destruct (mi_spaces sp a Ea). split; [|done].
        simpl. by rewrite Hlen.
      * rewrite lookup_alter_ne by done. apply mi_spaces.
    + rewrite lookup_alter_eq, Ea. eexists. split; [reflexivity|]. simpl. split; [done|congruence].
    + intros t' th sp' E' Es. specialize (mi_space t' th sp' E' Es) as [a' Ea'].
      apply lookup_alter_is_Some. eauto.
  - rewrite mi_owner in mk_table0. split; [|split; [by apply stays_same|done] ].
    split; try done. by apply (alike_kinv _ k).
Qed.

Lemma minv_table k : minv k →
  match pageTable (machine k) with None => True | Some t => Forall entry_ok t end.
Proof.
  intros []. destruct (pt_owner k) as [sp|]; [|by rewrite mi_owner].
  destruct mi_owner as (a & Ea & -> & _). apply (mi_spaces sp a Ea).
Qed.

(** Kernel code writes a register other than that of the delayed load. *)
Lemma WriteRegister_kept k n v :
  minv k → 0 ≤ n < NumTotalRegs → n ≠ LoadReg → is_int32 v →
  ∃ r, WriteRegister n v (machine k) = Ok (tt, set_registers r (machine k)) ∧
    machine_kept (machine k) (set_registers r (machine k)) ∧ r = <[Z.to_nat n := v]> (registers (machine k)).
Proof.
  intros Hm Hn Hl Hv. unfold WriteRegister.
  rewrite (proj2 (andb_true_iff _ _)) by (change NumTotalRegs with 40 in *; lia). cbn [ASSERT res_bind].
  destruct (regs_set (machine k) n v (mi_regs _ Hm) Hn Hv) as (r & E & Hr); [done|].
  exists r. split; [done|]. pose proof (minv_table k Hm) as Ht. split.
  - split; try apply Hm; try done. cbn [pageTable set_registers]. destruct (pageTable (machine k)); [eauto|done].
  - unfold set_reg in E. apply res_bind_Ok_inv in E as (r' & Er & E). injection E as ->.
    unfold arr_set in Er. case_decide; [by injection Er|done].
Qed.

(** A request that leaves the thread in code of its own. *)
Lemma quiet_ok w w' :
  rinv w' → cur_frames (rest w') = [] → stays (rest w) (rest w') →
  winv w' ∧ stepk (rest w) (rest w').
Proof.
  intros Hr Hf Hs. split; [split; [done|]; unfold level_ok; by rewrite Hf|].
  apply stepk_stay; [done|by rewrite Hf].
Qed.

Lemma quiet_rest w k' :
  winv w → kI k' → cur_frames k' = [] → stays (rest w) k' →
  winv (set_rest k' w) ∧ stepk (rest w) (rest (set_rest k' w)).
Proof. intros [Hr _] HI Hf Hs. apply quiet_ok; [by apply rinv_rest|done|done]. Qed.

Lemma new_registers_ok g :
  length g = Z.to_nat NumTotalRegs → Forall is_int32 g → regs_ok (new_registers g).
Proof.
  intros Hl Hi. unfold new_registers. split; [by rewrite !length_insert|]. split.
  - repeat apply Forall_insert; done.
  - exists 0. split; [|done]. apply list_lookup_insert_eq. rewrite length_insert, Hl. vm_compute. lia.
Qed.

Lemma new_Thread_ok w t g :
  winv w → cur_frames (rest w) = [] → req_ok w (RNew t g) →
  ∃ w', new_Thread t g w = Ok (tt, w') ∧ winv w' ∧ stepk (rest w) (rest w').
Proof.
  intros Hw Hf (Ht & Hl & Hi). pose proof Hw as [Hr _]. pose proof (ri_k _ Hr) as [Hk Hm Hd Hq].
  destruct (kI_current _ (ri_k _ Hr)) as (th & E & _).
  unfold new_Thread, get_thread. rewrite E. cbn [res_bind]. set (k := rest w) in *.
  assert (Hne : currentThread k ≠ t) by congruence.
  eexists. split; [reflexivity|]. apply quiet_rest; [done| | |].
  - split; try done; [by apply new_thread_kinv|]. destruct Hm. split; simpl; try done.
    + intros t' th' E'. upd_cases t' t; [|by apply (mi_users t')]. injection E' as <-.
      by apply new_registers_ok.
    + intros t' th' sp E'. upd_cases t' t; [|by apply (mi_space t')]. injection E' as <-. exact (mi_space _ _ sp E).
    + intros th' sp _ E'. rewrite lookup_insert_ne in E' by done. by apply (mi_current th'); [rewrite Hf|].
  - unfold cur_frames in *. simpl. by rewrite lookup_insert_ne.
  - split; [|done| |apply ready_same].
    + intros t' th' Hc E'. fold k in E'. simpl. upd_cases t' t; [congruence|by rewrite E'].
    + intros th' E'. fold k in E', Hne |- *. exists th'. simpl. by rewrite lookup_insert_ne.
Qed.

Lemma Start_ok w t :
  winv w → cur_frames (rest w) = [] → req_ok w (RStart t) →
  ∃ w', Start t w = Ok (tt, w') ∧ winv w' ∧ stepk (rest w) (rest w').
Proof.
  intros Hw Hf (th & Et & Hst). pose proof Hw as [Hr _]. pose proof (ri_k _ Hr) as [Hk Hm Hd Hq].
  destruct (kI_current _ (ri_k _ Hr)) as (thc & E & Ec).
  unfold Start, get_thread. rewrite Et. cbn [res_bind]. rewrite bool_decide_true by done.
  cbn [ASSERT res_bind]. set (k := rest w) in *. set (k1 := ReadyToRun t (StackAllocate t k)).
  assert (Hne : t ≠ currentThread k).
  { intros ->. assert (thc = th) as -> by congruence. destruct (ki_cur _ _ Hk) as (th' & E' & Hc).
    assert (th' = th) as -> by congruence. unfold cur_ok in Hc. rewrite <- Ec, Hf in Hc. simpl in Hc. congruence. }
  assert (Hlk : ∀ t', t' ≠ t → threads k1 !! t' = threads k !! t').
  { intros t' Ht. unfold k1, ReadyToRun, StackAllocate, set_frames, setStatus, upd_thread. simpl.
    by rewrite !lookup_alter_ne. }
  assert (Hlt : threads k1 !! t = Some (mkThread READY [FBegin] (space th) (userRegisters th))).
  { unfold k1, ReadyToRun, StackAllocate, set_frames, setStatus, upd_thread. simpl.
    by rewrite !lookup_alter_eq, Et. }
  assert (Hf1 : cur_frames k1 = []).
  { rewrite <- Hf. unfold cur_frames. change (currentThread k1) with (currentThread k). by rewrite Hlk. }
  assert (HI : kI k1).
  { split; try done; [by apply (start_kinv k t th)|]. apply (minv_threads k); try done.
    - intros t' th' E'. destruct (decide (t' = t)) as [->|Ht].
      + rewrite Hlt in E'. injection E' as <-. split; [exact (mi_users _ Hm _ _ Et)|].
        intros sp. exact (mi_space _ Hm _ _ sp Et).
      + rewrite Hlk in E' by done. split; [exact (mi_users _ Hm _ _ E')|].
        intros sp. exact (mi_space _ Hm _ _ sp E').
    - intros _ th' sp. change (currentThread k1) with (currentThread k). rewrite Hlk by done.
      apply (mi_current _ Hm). by rewrite Hf. }
  destruct (SetLevel_ok (DI := DI) (irq := irq) (set_rest k1 (ChangeLevel IntOff w)) (level (interrupt w)))
    as (w' & ES & Hw' & Hs').
  { apply rinv_rest; [by apply rinv_level|done]. }
  { cbn [set_rest rest]. by rewrite Hf1. }
  exists w'. split; [exact ES|]. split; [done|]. apply (stepk_pre k k1); [|done]. split.
  - intros t' th' Hc E'. destruct (decide (t' = t)) as [->|Ht]; [|by rewrite Hlk, E'].
    rewrite Hlt. by assert (th' = th) as -> by congruence.
  - done.
  - intros th' E'. exists th'. by rewrite Hlk.
  - by exists [t].
Qed.

Lemma do_dev_ok w o :
  winv w → cur_frames (rest w) = [] → req_ok w (RDev o) →
  ∃ w', do_dev o w = Ok (tt, w') ∧ winv w' ∧ stepk (rest w) (rest w').
Proof.
  intros Hw Hf ([d acts] & Eo). pose proof Hw as [Hr _]. pose proof (ri_k _ Hr) as [Hk Hm Hd Hq].
  unfold do_dev. rewrite Eo. cbn [res_bind fst snd].
  destruct (dev_op_ok o (now w) (dev (rest w)) d acts Hd (ri_now _ Hr) Eo) as (Hd' & Ha & Hny).
  set (k1 := set_dev d (rest w)).
  assert (HI : kI k1) by (apply (kI_alike (rest w)); [by split|by split|destruct Hm; by split|done]).
  destruct (run_acts_ok (laws := kernel_handler_laws (rest w)) acts (set_rest k1 w) Ha) as (w' & new & ER & Hsc & Hrest & Hih & Hst); [done|].
  exists w'. split; [exact ER|]. cbn [set_rest rest] in Hrest.
  apply quiet_ok; [|by rewrite Hrest|rewrite Hrest; by apply stays_same].
  destruct (rinv_rest w k1 Hr HI) as [_ Ht Hn Hh Hs]. split; try congruence.
  - exact (scheduled_wf _ _ new Ht Hsc).
  - by rewrite (sc_now _ _ _ Hsc).
Qed.

(** What the simulator may do to the machine the kernel may do too. *)
Lemma evolves_kept k sp m' :
  minv k → pt_owner k = Some sp → machine_wf m' → evolves (machine k) m' → machine_kept (machine k) m'.
Proof.
  intros Hm Hsp [Hl Hi Hld Hb Ht] [_ Etlb Ept Esz _]. destruct Hm as [_ _ Ht0 _ Hsps Ho _ _].
  rewrite Ht0 in Etlb. rewrite Hsp in Ho. destruct Ho as (a & Ea & Ep & Es). rewrite Ep in Ept.
  destruct (tlb m') eqn:E1; [done|]. destruct (pageTable m') as [t'|] eqn:E2; [|done].
  split; try done. rewrite Ep. destruct Ht as [Hlen Hent].
  exists t'. split; [done|]. split; [|done]. destruct (Hsps sp a Ea) as [Hla _]. lia.
Qed.

Lemma user_turn_ok w :
  winv w → cur_frames (rest w) = [] → req_ok w RUser →
  ∃ o w', user_turn w = Ok (o, w') ∧ winv w' ∧ stepk (rest w) (rest w').
Proof.
  intros Hw Hf [ [sp Hsp] Hna]. pose proof Hw as [Hr _]. pose proof (ri_k _ Hr) as HI.
  pose proof HI as [Hk Hm Hd Hq]. pose proof (minv_machine_wf _ sp Hm Hsp) as Hwf.
  pose proof (OneInstruction_ok _ Hwf) as Hpost. unfold user_turn, instruction_post in *.
  pose proof (evolves_kept (rest w) sp) as Hkeep.
  destruct (OneInstruction (machine (rest w))) as [ [ [ [which b]|] m']|f]; [| |congruence].
  - destruct Hpost as (Hwf' & Hev & Hreg & Hmem & Hb). cbn [res_bind fst snd].
    destruct (Hkeep m' Hm Hsp Hwf' Hev) as [Hro Hby Htl Hsz Htb].
    unfold RaiseException_enter.
    destruct (regs_set m' BadVAddrReg b Hro) as (r1 & E1 & H1); [done|done|done|].
    rewrite (st_bind_Ok _ _ _ _ _ E1).
    destruct (DelayedLoad_regs (set_registers r1 m') H1) as (r2 & E2 & H2). rewrite E2. cbn [res_bind snd].
    destruct (put_machine_ok (rest w) (set_registers r2 (set_registers r1 m')) HI) as (HI' & Hs & Hc);
      [by split|].
    eexists _, _. split; [reflexivity|]. apply quiet_ok; [|by cbn; rewrite Hc|done].
    destruct (rinv_rest w _ Hr HI') as [? [] ? ? ?]. by split.
  - destruct Hpost as (Hwf' & Hev & _). cbn [res_bind fst snd].
    destruct (put_machine_ok (rest w) m' HI (Hkeep m' Hm Hsp Hwf' Hev)) as (HI' & Hs & Hc).
    destruct (OneTick_ok' (DI := DI) (irq := irq) (set_rest (put_machine m' (rest w)) w)) as (w' & E & Hw' & Hst).
    { by apply rinv_rest. }
    { cbn [set_rest rest]. by rewrite Hc, Hf. }
    rewrite E. cbn [res_bind snd]. eexists _, w'. split; [reflexivity|]. split; [done|].
    by apply (stepk_pre _ (put_machine m' (rest w))).
Qed.

Lemma enter_space_ok w sp :
  winv w → cur_frames (rest w) = [] → req_ok w (REnter sp) →
  ∃ w', enter_space sp w = Ok (tt, w') ∧ winv w' ∧ stepk (rest w) (rest w').
Proof.
  intros Hw Hf [a Ea]. cbn [req_ok] in Ea. pose proof Hw as [Hr _].
  pose proof (ri_k _ Hr) as [Hk Hm Hd Hq]. set (k := rest w) in *.
  destruct (kI_current k (ri_k _ Hr)) as (th & E & Ec). rewrite Ec in Hf.
  set (g := λ th : Thread, mkThread (t_status th) (frames th) (Some sp) (userRegisters th)).
  set (k1 := upd_thread g (currentThread k) k).
  assert (E1 : threads k1 !! currentThread k = Some (g th)).
  { unfold k1, upd_thread. simpl. by rewrite lookup_alter_eq, E. }
  assert (Hne : ∀ t, t ≠ currentThread k → threads k1 !! t = threads k !! t).
  { intros t Ht. unfold k1, upd_thread. simpl. by rewrite lookup_alter_ne. }
  assert (Hc1 : cur_frames k1 = []) by (rewrite <- Hf; unfold cur_frames; simpl; by rewrite lookup_alter_eq, E).
  assert (Hal : alike k k1) by (apply upd_thread_alike; done).
  set (k2 := set_machine (Some sp) (mkMachine (mainMemory (machine k)) (registers (machine k)) (tlb (machine k))
    (Some (as_pageTable a)) (numPages a) (singleStep (machine k)) (runUntilTime (machine k))) k1).
  assert (E2 : enter_space sp w = Ok (tt, set_rest k2 w)).
  { unfold enter_space. fold k g k1. unfold RestoreState. change (spaces k1) with (spaces k). by rewrite Ea. }
  exists (set_rest k2 w). split; [exact E2|]. apply quiet_rest; [done| |exact Hc1|].
  - split; try done; [apply (alike_kinv _ k1); [by split|by apply (alike_kinv _ k)]|]. destruct Hm. split; simpl; try done.
    + intros t th'. change (threads k1 !! t = Some th' → regs_ok (userRegisters th')).
      destruct (decide (t = currentThread k)) as [->|Ht].
      * rewrite E1. intros [= <-]. simpl. eauto.
      * rewrite Hne by done. apply mi_users.
    + eauto.
    + intros t th' sp'. change (threads k1 !! t = Some th' → space th' = Some sp' → is_Some (spaces k !! sp')).
      destruct (decide (t = currentThread k)) as [->|Ht].
      * rewrite E1. intros [= <-] [= <-]. eauto.
      * rewrite Hne by done. apply mi_space.
    + intros th' sp' _. change (threads k1 !! currentThread k = Some th' → space th' = Some sp' → Some sp = Some sp').
      rewrite E1. by intros [= <-].
  - split; try done.
    + intros t th' Ht E'. change (user_side <$> (threads k1 !! t) = Some (user_side th')). rewrite (Hne t Ht). fold k in E'. by rewrite E'.
    + intros th' E'. exists (g th). split; [exact E1|eauto].
    + apply ready_same.
Qed.

(** ** Steps *)
Lemma request_ok w r :
  winv w → cur_frames (rest w) = [] → req_ok w r →
  ∃ w', request_do r w = Ok (tt, w') ∧ winv w' ∧ stepk (rest w) (rest w').
Proof.
  intros Hw Hf Hq. pose proof Hw as [Hr _]. pose proof (ri_k _ Hr) as HI.
  assert (Ht : ticks (cur_frames (rest w)) = true) by by rewrite Hf.
  destruct r; cbn [request_do].
  - by apply P_ok.
  - by apply V_ok.
  - by apply Yield_ok.
  - apply Finish_ok; [done|by apply ticks_base].
  - eexists. split; [reflexivity|]. apply quiet_rest; [done| |done|by apply stays_same].
    apply (kI_alike (rest w)); [by split|done|destruct (kI_m _ HI); by split|apply HI].
  - by apply new_Thread_ok.
  - by apply Start_ok.
  - destruct Hq as [Hs Hv]. eexists. split; [reflexivity|]. apply quiet_rest; [done| |done|by apply stays_same].
    destruct HI. split; try done; [by apply new_semaphore_kinv|by apply minv_sems|by apply irq_insert].
  - by apply SetLevel_ok.
  - by apply do_dev_ok.
  - eexists. split; [reflexivity|]. apply quiet_ok; [|done|by apply stays_same].
    destruct Hr as [? [] ? ? ?]. by split.
  - destruct (user_turn_ok w Hw Hf Hq) as (o & w' & E & ? & ?). exists w'.
    unfold st_bind. by rewrite E.
  - destruct (OneTick_ok' (DI := DI) (irq := irq) (set_status UserMode w)) as (w' & E & Hw' & Hs).
    { destruct Hr as [? [] ? ? ?]. by split. }
    { done. }
    exists w'. auto.
  - destruct Hq as [Hsp Ha]. eexists. split; [reflexivity|].
    apply quiet_rest; [done| |done|by apply stays_same].
    assert (Hne : ∀ sp', is_Some (spaces (rest w) !! sp') → sp' ≠ sp) by (intros sp' [? ?] ->; congruence).
    destruct HI as [Hk Hm Hd Hi]. split; try done; [by apply (alike_kinv _ (rest w))|].
    destruct Hm. split; simpl; try done.
    + intros sp' a'. upd_cases sp' sp; [by intros [= <-]|apply mi_spaces].
    + destruct (pt_owner (rest w)) as [o|]; [|done]. destruct mi_owner as (a' & Ea & ?). exists a'.
      by rewrite lookup_insert_ne by (apply not_eq_sym, Hne; eauto).
    + intros t th sp' E Es. specialize (mi_space t th sp' E Es).
      rewrite lookup_insert_ne by (apply not_eq_sym, Hne; done). done.
  - by apply enter_space_ok.
  - destruct Hq as (m & Em & Hm). rewrite Em. cbn [res_bind snd].
    destruct (put_machine_ok (rest w) m HI Hm) as (HI' & Hs & Hc).
    eexists. split; [reflexivity|]. apply quiet_rest; [done|done|by rewrite Hc|done].
Qed.

Inductive kernel_step : world → world → Prop :=
  | step_resume w w' :
      cur_frames (rest w) ≠ [] → resume w = Ok (tt, w') → kernel_step w w'
  | step_request w w' r :
      cur_frames (rest w) = [] → req_ok w r → request_do r w = Ok (tt, w') → kernel_step w w'.

Lemma step_ok w w' : winv w → kernel_step w w' → winv w' ∧ user_step (rest w) (rest w').
Proof.
  intros Hw Hs. destruct Hs as [w w' Hf E|w w' r Hf Hq E].
  - destruct (resume_ok w Hw Hf) as [?|(w1 & E1 & ? & ?)]; [congruence|].
    by assert (w1 = w') as -> by congruence.
  - destruct (request_ok w r Hw Hf Hq) as (w1 & E1 & ? & ?%stepk_user).
    by assert (w1 = w') as -> by congruence.
Qed.

Lemma steps_ok w w' : winv w → rtc kernel_step w w' → winv w'.
Proof. intros Hw. induction 1 as [|w1 w2 w3 Hs _ IH]; [done|]. apply IH. by apply (step_ok w1). Qed.

(** ** The ready list *)

(** [passed n w w']: on the way from [w] to [w'] the processor changed hands [n] times. *)
Inductive passed : nat → world → world → Prop :=
  | passed_0 w : passed 0 w w
  | passed_stay n w1 w2 w3 : passed n w1 w2 → kernel_step w2 w3 →
      switched (cur_frames (rest w3)) = false → passed n w1 w3
  | passed_switch n w1 w2 w3 : passed n w1 w2 → kernel_step w2 w3 →
      switched (cur_frames (rest w3)) = true → passed (S n) w1 w3.

Lemma passed_steps n w w' : passed n w w' → rtc kernel_step w w'.
Proof. induction 1; [done|by eapply rtc_r|by eapply rtc_r]. Qed.

Lemma passed_ready n w w' i t :
  winv w → passed n w w' → readyList (rest w) !! i = Some t → (n ≤ i)%nat →
  readyList (rest w') !! (i - n)%nat = Some t.
Proof.
  intros Hw Hp Hi. revert i Hi. induction Hp as [w|n w1 w2 w3 Hp IH Hs Hsw|n w1 w2 w3 Hp IH Hs Hsw]; intros i Hi Hn.
  - by rewrite Nat.sub_0_r.
  - destruct (step_ok w2 w3) as [_ Hu]; [by apply (steps_ok w1), (passed_steps n)|done|].
    destruct (us_ready _ _ Hu) as [(_ & _ & l & ->)|[? _] ]; [|congruence].
    apply lookup_app_l_Some. by apply IH.
  - destruct (step_ok w2 w3) as [_ Hu]; [by apply (steps_ok w1), (passed_steps n)|done|].
    destruct (us_ready _ _ Hu) as [(? & _)|(_ & l & Hl)]; [congruence|].
    specialize (IH Hw i Hi ltac:(lia)).
    assert (Hx : (currentThread (rest w3) :: readyList (rest w3)) !! (i - n)%nat = Some t).
    { rewrite <- Hl. by apply lookup_app_l_Some. }
    replace (i - n)%nat with (S (i - S n)) in Hx by lia. exact Hx.
Qed.

Lemma passed_turn n w w' w'' t :
  winv w → passed n w w' → readyList (rest w) !! n = Some t → kernel_step w' w'' →
  switched (cur_frames (rest w'')) = true → currentThread (rest w'') = t.
Proof.
  intros Hw Hp Ht Hs Hsw. pose proof (passed_ready n w w' n t Hw Hp Ht (le_n _)) as Hr.
  rewrite Nat.sub_diag in Hr.
  destruct (step_ok w' w'') as [_ Hu]; [by apply (steps_ok w), (passed_steps n)|done|].
  destruct (us_ready _ _ Hu) as [(? & _)|(_ & l & Hl)]; [congruence|].
  destruct (readyList (rest w')) as [|t' r]; [done|]. simpl in Hr, Hl. congruence.
Qed.

(** ** User contexts *)

(** [away t w w']: from [w] to [w'] thread [t] is alive and off the processor. *)
Inductive away (t : tid) : world → world → Prop :=
  | away_refl w : away t w w
  | away_step w1 w2 w3 : away t w1 w2 → currentThread (rest w2) ≠ t →
      threadToBeDestroyed (rest w2) ≠ Some t → kernel_step w2 w3 → away t w1 w3.

Lemma away_steps t w w' : away t w w' → rtc kernel_step w w'.
Proof. induction 1; [done|by eapply rtc_r]. Qed.

Lemma away_kept t w w' th :
  winv w → away t w w' → threads (rest w) !! t = Some th →
  user_side <$> (threads (rest w') !! t) = Some (user_side th).
Proof.
  intros Hw Ha E. induction Ha as [w|w1 w2 w3 Ha IH Hne Hd Hs]; [by rewrite E|].
  specialize (IH Hw E). destruct (threads (rest w2) !! t) as [th2|] eqn:E2; [|done].
  destruct (step_ok w2 w3) as [_ Hu]; [by apply (steps_ok w1), (away_steps t)|done|].
  rewrite <- IH. by apply (us_kept _ _ Hu).
Qed.

(** ** When the machine stops *)

Lemma stopped_asleep w : winv w → resume w = Fail (Exited 0) → asleep (cur_frames (rest w)) = true.
Proof.
  intros Hw E. destruct (asleep (cur_frames (rest w))) eqn:Has; [done|].
  destruct (decide (cur_frames (rest w) = [])) as [Hf|Hf].
  - unfold resume in E. by rewrite Hf in E.
  - destruct (resume_awake_ok w Hw Hf Has) as (w' & E' & _). congruence.
Qed.

Lemma stopped_idle w :
  winv w → resume w = Fail (Exited 0) → halted (rest w) = false →
  readyList (rest w) = [] ∧ Idle w = Fail (Exited 0).
Proof.
  intros Hw E Hh. pose proof (stopped_asleep w Hw E) as Has.
  destruct (kI_current _ (ri_k _ (proj1 Hw))) as (th & Et & Ec).
  destruct (frames th) as [|[] b] eqn:Hf; rewrite Ec in Has; try done.
  destruct (readyList (rest w)) as [|n l] eqn:Hl.
  - split; [done|]. rewrite <- (sleep_idle w b Ec); auto.
  - destruct (sleep_run_ok w th b n l Hw Et Hf Hh Hl) as (w' & E' & _). congruence.
Qed.

(** Nobody can run: every thread sleeps in a queue, and a queue is not left waiting at a
    semaphore that could be passed. *)
Lemma stopped_blocked w :
  winv w → asleep (cur_frames (rest w)) = true → readyList (rest w) = [] →
  (∀ t th, threads (rest w) !! t = Some th → t_status th = BLOCKED ∨ t_status th = JUST_CREATED) ∧
  (∀ s sm, sems (rest w) !! s = Some sm → queue sm ≠ [] → value sm = 0).
Proof.
  intros Hw Has Hl. pose proof (kI_k _ (ri_k _ (proj1 Hw))) as Hk.
  assert (Hnr : ∀ t th, threads (rest w) !! t = Some th → t_status th ≠ READY).
  { intros t th E Hst. destruct (ki_ready _ _ Hk t) as [_ Hin]. rewrite Hl in Hin.
    apply (not_elem_of_nil t), Hin. split; [done|eauto]. }
  assert (Hst : ∀ t th, threads (rest w) !! t = Some th → t_status th = BLOCKED ∨ t_status th = JUST_CREATED).
  { intros t th E. destruct (decide (t = currentThread (rest w))) as [->|Hne].
    - destruct (ki_cur _ _ Hk) as (th' & E' & Hc). assert (th' = th) as -> by congruence.
      unfold cur_ok in Hc. rewrite <- (cur_frames_eq _ _ E), Has in Hc.
      destruct Hc; [by left|]. by destruct (Hnr _ _ E).
    - destruct (ki_other _ _ Hk t th E Hne) as [ [? _]|[ [?|?] _] ]; [by right| |by left].
      by destruct (Hnr _ _ E). }
  split; [done|]. intros s sm Es Hq.
  destruct (ki_queue _ _ Hk s sm Es) as (_ & Hv & _). pose proof (ki_wake _ _ Hk s sm Es Hq) as Hwk.
  assert (woken s (rest w) = ∅) as Hz; [|rewrite Hz, size_empty in Hwk; lia].
  apply set_eq. intros t. rewrite elem_of_woken. split; [|set_solver].
  intros (th & E & Hnb & Hp). destruct (Hst t th E) as [?|Hj]; [done|].
  destruct (decide (t = currentThread (rest w))) as [->|Hne].
  - destruct (ki_cur _ _ Hk) as (th' & E' & Hc). assert (th' = th) as -> by congruence.
    unfold cur_ok in Hc. rewrite <- (cur_frames_eq _ _ E), Has in Hc. destruct Hc; congruence.
  - destruct (ki_other _ _ Hk t th E Hne) as [ [_ Hf]|[ [?|?] _] ]; [by rewrite Hf in Hp|congruence..].
Qed.
End Steps.
