(* ===== verification/Locks.v ===== *)
(** * Locks exclude (threads/synch.cc)

    The value of a semaphore no interrupt handler raises moves in two places only: a thread
    getting out of the loop of P takes one, a V puts one back. Of a Lock, a semaphore that
    starts at 1, it follows that at most one thread is between Acquire and Release, however
    the threads are interleaved and whatever the devices do. *)
From S2P Require Import Prelude Words LinkedList Interrupt Machine MipsSim Threads.
From S2P Require Import SchedInv Kernel KernelSteps.

Section Locks.
Context {H D O : Type} {dv : Devices H D O} {DI : D → Prop} {irq : semid → Prop}.
Context {dlaws : DeviceLaws dv DI irq}.
Abbreviation world := (World H (KState D)).
Abbreviation winv := (Kernel.winv (DI := DI) (irq := irq)).
Implicit Types (w : world) (k : KState D).
Context (s : semid).
Hypothesis Hirq : ¬ irq s.

Definition semval k : option Z := value <$> sems k !! s.

(** ** What leaves the value alone *)

Definition same k k' : Prop := DI (dev k) → DI (dev k') ∧ semval k' = semval k.
Definition keeps {A} (c : ST world A) : Prop := ∀ w a w', c w = Ok (a, w') → same (rest w) (rest w').

Lemma same_refl k : same k k.
Proof. by intros ?. Qed.

Lemma same_trans k1 k2 k3 : same k1 k2 → same k2 k3 → same k1 k3.
Proof. intros H1 H2 Hd. destruct (H1 Hd) as [Hd2 <-]. by apply H2. Qed.

Lemma same_eq k k' : dev k' = dev k → sems k' = sems k → same k k'.
Proof. intros Ed Es Hd. unfold semval. by rewrite Ed, Es. Qed.

Lemma keeps_bind {A B} (c : ST world A) (f : A → ST world B) :
  keeps c → (∀ a, keeps (f a)) → keeps (st_bind c f).
Proof. intros Hc Hf w b w' (a & w1 & E1 & E2)%st_bind_Ok_inv. eapply same_trans; [by eapply Hc|by eapply Hf]. Qed.

Lemma keeps_mod_k f : (∀ k, same k (f k)) → keeps (mod_k f).
Proof. intros Hf w a w' [= _ <-]. apply Hf. Qed.

Lemma keeps_mod_w f : (∀ w, rest (f w) = rest w) → keeps (mod_w f).
Proof. intros Hf w a w' [= _ <-]. rewrite Hf. apply same_refl. Qed.

Lemma run_acts_rest (l : list (act H)) w w' : run_acts l w = Ok (tt, w') → rest w' = rest w.
Proof.
  revert w. induction l as [|a l IH]; intros w E; [by injection E as <-|].
  apply st_bind_Ok_inv in E as ( [] & w1 & E1 & E2). rewrite (IH w1 E2).
  destruct a; cbn [run_act] in E1; unfold Schedule, YieldOnReturn in E1; inv_binds; done.
Qed.

Lemma V_body_other s' k k' : V_body s' k = Ok k' → s' ≠ s → semval k' = semval k ∧ dev k' = dev k.
Proof.
  unfold V_body, semval. intros E Hne. inv_binds. destruct (queue a); cbn; by rewrite lookup_insert_ne by done.
Qed.

Lemma V_all_other l k k' : Forall irq l → V_all l k = Ok k' → semval k' = semval k ∧ dev k' = dev k.
Proof.
  revert k. induction l as [|s' l IH]; intros k Hl E; [by injection E as <-|].
  apply Forall_cons in Hl as [Hi Hl]. apply res_bind_Ok_inv in E as (k1 & E1 & E).
  destruct (V_body_other s' k k1 E1) as [H1 H2]; [by intros ->|].
  destruct (IH k1 Hl E) as [-> ->]. done.
Qed.

Lemma handler_same h t k k' acts : run_handler h t k = Ok (k', acts) → same k k'.
Proof.
  cbn [run_handler kernel_handlers]. intros E Hd.
  destruct (fire_ok h t (dev k) Hd) as (d' & vs & acts' & Ef & Hd' & Hvs & _). rewrite Ef in E. cbn [res_bind] in E.
  apply res_bind_Ok_inv in E as (k1 & E1 & E). injection E as -> _.
  destruct (V_all_other vs _ _ Hvs E1) as [-> Hdev]. split; [by rewrite Hdev|done].
Qed.

Lemma delayed_same k k' : delayed_load k = Ok k' → same k k'.
Proof. cbn [delayed_load kernel_handlers]. intros E. inv_binds. by apply same_eq. Qed.

(** *** The interrupt system *)

Lemma keeps_deliver p : keeps (deliver p).
Proof.
  intros w a w' E. unfold deliver in E. apply res_bind_Ok_inv in E as (x & Ex & E).
  apply res_bind_Ok_inv in E as ([ [] w2] & E2 & E). injection E as _ <-. cbn [snd].
  unfold call_handler in E2. apply res_bind_Ok_inv in E2 as ([k2 acts] & E3 & E4). cbn [fst snd] in *.
  apply run_acts_rest in E4. cbn [rest set_inHandler set_status set_interrupt].
  rewrite E4. apply (same_trans _ x); [|by eapply handler_same].
  case_bool_decide; [by apply delayed_same|]. injection Ex as ->. apply same_refl.
Qed.

Lemma keeps_CheckIfDue b : keeps (CheckIfDue b).
Proof.
  intros w a w' E. unfold CheckIfDue in E. apply res_bind_Ok_inv in E as ( [] & _ & E).
  destruct (pending (interrupt w)) as [|[t p] others]; [injection E as _ <-; apply same_refl|].
  destruct (_ && _); [injection E as _ <-; apply same_refl|]. cbv zeta in E.
  set (w1 := if b && _ then _ else w) in E. assert (Hr : rest w1 = rest w) by (unfold w1; by destruct (_ && _)).
  clearbody w1. rewrite <- Hr. destruct (_ && _); [injection E as _ <-; apply same_refl|].
  apply res_bind_Ok_inv in E as ([ [] w2] & E2 & E). injection E as _ <-. exact (keeps_deliver p _ _ _ E2).
Qed.

Lemma keeps_check_all n : keeps (check_all n).
Proof.
  induction n as [|n IH]; intros w a w' E; [done|]. cbn [check_all] in E.
  apply res_bind_Ok_inv in E as ([b w1] & E1 & E). cbn [fst snd] in E.
  apply (same_trans _ (rest w1)); [exact (keeps_CheckIfDue _ _ _ _ E1)|].
  destruct b; [exact (IH _ _ _ E)|]. injection E as _ <-. apply same_refl.
Qed.

Lemma keeps_OneTick_interrupts : keeps OneTick_interrupts.
Proof.
  intros w a w' E. unfold OneTick_interrupts in E. apply res_bind_Ok_inv in E as ([ [] w1] & E1 & E).
  injection E as _ <-. exact (keeps_check_all _ _ _ _ E1).
Qed.

Lemma keeps_Idle : keeps Idle.
Proof.
  intros w a w' E. unfold Idle in E. apply res_bind_Ok_inv in E as ([b w1] & E1 & E). cbn [fst snd] in E.
  destruct b; [|done]. apply res_bind_Ok_inv in E as ([ [] w2] & E2 & E). injection E as _ <-.
  apply (same_trans _ (rest w1)); [exact (keeps_CheckIfDue _ _ _ _ E1)|exact (keeps_check_all _ _ _ _ E2)].
Qed.

(** *** The scheduler *)

Lemma keeps_Run n : keeps (Run n).
Proof.
  intros w a w' E. unfold Run in E. inv_binds. apply same_eq; by destruct (space _).
Qed.

Lemma keeps_Sleep : keeps Sleep.
Proof. intros w a w' E. unfold Sleep in E. inv_binds. by apply same_eq. Qed.

Lemma FindNextToRun_same k o k' : FindNextToRun k = (o, k') → dev k' = dev k ∧ sems k' = sems k.
Proof. unfold FindNextToRun. destruct (halted k); [|destruct (readyList k)]; by intros [= _ <-]. Qed.

Lemma keeps_Yield : keeps Yield.
Proof.
  apply keeps_bind; [by intros w a w' [= _ <-]|]. intros old. apply keeps_bind; [apply keeps_mod_k; intros k; by apply same_eq|].
  intros [] w a w' E. destruct (FindNextToRun (rest w)) as [o k1] eqn:Ef. apply FindNextToRun_same in Ef as [Ed Es].
  destruct o as [t|].
  - apply keeps_Run in E. eapply same_trans; [|exact E]. by apply same_eq.
  - injection E as _ <-. by apply same_eq.
Qed.

Lemma keeps_OneTick : keeps OneTick.
Proof.
  intros w a w' E. unfold OneTick in E. apply res_bind_Ok_inv in E as ([ [] w1] & E1 & E). cbn [snd] in E.
  apply (same_trans _ (rest w1)); [exact (keeps_OneTick_interrupts _ _ _ E1)|].
  destruct (yieldOnReturn _); [|injection E as _ <-; apply same_refl].
  apply keeps_Yield in E. eapply same_trans; [|exact E]. by apply same_eq.
Qed.

Lemma keeps_SetLevel l : keeps (SetLevel l).
Proof.
  intros w a w' E. unfold SetLevel in E. apply res_bind_Ok_inv in E as ( [] & _ & E).
  destruct (_ && _); [exact (keeps_OneTick _ _ _ E)|]. injection E as _ <-. apply same_refl.
Qed.

Lemma keeps_P s' : keeps (P s').
Proof.
  apply keeps_bind; [by intros w a w' [= _ <-]|]. intros old. apply keeps_mod_k. intros k. by apply same_eq.
Qed.

Lemma keeps_Finish : keeps Finish.
Proof.
  intros w a w' E. unfold Finish in E. apply res_bind_Ok_inv in E as ( [] & _ & E). apply keeps_Sleep in E.
  eapply same_trans; [|exact E]. by apply same_eq.
Qed.

Lemma keeps_new_Thread t g : keeps (new_Thread t g).
Proof. intros w a w' E. unfold new_Thread in E. inv_binds. by apply same_eq. Qed.

Lemma keeps_Start t : keeps (Start t).
Proof.
  intros w a w' E. unfold Start in E. inv_binds.
  eapply same_trans; [|eapply keeps_SetLevel; eassumption].
  unfold DisableInterrupts, mod_k in *. by simplify_eq/=; apply same_eq.
Qed.

Lemma put_machine_same m k : same k (put_machine m k).
Proof. apply same_eq; unfold put_machine; by destruct (pt_owner k), (pageTable m). Qed.

Lemma keeps_user_turn : keeps user_turn.
Proof.
  intros w a w' E. unfold user_turn in E. apply res_bind_Ok_inv in E as ([ [ [which v]|] m] & _ & E); cbn [fst snd] in E.
  - inv_binds. apply put_machine_same.
  - apply res_bind_Ok_inv in E as ([ [] w1] & E1 & E). injection E as _ <-. apply keeps_OneTick in E1.
    eapply same_trans; [|exact E1]. apply put_machine_same.
Qed.

Lemma keeps_enter_space sp : keeps (enter_space sp).
Proof.
  intros w a w' E. unfold enter_space in E. inv_binds. cbn [set_rest rest].
  unfold RestoreState in *. destruct (spaces _ !! sp); [|done]. simplify_eq. by apply same_eq.
Qed.

Lemma arrive_same k k' : arrive k = Ok k' → same k k'.
Proof.
  unfold arrive, destroy, RestoreUserState, RestoreState. intros E. apply res_bind_Ok_inv in E as (k1 & E1 & E).
  assert (H1 : same k k1).
  { destruct (threadToBeDestroyed k); [|injection E1 as ->; apply same_refl]. inv_binds. by apply same_eq. }
  apply (same_trans _ k1); [done|]. apply res_bind_Ok_inv in E as (th & _ & E).
  destruct (space th) as [sp|]; [|injection E as ->; apply same_refl].
  inv_binds. cbn [set_machine spaces] in *. destruct (spaces k1 !! sp); [|done]. simplify_eq. by apply same_eq.
Qed.

(** ** What moves it *)

(** The thread that runs is about to leave the loop of P. *)
Definition gets_through w : bool :=
  match cur_frames (rest w) with
  | FP s' _ :: _ => bool_decide (s' = s) && bool_decide (semval (rest w) ≠ Some 0)
  | _ => false
  end.

(** A thread's V. *)
Definition raises (r : request (O := O)) : bool := match r with RV s' => bool_decide (s' = s) | _ => false end.

Lemma V_body_val k k' : V_body s k = Ok k' → ∃ v, semval k = Some v ∧ semval k' = Some (v + 1) ∧ dev k' = dev k.
Proof.
  unfold V_body, semval, get_sem. destruct (sems k !! s) as [sm|]; [|done]. cbn [res_bind]. intros [= <-].
  exists (value sm). split; [done|]. cbn. rewrite lookup_insert_eq. by destruct (queue sm).
Qed.

Lemma P_turn_val s' old w w' :
  P_turn s' old w = Ok (tt, w') → DI (dev (rest w)) →
  if bool_decide (s' = s) && bool_decide (semval (rest w) ≠ Some 0)
  then ∃ v, semval (rest w) = Some v ∧ semval (rest w') = Some (v - 1) else semval (rest w') = semval (rest w).
Proof.
  unfold P_turn, get_sem. intros E Hd. destruct (sems (rest w) !! s') as [sm|] eqn:Es; [|done]. cbn [res_bind] in E.
  assert (Hv : s' = s → semval (rest w) = Some (value sm)) by (intros ->; unfold semval; by rewrite Es).
  destruct (Z.eqb_spec (value sm) 0) as [H0|H0].
  - apply keeps_Sleep in E. destruct (E Hd) as [_ ->].
    assert (Hsame : semval (set_sems (<[s':=mkSemaphore (value sm) (queue sm ++ [currentThread (rest w)])]> (sems (rest w))) (rest w))
      = semval (rest w)).
    { unfold semval. cbn. destruct (decide (s' = s)) as [->|Hne]; [by rewrite lookup_insert_eq, Es|by rewrite lookup_insert_ne]. }
    cbn [set_rest rest]. rewrite Hsame. case_bool_decide as H1; [|done].
    rewrite (Hv H1), H0. by rewrite bool_decide_false by naive_solver.
  - apply keeps_SetLevel in E. destruct (E Hd) as [_ ->]. cbn [set_rest rest]. unfold semval, pop, upd_thread. cbn.
    case_bool_decide as H1; cbn [andb].
    + subst s'. rewrite lookup_insert_eq, Es. cbn. rewrite bool_decide_true by congruence. eauto.
    + by rewrite lookup_insert_ne.
Qed.

Lemma resume_val w w' :
  resume w = Ok (tt, w') → DI (dev (rest w)) →
  if gets_through w then ∃ v, semval (rest w) = Some v ∧ semval (rest w') = Some (v - 1) else semval (rest w') = semval (rest w).
Proof.
  intros E Hd. unfold resume, gets_through in *. destruct (cur_frames (rest w)) as [|f b]; [done|]. destruct f.
  - destruct (FindNextToRun (rest w)) as [o k] eqn:Ef. apply FindNextToRun_same in Ef as [Edev Es].
    destruct o as [t|]; [apply keeps_Run in E|by apply keeps_Idle in E; apply E].
    eapply same_trans; [|exact E|exact Hd]. by apply same_eq.
  - inv_binds. eapply same_trans; [|by apply arrive_same|exact Hd]. by apply same_eq.
  - inv_binds. eapply same_trans; [|eapply keeps_SetLevel; eassumption|exact Hd].
    eapply same_trans; [|by apply arrive_same]. by apply same_eq.
  - exact (P_turn_val _ _ _ _ E Hd).
  - apply keeps_SetLevel in E. eapply same_trans; [|exact E|exact Hd]. by apply same_eq.
  - injection E as <-. by apply same_eq.
Qed.

Lemma request_val r w w' :
  winv w → cur_frames (rest w) = [] → req_ok w r → request_do r w = Ok (tt, w') → is_Some (semval (rest w)) →
  if raises r then ∃ v, semval (rest w) = Some v ∧ semval (rest w') = Some (v + 1) else semval (rest w') = semval (rest w).
Proof.
  intros Hw Hf Hq E Hsome. pose proof (kI_dev _ (ri_k _ (proj1 Hw))) as Hd.
  destruct r; cbn [request_do raises req_ok] in *.
  - by apply (keeps_P _ _ _ _ E).
  - unfold V in E. apply st_bind_Ok_inv in E as (old & w0 & [= _ <-] & E).
    apply st_bind_Ok_inv in E as ( [] & w1 & E1 & E). apply keeps_SetLevel in E. unfold lift_k in E1. inv_binds.
    cbn [set_rest rest ChangeLevel set_level set_interrupt] in *. case_bool_decide as H1.
    + subst s0. destruct (V_body_val _ _ Hm) as (v & Hv & Hv' & Hdev). exists v. split; [done|].
      rewrite <- Hv'. apply E. by rewrite Hdev.
    + destruct (V_body_other _ _ _ Hm H1) as [<- Hdev]. apply E. by rewrite Hdev.
  - by apply (keeps_Yield _ _ _ E).
  - by apply (keeps_Finish _ _ _ E).
  - by injection E as <-.
  - by apply (keeps_new_Thread _ _ _ _ _ E).
  - by apply (keeps_Start _ _ _ _ E).
  - injection E as <-. unfold semval in *. cbn. rewrite lookup_insert_ne; [done|]. intros ->. destruct Hq as [Hq _].
    rewrite Hq in Hsome. by destruct Hsome.
  - by apply (keeps_SetLevel _ _ _ _ E).
  - unfold do_dev in E. apply res_bind_Ok_inv in E as (x & _ & E). by rewrite (run_acts_rest _ _ _ E).
  - by injection E as <-.
  - apply st_bind_Ok_inv in E as (x & w1 & E & [= <-]). by apply (keeps_user_turn _ _ _ E).
  - by apply (keeps_OneTick _ _ _ E).
  - by injection E as <-.
  - by apply (keeps_enter_space _ _ _ _ E).
  - inv_binds. by apply put_machine_same.
Qed.

(** ** Locks *)

(** A run from [w0] in which threads release the lock only when they have it; [h] is who
    has got through Acquire and not released, the last first. *)
Inductive lock_run (w0 : world) : list tid → world → Prop :=
  | run_start : lock_run w0 [] w0
  | run_acquire h w w' :
      lock_run w0 h w → gets_through w = true → resume w = Ok (tt, w') →
      lock_run w0 (currentThread (rest w) :: h) w'
  | run_release h1 h2 w w' :
      lock_run w0 (h1 ++ currentThread (rest w) :: h2) w → cur_frames (rest w) = [] → req_ok w (RV s) →
      request_do (RV s) w = Ok (tt, w') → lock_run w0 (h1 ++ h2) w'
  | run_resume h w w' :
      lock_run w0 h w → cur_frames (rest w) ≠ [] → gets_through w = false → resume w = Ok (tt, w') → lock_run w0 h w'
  | run_request h w w' r :
      lock_run w0 h w → cur_frames (rest w) = [] → req_ok w r → raises r = false →
      request_do r w = Ok (tt, w') → lock_run w0 h w'.

Lemma gets_through_frames w : gets_through w = true → cur_frames (rest w) ≠ [].
Proof. unfold gets_through. by destruct (cur_frames (rest w)). Qed.

Lemma lock_run_inv w0 h w :
  winv w0 → semval (rest w0) = Some 1 → lock_run w0 h w →
  winv w ∧ semval (rest w) = Some (1 - Z.of_nat (length h)).
Proof.
  intros Hw0 H0. induction 1 as [|h w w' _ [Hw Hv] Hp E|h1 h2 w w' _ [Hw Hv] Hf Hq E|h w w' _ [Hw Hv] Hf Hp E|
    h w w' r _ [Hw Hv] Hf Hq Hr E]; [done|..]; pose proof (kI_dev _ (ri_k _ (proj1 Hw))) as Hd.
  - split; [apply (step_ok w); [done|]; by apply step_resume; [apply gets_through_frames|]|].
    pose proof (resume_val w w' E Hd) as Hs. rewrite Hp in Hs. destruct Hs as (v & Hv1 & ->).
    assert (v = 1 - Z.of_nat (length h)) as -> by congruence. cbn [length]. f_equal. lia.
  - split; [apply (step_ok w); [done|]; by apply (step_request _ _ (RV s))|].
    pose proof (request_val (RV s) w w' Hw Hf Hq E ltac:(eauto)) as Hs. cbn [raises] in Hs.
    rewrite bool_decide_true in Hs by done. destruct Hs as (v & Hv1 & ->).
    assert (v = 1 - Z.of_nat (length (h1 ++ currentThread (rest w) :: h2))) as -> by congruence.
    rewrite !length_app. cbn [length]. f_equal. lia.
  - split; [apply (step_ok w); [done|]; by apply step_resume|].
    pose proof (resume_val w w' E Hd) as Hs. rewrite Hp in Hs. congruence.
  - split; [apply (step_ok w); [done|]; by apply (step_request _ _ r)|].
    pose proof (request_val r w w' Hw Hf Hq E ltac:(eauto)) as Hs. rewrite Hr in Hs. congruence.
Qed.

(** Who has the lock, by its value. *)
Lemma lock_run_holders w0 h w :
  winv w0 → semval (rest w0) = Some 1 → lock_run w0 h w →
  h = [] ∧ semval (rest w) = Some 1 ∨ ∃ t, h = [t] ∧ semval (rest w) = Some 0.
Proof.
  intros Hw0 H0 Hr. destruct (lock_run_inv w0 h w Hw0 H0 Hr) as [Hw Hv].
  assert (Hnn : 0 ≤ 1 - Z.of_nat (length h)).
  { pose proof (kI_k _ (ri_k _ (proj1 Hw))) as Hk. unfold semval in Hv.
    destruct (sems (rest w) !! s) as [sm|] eqn:Es; [|done]. injection Hv as Hv. rewrite <- Hv.
    by apply (ki_queue _ _ Hk s sm Es). }
  destruct h as [|t [|t' h] ]; cbn [length] in *; [by left|right; eauto|lia].
Qed.
End Locks.
