(* ===== verification/Programs.v ===== *)
(** * Kernel code as programs of requests

    What a thread does outside the calls of Threads.v: a [prog] makes requests, looks at
    the state, starts threads and goes on. Results are passed to the rest of the program.
    [E] names the functions a thread can be started at or loop back to. [sys_step] runs
    all threads; [exec] runs one, alone, to the end of its program. *)
From S2P Require Import Prelude Words LinkedList Interrupt Machine MipsSim Threads.

Section Programs.
Context {H D O : Type} {dv : Devices H D O} {E : Type}.
Abbreviation world := (World H (KState D)).

Inductive prog (R : Type) :=
  | Done (r : R)
  | Do (r : request (O := O)) (p : prog R)
  | Ask (f : world → prog R)
  | StartAt (t : tid) (e : E) (p : prog R)
  | Goto (e : E)
  | Stop (f : failure).

Fixpoint bind {A B} (p : prog A) (k : A → prog B) : prog B :=
  match p with
  | Done _ a => k a
  | Do _ r p => Do B r (bind p k)
  | Ask _ f => Ask B (λ w, bind (f w) k)
  | StartAt _ t e p => StartAt B t e (bind p k)
  | Goto _ e => Goto B e
  | Stop _ f => Stop B f
  end.
End Programs.
Arguments Done {H D O E R} r.
Arguments Do {H D O E R} r p.
Arguments Ask {H D O E R} f.
Arguments StartAt {H D O E R} t e p.
Arguments Goto {H D O E R} e.
Arguments Stop {H D O E R} f.
Arguments prog H D O E R : clear implicits.

Notation "'do*' r ';' p" := (Do r p) (at level 60, right associativity, r at level 100) : nachos_scope.
Notation "'call*' x ':=' p 'in' k" := (bind p (λ x, k))
  (at level 10, x binder, p at level 100, k at level 200) : nachos_scope.

(** ** All threads *)
Section Systems.
Context {H D O : Type} {dv : Devices H D O} {E : Type}.
Abbreviation world := (World H (KState D)).
Abbreviation program := (prog H D O E).

(** [ASSERT] in kernel code *)
Definition Assert {R} (b : bool) (p : program R) : program R := if b then p else Stop AssertFailure.

(** A fallible computation on the machine. *)
Definition On_machine {A R} (op : ST Machine A) (k : A → program R) : program R :=
  Ask (λ w, match op (machine (rest w)) with
            | Ok (a, _) => Do (RMachine (let* _ := op in st_ret tt)) (k a)
            | Fail f => Stop f
            end).

Record Sys := mkSys { sys_world : world; progs : gmap tid (program unit) }.

Definition sys_step (body : E → program unit) (s : Sys) : res Sys :=
  let w := sys_world s in
  let t := currentThread (rest w) in
  match cur_frames (rest w) with
  | _ :: _ => let? r := resume w in Ok (mkSys r.2 (progs s))
  | [] =>
      match progs s !! t with
      | Some (Do r p) => let? x := request_do r w in Ok (mkSys x.2 (<[t := p]> (progs s)))
      | Some (Ask f) => Ok (mkSys w (<[t := f w]> (progs s)))
      | Some (StartAt t' e p) =>
          let? x := Start t' w in Ok (mkSys x.2 (<[t' := body e]> (<[t := p]> (progs s))))
      | Some (Goto e) => Ok (mkSys w (<[t := body e]> (progs s)))
      | Some (Stop f) => Fail f
      | Some (Done _) | None => let? x := request_do RFinish w in Ok (mkSys x.2 (progs s))
      end
  end.

Fixpoint sys_run (body : E → program unit) (fuel : nat) (s : Sys) : res Sys :=
  match fuel with
  | 0%nat => Ok s
  | S fuel => let? s := sys_step body s in sys_run body fuel s
  end.

Lemma sys_run_app body n m s s' : sys_run body n s = Ok s' → sys_run body (n + m) s = sys_run body m s'.
Proof.
  revert s. induction n as [|n IH]; intros s E1; cbn [sys_run Nat.add] in *; [by injection E1 as ->|].
  apply res_bind_Ok_inv in E1 as (s1 & -> & E1). by apply IH.
Qed.

(** ** One thread on its own *)
Fixpoint exec {R} (fuel : nat) (p : program R) (w : world) : res (R * world) :=
  match fuel with
  | 0%nat => Fail OutOfFuel
  | S fuel =>
      match cur_frames (rest w) with
      | _ :: _ => let? r := resume w in exec fuel p r.2
      | [] =>
          match p with
          | Done a => Ok (a, w)
          | Do r p => let? x := request_do r w in exec fuel p x.2
          | Ask f => exec fuel (f w) w
          | StartAt t e p => let? x := Start t w in exec fuel p x.2
          | Goto _ => Fail OutOfFuel
          | Stop f => Fail f
          end
      end
  end.
End Systems.
