(* ===== verification/Console.v ===== *)
(** * The console (machine/console.cc)

    A keyboard that is polled and a display that takes its time. The host's side of it is
    [Terminal]: what will be typed and when, what has been displayed, and whether the
    locale is UTF-8. *)
From S2P Require Import Prelude Words Interrupt.

Definition EOF : Z := -1.

(** [PollFile] finds something once the next byte has been typed or the file has ended; a
    read that would wait for ever is taken to find the end of the file. *)
Record Terminal := mkTerminal {
  keyboard : list (Z * Z);     (** when typed, and the byte *)
  closed : bool;               (** at the end of [keyboard] comes the end of the file *)
  display : list Z;
  utf8 : bool }.

Record Console := mkConsole {
  readFileNo : Z;
  writeFileNo : Z;
  putBusy : bool;
  incoming : Z }.

Definition PollFile (now : Z) (tm : Terminal) : bool :=
  match keyboard tm with (t, _) :: _ => t <=? now | [] => closed tm end.
Definition ReadPartial (tm : Terminal) : option Z * Terminal :=
  match keyboard tm with
  | (_, c) :: l => (Some c, mkTerminal l (closed tm) (display tm) (utf8 tm))
  | [] => (None, tm)
  end.
Definition WriteFile (l : list Z) (tm : Terminal) : Terminal :=
  mkTerminal (keyboard tm) (closed tm) (display tm ++ l) (utf8 tm).

Definition set_incoming (ch : Z) (c : Console) : Console :=
  mkConsole (readFileNo c) (writeFileNo c) (putBusy c) ch.
Definition set_putBusy (b : bool) (c : Console) : Console :=
  mkConsole (readFileNo c) (writeFileNo c) b (incoming c).

Section Console.
Context {H : Type} (ConsoleReadPoll ConsoleWriteDone : H).

(** Console::Console, with the files it opens ([None]: standard input and output). The
    boolean is the static [stdin_busy]. *)
Definition new_Console (readFile writeFile : option Z) (stdin_busy : bool)
    : res (Console * bool * list (act H)) :=
  let? rb :=
    match readFile with
    | None => let? _ := ASSERT (negb stdin_busy) in Ok (0, true)
    | Some fd => Ok (fd, stdin_busy)
    end in
  Ok (mkConsole rb.1 (default 1 writeFile) false EOF, rb.2,
      [ASchedule ConsoleReadPoll ConsoleTime ConsoleReadInt]).

(** The beginning of Console::~Console; it then yields until [readFileNo] is -2 and
    [putBusy] is false. *)
Definition close_Console (c : Console) (stdin_busy : bool) : Console * bool :=
  (mkConsole (-1) (-1) (putBusy c) (incoming c),
   if readFileNo c =? 0 then false else stdin_busy).
Definition still_open (c : Console) : bool := negb (readFileNo c =? -2) || putBusy c.

(** Console::CheckCharAvail: the console, the terminal, whether [readHandler] is called. *)
Definition CheckCharAvail (now : Z) (c : Console) (tm : Terminal)
    : Console * Terminal * bool * list (act H) :=
  let again := ASchedule ConsoleReadPoll ConsoleTime ConsoleReadInt in
  let got ch tm := (set_incoming ch c, tm, true, [again; ACount ConsoleCharsRead]) in
  if readFileNo c =? -1 then
    (mkConsole (-2) (writeFileNo c) (putBusy c) (incoming c), tm, false, [])
  else if negb (incoming c =? EOF) || negb (PollFile now tm) then (c, tm, false, [again])
  else
    match ReadPartial tm with
    | (None, tm) => (set_incoming EOF c, tm, true, [again])
    | (Some ch, tm) =>
        if negb (utf8 tm) then got ch tm
        else if Z.land ch 0x80 =? 0 then got ch tm
        else if negb (Z.land ch 0xe0 =? 0xc0) then (c, tm, false, [])
        else if negb (Z.land ch 0x1c =? 0) then (c, tm, false, [])
        else
          match ReadPartial tm with
          | (None, tm) => (set_incoming EOF c, tm, true, [again])
          | (Some d, tm) =>
              if negb (Z.land d 0xc0 =? 0x80) then (c, tm, false, [])
              else got (Z.lor (Z.shiftl (Z.land ch 0x03) 6) d) tm
          end
    end.

(** Console::WriteDone; [writeHandler] is called. *)
Definition WriteDone (c : Console) : Console * list (act H) :=
  (set_putBusy false c, [ACount ConsoleCharsWritten]).

Definition GetChar (c : Console) : Z * Console := (incoming c, set_incoming EOF c).

(** The bytes PutChar writes. *)
Definition put_bytes (utf8 : bool) (ch : Z) : list Z :=
  if (ch <? 0x80) || negb utf8 then [uint8 ch]
  else if ch <? 0x100 then
    [uint8 (Z.lor (Z.shiftr (Z.land ch 0xc0) 6) 0xc0); uint8 (Z.lor (Z.land ch 0x3f) 0x80)]
  else [].

Definition PutChar (ch : Z) (c : Console) (tm : Terminal)
    : res (Console * Terminal * list (act H)) :=
  let? _ := ASSERT (negb (putBusy c)) in
  Ok (set_putBusy true c, WriteFile (put_bytes (utf8 tm) ch) tm,
      [ASchedule ConsoleWriteDone ConsoleTime ConsoleWriteInt]).

(** ** Facts *)

Lemma CheckCharAvail_acts now c tm :
  Forall act_ok (CheckCharAvail now c tm).2.
Proof.
  unfold CheckCharAvail. repeat (case_match; simpl); subst; repeat constructor.
Qed.

(** How a Latin-1 character is written: as itself, or in UTF-8 as two bytes that the poll
    recognises. *)
Definition decodes (u : bool) (ch : Z) (l : list Z) : bool :=
  match l with
  | [a] => (a =? ch) && (negb u || (Z.land ch 0x80 =? 0))
  | [a; b] =>
      u && negb (Z.land a 0x80 =? 0) && (Z.land a 0xe0 =? 0xc0) && (Z.land a 0x1c =? 0) &&
      (Z.land b 0xc0 =? 0x80) && (Z.lor (Z.shiftl (Z.land a 0x03) 6) b =? ch)
  | _ => false
  end.

Lemma put_bytes_decodes u ch : 0 ≤ ch < 256 → decodes u ch (put_bytes u ch) = true.
Proof.
  intros Hch. assert (Hall : forallb (λ ch, decodes u ch (put_bytes u ch)) (seqZ 0 256) = true)
    by by destruct u; vm_compute.
  apply (proj1 (forallb_forall _ _) Hall), list_elem_of_In, elem_of_seqZ. lia.
Qed.

(** What the bytes typed at a keyboard say, when all of it is Latin-1. *)
Fixpoint typed (u : bool) (l : list Z) : option (list Z) :=
  match l with
  | [] => Some []
  | a :: l' =>
      if (0 <=? a) && decodes u a [a] then (a ::.) <$> typed u l'
      else
        match l' with
        | b :: l'' =>
            let ch := Z.lor (Z.shiftl (Z.land a 0x03) 6) b in
            if (0 <=? ch) && decodes u ch [a; b] then (ch ::.) <$> typed u l'' else None
        | [] => None
        end
  end.

Lemma typed_put u l : Forall (λ ch, 0 ≤ ch < 256) l → typed u (l ≫= put_bytes u) = Some l.
Proof.
  induction 1 as [|ch l Hch _ IH]; [done|]. cbn [mbind list_bind] in *. pose proof (put_bytes_decodes u ch Hch) as Hd.
  destruct (put_bytes u ch) as [|a [|b [|? ?] ] ]; try done; cbn [app typed].
  - apply andb_true_iff in Hd as [Ha%Z.eqb_eq Hb]. subst a. rewrite (proj2 (Z.leb_le _ _)) by lia.
    cbn [decodes]. rewrite Z.eqb_refl. cbn [andb]. by rewrite Hb, IH.
  - pose proof Hd as Hd'. cbn [decodes] in Hd. rewrite !andb_true_iff, negb_true_iff in Hd.
    destruct Hd as (((((Hu & Ha) & _) & _) & _) & He%Z.eqb_eq).
    replace (decodes u a [a]) with false by (cbn; by rewrite Hu, Ha, andb_false_r). rewrite andb_false_r, He.
    rewrite (proj2 (Z.leb_le _ _)) by lia. cbn [andb]. by rewrite Hd', IH.
Qed.

(** A poll of such a keyboard with room in the buffer. *)
Lemma CheckCharAvail_typed now c tm s :
  readFileNo c ≠ -1 → incoming c = EOF → closed tm = false → typed (utf8 tm) (keyboard tm).*2 = Some s →
  if PollFile now tm then
    ∃ ch s' tm', s = ch :: s' ∧ 0 ≤ ch ∧ typed (utf8 tm') (keyboard tm').*2 = Some s' ∧ closed tm' = false ∧
      CheckCharAvail now c tm =
        (set_incoming ch c, tm', true, [ASchedule ConsoleReadPoll ConsoleTime ConsoleReadInt; ACount ConsoleCharsRead])
  else CheckCharAvail now c tm = (c, tm, false, [ASchedule ConsoleReadPoll ConsoleTime ConsoleReadInt]).
Proof.
  intros Hr Hi Hc Ht. destruct tm as [kb cl dp u]. cbn [keyboard closed utf8] in *. subst cl.
  unfold CheckCharAvail. rewrite (proj2 (Z.eqb_neq _ _) Hr), Hi. cbn [Z.eqb EOF negb orb].
  destruct (PollFile _ _) eqn:Hp; [|done]. cbn [negb]. unfold PollFile in Hp. cbn [keyboard closed] in Hp.
  destruct kb as [|[t a] kb]; [done|]. cbn [ReadPartial keyboard closed display utf8] in *. cbn [fmap list_fmap typed snd] in Ht.
  destruct ((0 <=? a) && decodes u a [a]) eqn:Ha.
  - apply andb_true_iff in Ha as [Ha0%Z.leb_le Ha]. apply fmap_Some in Ht as (s' & Hs' & ->).
    cbn [decodes] in Ha. rewrite Z.eqb_refl in Ha. cbn [andb] in Ha.
    exists a, s', (mkTerminal kb false dp u). split; [done|]. split; [done|]. split; [done|]. split; [done|].
    destruct u; cbn [negb orb] in *; [by rewrite Ha|done].
  - destruct kb as [|[t' b] kb]; [done|]. cbn [fmap list_fmap snd] in Ht. set (ch := Z.lor _ b) in *.
    destruct ((0 <=? ch) && decodes u ch [a; b]) eqn:Hch; [|done].
    apply andb_true_iff in Hch as [Hch0%Z.leb_le Hch]. apply fmap_Some in Ht as (s' & Hs' & ->).
    exists ch, s', (mkTerminal kb false dp u). split; [done|]. split; [done|]. split; [done|]. split; [done|].
    cbn [decodes] in Hch. rewrite !andb_true_iff, negb_true_iff in Hch.
    destruct Hch as (((((Hu & H1) & H2) & H3) & H4) & _). rewrite Hu. cbn [negb]. rewrite H1, H2, H3.
    cbn [negb ReadPartial keyboard closed display utf8]. by rewrite H4.
Qed.

(** What PutChar writes of a Latin-1 character, typed at the keyboard of another
    console, arrives there as the same character, in a UTF-8 locale (one or two bytes) and
    in an 8-bit one: the poll buffers it, calls the read handler, counts it and polls
    again. *)
Theorem typed_is_put ch now c tm :
  0 ≤ ch < 256 → readFileNo c ≠ -1 → incoming c = EOF →
  keyboard tm = (λ b, (now, b)) <$> put_bytes (utf8 tm) ch →
  ∃ tm', CheckCharAvail now c tm =
      (set_incoming ch c, tm', true,
       [ASchedule ConsoleReadPoll ConsoleTime ConsoleReadInt; ACount ConsoleCharsRead]) ∧
    keyboard tm' = [].
Proof.
  intros Hch Hr Hi Hk. unfold CheckCharAvail, PollFile.
  rewrite (proj2 (Z.eqb_neq _ _) Hr), Hi.
  pose proof (put_bytes_decodes (utf8 tm) ch Hch) as Hd. unfold ReadPartial. rewrite Hk.
  destruct (put_bytes (utf8 tm) ch) as [|a [|b [|? ?] ] ]; try done; cbn [fmap list_fmap];
    rewrite Z.leb_refl; cbn [Z.eqb EOF negb orb utf8 keyboard].
  - apply andb_true_iff in Hd as [Ha%Z.eqb_eq Hb]. subst a. destruct (utf8 tm); cbn [negb].
    + simpl in Hb. rewrite Hb. by eexists.
    + by eexists.
  - cbn [decodes] in Hd. rewrite !andb_true_iff, negb_true_iff in Hd.
    destruct Hd as (((((-> & ->) & ->) & ->) & ->) & <-%Z.eqb_eq). by eexists.
Qed.

(** A byte that is not the beginning of a Latin-1 character, or not a continuation, is
    dropped and the console is not polled again. *)
Lemma dropped_is_deaf now c tm t ch l :
  readFileNo c ≠ -1 → incoming c = EOF → keyboard tm = (t, ch) :: l → t ≤ now → utf8 tm = true →
  Z.land ch 0x80 ≠ 0 → Z.land ch 0xe0 ≠ 0xc0 ∨ Z.land ch 0x1c ≠ 0 →
  ∃ tm', CheckCharAvail now c tm = (c, tm', false, []).
Proof.
  intros Hr Hi Hk Ht Hu Hc Hd. unfold CheckCharAvail, PollFile, ReadPartial.
  rewrite (proj2 (Z.eqb_neq _ _) Hr), Hi, Hk, (proj2 (Z.leb_le _ _) Ht).
  cbn [Z.eqb EOF negb orb utf8]. rewrite Hu, (proj2 (Z.eqb_neq _ _) Hc). cbn [negb].
  destruct (Z.eqb_spec (Z.land ch 0xe0) 0xc0); cbn [negb]; [|by eexists].
  destruct Hd as [?|Hd]; [done|]. rewrite (proj2 (Z.eqb_neq _ _) Hd). by eexists.
Qed.
End Console.

Lemma typed_is_put_witness :
  ∃ tm', CheckCharAvail tt 700 (mkConsole 0 1 false EOF) (mkTerminal [(700, 0xc3); (700, 0xa9)] false [] true) =
      (mkConsole 0 1 false 0xe9, tm', true,
       [ASchedule tt ConsoleTime ConsoleReadInt; ACount ConsoleCharsRead]) ∧ keyboard tm' = [].
Proof.
  apply (typed_is_put tt 0xe9 700 (mkConsole 0 1 false EOF) (mkTerminal [(700, 0xc3); (700, 0xa9)] false [] true));
    [lia|done|done|by vm_compute].
Defined.
