(* ===== verification/Network.v ===== *)
(** * The network (machine/network.cc) and the messages of the post office (network/post.h)

    Packets go over a host socket as buffers of [MaxWireSize] bytes. The socket's side is
    in the record: what arrives on it and when, and what has been sent. *)
From Stdlib Require Export QArith.
From S2P Require Import Prelude Words Interrupt.
#[global] Open Scope Z_scope.

Definition MaxWireSize : Z := 64.
Definition sizeof_PacketHeader : Z := 12.
Definition MaxPacketSize : Z := MaxWireSize - sizeof_PacketHeader.
Definition sizeof_MailHeader : Z := 12.
Definition MaxMailSize : Z := MaxPacketSize - sizeof_MailHeader.

(** class PacketHeader and class MailHeader: two [int] addresses and an unsigned length. *)
Record Header := mkHeader { to : Z; from : Z; length_ : Z }.

Definition header_bytes (h : Header) : list Z :=
  int_bytes (to h) ++ int_bytes (from h) ++ int_bytes (length_ h).
Definition header_of (b : list Z) : Header :=
  mkHeader (bytes_int (take 4 b)) (bytes_int (take 4 (drop 4 b))) (bytes_uint (take 4 (drop 8 b))).

Definition header_wf (h : Header) : Prop :=
  is_int32 (to h) ∧ is_int32 (from h) ∧ is_uint32 (length_ h).

(** [bcopy(src, dst + at, n)] *)
Definition bcopy (src : list Z) (n : Z) (dst : list Z) (at_ : Z) : res (list Z) :=
  if bool_decide (n ≤ Z.of_nat (length src) ∧ at_ + n ≤ Z.of_nat (length dst)) then
    Ok (take (Z.to_nat at_) dst ++ take (Z.to_nat n) src ++ drop (Z.to_nat (at_ + n)) dst)
  else Fail MemoryFault.

Record Network := mkNetwork {
  ident : Z;
  chanceToWork : Q;
  sendBusy : bool;
  inHdr : Header;
  inbox : list Z;
  arriving : list (Z * list Z);    (** when, and the buffer *)
  sent : list (Z * list Z) }.      (** the address in the socket name, and the buffer *)

Section Network.
Context {H : Type} (NetworkReadPoll NetworkSendDone : H).

(** Network::Network; the inbox and the addresses of [inHdr] are what [new] left. *)
Definition new_Network (addr : Z) (reliability : Q) (garbage : list Z) (a b : Z) (arr : list (Z * list Z))
    : Network * list (act H) :=
  let chance := if Qle_bool 0 reliability then
                  if Qle_bool reliability 1 then reliability else 1%Q
                else 0%Q in
  (mkNetwork addr chance false (mkHeader a b 0) garbage arr [],
   [ASchedule NetworkReadPoll NetworkTime NetworkRecvInt]).

Definition PollSocket (now : Z) (n : Network) : bool :=
  match arriving n with (t, _) :: _ => t <=? now | [] => false end.

(** Network::CheckPktAvail; the boolean is whether [readHandler] is called. *)
Definition CheckPktAvail (now : Z) (n : Network) : res (Network * bool * list (act H)) :=
  let again := ASchedule NetworkReadPoll NetworkTime NetworkRecvInt in
  if negb (length_ (inHdr n) =? 0) then Ok (n, false, [again])
  else if negb (PollSocket now n) then Ok (n, false, [again])
  else
    match arriving n with
    | [] => Ok (n, false, [again])
    | (_, buffer) :: l =>
        let? _ := ASSERT (Z.of_nat (length buffer) =? MaxWireSize) in
        let h := header_of buffer in
        let? _ := ASSERT ((to h =? ident n) && (length_ h <=? MaxPacketSize)) in
        let? box := bcopy (drop (Z.to_nat sizeof_PacketHeader) buffer) (length_ h) (inbox n) 0 in
        Ok (mkNetwork (ident n) (chanceToWork n) (sendBusy n) h box l (sent n), true,
            [again; ACount PacketsRecvd])
    end.

(** Network::SendDone; [writeHandler] is called. *)
Definition SendDone (n : Network) : Network * list (act H) :=
  (mkNetwork (ident n) (chanceToWork n) false (inHdr n) (inbox n) (arriving n) (sent n),
   [ACount PacketsSent]).

(** Network::Send; [rnd] is what [Random()] returns, [garbage] the new buffer. *)
Definition Send (hdr : Header) (data garbage : list Z) (rnd : Z) (n : Network)
    : res (Network * list (act H)) :=
  let? _ := ASSERT (negb (sendBusy n) && (length_ hdr >? 0) && (length_ hdr <=? MaxPacketSize) &&
                    (from hdr =? ident n)) in
  (* sendBusy is never set *)
  let acts := [ASchedule NetworkSendDone NetworkTime NetworkSendInt] in
  if Qle_bool (chanceToWork n * 100)%Q (inject_Z (rnd mod 100)) then Ok (n, acts)
  else
    let buffer := header_bytes hdr ++ drop (Z.to_nat sizeof_PacketHeader) garbage in
    let? buffer := bcopy data (length_ hdr) buffer sizeof_PacketHeader in
    Ok (mkNetwork (ident n) (chanceToWork n) (sendBusy n) (inHdr n) (inbox n) (arriving n)
          (sent n ++ [(to hdr, buffer)]), acts).

(** Network::Receive *)
Definition Receive (data : list Z) (n : Network) : res (Header * list Z * Network) :=
  let hdr := inHdr n in
  let n' := mkNetwork (ident n) (chanceToWork n) (sendBusy n) (mkHeader (to hdr) (from hdr) 0)
              (inbox n) (arriving n) (sent n) in
  if length_ hdr =? 0 then Ok (hdr, data, n')
  else let? data := bcopy (inbox n) (length_ hdr) data 0 in Ok (hdr, data, n').
End Network.

(** ** Facts *)

Lemma length_header_bytes h : length (header_bytes h) = 12%nat.
Proof. unfold header_bytes. rewrite !length_app. unfold int_bytes. by rewrite !length_le_bytes. Qed.

Lemma header_of_bytes h rest : header_wf h → header_of (header_bytes h ++ rest) = h.
Proof.
  intros (Ht & Hf & Hl). unfold header_of, header_bytes.
  assert (H4 : ∀ z, length (int_bytes z) = 4%nat) by (intros z; apply length_le_bytes).
  rewrite <- !app_assoc.
  rewrite (take_app_length' (int_bytes (to h))) by by rewrite H4.
  rewrite (drop_app_length' (int_bytes (to h))) by by rewrite H4.
  rewrite (take_app_length' (int_bytes (from h))) by by rewrite H4.
  replace (drop 8 _) with (int_bytes (length_ h) ++ rest).
  - rewrite take_app_length' by by rewrite H4.
    rewrite !bytes_int_bytes, bytes_uint_bytes by done. by destruct h.
  - rewrite app_assoc, drop_app_length' by (rewrite length_app, !H4; lia). done.
Qed.

Lemma bcopy_ok src n dst at_ :
  0 ≤ n ≤ Z.of_nat (length src) → 0 ≤ at_ → at_ + n ≤ Z.of_nat (length dst) →
  ∃ r, bcopy src n dst at_ = Ok r ∧ length r = length dst ∧
    take (Z.to_nat n) (drop (Z.to_nat at_) r) = take (Z.to_nat n) src ∧
    take (Z.to_nat at_) r = take (Z.to_nat at_) dst.
Proof.
  intros Hs Ha Hd. unfold bcopy. rewrite bool_decide_true by lia. eexists. split; [reflexivity|].
  assert (H1 : length (take (Z.to_nat at_) dst) = Z.to_nat at_) by (rewrite length_take; lia).
  assert (H2 : length (take (Z.to_nat n) src) = Z.to_nat n) by (rewrite length_take; lia).
  split; [|split].
  - rewrite !length_app, H1, H2, length_drop. lia.
  - rewrite drop_app_length' by done. by rewrite take_app_length'.
  - by rewrite take_app_length'.
Qed.

Section Facts.
Context {H : Type} (NetworkReadPoll NetworkSendDone : H).

(** What is on its way to this machine, as other machines send it. *)
Definition packet_ok (id : Z) (p : Z * list Z) : Prop :=
  Z.of_nat (length p.2) = MaxWireSize ∧ to (header_of p.2) = id ∧
  0 ≤ length_ (header_of p.2) ≤ MaxPacketSize.

Record network_wf (n : Network) : Prop := {
  nw_inbox : Z.of_nat (length (inbox n)) = MaxPacketSize;
  nw_hdr : 0 ≤ length_ (inHdr n) ≤ MaxPacketSize;
  nw_arriving : Forall (packet_ok (ident n)) (arriving n);
}.

Lemma CheckPktAvail_ok now n :
  network_wf n → ∃ n' b acts, CheckPktAvail NetworkReadPoll now n = Ok (n', b, acts) ∧
    network_wf n' ∧ Forall act_ok acts.
Proof.
  intros Hw. pose proof Hw as [Hi Hh Ha]. unfold CheckPktAvail.
  assert (Hact : Forall act_ok [ASchedule NetworkReadPoll NetworkTime NetworkRecvInt]) by (repeat constructor).
  destruct (negb (length_ (inHdr n) =? 0)); [by eauto 10|].
  destruct (negb (PollSocket now n)); [by eauto 10|].
  destruct (arriving n) as [|[t b] l]; [by eauto 10|].
  apply Forall_cons in Ha as [ (H1 & H2 & H3) Hl]. cbn [snd] in *.
  rewrite H1, Z.eqb_refl. cbn [ASSERT res_bind]. rewrite H2, Z.eqb_refl, (proj2 (Z.leb_le _ _)) by lia.
  cbn [andb ASSERT res_bind].
  unfold MaxPacketSize, MaxWireSize, sizeof_PacketHeader in *.
  destruct (bcopy_ok (drop (Z.to_nat 12) b) (length_ (header_of b)) (inbox n) 0) as (r & -> & Hr & _);
    [rewrite length_drop; lia|lia|lia|]. cbn [res_bind].
  eexists _, _, _. split; [reflexivity|]. split; [|repeat constructor].
  split; cbn [inbox inHdr arriving ident]; unfold MaxPacketSize, MaxWireSize, sizeof_PacketHeader; [lia|lia|done].
Qed.

(** What Send puts on the socket, delivered at the address it names, is the packet. *)
Lemma sent_is_received n m hdr data garbage rnd t now :
  header_wf hdr → 0 < length_ hdr ≤ MaxPacketSize → from hdr = ident n → sendBusy n = false →
  length_ hdr ≤ Z.of_nat (length data) → Z.of_nat (length garbage) = MaxWireSize →
  Qle_bool (chanceToWork n * 100) (inject_Z (rnd mod 100)) = false →
  network_wf m → to hdr = ident m → length_ (inHdr m) = 0 → t ≤ now →
  ∃ n' acts b, Send NetworkSendDone hdr data garbage rnd n = Ok (n', acts) ∧ sent n' = sent n ++ [(to hdr, b)] ∧
    ∀ l buf, arriving m = (t, b) :: l → Z.of_nat (length buf) = MaxPacketSize →
    ∃ m' r m'', CheckPktAvail NetworkReadPoll now m =
        Ok (m', true, [ASchedule NetworkReadPoll NetworkTime NetworkRecvInt; ACount PacketsRecvd]) ∧
      Receive buf m' = Ok (hdr, r, m'') ∧
      take (Z.to_nat (length_ hdr)) r = take (Z.to_nat (length_ hdr)) data ∧ length_ (inHdr m'') = 0.
Proof.
  intros Hwf Hl Hfr Hb Hd Hg Hq [Hi Hh Ha] Hto Hz Ht. unfold MaxPacketSize, MaxWireSize, sizeof_PacketHeader in *.
  unfold Send. rewrite Hb, Hfr, Z.eqb_refl, (proj2 (Z.leb_le (length_ hdr) _)), (proj2 (Z.gtb_lt (length_ hdr) 0))
    by (unfold MaxPacketSize, MaxWireSize, sizeof_PacketHeader; lia).
  cbn [negb andb ASSERT res_bind]. rewrite Hq. change sizeof_PacketHeader with 12.
  assert (Hlen : Z.of_nat (length (header_bytes hdr ++ drop (Z.to_nat 12) garbage)) = 64).
  { rewrite length_app, length_header_bytes, length_drop. lia. }
  destruct (bcopy_ok data (length_ hdr) (header_bytes hdr ++ drop (Z.to_nat 12) garbage) 12)
    as (b & -> & Hlb & Hb1 & Hb2); [lia..|]. cbn [res_bind].
  eexists _, _, b. split; [reflexivity|]. split; [done|]. intros l buf Harr Hbuf.
  assert (Hhdr : header_of b = hdr).
  { rewrite <- (take_drop (Z.to_nat 12) b), Hb2, take_app_length' by by rewrite length_header_bytes.
    by apply header_of_bytes. }
  unfold CheckPktAvail, PollSocket. rewrite Hz, Harr, (proj2 (Z.leb_le _ _) Ht). cbn [Z.eqb negb].
  rewrite Hlb, Hlen, Hhdr, Hto, !Z.eqb_refl. cbn [Z.eqb Pos.eqb MaxWireSize ASSERT res_bind].
  unfold MaxPacketSize, MaxWireSize. change sizeof_PacketHeader with 12.
  rewrite (proj2 (Z.leb_le _ _)) by lia. cbn [andb ASSERT res_bind].
  destruct (bcopy_ok (drop (Z.to_nat 12) b) (length_ hdr) (inbox m) 0) as (box & -> & Hbl & Hbx & _);
    [rewrite length_drop; lia|lia|lia|]. cbn [res_bind].
  destruct (bcopy_ok box (length_ hdr) buf 0) as (r & Er & _ & Hr & _); [lia..|].
  eexists _, _, _. split; [reflexivity|]. unfold Receive. cbn [inHdr inbox].
  rewrite (proj2 (Z.eqb_neq (length_ hdr) 0)) by lia. rewrite Er. cbn [res_bind].
  split; [reflexivity|]. split; [|done].
  rewrite Z2Nat.inj_0, drop_0 in Hr, Hbx. by rewrite Hr, Hbx, Hb1.
Qed.

(** [sendBusy] never guards anything: two packets in a row are sent without waiting. *)
Lemma Send_again hdr data garbage rnd n n1 acts :
  Send NetworkSendDone hdr data garbage rnd n = Ok (n1, acts) → sendBusy n1 = sendBusy n.
Proof.
  unfold Send. intros (u & _ & E)%res_bind_Ok_inv. destruct (Qle_bool _ _); [by injection E as <- <-|].
  apply res_bind_Ok_inv in E as (b & _ & E). by injection E as <- <-.
Qed.
End Facts.
