(* ===== verification/Devices.v ===== *)
(** * The devices of a machine together (machine/timer.cc, and how system.cc, synchdisk.cc,
    synchconsole.cc and post.cc connect Console.v, Disk.v and Network.v to the kernel)

    [fire] is the function each device gives to [Schedule]; the handlers of the kernel it
    calls V the semaphores named here. [dev_op] is what threads ask of the devices. *)
From S2P Require Import Prelude Words LinkedList BitMap SectorIO Interrupt Disk Console Network.
From S2P Require Import Machine MipsSim Threads SchedInv Kernel.

(** The thread "main", the first. *)
Definition main_thread : tid := 1%positive.

(** ** The semaphores and locks of the kernel *)
Definition readAvail : semid := 1%positive.
Definition writeDone : semid := 2%positive.
Definition diskDone : semid := 3%positive.          (** [SynchDisk::semaphore] *)
Definition messageAvailable : semid := 4%positive.
Definition messageSent : semid := 5%positive.
Definition m_readLock : semid := 6%positive.
Definition m_writeLock : semid := 7%positive.
Definition diskLock : semid := 8%positive.          (** [SynchDisk::lock] *)
Definition sendLock : semid := 9%positive.
Definition thread_lock : semid := 10%positive.

(** Those that interrupt handlers V. *)
Definition signalled (s : semid) : Prop :=
  s ∈ [readAvail; writeDone; diskDone; messageAvailable; messageSent].

(** ** State *)

(** Variables of the kernel's own: userthread.cc, exception.cc and post.cc. *)
Record Globals := mkGlobals {
  g_threads : list Z;
  stackMap : BitMap;
  g_threadsIdx : Z;
  netAddr : Z;
  numBoxes : Z;
  boxes : list (list (Header * Header * list Z)) }.

Record Devs := mkDevs {
  randomize : bool;            (** of the timer *)
  rands : list Z;              (** what Random() will return *)
  stdin_busy : bool;
  console : Console;
  terminal : Terminal;
  disk : Disk;
  network : Network;
  globals : Globals }.

Inductive devint :=
  | TimerHandler | ConsoleReadPoll | ConsoleWriteDone | DiskDone | NetworkReadPoll | NetworkSendDone.

#[global] Instance devint_eq_dec : EqDecision devint.
Proof. solve_decision. Defined.

Definition set_rands l (d : Devs) :=
  mkDevs (randomize d) l (stdin_busy d) (console d) (terminal d) (disk d) (network d) (globals d).
Definition set_console b c tm (d : Devs) :=
  mkDevs (randomize d) (rands d) b c tm (disk d) (network d) (globals d).
Definition set_disk k (d : Devs) :=
  mkDevs (randomize d) (rands d) (stdin_busy d) (console d) (terminal d) k (network d) (globals d).
Definition set_network n (d : Devs) :=
  mkDevs (randomize d) (rands d) (stdin_busy d) (console d) (terminal d) (disk d) n (globals d).
Definition set_globals g (d : Devs) :=
  mkDevs (randomize d) (rands d) (stdin_busy d) (console d) (terminal d) (disk d) (network d) g.

(** ** class Timer *)

Definition Random (d : Devs) : Z * Devs :=
  match rands d with [] => (0, d) | r :: l => (r, set_rands l d) end.

Definition TimeOfNextInterrupt (d : Devs) : Z * Devs :=
  if randomize d then
    let '(r, d) := Random d in (1 + Z.rem r (TimerTicks * 2), d)
  else (TimerTicks, d).

(** Timer::Timer *)
Definition new_Timer (doRandom : bool) (d : Devs) : Devs * list (act devint) :=
  let d := mkDevs doRandom (rands d) (stdin_busy d) (console d) (terminal d) (disk d) (network d) (globals d) in
  let '(t, d) := TimeOfNextInterrupt d in
  (d, [ASchedule TimerHandler t TimerInt]).

(** system.cc; handlers run in [SystemMode]. *)
Definition TimerInterruptHandler (st : MachineStatus) : list (act devint) :=
  if negb (bool_decide (st = IdleMode)) then [AYieldOnReturn] else [].

Definition TimerExpired (d : Devs) : Devs * list (act devint) :=
  let '(t, d) := TimeOfNextInterrupt d in
  (d, ASchedule TimerHandler t TimerInt :: TimerInterruptHandler SystemMode).

(** ** Interrupts and requests *)

Inductive devop :=
  | TimerStart (doRandom : bool)
  | ConsoleOpen (readFile writeFile : option Z)
  | ConsoleClose
  | ConsolePutChar (ch : Z)
  | ConsoleGetChar
  | DiskRead (sector : Z)
  | DiskWrite (sector : Z) (data : list Z)
  | NetworkSend (hdr : Header) (data garbage : list Z)
  | NetworkReceive (buffer : list Z)
  | SetGlobals (f : Globals → Globals).

#[export] Instance nachos_devices : Devices devint Devs devop := {
  fire h t d :=
    match h with
    | TimerHandler => let '(d, acts) := TimerExpired d in Ok (d, [], acts)
    | ConsoleReadPoll =>
        let '(c, tm, called, acts) := CheckCharAvail ConsoleReadPoll t (console d) (terminal d) in
        Ok (set_console (stdin_busy d) c tm d, if called : bool then [readAvail] else [], acts)
    | ConsoleWriteDone =>
        let '(c, acts) := WriteDone (console d) in
        Ok (set_console (stdin_busy d) c (terminal d) d, [writeDone], acts)
    | DiskDone => Ok (set_disk (HandleInterrupt (disk d)) d, [diskDone], [])
    | NetworkReadPoll =>
        let? r := CheckPktAvail NetworkReadPoll t (network d) in
        let '(n, called, acts) := r in
        Ok (set_network n d, if called : bool then [messageAvailable] else [], acts)
    | NetworkSendDone =>
        let '(n, acts) := SendDone (network d) in
        Ok (set_network n d, [messageSent], acts)
    end;
  dev_op o t d :=
    match o with
    | TimerStart r => Ok (new_Timer r d)
    | ConsoleOpen rf wf =>
        let? r := new_Console ConsoleReadPoll rf wf (stdin_busy d) in
        let '(c, b, acts) := r in Ok (set_console b c (terminal d) d, acts)
    | ConsoleClose =>
        let '(c, b) := close_Console (console d) (stdin_busy d) in
        Ok (set_console b c (terminal d) d, [])
    | ConsolePutChar ch =>
        let? r := PutChar ConsoleWriteDone ch (console d) (terminal d) in
        let '(c, tm, acts) := r in Ok (set_console (stdin_busy d) c tm d, acts)
    | ConsoleGetChar =>
        Ok (set_console (stdin_busy d) (GetChar (console d)).2 (terminal d) d, [])
    | DiskRead n =>
        let? r := ReadRequest DiskDone t n (disk d) in
        Ok (set_disk r.1.2 d, r.2)
    | DiskWrite n data =>
        (* the buffer of the caller holds a sector *)
        if bool_decide (length data = Z.to_nat SectorSize) then
          let? r := WriteRequest DiskDone t n data (disk d) in Ok (set_disk r.1 d, r.2)
        else Fail MemoryFault
    | NetworkSend hdr data garbage =>
        let '(rnd, d) := Random d in
        let? r := Send NetworkSendDone hdr data garbage rnd (network d) in
        Ok (set_network r.1 d, r.2)
    | NetworkReceive buffer =>
        let? r := Receive buffer (network d) in Ok (set_network r.2 d, [])
    | SetGlobals f => Ok (set_globals (f (globals d)) d, [])
    end;
}.

(** ** What the kernel relies on *)

Record devs_wf (d : Devs) : Prop := {
  dv_rands : Forall (λ r, 0 ≤ r) (rands d);
  dv_disk : disk_wf (disk d);
  dv_network : network_wf (network d);
}.

Lemma TimeOfNextInterrupt_ok d :
  devs_wf d → 1 ≤ (TimeOfNextInterrupt d).1 ≤ 200 ∧ devs_wf (TimeOfNextInterrupt d).2.
Proof.
  intros Hd. pose proof Hd as [Hr Hk Hn]. unfold TimeOfNextInterrupt, Random, TimerTicks.
  destruct (randomize d); [|done]. destruct (rands d) as [|r l] eqn:Hl; simpl; [done|].
  apply Forall_cons in Hr as [Hr Hl']. rewrite Z.rem_mod_nonneg by lia.
  change (100 * 2) with 200. pose proof (Z.mod_pos_bound r 200). split; [lia|by split].
Qed.

Lemma signalled_ok s : s ∈ [readAvail; writeDone; diskDone; messageAvailable; messageSent] → signalled s.
Proof. done. Qed.

Lemma fire_devs_ok h t d : devs_wf d → ∃ d' vs acts,
  fire h t d = Ok (d', vs, acts) ∧ devs_wf d' ∧ Forall signalled vs ∧ Forall act_ok acts.
Proof.
  intros Hd. pose proof Hd as [Hr Hk Hn].
  assert (Hs : ∀ s b, signalled s → Forall signalled (if b : bool then [s] else [])) by (intros ? []; auto).
  destruct h; cbn [fire nachos_devices].
  - pose proof (TimeOfNextInterrupt_ok d Hd) as [Ht Hd']. unfold TimerExpired.
    destruct (TimeOfNextInterrupt d) as [n d']. cbn [fst snd] in *. eexists _, _, _. split; [reflexivity|].
    split; [done|]. split; [done|]. repeat constructor. simpl. lia.
  - pose proof (CheckCharAvail_acts ConsoleReadPoll t (console d) (terminal d)) as Ha.
    destruct (CheckCharAvail _ t _ _) as [ [ [c tm] called] acts]. eexists _, _, _. split; [reflexivity|].
    split; [by split|]. split; [|done]. apply Hs, signalled_ok. set_solver.
  - eexists _, _, _. split; [reflexivity|]. split; [by split|]. split; repeat constructor.
  - eexists _, _, _. split; [reflexivity|]. split; [destruct Hk; by split|].
    split; repeat constructor.
  - destruct (CheckPktAvail_ok NetworkReadPoll t (network d) Hn) as (n & b & acts & -> & Hn' & Ha).
    eexists _, _, _. split; [reflexivity|]. split; [by split|]. split; [|done]. apply Hs, signalled_ok. set_solver.
  - eexists _, _, _. split; [reflexivity|]. split; [split; try done; by destruct Hn|].
    split; repeat constructor.
Qed.

Lemma Receive_wf buf n h r n' : network_wf n → Receive buf n = Ok (h, r, n') → network_wf n'.
Proof.
  intros [H1 H2 H3]. unfold Receive. intros E.
  assert (n' = mkNetwork (ident n) (chanceToWork n) (sendBusy n) (mkHeader (to (inHdr n)) (from (inHdr n)) 0)
              (inbox n) (arriving n) (sent n)) as ->.
  { destruct (_ =? _); [by injection E|]. apply res_bind_Ok_inv in E as (? & _ & E). by injection E. }
  split; simpl; [done|vm_compute; intuition discriminate|done].
Qed.

Lemma Send_wf {H} (NetworkSendDone : H) hdr data garbage rnd n n' acts :
  network_wf n → Send NetworkSendDone hdr data garbage rnd n = Ok (n', acts) →
  network_wf n' ∧ acts = [ASchedule NetworkSendDone NetworkTime NetworkSendInt].
Proof.
  intros [H1 H2 H3]. unfold Send. intros (u & _ & E)%res_bind_Ok_inv. destruct (Qle_bool _ _).
  - by injection E as <- <-.
  - apply res_bind_Ok_inv in E as (b & _ & E). by injection E as <- <-.
Qed.

Lemma request_legal k s : active k = false ∧ valid_sector s ∨ (active k = true ∨ ¬ valid_sector s).
Proof. destruct (active k); [auto|]. destruct (decide (0 ≤ s ∧ s < NumSectors)); auto. Qed.

Lemma dev_op_devs_ok o t d d' acts : devs_wf d → 0 ≤ t → dev_op o t d = Ok (d', acts) →
  devs_wf d' ∧ Forall act_ok acts ∧ AYieldOnReturn ∉ acts.
Proof.
  intros Hd Ht E. pose proof Hd as [Hr Hk Hn].
  assert (Hone : ∀ h n ty, 0 < n → Forall act_ok [ASchedule (H := devint) h n ty] ∧ AYieldOnReturn ∉ [ASchedule h n ty]).
  { intros h n ty Hn'. split; [by repeat constructor|]. by intros ?%list_elem_of_singleton. }
  assert (Htwo : ∀ c h n ty, 0 < n → Forall act_ok [ACount (H := devint) c; ASchedule h n ty] ∧
    AYieldOnReturn ∉ [ACount c; ASchedule h n ty]).
  { intros c h n ty Hn'. split; [by repeat constructor|]. set_solver. }
  assert (Hnil : Forall act_ok ([] : list (act devint)) ∧ AYieldOnReturn ∉ ([] : list (act devint))) by (split; [done|set_solver]).
  destruct o; cbn [dev_op nachos_devices] in E.
  - injection E as E. unfold new_Timer in E.
    set (d0 := mkDevs doRandom (rands d) (stdin_busy d) (console d) (terminal d) (disk d) (network d) (globals d)) in *.
    destruct (TimeOfNextInterrupt_ok d0) as [Hn' Hd0]; [by split|].
    destruct (TimeOfNextInterrupt d0) as [n d1]. injection E as <- <-. cbn [fst snd] in *. split; [done|]. apply Hone. lia.
  - apply res_bind_Ok_inv in E as ([ [c b] a] & E1 & E). injection E as <- <-. split; [by split|].
    unfold new_Console in E1. apply res_bind_Ok_inv in E1 as (rb & _ & E1). injection E1 as _ _ <-. by apply Hone.
  - destruct (close_Console _ _). injection E as <- <-. split; [by split|done].
  - apply res_bind_Ok_inv in E as ([ [c tm] a] & E1 & E). injection E as <- <-. split; [by split|].
    unfold PutChar in E1. apply res_bind_Ok_inv in E1 as (u & _ & E1). injection E1 as _ _ <-. by apply Hone.
  - injection E as <- <-. split; [by split|done].
  - apply res_bind_Ok_inv in E as ([ [x k] a] & E1 & E). injection E as <- <-. cbn [fst snd].
    destruct (request_legal (disk d) sector) as [ [Ha Hs]|Hb].
    + destruct (ReadRequest_ok DiskDone t sector (disk d) Hk Ha Hs Ht) as (k' & n & E2 & Hn' & Hk' & _).
      rewrite E1 in E2. injection E2 as -> -> ->. split; [by split|]. apply Htwo. lia.
    + by rewrite ReadRequest_busy in E1.
  - case_bool_decide as Hl; [|done].
    apply res_bind_Ok_inv in E as ([k a] & E1 & E). injection E as <- <-. cbn [fst snd].
    destruct (request_legal (disk d) sector) as [ [Ha Hs]|Hb].
    + destruct (WriteRequest_ok DiskDone t sector data (disk d) Hk Ha Hs Ht Hl) as (k' & n & E2 & Hn' & Hk' & _).
      rewrite E1 in E2. injection E2 as -> ->. split; [by split|]. apply Htwo. lia.
    + by rewrite WriteRequest_busy in E1.
  - destruct (Random d) as [rnd d0] eqn:Er. assert (Hd0 : devs_wf d0 ∧ network d0 = network d).
    { unfold Random in Er. destruct (rands d) as [|x l] eqn:El; injection Er as <- <-; [done|].
      apply Forall_cons in Hr as [_ Hl]. by split. }
    destruct Hd0 as [ [Hr0 Hk0 Hn0] Hnet]. rewrite Hnet in *.
    apply res_bind_Ok_inv in E as ([n a] & E1 & E). injection E as <- <-.
    destruct (Send_wf _ _ _ _ _ _ _ _ Hn E1) as [Hn' ->]. split; [by split|]. by apply Hone.
  - apply res_bind_Ok_inv in E as ([ [h r] n] & E1 & E). injection E as <- <-.
    split; [|done]. split; try done. exact (Receive_wf _ _ _ _ _ Hn E1).
  - injection E as <- <-. split; [by split|done].
Qed.

#[export] Instance nachos_laws : DeviceLaws nachos_devices devs_wf signalled.
Proof. split; [apply fire_devs_ok|apply dev_op_devs_ok]. Qed.
