(* ===== verification/Solo.v ===== *)
(** * A thread on its own, at work with a device

    SynchDisk and SynchConsole make requests to a device the same way: a lock is held, the
    device is started, a semaphore tells when it is done. A [Duty] names the interrupt, the
    semaphore and the lock, and looks at the device through [du_busy] and [du_view]. On a
    machine with one thread and no timer the semaphore is passed once the interrupt has
    come, and meanwhile nothing else changes: not the view, nor the registers of a user
    program whose delayed load has been done. *)
From S2P Require Import Prelude Words LinkedList BitMap Interrupt Pending Disk Console Network.
From S2P Require Import Machine MipsSim Threads SchedInv Kernel KernelSteps Programs Devices.

Abbreviation nachos := (World devint (KState Devs)).
Abbreviation winv := (Kernel.winv (DI := devs_wf) (irq := signalled)).
Abbreviation rinv := (Kernel.rinv (DI := devs_wf) (irq := signalled)).

(** ** What a device promises *)

(** The semaphore an interrupt ends in. *)
Definition signal_of (h : devint) : option semid :=
  match h with
  | TimerHandler => None
  | ConsoleReadPoll => Some readAvail
  | ConsoleWriteDone => Some writeDone
  | DiskDone => Some diskDone
  | NetworkReadPoll => Some messageAvailable
  | NetworkSendDone => Some messageSent
  end.

(** An interrupt asks for nothing but itself again. *)
Definition own (h0 : devint) (a : act devint) : Prop :=
  match a with ASchedule h _ ty => h = h0 ∧ ty ≠ TimerInt | AYieldOnReturn => False | ACount _ => True end.

(** The keyboard's side of the console and of the host. *)
Definition keyboard_side (d : Devs) : Z * Z * list (Z * Z) * bool :=
  (readFileNo (console d), incoming (console d), keyboard (terminal d), closed (terminal d)).

(** What interrupts other than the timer's do to the devices. *)
Record fire_frame (h : devint) (d d' : Devs) (vs : list semid) (acts : list (act devint)) : Prop := {
  ff_vs : Forall (λ s, signal_of h = Some s) vs;
  ff_acts : Forall (own h) acts;
  ff_disk : h ≠ DiskDone → disk d' = disk d;
  ff_busy : h ≠ ConsoleWriteDone → putBusy (console d') = putBusy (console d);
  ff_read : h ≠ ConsoleReadPoll → keyboard_side d' = keyboard_side d;
  ff_display : display (terminal d') = display (terminal d) ∧ utf8 (terminal d') = utf8 (terminal d);
  ff_globals : globals d' = globals d;
}.

Lemma CheckCharAvail_frame t c tm c' tm' called acts :
  CheckCharAvail ConsoleReadPoll t c tm = (c', tm', called, acts) →
  Forall (own ConsoleReadPoll) acts ∧ putBusy c' = putBusy c ∧ display tm' = display tm ∧ utf8 tm' = utf8 tm.
Proof.
  assert (Hr : ∀ tm o tm', ReadPartial tm = (o, tm') → display tm' = display tm ∧ utf8 tm' = utf8 tm).
  { intros tm0 o tm1. unfold ReadPartial. destruct (keyboard tm0) as [|[? ?] ?]; by intros [= <- <-]. }
  unfold CheckCharAvail. intros E.
  repeat match type of E with
    | context [ReadPartial ?x] => let Ex := fresh "Ex" in destruct (ReadPartial x) as [ [?|] ?] eqn:Ex; apply Hr in Ex as [? ?]
    | context [if ?b then _ else _] => destruct b
    end; injection E as <- <- <- <-; (split; [repeat constructor; done|]); cbn; split_and!; congruence.
Qed.

Lemma CheckPktAvail_own t n n' b acts :
  CheckPktAvail NetworkReadPoll t n = Ok (n', b, acts) → Forall (own NetworkReadPoll) acts.
Proof.
  unfold CheckPktAvail. intros E.
  destruct (negb _); [injection E as <- <- <-; by repeat constructor|].
  destruct (negb _); [injection E as <- <- <-; by repeat constructor|].
  destruct (arriving n) as [|[? ?] ?]; [injection E as <- <- <-; by repeat constructor|].
  apply res_bind_Ok_inv in E as (? & _ & E). apply res_bind_Ok_inv in E as (? & _ & E).
  apply res_bind_Ok_inv in E as (? & _ & E). injection E as <- <- <-. by repeat constructor.
Qed.

Lemma fire_frame_ok h t d d' vs acts :
  fire h t d = Ok (d', vs, acts) → h ≠ TimerHandler → fire_frame h d d' vs acts.
Proof.
  assert (Hs : ∀ h s b, signal_of h = Some s → Forall (λ s, signal_of h = Some s) (if b : bool then [s] else [])).
  { intros h' s [] Hs; by repeat constructor. }
  intros E Hh. destruct h; cbn [fire nachos_devices] in E; [done|..].
  - destruct (CheckCharAvail _ t _ _) as [ [ [c tm] called] a] eqn:Ec. injection E as <- <- <-.
    destruct (CheckCharAvail_frame _ _ _ _ _ _ _ Ec) as (? & ? & ? & ?). split; cbn; auto; [by apply (Hs ConsoleReadPoll)|done].
  - injection E as <- <- <-. split; cbn; try done; by repeat constructor || congruence.
  - injection E as <- <- <-. split; cbn; try done; by repeat constructor || congruence.
  - apply res_bind_Ok_inv in E as ([ [n called] a] & En & E). injection E as <- <- <-.
    split; cbn; auto; [by apply (Hs NetworkReadPoll)|by apply (CheckPktAvail_own _ _ _ _ _ En)].
  - injection E as <- <- <-. split; cbn; try done; by repeat constructor || congruence.
Qed.

Lemma own_quiet h acts : Forall (own h) acts → yields acts = false.
Proof. unfold yields. induction 1 as [|[? ? ?| |?] l Ha _ IH]; [done..|contradiction|done]. Qed.

(** [du_busy] is whether the device is still at it; [du_due T d l] that the interrupts of the
    duty outstanding are [l], and that by [T] the device will be done, if what it waits for
    comes at all. *)
Class Duty (View : Type) := {
  du_int : devint;
  du_done : semid;
  du_lock : semid;
  du_busy : Devs → bool;
  du_view : Devs → View;
  du_due : Z → Devs → list (Z * PendingInterrupt devint) → Prop;
  du_comes : View → Prop;
}.

Class DutyLaws {View} (du : Duty View) : Prop := {
  du_sems : signal_of du_int = Some du_done ∧ du_done ≠ du_lock ∧ ∀ h, signal_of h ≠ Some du_lock;
  du_timer : du_int ≠ TimerHandler;
  du_perm T d l l' : l ≡ₚ l' → du_due T d l → du_due T d l';
  du_other h d d' vs acts :
    fire_frame h d d' vs acts → h ≠ du_int →
    du_busy d' = du_busy d ∧ du_view d' = du_view d ∧ ∀ T l, du_due T d l → du_due T d' l;
  du_fire T e l t d d' vs acts :
    du_due T d (e :: l) → fire du_int t d = Ok (d', vs, acts) →
    vs = (if du_busy d && negb (du_busy d') then [du_done] else []) ∧ (du_busy d = false → du_busy d' = false) ∧
    du_view d' = du_view d ∧ du_due T d' (news t acts ++ l);
  du_awaited T d l :
    du_due T d l → du_busy d = true → l ≠ [] ∧ (du_comes (du_view d) → Exists (λ e, e.1 ≤ T) l);
}.

(** A device that has been started: its interrupt comes at [T]. *)
Definition due_at (h : devint) (ty : IntType) (busy : bool) (T : Z) : list (Z * PendingInterrupt devint) :=
  if busy then [(T, mkPending h T ty)] else [].

Lemma due_at_perm h ty b T l l' : l ≡ₚ l' → l = due_at h ty b T → l' = due_at h ty b T.
Proof.
  intros Hp ->. unfold due_at in *. destruct b; symmetry in Hp; [by apply Permutation_singleton_r in Hp|by apply Permutation_nil_r in Hp].
Qed.

Lemma due_at_awaited h ty b T l : l = due_at h ty b T → b = true → l ≠ [] ∧ Exists (λ e, e.1 ≤ T) l.
Proof. intros -> ->. split; [done|by constructor]. Qed.

(** Nothing is left of a delayed load. *)
Definition settled (r : list Z) : Prop :=
  r !! Z.to_nat LoadReg = Some 0 ∧ r !! Z.to_nat LoadValueReg = Some 0 ∧ r !! 0%nat = Some 0.

Lemma DelayedLoad_settled m m' :
  settled (registers m) → DelayedLoad 0 0 m = Ok (tt, m') → m' = m.
Proof.
  unfold settled. intros (H1 & H2 & H3) E. unfold DelayedLoad in E.
  assert (Hr : reg LoadReg m = Ok (0, m)) by (unfold reg; by rewrite (arr_get_lookup _ LoadReg 0)).
  assert (Hv : reg LoadValueReg m = Ok (0, m)) by (unfold reg; by rewrite (arr_get_lookup _ LoadValueReg 0)).
  assert (Hset : ∀ n, 0 ≤ n → registers m !! Z.to_nat n = Some 0 → set_reg n 0 m = Ok (tt, m)).
  { intros n Hn Hl. pose proof (lookup_lt_Some _ _ _ Hl). unfold set_reg. rewrite arr_set_in by lia.
    rewrite list_insert_id by done. by destruct m. }
  rewrite (st_bind_Ok _ _ _ _ _ Hr), (st_bind_Ok _ _ _ _ _ Hv) in E.
  rewrite (st_bind_Ok _ _ _ _ _ (Hset 0 ltac:(lia) H3)), (st_bind_Ok _ _ _ _ _ (Hset LoadReg ltac:(done) H1)),
    (st_bind_Ok _ _ _ _ _ (Hset LoadValueReg ltac:(done) H2)) in E.
  rewrite (Hset 0 ltac:(lia) H3) in E. injection E as <-. done.
Qed.

Lemma set_reg_inv n v m u m' :
  set_reg n v m = Ok (u, m') →
  0 ≤ n < Z.of_nat (length (registers m)) ∧ registers m' = <[Z.to_nat n := v]> (registers m).
Proof.
  unfold set_reg. intros (r & E & [= <- <-])%res_bind_Ok_inv. unfold arr_set in E.
  case_decide; [by injection E as <-|done].
Qed.

Lemma reg_inv n v m m' : reg n m = Ok (v, m') → m' = m ∧ registers m !! Z.to_nat n = Some v.
Proof. unfold reg. intros (x & [_ E]%arr_get_Ok_inv & [= <- <-])%res_bind_Ok_inv. done. Qed.

(** A delayed load is over once it is done. *)
Lemma DelayedLoad_settles m m' : DelayedLoad 0 0 m = Ok (tt, m') → settled (registers m').
Proof.
  unfold DelayedLoad. intros E.
  apply st_bind_Ok_inv in E as (r & m1 & E1 & E). apply st_bind_Ok_inv in E as (v & m2 & E2 & E).
  apply st_bind_Ok_inv in E as (? & m3 & E3 & E). apply st_bind_Ok_inv in E as (? & m4 & E4 & E).
  apply st_bind_Ok_inv in E as (? & m5 & E5 & E6).
  apply set_reg_inv in E4 as [L4 R4], E5 as [L5 R5], E6 as [L6 R6].
  rewrite R5, length_insert in L6. rewrite R4, length_insert in L5, L6.
  unfold settled. rewrite R6, R5, R4. unfold LoadReg, LoadValueReg in *.
  split; [|split].
  - by rewrite !list_lookup_insert_ne, list_lookup_insert_eq by lia.
  - by rewrite list_lookup_insert_ne, list_lookup_insert_eq by (rewrite ?length_insert; lia).
  - by rewrite list_lookup_insert_eq by (rewrite !length_insert; lia).
Qed.

(** ** Duties of which something is kept *)

(** The interrupts of the duty are outstanding as they should be; [T] is when the device will
    be done, [c] how many requests have been made and not waited for, [L] the value of the
    lock, [S] the view. *)
Record dutyJ {View} {du : Duty View} (T c L : Z) (S : View) (p : list (Z * PendingInterrupt devint))
    (k : KState Devs) : Prop := {
  dj_due : du_due T (dev k) (filter (λ e, handler e.2 = du_int) p);
  dj_sem : ∃ sm, sems k !! du_done = Some sm ∧ value sm + (if du_busy (dev k) then 1 else 0) = c;
  dj_lock : ∃ sm, sems k !! du_lock = Some sm ∧ value sm = L;
  dj_view : du_view (dev k) = S;
}.

(** What is kept while a thread sees to a duty: it may not look at the semaphores of the
    duty, nor at the threads. *)
Class Frame {View} (du : Duty View) (F : list (Z * PendingInterrupt devint) → KState Devs → Prop) : Prop := {
  fr_perm p p' k : p ≡ₚ p' → F p k → F p' k;
  fr_fire e p k d vs acts k' t :
    F (e :: p) k → handler e.2 ≠ TimerHandler → fire (handler e.2) t (dev k) = Ok (d, vs, acts) →
    V_all vs (set_dev d k) = Ok k' → F (news t acts ++ p) k';
  fr_same p k k' :
    (∀ s, s ≠ du_done → s ≠ du_lock → sems k' !! s = sems k !! s) → dev k' = dev k → F p k → F p k';
}.

(** What V does to what a duty looks at. *)
Record signals (l : list semid) (k k' : KState Devs) : Prop := {
  sg_other s : s ∉ l → sems k' !! s = sems k !! s;
  sg_threads t th : threads k' !! t = Some th → is_Some (threads k !! t);
  sg_current : currentThread k' = currentThread k;
  sg_halted : halted k' = halted k;
  sg_dev : dev k' = dev k;
  sg_machine : machine k' = machine k;
}.

Lemma V_body_signals s k k' :
  V_body s k = Ok k' → signals [s] k k' ∧
  ∃ sm q, sems k !! s = Some sm ∧ sems k' !! s = Some (mkSemaphore (value sm + 1) q).
Proof.
  unfold V_body, get_sem. destruct (sems k !! s) as [sm|] eqn:Es; [|done]. cbn [res_bind]. intros [= <-].
  split; [|exists sm, (tail (queue sm)); split; [done|by simpl; rewrite lookup_insert_eq] ].
  split; try (by destruct (queue sm)).
  - intros s' Hs. simpl. rewrite lookup_insert_ne by set_solver. by destruct (queue sm).
  - intros t th. destruct (queue sm) as [|t' l]; simpl; [eauto|]. intros Et.
    destruct (decide (t = t')) as [->|Hne]; [|rewrite lookup_alter_ne in Et by done; eauto].
    rewrite lookup_alter_eq in Et. by destruct (threads k !! t').
Qed.

Lemma V_all_signals l k k' : V_all l k = Ok k' → signals l k k'.
Proof.
  revert k. induction l as [|s l IH]; intros k E; cbn [V_all] in E.
  { injection E as <-. split; eauto. }
  apply res_bind_Ok_inv in E as (k1 & E1 & E). destruct (V_body_signals s k k1 E1) as [[] _].
  destruct (IH k1 E) as []. split; try congruence.
  - intros s' Hs. rewrite sg_other1, sg_other0 by set_solver. done.
  - intros t th Et. destruct (sg_threads1 t th Et) as [th1 E1']. by apply (sg_threads0 t th1).
Qed.

Lemma signal_of_inj h h' s : signal_of h = Some s → signal_of h' = Some s → h = h'.
Proof. destruct h, h'; vm_compute; congruence. Qed.

(** What an interrupt schedules is for itself again. *)
Lemma news_own h0 (h : devint) (t : Z) (acts : list (act devint)) :
  Forall (own h) acts → h ≠ TimerHandler →
  filter (λ e, handler e.2 = h0) (news t acts) = (if decide (h = h0) then news t acts else []) ∧
  Forall (λ e, handler e.2 ≠ TimerHandler ∧ type e.2 ≠ TimerInt) (news t acts).
Proof.
  intros Hacts Ht. induction Hacts as [|a l Ha Hl [IH1 IH2] ]; [by case_decide|]. unfold news in *. cbn [mbind list_bind].
  destruct a as [h' n ty| |c]; cbn [app]; [|done|done]. destruct Ha as [-> Hty].
  split; [|by constructor]. case_decide as Hh; [by rewrite filter_cons_True, IH1|by rewrite filter_cons_False].
Qed.

Section Duty.
Context {View : Type} {du : Duty View} {laws : DutyLaws du}.

Lemma du_ne : du_done ≠ du_lock.
Proof. apply du_sems. Qed.

(** Semaphores the interrupt [h] Vs, when it is not the one of the duty. *)
Lemma du_apart h t d d' vs acts :
  fire h t d = Ok (d', vs, acts) → h ≠ du_int → h ≠ TimerHandler → Forall (λ s, s ≠ du_done ∧ s ≠ du_lock) vs.
Proof.
  intros E Hh Ht. destruct (fire_frame_ok _ _ _ _ _ _ E Ht) as [Hvs _ _ _ _ _ _]. destruct du_sems as (Hd & _ & Hl).
  eapply Forall_impl; [exact Hvs|]. cbn beta. intros s Hs.
  split; intros ->; [apply Hh; by apply (signal_of_inj h du_int du_done)|by apply (Hl h)].
Qed.

Lemma dutyJ_perm T c L S p p' k : p ≡ₚ p' → dutyJ T c L S p k → dutyJ T c L S p' k.
Proof. intros Hp []. split; try done. eapply du_perm; [|done]. by rewrite Hp. Qed.

Lemma dutyJ_same T c L S p k k' :
  sems k' !! du_done = sems k !! du_done → sems k' !! du_lock = sems k !! du_lock → dev k' = dev k →
  dutyJ T c L S p k → dutyJ T c L S p k'.
Proof. intros E1 E2 E3 []. split; by rewrite ?E1, ?E2, ?E3. Qed.

(** Every interrupt but the timer's keeps it: the one of the duty wakes the waiter, the
    others keep out of the way. *)
Lemma dutyJ_fire T c L S e p k d vs acts k' t :
  dutyJ T c L S (e :: p) k → handler e.2 ≠ TimerHandler → fire (handler e.2) t (dev k) = Ok (d, vs, acts) →
  V_all vs (set_dev d k) = Ok k' → dutyJ T c L S (news t acts ++ p) k'.
Proof.
  intros [Hd (sm & Es & Hc) Hl Hs] Ht Ef EV. pose proof (fire_frame_ok _ _ _ _ _ _ Ef Ht) as Hff.
  destruct (news_own du_int _ t acts (ff_acts _ _ _ _ _ Hff) Ht) as [Hn _].
  destruct (V_all_signals _ _ _ EV) as [So _ _ _ Sd _]. cbn [set_dev sems dev] in So, Sd.
  destruct (decide (handler e.2 = du_int)) as [Hh|Hh].
  - rewrite filter_cons_True in Hd by done. rewrite Hh in Ef.
    destruct (du_fire _ _ _ _ _ _ _ _ Hd Ef) as (-> & Hb & Hv & Hd').
    split; rewrite ?Sd, ?filter_app, ?Hn; [done| |rewrite So; [done|]|congruence].
    + destruct (du_busy (dev k) && negb (du_busy d)) eqn:Eb.
      * apply andb_true_iff in Eb as [Eb1 Eb2%negb_true_iff]. rewrite Eb1 in Hc. rewrite Eb2.
        cbn [V_all] in EV. apply res_bind_Ok_inv in EV as (k1 & E1 & EV). injection EV as <-.
        destruct (V_body_signals _ _ _ E1) as [_ (sm' & q & Es' & Es1)].
        change (sems (set_dev _ k)) with (sems k) in Es'. assert (sm' = sm) as -> by congruence.
        eexists. split; [exact Es1|]. simpl. lia.
      * exists sm. rewrite So by apply not_elem_of_nil. split; [done|]. rewrite <- Hc.
        apply andb_false_iff in Eb as [Eb|Eb%negb_false_iff]; [by rewrite Eb, (Hb Eb)|].
        rewrite Eb. destruct (du_busy (dev k)) eqn:Eb'; [done|]. rewrite (Hb eq_refl) in Eb. done.
    + destruct (_ && _); [|apply not_elem_of_nil]. intros Hin%list_elem_of_singleton. by destruct (not_eq_sym du_ne).
  - rewrite filter_cons_False in Hd by done. pose proof (du_apart _ _ _ _ _ _ Ef Hh Ht) as Hvs. rewrite Forall_forall in Hvs.
    destruct (du_other _ _ _ _ _ Hff Hh) as (Hb & Hv & Hd').
    split; rewrite ?Sd, ?filter_app, ?Hn, ?Hb, ?Hv; [by apply Hd'| | |done].
    + exists sm. rewrite So; [done|]. intros Hin. by destruct (Hvs _ Hin).
    + rewrite So; [done|]. intros Hin. by destruct (Hvs _ Hin).
Qed.
End Duty.

(** A second duty may be what is kept. *)
Lemma dutyJ_frame {V V'} (du : Duty V) (du' : Duty V') {laws : DutyLaws du} T c L S :
  @du_done V du ∉ [@du_done V' du'; @du_lock V' du'] → @du_lock V du ∉ [@du_done V' du'; @du_lock V' du'] →
  Frame du' (@dutyJ V du T c L S).
Proof.
  intros Hd Hl. split; [intros p p' k; apply dutyJ_perm|intros e p k d vs acts k' t; apply dutyJ_fire|].
  intros p k k' Hs Ed. rewrite !not_elem_of_cons in Hd, Hl. apply dutyJ_same; [apply Hs; apply Hd|apply Hs; apply Hl|done].
Qed.

(** An operation of the devices that keeps it too. *)
Definition undisturbed (F : list (Z * PendingInterrupt devint) → KState Devs → Prop) (o : devop) : Prop :=
  ∀ t d acts p k, dev_op o t (dev k) = Ok (d, acts) → F p k → F (news t acts ++ p) (set_dev d k).

Definition nothing_else (p : list (Z * PendingInterrupt devint)) (k : KState Devs) : Prop := True.
#[export] Instance nothing_else_frame {V} (du : Duty V) : Frame du nothing_else.
Proof. by split. Qed.

(** ** The invariant of a thread on its own *)

Section Solo.
Context {View : Type} {du : Duty View} {laws : DutyLaws du}.
Context (F : list (Z * PendingInterrupt devint) → KState Devs → Prop) {frame : Frame du F}.

(** The duty is seen to, [F] is kept, and nobody else is about; [M] is the machine if the
    user program is followed: nothing is left of a delayed load then. *)
Record soloJ (M : option Machine) (T c L : Z) (S : View) (p : list (Z * PendingInterrupt devint)) (y : bool)
    (k : KState Devs) : Prop := {
  so_yield : y = false;
  so_calm : Forall (λ e, handler e.2 ≠ TimerHandler ∧ type e.2 ≠ TimerInt) p;
  so_duty : dutyJ T c L S p k;
  so_frame : F p k;
  so_alone : ∀ t th, threads k !! t = Some th → t = main_thread;
  so_halted : halted k = false;
  so_machine : ∀ m, M = Some m → machine k = m ∧ settled (registers m);
}.

Lemma soloJ_due M T c L S p y k :
  soloJ M T c L S p y k → du_due T (dev k) (filter (λ e, handler e.2 = du_int) p).
Proof. intros HJ. apply (so_duty _ _ _ _ _ _ _ _ HJ). Qed.
Lemma soloJ_value M T c L S p y k :
  soloJ M T c L S p y k → ∃ sm, sems k !! du_done = Some sm ∧ value sm + (if du_busy (dev k) then 1 else 0) = c.
Proof. intros HJ. apply (so_duty _ _ _ _ _ _ _ _ HJ). Qed.
Lemma soloJ_lock M T c L S p y k :
  soloJ M T c L S p y k → ∃ sm, sems k !! du_lock = Some sm ∧ value sm = L.
Proof. intros HJ. apply (so_duty _ _ _ _ _ _ _ _ HJ). Qed.
Lemma soloJ_view M T c L S p y k : soloJ M T c L S p y k → du_view (dev k) = S.
Proof. intros HJ. apply (so_duty _ _ _ _ _ _ _ _ HJ). Qed.

(** An interrupt. *)
Lemma soloJ_fire M T c L S e p y k d vs acts k' t :
  soloJ M T c L S (e :: p) y k → fire (handler e.2) t (dev k) = Ok (d, vs, acts) →
  V_all vs (set_dev d k) = Ok k' → soloJ M T c L S (news t acts ++ p) (y || yields acts) k'.
Proof.
  intros [Hy Hcalm Hd HF Ha Hh HM] Ef E. apply Forall_cons in Hcalm as [ [Ht _] Hcalm].
  pose proof (ff_acts _ _ _ _ _ (fire_frame_ok _ _ _ _ _ _ Ef Ht)) as Hown.
  destruct (V_all_signals _ _ _ E) as [_ St _ Sh _ Sm].
  split; rewrite ?Sm; try done.
  - rewrite Hy. by apply (own_quiet (handler e.2)).
  - apply Forall_app. split; [|done]. by apply (news_own du_int (handler e.2)).
  - by eapply dutyJ_fire.
  - by eapply fr_fire.
  - intros t' th Et. destruct (St _ _ Et) as [th0 E0]. by apply (Ha t' th0).
  - by rewrite Sh.
Qed.

#[export] Instance soloJ_joint M T c L S : Joint (soloJ M T c L S).
Proof.
  split.
  - intros p p' y x Hp []. split; try done; [by rewrite <- Hp|by apply (dutyJ_perm _ _ _ _ p)|by apply (fr_perm p)].
  - intros e p y k t k' acts HJ E. cbn [run_handler kernel_handlers] in E.
    apply res_bind_Ok_inv in E as ([ [d vs] acts'] & Ef & E).
    apply res_bind_Ok_inv in E as (k1 & Ev & E). injection E as <- <-. by apply (soloJ_fire M T c L S e p y k d vs).
  - intros p y k k' [] E. cbn [delayed_load kernel_handlers] in E.
    apply res_bind_Ok_inv in E as ([ [] m] & Ed & E). injection E as <-. split; try done.
    + by apply (dutyJ_same _ _ _ _ p k).
    + by apply (fr_same p k).
    + intros m0 Hm. destruct (so_machine0 m0 Hm) as [Em Hs]. cbn [machine set_machine snd]. split; [|done].
      rewrite Em in Ed. exact (DelayedLoad_settled _ _ Hs Ed).
Qed.

Context (M : option Machine).

(** ** A thread on its own *)
Section Running.
Context {E : Type}.
Abbreviation program := (prog devint Devs devop E).
Implicit Types (w : nachos).

(** A step of the thread: a return, a request or a look at the state. *)
Inductive goes {R} : program R → nachos → program R → nachos → Prop :=
  | goes_resume p w w' :
      currentThread (rest w) = main_thread → cur_frames (rest w) ≠ [] → resume w = Ok (tt, w') → goes p w p w'
  | goes_do r p w w' :
      currentThread (rest w) = main_thread → cur_frames (rest w) = [] → request_do r w = Ok (tt, w') →
      goes (Do r p) w p w'
  | goes_ask f w :
      currentThread (rest w) = main_thread → cur_frames (rest w) = [] → goes (Ask f) w (f w) w.

(** [n] steps lead from [p] in [w] to [p'] in [w']. *)
Inductive runs {R} : nat → program R → nachos → program R → nachos → Prop :=
  | runs_refl p w : runs 0 p w p w
  | runs_step n p1 w1 p2 w2 p3 w3 : goes p1 w1 p2 w2 → runs n p2 w2 p3 w3 → runs (1 + n) p1 w1 p3 w3.

Lemma runs_trans {R} n1 n2 (p1 p2 p3 : program R) w1 w2 w3 :
  runs n1 p1 w1 p2 w2 → runs n2 p2 w2 p3 w3 → runs (n1 + n2) p1 w1 p3 w3.
Proof. induction 1 as [|n1 p1 w1 p w p2 w2 Hg _ IH]; [done|]. intros H2. apply (runs_step _ _ _ _ _ _ _ Hg), IH, H2. Qed.

Lemma runs_one {R} (p p' : program R) w w' : goes p w p' w' → runs 1 p w p' w'.
Proof. intros Hg. apply (runs_step 0 _ _ _ _ _ _ Hg), runs_refl. Qed.

(** What comes after does not matter. *)
Lemma runs_bind {A B} (k : A → program B) n p w p' w' : runs n p w p' w' → runs n (bind p k) w (bind p' k) w'.
Proof.
  induction 1 as [|n p1 w1 p2 w2 p3 w3 Hg _ IH]; [apply runs_refl|]. eapply runs_step; [|exact IH].
  destruct Hg as [p w w' Hc Hf Hr|r p w w' Hc Hf Hr|f w Hc Hf]; cbn [bind].
  - by apply goes_resume.
  - by apply goes_do.
  - by apply (goes_ask (λ w, bind (f w) k)).
Qed.

(** What the steps mean for a thread run alone, *)
Lemma runs_exec {R} n (p p' : program R) w w' :
  runs n p w p' w' → ∀ fuel, exec (n + fuel) p w = exec fuel p' w'.
Proof.
  induction 1 as [|n p1 w1 p2 w2 p3 w3 Hg _ IH]; intros fuel; [done|]. rewrite <- IH. cbn [exec Nat.add].
  destruct Hg as [p w w' _ Hf Hr|r p w w' _ Hf Hr|f w _ Hf].
  - destruct (cur_frames (rest w)); [done|]. by rewrite Hr.
  - by rewrite Hf, Hr.
  - by rewrite Hf.
Qed.

(** and for the system in which it is the thread that runs. *)
Lemma runs_sys body n (p p' : program unit) w w' ps :
  runs n p w p' w' →
  sys_run body n (mkSys w (<[main_thread := p]> ps)) = Ok (mkSys w' (<[main_thread := p']> ps)).
Proof.
  induction 1 as [|n p1 w1 p2 w2 p3 w3 Hg _ IH]; [done|]. cbn [sys_run Nat.add].
  enough (E1 : sys_step body (mkSys w1 (<[main_thread := p1]> ps)) = Ok (mkSys w2 (<[main_thread := p2]> ps)))
    by (rewrite E1; exact IH).
  unfold sys_step. cbn [sys_world progs].
  destruct Hg as [p w w' Hc Hf Hr|r p w w' Hc Hf Hr|f w Hc Hf]; rewrite Hc.
  - destruct (cur_frames (rest w)); [done|]. by rewrite Hr.
  - rewrite Hf, lookup_insert_eq, Hr. cbn [res_bind snd]. by rewrite insert_insert_eq.
  - rewrite Hf, lookup_insert_eq. by rewrite insert_insert_eq.
Qed.

Context (T c L : Z) (S : View).
Abbreviation J := (soloJ M T c L S).

Lemma solo_current w : winv w → holds J w → currentThread (rest w) = main_thread.
Proof.
  intros Hw HJ. destruct (kI_current _ (ri_k _ (proj1 Hw))) as (th & Et & _).
  by apply (so_alone _ _ _ _ _ _ _ _ HJ _ th).
Qed.

(** Steps from a state in which the thread is alone. *)
Lemma runs_resume {R} (p : program R) w w' :
  winv w → holds J w → cur_frames (rest w) ≠ [] → resume w = Ok (tt, w') → runs 1 p w p w'.
Proof. intros Hw HJ Hf Hr. by apply runs_one, goes_resume; [apply solo_current|..]. Qed.
Lemma runs_do {R} r (p : program R) w w' :
  winv w → holds J w → cur_frames (rest w) = [] → request_do r w = Ok (tt, w') → runs 1 (Do r p) w p w'.
Proof. intros Hw HJ Hf Hr. by apply runs_one, goes_do; [apply solo_current|..]. Qed.
Lemma runs_ask {R} (f : nachos → program R) w :
  winv w → holds J w → cur_frames (rest w) = [] → runs 1 (Ask f) w (f w) w.
Proof. intros Hw HJ Hf. by apply runs_one, goes_ask; [apply solo_current|]. Qed.

Lemma tick_holds w w' :
  rinv w → holds J w → cur_frames (rest w) = [] → OneTick w = Ok (tt, w') →
  holds J w' ∧ cur_frames (rest w') = [].
Proof.
  intros Hr HJ Hf E'. unfold OneTick in E'. destruct (tick_rinv w Hr) as (w1 & E1 & Hr1 & Hn & _).
  rewrite E1 in E'. cbn [res_bind snd] in E'.
  assert (HJ1 : holds J w1) by (by apply (OneTick_holds J w)).
  rewrite (so_yield _ _ _ _ _ _ _ _ HJ1) in E'. injection E' as <-. split; [done|].
  rewrite (nudged_frames _ _ Hn). exact Hf.
Qed.

(** Whatever else interrupts keep, a tick keeps. *)
Lemma tick_keeps (J' : list (Z * PendingInterrupt devint) → bool → KState Devs → Prop) {joint : Joint J'} w w' :
  rinv w → holds J w → holds J' w → OneTick w = Ok (tt, w') → holds J' w'.
Proof.
  intros Hr HJ HJ' E'. unfold OneTick in E'. destruct (tick_rinv w Hr) as (w1 & E1 & Hr1 & Hn & _).
  rewrite E1 in E'. cbn [res_bind snd] in E'.
  assert (HJ1 : holds J w1) by (by apply (OneTick_holds J w)).
  rewrite (so_yield _ _ _ _ _ _ _ _ HJ1) in E'. injection E' as <-. by apply (OneTick_holds J' w).
Qed.

Lemma SetLevel_solo w l :
  rinv w → holds J w → cur_frames (rest w) = [] →
  ∃ w', SetLevel l w = Ok (tt, w') ∧ winv w' ∧ holds J w' ∧ cur_frames (rest w') = [].
Proof.
  intros Hr HJ Hf. destruct (SetLevel_ok w l Hr) as (w' & E' & Hw & _); [by rewrite Hf|].
  exists w'. split; [done|]. split; [done|]. unfold SetLevel in E'.
  apply res_bind_Ok_inv in E' as (u & _ & E').
  destruct (_ && _); [|injection E' as <-; by split].
  destruct (tick_holds (ChangeLevel l w) w') as [HJ' Hf']; [by apply rinv_level|done|done|done|]. done.
Qed.
End Running.

Section Steps.
Context {E : Type}.
Abbreviation program := (prog devint Devs devop E).
Implicit Types (w : nachos).

Lemma soloJ_sem T c L S p y k s sm v q :
  soloJ M T c L S p y k → sems k !! s = Some sm → s = du_done ∨ s = du_lock →
  soloJ M T (if decide (s = du_done) then c - value sm + v else c) (if decide (s = du_lock) then v else L) S p y
    (set_sems (<[s := mkSemaphore v q]> (sems k)) k).
Proof.
  intros [] Es Hs. destruct so_duty0 as [Hd (sm0 & E0 & Hc) Hl Hv]. split; simpl; try done; [split; simpl; try done|].
  - destruct (decide (s = du_done)) as [->|Hne].
    + rewrite lookup_insert_eq. eexists. split; [done|]. simpl. assert (sm0 = sm) as -> by congruence. lia.
    + rewrite lookup_insert_ne by done. eauto.
  - destruct (decide (s = du_lock)) as [->|Hne].
    + rewrite lookup_insert_eq. by eexists.
    + by rewrite lookup_insert_ne.
  - apply (fr_same p k); [|done|done]. intros s' H1 H2. simpl. rewrite lookup_insert_ne; [done|]. by destruct Hs as [-> | ->].
Qed.

(** What the duty looks at is not in the threads' stacks. *)
Lemma soloJ_frames T c L S p y k k' :
  soloJ M T c L S p y k → sems k' = sems k → dev k' = dev k → halted k' = halted k →
  currentThread k' = currentThread k → (∀ t, is_Some (threads k' !! t) → is_Some (threads k !! t)) →
  machine k' = machine k →
  soloJ M T c L S p y k'.
Proof.
  intros [] Es Ed Eh Ec Et Em. split; rewrite ?Eh, ?Em; try done.
  - apply (dutyJ_same _ _ _ _ p k); by rewrite ?Es.
  - apply (fr_same p k); [|done|done]. intros; by rewrite Es.
  - intros t th E'. destruct (Et t) as [th0 E0]; [eauto|]. by apply (so_alone0 t th0).
Qed.

Lemma upd_thread_dom (f : Thread → Thread) t t' (k : KState Devs) :
  is_Some (threads (upd_thread f t k) !! t') → is_Some (threads k !! t').
Proof. unfold upd_thread. simpl. by rewrite lookup_alter_is_Some. Qed.
Hint Resolve upd_thread_dom : core.

(** Semaphore::P on a semaphore that can be passed. *)
Lemma pass_solo T c L S w s old sm :
  winv w → holds (soloJ M T c L S) w → cur_frames (rest w) = [FP s old] →
  sems (rest w) !! s = Some sm → value sm ≠ 0 → s = du_done ∨ s = du_lock →
  ∃ w', resume w = Ok (tt, w') ∧ winv w' ∧ cur_frames (rest w') = [] ∧
    holds (soloJ M T (if decide (s = du_done) then c - 1 else c) (if decide (s = du_lock) then value sm - 1 else L) S) w'.
Proof.
  intros [Hr Hl] HJ Hf Es Hv Hs. set (k := rest w) in *.
  destruct (P_pass_kI k s old [] sm (ri_k _ Hr) Hf Es Hv) as [HI Hc]. set (k1 := set_sems _ _) in *.
  destruct (SetLevel_solo T (if decide (s = du_done) then c - 1 else c) (if decide (s = du_lock) then value sm - 1 else L) S
    (set_rest (pop k1) w) old) as (w' & E' & Hw' & HJ' & Hf').
  - by apply rinv_rest.
  - unfold holds in *. cbn [set_rest interrupt rest]. apply (soloJ_frames _ _ _ _ _ _ k1); try done; [|intros t; apply upd_thread_dom].
    pose proof (soloJ_sem T c L S _ _ k s sm (value sm - 1) (queue sm) HJ Es Hs) as HJ1.
    destruct (decide (s = du_done)); [replace (c - 1) with (c - value sm + (value sm - 1)) by lia|]; exact HJ1.
  - exact Hc.
  - exists w'. split; [|done]. unfold resume, P_turn, get_sem. fold k. rewrite Hf, Es. cbn [res_bind].
    rewrite (proj2 (Z.eqb_neq _ _) Hv). exact E'.
Qed.

(** Semaphore::V on the lock. *)
Lemma V_solo T c L S w :
  winv w → holds (soloJ M T c L S) w → cur_frames (rest w) = [] →
  ∃ w', V du_lock w = Ok (tt, w') ∧ winv w' ∧ cur_frames (rest w') = [] ∧ holds (soloJ M T c (L + 1) S) w'.
Proof.
  intros [Hr Hl] HJ Hf. destruct (soloJ_lock _ _ _ _ _ _ _ _ HJ) as (sm & Es & Hv). set (k := rest w) in *.
  destruct (V_body_kI k du_lock (ri_k _ Hr)) as (k1 & EV & HI & Hn & Hd); [eauto|].
  destruct (V_body_signals _ k k1 EV) as [ [] (sm' & q & Es' & Es1)]. assert (sm' = sm) as -> by congruence.
  destruct (SetLevel_solo T c (L + 1) S
    (set_rest k1 (ChangeLevel IntOff w)) (level (interrupt w))) as (w' & E' & Hw' & HJ' & Hf').
  - apply rinv_rest; [by apply rinv_level|done].
  - destruct HJ as [? ? [Hdue Hsem Hlock Hview] HF ? ? ?]. unfold holds. cbn. split; rewrite ?sg_halted0, ?sg_machine0; try done.
    + split; rewrite ?sg_dev0; try done.
      * rewrite sg_other0; [done|]. intros Hin%list_elem_of_singleton. by destruct du_ne.
      * eexists. split; [exact Es1|]. cbn. lia.
    + apply (fr_same _ k); [|done|done]. intros s H1 H2. apply sg_other0. by intros Hin%list_elem_of_singleton.
    + intros t th Et. destruct (sg_threads0 _ _ Et) as [th0 E0]. by apply (so_alone0 t th0).
  - cbn [set_rest rest]. by rewrite (nudged_frames _ _ Hn).
  - exists w'. split; [|done]. unfold V. rewrite (st_bind_Ok _ _ _ _ _ (eq_refl (DisableInterrupts w))).
    unfold lift_k, st_bind. change (rest (ChangeLevel IntOff w)) with k. rewrite EV. exact E'.
Qed.

(** Semaphore::P up to its loop. *)
Lemma P_solo T c L S w s :
  winv w → holds (soloJ M T c L S) w → cur_frames (rest w) = [] → is_Some (sems (rest w) !! s) →
  ∃ w' old, request_do (RP s) w = Ok (tt, w') ∧ winv w' ∧ holds (soloJ M T c L S) w' ∧
    cur_frames (rest w') = [FP s old] ∧ sems (rest w') = sems (rest w) ∧ dev (rest w') = dev (rest w) ∧ now w' = now w.
Proof.
  intros Hw HJ Hf Hs. destruct (P_ok w s (proj1 Hw)) as (w' & E' & Hw' & _); [by rewrite Hf|done|].
  exists w', (level (interrupt w)). split; [done|]. split; [done|].
  unfold P in E'. rewrite (st_bind_Ok _ _ _ _ _ (eq_refl (DisableInterrupts w))) in E'.
  injection E' as <-. cbn [set_rest rest]. change (rest (ChangeLevel IntOff w)) with (rest w).
  split; [|split; [|done] ].
  - unfold holds in *. cbn [set_rest interrupt rest]. apply (soloJ_frames _ _ _ _ _ _ (rest w)); try done. intros t; apply upd_thread_dom.
  - rewrite push_eq, Hf. apply cur_frames_set. destruct (kI_current _ (ri_k _ (proj1 Hw))) as (th & Et & _). eauto.
Qed.

(** Semaphore::P asleep. *)
Lemma sleep_solo T c L S w old sm :
  winv w → holds (soloJ M T c L S) w → cur_frames (rest w) = [FP du_done old] →
  sems (rest w) !! du_done = Some sm → value sm = 0 →
  ∃ w', resume w = Ok (tt, w') ∧ winv w' ∧ holds (soloJ M T c L S) w' ∧
    cur_frames (rest w') = [FSleep; FP du_done old] ∧ now w' = now w ∧ pending (interrupt w') = pending (interrupt w) ∧
    dev (rest w') = dev (rest w) ∧
    ∃ th, threads (rest w') !! currentThread (rest w') = Some th ∧ t_status th = BLOCKED.
Proof.
  intros Hw HJ Hf Es Hv. pose proof Hw as [Hr Hl]. unfold level_ok in Hl. rewrite Hf in Hl.
  destruct (P_turn_ok w du_done old [] Hr Hl Hf) as (w' & E' & Hw' & _). exists w'.
  unfold resume. rewrite Hf. split; [exact E'|]. split; [done|].
  unfold P_turn, get_sem in E'. rewrite Es in E'. cbn [res_bind] in E'. rewrite Hv in E'. cbn [Z.eqb] in E'.
  unfold Sleep in E'. cbn [set_rest interrupt rest] in E'. rewrite bool_decide_true in E' by done.
  cbn [ASSERT res_bind] in E'. injection E' as <-. cbn [set_rest rest interrupt].
  set (k1 := set_sems _ (rest w)). destruct (kI_current _ (ri_k _ Hr)) as (th & Et & Ec).
  destruct (push_sleep_facts th k1 Et) as [Hfr _]. split; [|split; [etrans; [exact Hfr|congruence]|split; [done|split; [done|split; [done|] ] ] ] ].
  2:{ unfold push, setStatus, upd_thread. simpl. rewrite !lookup_alter_eq, Et. simpl. by eexists. }
  unfold holds in *. cbn [set_rest interrupt rest]. apply (soloJ_frames _ _ _ _ _ _ k1); try done.
  - pose proof (soloJ_sem T c L S _ _ (rest w) du_done sm 0 (queue sm ++ [currentThread (rest w)]) HJ Es ltac:(by left)) as HJ1.
    rewrite decide_True, decide_False, Hv in HJ1 by (done || apply du_ne).
    replace (c - 0 + 0) with c in HJ1 by lia. exact HJ1.
  - intros t Ht. apply (upd_thread_dom _ _ _ _ (upd_thread_dom _ _ _ _ Ht)).
Qed.
End Steps.

(** ** Asleep until the device is done *)

Record sleepJ (T L : Z) (S : View) (p : list (Z * PendingInterrupt devint)) (y : bool)
    (k : KState Devs) : Prop := {
  sl_J : soloJ M T 1 L S p y k;
  sl_queues s sm : sems k !! s = Some sm → s ≠ du_done → queue sm = [];
  sl_blocked : du_busy (dev k) = true →
    ∃ th, threads k !! currentThread k = Some th ∧ t_status th = BLOCKED;
}.

Lemma V_body_empty s k k' :
  (∀ sm, sems k !! s = Some sm → queue sm = []) → V_body s k = Ok k' →
  threads k' = threads (D := Devs) k ∧ ∀ s' sm, sems k' !! s' = Some sm → queue sm = [] ∨ sems k !! s' = Some sm.
Proof.
  intros Hq E. unfold V_body, get_sem in E. destruct (sems k !! s) as [sm|] eqn:Es; [|done].
  cbn [res_bind] in E. rewrite (Hq sm eq_refl) in E. injection E as <-. split; [done|].
  intros s' sm'. simpl. upd_cases s' s; [intros [= <-]; by left|by right].
Qed.

Lemma V_all_empty l k k' :
  (∀ s sm, s ∈ l → sems k !! s = Some sm → queue sm = []) → V_all l k = Ok k' →
  threads k' = threads (D := Devs) k ∧ ∀ s' sm, sems k' !! s' = Some sm → queue sm = [] ∨ sems k !! s' = Some sm.
Proof.
  revert k. induction l as [|s l IH]; intros k Hq E; cbn [V_all] in E; [injection E as <-; eauto|].
  apply res_bind_Ok_inv in E as (k1 & E1 & E).
  destruct (V_body_empty s k k1 (λ sm, Hq s sm ltac:(set_solver)) E1) as [H1 H2].
  destruct (IH k1) as [H3 H4]; [|done|].
  - intros s' sm Hs Es. destruct (H2 s' sm Es) as [|Es']; [done|]. apply (Hq s' sm); [set_solver|done].
  - split; [congruence|]. intros s' sm Es. destruct (H4 s' sm Es) as [|Es']; [by left|auto].
Qed.

(** The threads are left alone while the device is at it. *)
Lemma fire_keeps_threads h t d vs acts p k k1 T c L S e :
  dutyJ T c L S (e :: p) k → handler e.2 = h → h ≠ TimerHandler → fire h t (dev k) = Ok (d, vs, acts) →
  (∀ s sm, sems k !! s = Some sm → s ≠ du_done → queue sm = []) → V_all vs (set_dev d k) = Ok k1 →
  (∀ s sm, sems k1 !! s = Some sm → s ≠ du_done → queue sm = []) ∧
  (du_busy d = true → du_busy (dev k) = true ∧ threads k1 = threads k).
Proof.
  intros HJ Hh Ht Ef Hq EV. pose proof (fire_frame_ok _ _ _ _ _ _ Ef Ht) as Hff.
  destruct (decide (h = du_int)) as [Hd|Hd].
  - pose proof (dj_due _ _ _ _ _ _ HJ) as Hdue. rewrite filter_cons_True in Hdue by congruence. rewrite Hd in Ef.
    destruct (du_fire _ _ _ _ _ _ _ _ Hdue Ef) as (Hvs & Hb & _). split.
    + intros s sm Es Hs. destruct (V_all_signals _ _ _ EV) as [So _ _ _ _ _].
      rewrite So in Es by (subst vs; destruct (_ && _); [by intros Hin%list_elem_of_singleton|apply not_elem_of_nil]).
      by apply (Hq s).
    + intros Hbusy. assert (Hb0 : du_busy (dev k) = true) by (destruct (du_busy (dev k)); [done|by rewrite Hb in Hbusy]).
      split; [done|]. rewrite Hvs, Hb0, Hbusy in EV. injection EV as <-. done.
  - pose proof (du_apart _ _ _ _ _ _ Ef Hd Ht) as Hvs. rewrite Forall_forall in Hvs.
    destruct (V_all_empty vs (set_dev d k) k1) as [H1 H2]; [|done|].
    { intros s' sm' Hin Es'. apply (Hq s' sm' Es'). by apply Hvs. }
    split.
    + intros s sm Es Hs. destruct (H2 s sm Es) as [|Es']; [done|by apply (Hq s)].
    + destruct (du_other _ _ _ _ _ Hff Hd) as (Hb & _). by rewrite Hb.
Qed.

#[export] Instance sleepJ_joint T L S : Joint (sleepJ T L S).
Proof.
  split.
  - intros p p' y x Hp []. split; try done. by apply (joint_perm (J := soloJ M T 1 L S) p).
  - intros e p y k t k' acts [HJ Hq Hb] E. pose proof (joint_fire (J := soloJ M T 1 L S) _ _ _ _ _ _ _ HJ E) as HJ'.
    pose proof (so_calm _ _ _ _ _ _ _ _ HJ) as [ [Ht _] _]%Forall_cons. cbn [run_handler kernel_handlers] in E.
    apply res_bind_Ok_inv in E as ([ [d vs] acts'] & Ef & E). apply res_bind_Ok_inv in E as (k1 & Ev & E). injection E as <- <-.
    destruct (fire_keeps_threads _ _ _ _ _ _ _ _ _ _ _ _ _ (so_duty _ _ _ _ _ _ _ _ HJ) eq_refl Ht Ef Hq Ev) as [Hq' Hb'].
    destruct (V_all_signals _ _ _ Ev) as [_ _ Sc _ Sd _]. split; [done|done|]. rewrite Sd, Sc. cbn [set_dev dev currentThread].
    intros Hbusy. destruct (Hb' Hbusy) as [Hb0 ->]. by apply Hb.
  - intros p y k k' [HJ Hq Hb] E. pose proof (joint_load (J := soloJ M T 1 L S) _ _ _ _ HJ E) as HJ'.
    cbn [delayed_load kernel_handlers] in E. apply res_bind_Ok_inv in E as ([ [] m] & _ & E). injection E as <-. by split.
Qed.

Section Waiting.
Context {E : Type} {R : Type}.
Implicit Types (w : nachos) (k : KState Devs) (p : prog devint Devs devop E R).

Definition late w : Prop := Forall (λ e, now w < e.1) (pending (interrupt w)).

Lemma asleep_active T L S w old :
  winv w → holds (sleepJ T L S) w → cur_frames (rest w) = [FSleep; FP du_done old] →
  readyList (rest w) = [] → du_busy (dev (rest w)) = true.
Proof.
  intros Hw [HJ Hq Hb] Hf Hl. pose proof (kI_k _ (ri_k _ (proj1 Hw))) as Hk.
  destruct (stopped_blocked w Hw) as [Hst Hv]; [by rewrite Hf|done|].
  destruct (ki_cur _ _ Hk) as (th & Et & Hc). pose proof (cur_frames_eq _ _ Et) as Ec. rewrite Hf in Ec.
  unfold cur_ok in Hc. rewrite <- Ec in Hc. cbn in Hc.
  assert (Hblk : t_status th = BLOCKED) by (destruct Hc as [?|Hr]; [done|]; destruct (Hst _ _ Et); congruence).
  destruct (soloJ_value _ _ _ _ _ _ _ _ HJ) as (sm & Es & Hc1).
  destruct (ki_queue _ _ Hk _ _ Es) as (_ & _ & Hin).
  assert (currentThread (rest w) ∈ queue sm).
  { apply Hin. exists th. split; [done|]. split; [done|]. by rewrite <- Ec. }
  rewrite (Hv _ _ Es) in Hc1 by (destruct (queue sm); set_solver). by destruct (du_busy _).
Qed.

Lemma idle_solo T L S w old :
  winv w → holds (sleepJ T L S) w → cur_frames (rest w) = [FSleep; FP du_done old] →
  readyList (rest w) = [] →
  ∃ w', resume w = Ok (tt, w') ∧ winv w' ∧ holds (sleepJ T L S) w' ∧
    cur_frames (rest w') = [FSleep; FP du_done old] ∧ late w' ∧ now w ≤ now w' ∧
    (late w → now w < now w').
Proof.
  intros Hw HS Hf Hl. pose proof (asleep_active T L S w old Hw HS Hf Hl) as Ha. pose proof Hw as [Hr Hlv].
  unfold level_ok in Hlv. rewrite Hf in Hlv. rewrite (sleep_idle w _ Hf (or_intror Hl)).
  assert (HI : kI_from (rest w) (rest w)) by (split; [apply Hr|apply nudged_refl]).
  pose proof (sl_J _ _ _ _ _ _ HS) as HJ. destruct (du_awaited _ _ _ (soloJ_due _ _ _ _ _ _ _ _ HJ) Ha) as [Hd _].
  destruct (Idle_rinv w Hr Hlv) as [Hx|(w' & Ei & Hr' & Hn & Hl')].
  - exfalso. pose proof (Idle_ok (laws := kernel_handler_laws (rest w)) w HI (ri_time _ Hr) Hlv) as Hok.
    pose proof (so_calm _ _ _ _ _ _ _ _ HJ) as Hc.
    destruct (pending (interrupt w)) as [|e others]; [done|]. cbv zeta in Hok.
    rewrite bool_decide_false in Hok by by inversion Hc as [|?? [? ?] ?].
    destruct Hok as (w1 & w2 & d1 & d2 & _ & _ & _ & _ & E3 & _). congruence.
  - assert (HS' : holds (sleepJ T L S) w').
    { apply (Idle_holds (sleepJ T L S) w); [|done|done]. intros ? ? [Hx _ _]. by destruct Hx. }
    pose proof (nudged_frames _ _ Hn) as Hf'. rewrite Hf in Hf'.
    destruct (Idle_late (laws := kernel_handler_laws (rest w)) w w' HI (ri_time _ Hr) Hlv Ei) as (H1 & H2 & H3).
    { eapply Forall_impl; [exact (so_calm _ _ _ _ _ _ _ _ (sl_J _ _ _ _ _ _ HS'))|]. by intros ? [_ ?]. }
    exists w'. split; [done|]. split; [split; [done|unfold level_ok; by rewrite Hf']|]. done.
Qed.

(** The thread idles, at most until [T], and then finds itself ready. *)
Lemma wait_late T L S n p w old :
  du_comes S →
  winv w → holds (sleepJ T L S) w → cur_frames (rest w) = [FSleep; FP du_done old] →
  late w → T - now w ≤ Z.of_nat n →
  ∃ m w', (m ≤ n)%nat ∧ runs m p w p w' ∧ winv w' ∧ holds (sleepJ T L S) w' ∧
    cur_frames (rest w') = [FSleep; FP du_done old] ∧ readyList (rest w') ≠ [].
Proof.
  intros HC. revert w. induction n as [|n IH]; intros w Hw HS Hf Hlate Hn;
    (destruct (decide (readyList (rest w) = [])) as [Hl|Hl];
      [|exists 0%nat, w; split; [lia|]; split; [apply runs_refl|done] ]).
  all: pose proof (asleep_active T L S w old Hw HS Hf Hl) as Ha;
    pose proof (sl_J _ _ _ _ _ _ HS) as HJ; destruct (du_awaited _ _ _ (soloJ_due _ _ _ _ _ _ _ _ HJ) Ha) as [_ Hdue];
    rewrite (soloJ_view _ _ _ _ _ _ _ _ HJ) in Hdue; apply Exists_exists in Hdue as (e & Hin & He); [|done];
    unfold late in Hlate; rewrite Forall_forall in Hlate; apply list_elem_of_filter in Hin as [_ Hin];
    pose proof (Hlate _ Hin) as HT; rewrite <- Forall_forall in Hlate.
  - lia.
  - destruct (idle_solo T L S w old Hw HS Hf Hl) as (w1 & E1 & Hw1 & HS1 & Hf1 & Hl1 & _ & Hlt).
    specialize (Hlt Hlate). destruct (IH w1 Hw1 HS1 Hf1 Hl1) as (m & w' & Hm & Hrun & Hrest); [lia|].
    exists (1 + m)%nat, w'. split; [lia|]. split; [|done].
    apply (runs_trans _ _ p p p w w1); [|done]. apply (runs_resume T 1 L S); [done|exact (sl_J _ _ _ _ _ _ HS)|by rewrite Hf|done].
Qed.

Lemma wait_solo T L S n p w old :
  du_comes S →
  winv w → holds (sleepJ T L S) w → cur_frames (rest w) = [FSleep; FP du_done old] → T - now w ≤ Z.of_nat n →
  ∃ m w', (m ≤ Datatypes.S n)%nat ∧ runs m p w p w' ∧ winv w' ∧ holds (sleepJ T L S) w' ∧
    cur_frames (rest w') = [FSleep; FP du_done old] ∧ readyList (rest w') ≠ [].
Proof.
  intros HC Hw HS Hf Hn. destruct (decide (readyList (rest w) = [])) as [Hl|Hl].
  - destruct (idle_solo T L S w old Hw HS Hf Hl) as (w1 & E1 & Hw1 & HS1 & Hf1 & Hl1 & Hle & _).
    destruct (wait_late T L S n p w1 old HC Hw1 HS1 Hf1 Hl1) as (m & w' & Hm & Hrun & Hrest); [lia|].
    exists (1 + m)%nat, w'. split; [lia|]. split; [|done].
    apply (runs_trans _ _ p p p w w1); [|done]. apply (runs_resume T 1 L S); [done|exact (sl_J _ _ _ _ _ _ HS)|by rewrite Hf|done].
  - exists 0%nat, w. split; [lia|]. split; [apply runs_refl|done].
Qed.
End Waiting.

(** *** Running again *)

Lemma cur_frames_upd (f : Thread → Thread) t (k : KState Devs) :
  (∀ th, frames (f th) = frames th) → cur_frames (upd_thread f t k) = cur_frames k.
Proof.
  intros Hf. unfold cur_frames, upd_thread. simpl. destruct (decide (currentThread k = t)) as [->|Hne].
  - rewrite lookup_alter_eq. destruct (threads k !! t); simpl; [by rewrite Hf|done].
  - by rewrite lookup_alter_ne.
Qed.

Record same_side (k k' : KState Devs) : Prop := {
  sd_sems : sems k' = sems k;
  sd_dev : dev k' = dev k;
  sd_halted : halted k' = halted k;
  sd_current : currentThread k' = currentThread k;
  sd_dom t : is_Some (threads k' !! t) → is_Some (threads k !! t);
}.

Lemma same_side_soloJ T c L S p y k k' :
  soloJ M T c L S p y k → same_side k k' → machine k' = machine k →
  soloJ M T c L S p y k'.
Proof. intros HJ [] Hm. by apply (soloJ_frames _ _ _ _ _ _ k). Qed.

Lemma same_side_trans k1 k2 k3 : same_side k1 k2 → same_side k2 k3 → same_side k1 k3.
Proof. intros [] []. split; try congruence. auto. Qed.

Lemma same_side_upd f t k : same_side k (upd_thread f t k).
Proof. split; try done. intros t'. apply upd_thread_dom. Qed.

Lemma Run_self (w w' : nachos) :
  Run (currentThread (rest w)) w = Ok (tt, w') → is_Some (threads (rest w) !! currentThread (rest w)) →
  same_side (rest w) (rest w') ∧ cur_frames (rest w') = FSwitched :: cur_frames (rest w) ∧
  interrupt w' = interrupt w.
Proof.
  intros E Hsome. unfold Run in E. apply res_bind_Ok_inv in E as (u & _ & E).
  apply res_bind_Ok_inv in E as (th & Et & E). apply res_bind_Ok_inv in E as (th' & _ & E).
  set (k := rest w) in *. set (k1 := match space th with Some _ => SaveUserState k | None => k end) in *.
  injection E as <-. cbn [set_rest rest interrupt].
  assert (H1 : same_side k k1) by (unfold k1; destruct (space th); [apply same_side_upd|by split]).
  assert (Hf1 : cur_frames k1 = cur_frames k) by (unfold k1; destruct (space th); [by apply cur_frames_upd|done]).
  assert (Hs1 : is_Some (threads k1 !! currentThread k1)).
  { rewrite (sd_current _ _ H1). unfold k1. destruct (space th); [|done].
    unfold SaveUserState, set_userRegisters, upd_thread. simpl. by apply lookup_alter_is_Some. }
  assert (Hcur : currentThread k = currentThread (push FSwitched k1)) by (symmetry; apply (sd_current _ _ H1)).
  split; [|split; [|done] ].
  - apply (same_side_trans _ k1); [done|]. apply (same_side_trans _ (push FSwitched k1)); [apply same_side_upd|].
    eapply same_side_trans; [|apply same_side_upd]. by split.
  - unfold setStatus. rewrite cur_frames_upd by done.
    replace (cur_frames (set_current (currentThread k) (push FSwitched k1))) with (cur_frames (push FSwitched k1))
      by (unfold cur_frames; cbn [set_current currentThread threads]; by rewrite Hcur).
    rewrite push_eq, cur_frames_set by done. by rewrite Hf1.
Qed.

Lemma arrive_side k k' : arrive k = Ok k' → same_side k k'.
Proof.
  unfold arrive. intros (k1 & E1 & E)%res_bind_Ok_inv. apply res_bind_Ok_inv in E as (th & _ & E).
  assert (H1 : same_side k k1).
  { unfold destroy in E1. destruct (threadToBeDestroyed k); [|injection E1 as <-; by split].
    apply res_bind_Ok_inv in E1 as (u & _ & E1). injection E1 as <-. split; try done.
    intros t' [x Hx]. simpl in Hx. apply lookup_delete_Some in Hx as [_ Hx]. eauto. }
  destruct (space th); [|injection E as <-; done].
  apply res_bind_Ok_inv in E as (k2 & E2 & E). apply (same_side_trans _ k1); [done|].
  unfold RestoreUserState in E2. apply res_bind_Ok_inv in E2 as (? & _ & E2). injection E2 as <-.
  unfold RestoreState in E. destruct (spaces _ !! _); [|done]. injection E as <-. by split.
Qed.

(** The machine translates for the thread that runs. *)
Definition translates (k : KState Devs) : Prop :=
  ∀ th sp a, threads k !! currentThread k = Some th → space th = Some sp → spaces k !! sp = Some a →
    pageTable (machine k) = Some (as_pageTable a) ∧ pageTableSize (machine k) = numPages a.

Lemma minv_translates k : minv (D := Devs) k → switched (cur_frames k) = false → translates k.
Proof.
  intros Hm Hf th sp a Et Es Ea. pose proof (mi_current _ Hm th sp Hf Et Es) as Ho.
  pose proof (mi_owner _ Hm) as Hown. rewrite Ho in Hown. destruct Hown as (a' & Ea' & H1 & H2).
  assert (a' = a) as -> by congruence. done.
Qed.

(** The thread that runs again finds the machine as it left it. *)
Lemma self_switch (w w1 : nachos) k2 :
  translates (rest w) → Run (currentThread (rest w)) w = Ok (tt, w1) → arrive (pop (rest w1)) = Ok k2 →
  machine k2 = machine (rest w).
Proof.
  intros Htr E EA. unfold Run in E. apply res_bind_Ok_inv in E as (u & _ & E).
  apply res_bind_Ok_inv in E as (th & Et & E). apply res_bind_Ok_inv in E as (th' & _ & E). injection E as <-.
  unfold get_thread in Et. destruct (threads (rest w) !! currentThread (rest w)) as [th0|] eqn:E0; [|done].
  injection Et as ->. cbn [set_rest rest] in EA. set (k := rest w) in *.
  set (k1 := match space th with Some _ => SaveUserState k | None => k end) in *.
  assert (H1 : currentThread k1 = currentThread k ∧ machine k1 = machine k ∧ spaces k1 = spaces k ∧
    ∃ r, threads k1 !! currentThread k = Some (mkThread (t_status th) (frames th) (space th) r) ∧
      (is_Some (space th) → r = registers (machine k))).
  { unfold k1. destruct (space th) eqn:Es; (do 3 (split; [done|])).
    - eexists. split; [|done]. cbn. rewrite lookup_alter_eq, E0. cbn. by rewrite Es.
    - exists (userRegisters th). split; [|by intros []]. rewrite E0, <- Es. by destruct th. }
  clearbody k1. destruct H1 as (Hc & Hm & Hs & r & Hr & Hreg).
  set (k3 := pop _) in EA.
  assert (H3 : currentThread k3 = currentThread k ∧ machine k3 = machine k ∧ spaces k3 = spaces k ∧
    ∃ st fs, threads k3 !! currentThread k = Some (mkThread st fs (space th) r)).
  { do 3 (split; [done|]). cbn. rewrite lookup_alter_eq. cbn. rewrite !lookup_alter_eq, Hc, lookup_alter_eq, Hr. by do 2 eexists. }
  clearbody k3. destruct H3 as (Hc3 & Hm3 & Hs3 & st & fs & H3).
  unfold arrive in EA. apply res_bind_Ok_inv in EA as (k4 & E4 & EA).
  assert (H4 : currentThread k4 = currentThread k ∧ machine k4 = machine k ∧ spaces k4 = spaces k ∧
    threads k4 !! currentThread k = Some (mkThread st fs (space th) r)).
  { unfold destroy in E4. destruct (threadToBeDestroyed k3) as [t|]; [|injection E4 as <-; done].
    case_bool_decide as Ht; [done|]. injection E4 as <-. rewrite Hc3 in Ht. cbn. by rewrite lookup_delete_ne. }
  destruct H4 as (Hc4 & Hm4 & Hs4 & H4). unfold get_thread in EA. rewrite Hc4, H4 in EA. cbn [res_bind space] in EA.
  destruct (space th) as [sp|] eqn:Esp; [|injection EA as <-; congruence].
  unfold RestoreUserState, get_thread in EA. rewrite Hc4, H4 in EA. cbn [res_bind userRegisters] in EA.
  unfold RestoreState in EA. cbn [set_machine spaces machine] in EA. rewrite Hs4, Hm4 in EA.
  destruct (spaces k !! sp) as [a|] eqn:Ea; [|done]. injection EA as <-. cbn [set_machine machine].
  destruct (Htr th sp a E0 Esp Ea) as [Ht1 Ht2]. rewrite <- Ht1, <- Ht2, Hreg by done. by destruct (machine k).
Qed.

Section Waking.
Context {E : Type} {R : Type}.
Implicit Types (w : nachos) (p : prog devint Devs devop E R).

Lemma wake_solo T L S p w old :
  winv w → holds (sleepJ T L S) w → cur_frames (rest w) = [FSleep; FP du_done old] → readyList (rest w) ≠ [] →
  ∃ w', runs 2 p w p w' ∧ winv w' ∧ holds (soloJ M T 1 L S) w' ∧ cur_frames (rest w') = [FP du_done old] ∧
    du_busy (dev (rest w')) = false.
Proof.
  intros Hw [HJ Hq Hb] Hf Hl. pose proof (kI_k _ (ri_k _ (proj1 Hw))) as Hk. set (k := rest w) in *.
  destruct (readyList k) as [|n l] eqn:Hl1; [done|].
  destruct (proj1 (ki_ready _ _ Hk n)) as (_ & th & Et & Hst); [rewrite Hl1; set_solver|].
  pose proof (so_alone _ _ _ _ _ _ _ _ HJ n th Et) as Hn. rewrite <- (solo_current T 1 L S w Hw HJ) in Hn. fold k in Hn. subst n.
  assert (Ha : du_busy (dev k) = false).
  { destruct (du_busy (dev k)) eqn:Ha; [|done]. destruct (Hb eq_refl) as (th' & Et' & Hst'). congruence. }
  pose proof (cur_frames_eq _ _ Et) as Ec. rewrite Hf in Ec.
  destruct (sleep_run_ok w th [FP du_done old] (currentThread k) l Hw Et (eq_sym Ec) (so_halted _ _ _ _ _ _ _ _ HJ) Hl1)
    as (w1 & E1 & Hw1 & _).
  set (k0 := pop (set_ready l k)).
  assert (Hs0 : same_side k k0) by (apply (same_side_trans _ (set_ready l k)); [by split|apply same_side_upd]).
  assert (ER : Run (currentThread (rest (set_rest k0 w))) (set_rest k0 w) = Ok (tt, w1)).
  { unfold resume, FindNextToRun in E1. fold k in E1. by rewrite Hf, (so_halted _ _ _ _ _ _ _ _ HJ), Hl1 in E1. }
  assert (Hf0 : cur_frames k0 = [FP du_done old]).
  { unfold k0. rewrite pop_eq.
    rewrite (cur_frames_set (tail (cur_frames (set_ready l k))) (set_ready l k)) by eauto.
    change (cur_frames (set_ready l k)) with (cur_frames k). by rewrite Hf. }
  destruct (Run_self (set_rest k0 w) w1 ER) as (Hs1 & Hf1 & Hi1).
  { unfold k0, pop. apply lookup_alter_is_Some. eauto. }
  cbn [set_rest rest interrupt] in Hs1, Hf1, Hi1. rewrite Hf0 in Hf1.
  destruct (resume_awake_ok w1 Hw1) as (w2 & E2 & Hw2 & _); [by rewrite Hf1|by rewrite Hf1|].
  exists w2. pose proof E2 as E2'. unfold resume in E2. rewrite Hf1 in E2.
  apply res_bind_Ok_inv in E2 as (k2 & EA & E2). injection E2 as <-.
  destruct (arrive_ok (rest w1) (ri_k _ (proj1 Hw1))) as (k2' & th2 & EA' & _ & _ & _ & Hf2 & _); [by rewrite Hf1|].
  assert (k2' = k2) as -> by congruence. rewrite Hf1 in Hf2. cbn [inner] in Hf2.
  assert (Hs2 : same_side k k2).
  { apply (same_side_trans _ k0); [done|]. apply (same_side_trans _ (rest w1)); [done|].
    apply (same_side_trans _ (pop (rest w1))); [apply same_side_upd|by apply arrive_side]. }
  split; [|split; [done|split; [|split; [done|] ] ] ].
  - apply (runs_trans 1 1 p p p w w1).
    + apply (runs_resume T 1 L S); [exact Hw|exact HJ|by fold k; rewrite Hf|done].
    + apply runs_one, goes_resume; [|by rewrite Hf1|exact E2'].
      rewrite (sd_current _ _ Hs1), (sd_current _ _ Hs0). exact (solo_current T 1 L S w Hw HJ).
  - unfold holds in *. cbn [set_rest interrupt rest]. rewrite Hi1. apply (same_side_soloJ _ _ _ _ _ _ k); [done..|].
    assert (Htr : translates k).
    { apply minv_translates; [apply (kI_m _ (ri_k _ (proj1 Hw)))|]. fold k. by rewrite Hf. }
    apply (self_switch (set_rest k0 w) w1 k2); [|exact ER|exact EA].
    intros th' sp a E' Es. unfold k0 in E'. cbn in E'. rewrite lookup_alter_eq in E'. rewrite Et in E'. injection E' as <-.
    by apply (Htr th sp a Et).
  - cbn [set_rest rest]. by rewrite (sd_dev _ _ Hs2).
Qed.
End Waking.

(** ** A whole request *)
Section Requests.
Context {E : Type} {R : Type}.
Implicit Types (w : nachos) (p : prog devint Devs devop E R).

Lemma soloJ_idle T L S w : winv w → holds (soloJ M T 0 L S) w →
  du_busy (dev (rest w)) = false ∧ ∃ sm, sems (rest w) !! du_done = Some sm ∧ value sm = 0.
Proof.
  intros Hw HJ. destruct (soloJ_value _ _ _ _ _ _ _ _ HJ) as (sm & Es & Hc).
  destruct (ki_queue _ _ (kI_k _ (ri_k _ (proj1 Hw))) _ _ Es) as (_ & Hv & _).
  destruct (du_busy _); [lia|]. split; [done|]. exists sm. split; [done|lia].
Qed.

(** Taking the lock. *)
Lemma lock_solo T c S p w :
  winv w → holds (soloJ M T c 1 S) w → cur_frames (rest w) = [] →
  ∃ w', runs 2 (do* RP du_lock; p) w p w' ∧ winv w' ∧ holds (soloJ M T c 0 S) w' ∧ cur_frames (rest w') = [].
Proof.
  intros Hw HJ Hf. destruct (soloJ_lock _ _ _ _ _ _ _ _ HJ) as (sm & Es & Hv).
  destruct (P_solo T c 1 S w du_lock Hw HJ Hf) as (w1 & old & E1 & Hw1 & HJ1 & Hf1 & Es1 & _); [eauto|].
  rewrite <- Es1 in Es. destruct (pass_solo T c 1 S w1 du_lock old sm Hw1 HJ1 Hf1 Es) as (w2 & E2 & Hw2 & Hf2 & HJ2); [lia|by right|].
  exists w2. split; [|split; [done|split; [|done] ] ].
  - apply (runs_trans 1 1 _ p p w w1); [by eapply runs_do|]. by eapply runs_resume; [| |rewrite Hf1|].
  - rewrite decide_False, decide_True, Hv in HJ2 by (done || apply not_eq_sym, du_ne). exact HJ2.
Qed.

(** An operation of the device that keeps it busy. *)
Lemma device_solo T T' L S S' o d acts p w :
  winv w → holds (soloJ M T 0 L S) w → cur_frames (rest w) = [] →
  dev_op o (now w) (dev (rest w)) = Ok (d, acts) → Forall (own du_int) acts →
  du_due T' d (news (now w) acts ++ filter (λ e, handler e.2 = du_int) (pending (interrupt w))) → du_busy d = true → du_view d = S' →
  undisturbed F o →
  ∃ w', runs 1 (do* RDev o; p) w p w' ∧ winv w' ∧ holds (soloJ M T' 1 L S') w' ∧
    cur_frames (rest w') = [] ∧ du_busy (dev (rest w')) = true ∧ now w' = now w.
Proof.
  intros Hw HJ Hf Eo Hown Hdue Ha Hs HF. destruct (soloJ_idle _ _ _ _ Hw HJ) as (Hi & sm & Es & Hv).
  destruct (do_dev_ok (DI := devs_wf) (irq := signalled) w o Hw Hf) as (w' & E' & Hw' & _); [cbn [req_ok]; eauto|].
  exists w'. pose proof E' as E1. unfold do_dev in E'. rewrite Eo in E'. cbn [res_bind fst snd] in E'.
  destruct (run_acts_effect _ _ _ E') as (Hp & Hy & Hr & Hn & _).
  cbn [set_rest interrupt rest] in Hp, Hy, Hr. change (now (set_rest _ w)) with (now w) in *.
  split; [by eapply runs_do|]. split; [done|]. rewrite Hr. cbn [set_dev dev]. split; [|done].
  destruct (news_own du_int _ (now w) acts Hown du_timer) as [Hn1 Hn2]. rewrite decide_True in Hn1 by done.
  destruct HJ as [H1 H2 [H3 H4 H5 H6] HF0 H7 H8 H9]. unfold holds. rewrite Hr, Hy, H1, (own_quiet _ _ Hown). cbn [orb].
  split; try done; [rewrite Hp; by apply Forall_app| |].
  - split; try done; cbn [set_dev sems dev]; [|rewrite Ha; exists sm; split; [done|lia] ].
    eapply du_perm; [by rewrite Hp|]. rewrite filter_app, Hn1. exact Hdue.
  - apply (fr_perm (news (now w) acts ++ pending (interrupt w))); [by symmetry|]. by apply (HF _ _ _ _ _ Eo).
Qed.

(** Waiting for the device, which may be done already: at most a turn of the idle loop for
    each tick. *)
Lemma done_solo T L S b p w :
  du_comes S → winv w → holds (soloJ M T 1 L S) w → cur_frames (rest w) = [] →
  T - now w ≤ Z.of_nat b →
  ∃ n w', (n ≤ b + 6)%nat ∧ runs n (do* RP du_done; p) w p w' ∧ winv w' ∧
    holds (soloJ M T 0 L S) w' ∧ cur_frames (rest w') = [].
Proof.
  intros HC Hw HJ Hf Ht. destruct (soloJ_value _ _ _ _ _ _ _ _ HJ) as (sm & Es & Hc).
  destruct (P_solo T 1 L S w du_done Hw HJ Hf) as (w1 & old & E1 & Hw1 & HJ1 & Hf1 & Es1 & Hd1 & Hn1); [eauto|].
  rewrite <- Es1 in Es. destruct (du_busy (dev (rest w))) eqn:Ha.
  2:{ destruct (pass_solo T 1 L S w1 du_done old sm Hw1 HJ1 Hf1 Es) as (w2 & E2 & Hw2 & Hf2 & HJ2); [lia|by left|].
    rewrite decide_True, decide_False in HJ2 by (done || apply du_ne).
    exists (1 + 1)%nat, w2. split; [lia|]. split; [|done]. eapply runs_trans; [by eapply runs_do|].
    eapply runs_resume; [exact Hw1|exact HJ1|by rewrite Hf1|exact E2]. }
  destruct (sleep_solo T 1 L S w1 old sm Hw1 HJ1 Hf1 Es) as (w2 & E2 & Hw2 & HJ2 & Hf2 & Hn2 & _ & Hd2 & Hb2); [lia|].
  assert (HS2 : holds (sleepJ T L S) w2).
  { split; [exact HJ2| |by intros _]. intros s sm' Es' Hne. destruct Hb2 as (th & Et & _).
    destruct (ki_queue _ _ (kI_k _ (ri_k _ (proj1 Hw2))) _ _ Es') as (_ & _ & Hin).
    destruct (queue sm') as [|t l]; [done|]. destruct (proj1 (Hin t)) as (th' & Et' & _ & Hp); [set_solver|].
    pose proof (so_alone _ _ _ _ _ _ _ _ HJ2 t th' Et') as Ht'. rewrite <- (solo_current T 1 L S w2 Hw2 HJ2) in Ht'. subst t.
    rewrite <- (cur_frames_eq _ _ Et'), Hf2 in Hp. by injection Hp as <-. }
  destruct (wait_solo T L S b p w2 old HC Hw2 HS2 Hf2) as (m & w3 & Hm & Hrun3 & Hw3 & HS3 & Hf3 & Hl3); [lia|].
  destruct (wake_solo T L S p w3 old Hw3 HS3 Hf3 Hl3) as (w4 & Hrun4 & Hw4 & HJ4 & Hf4 & Ha4).
  destruct (soloJ_value _ _ _ _ _ _ _ _ HJ4) as (sm4 & Es4 & Hc4). rewrite Ha4 in Hc4.
  destruct (pass_solo T 1 L S w4 du_done old sm4 Hw4 HJ4 Hf4 Es4) as (w5 & E5 & Hw5 & Hf5 & HJ5); [lia|by left|].
  rewrite decide_True, decide_False in HJ5 by (done || apply du_ne).
  exists (1 + (1 + (m + (2 + 1))))%nat, w5. split; [lia|]. split; [|done].
  eapply runs_trans; [by eapply runs_do|].
  eapply runs_trans; [eapply runs_resume; [exact Hw1|exact HJ1|by rewrite Hf1|exact E2]|].
  eapply runs_trans; [exact Hrun3|]. eapply runs_trans; [exact Hrun4|].
  eapply runs_resume; [exact Hw4|exact HJ4|by rewrite Hf4|exact E5].
Qed.

(** A request with the lock held: the device is started and waited for. *)
Lemma request_solo T L S S' o d acts ticks b p w :
  winv w → holds (soloJ M T 0 L S) w → cur_frames (rest w) = [] →
  dev_op o (now w) (dev (rest w)) = Ok (d, acts) → Forall (own du_int) acts →
  du_due (now w + ticks) d (news (now w) acts ++ filter (λ e, handler e.2 = du_int) (pending (interrupt w))) →
  du_busy d = true → du_view d = S' → du_comes S' →
  undisturbed F o → ticks ≤ Z.of_nat b →
  ∃ n w' T', (n ≤ b + 7)%nat ∧ runs n (do* RDev o; do* RP du_done; p) w p w' ∧ winv w' ∧
    holds (soloJ M T' 0 L S') w' ∧ cur_frames (rest w') = [].
Proof.
  intros Hw HJ Hf Eo Hown Hdue Hb HS HC HF Ht.
  destruct (device_solo T (now w + ticks) L S S' o d acts (do* RP du_done; p) w Hw HJ Hf Eo Hown Hdue Hb HS HF)
    as (w1 & R1 & Hw1 & HJ1 & Hf1 & Hb1 & Hn1).
  destruct (done_solo (now w + ticks) L S' b p w1 HC Hw1 HJ1 Hf1) as (m & w2 & Hm & R2 & Hw2 & HJ2 & Hf2); [lia|].
  exists (1 + m)%nat, w2, (now w + ticks). split; [lia|]. split; [|done]. by eapply runs_trans.
Qed.

(** Giving the lock back. *)
Lemma unlock_solo T c S p w :
  winv w → holds (soloJ M T c 0 S) w → cur_frames (rest w) = [] →
  ∃ w', runs 1 (do* RV du_lock; p) w p w' ∧ winv w' ∧ holds (soloJ M T c 1 S) w' ∧ cur_frames (rest w') = [].
Proof.
  intros Hw HJ Hf. destruct (V_solo T c 0 S w Hw HJ Hf) as (w' & E' & Hw' & Hf' & HJ').
  exists w'. split; [by eapply runs_do|]. done.
Qed.

(** Requests the duty does not notice. *)
Lemma quiet_solo M' T c L S r p w w' :
  winv w → holds (soloJ M T c L S) w → cur_frames (rest w) = [] → req_ok w r → request_do r w = Ok (tt, w') →
  pending (interrupt w') = pending (interrupt w) → yieldOnReturn (interrupt w') = yieldOnReturn (interrupt w) →
  same_side (rest w) (rest w') → (∀ r, M' = Some r → machine (rest w') = r ∧ settled (registers r)) →
  runs 1 (Do r p) w p w' ∧ winv w' ∧ holds (soloJ M' T c L S) w'.
Proof.
  intros Hw HJ Hf Hq E' Hp Hy Hs HM. split; [by eapply runs_do|].
  destruct (request_ok (DI := devs_wf) (irq := signalled) w r Hw Hf Hq) as (w1 & E1 & Hw1 & _).
  assert (w1 = w') as -> by congruence. split; [done|].
  unfold holds in *. rewrite Hp, Hy. destruct HJ, Hs. split; rewrite ?sd_halted0; try done.
  - by apply (dutyJ_same _ _ _ _ _ (rest w)); rewrite ?sd_sems0.
  - apply (fr_same _ (rest w)); [|done|done]. intros s _ _. by rewrite sd_sems0.
  - intros t th Et. destruct (sd_dom0 t) as [th0 E0]; [eauto|]. by apply (so_alone0 t th0).
Qed.

Lemma put_machine_side m k : same_side k (put_machine m k) ∧ machine (put_machine m k) = m.
Proof.
  unfold put_machine. cbn [set_machine pt_owner].
  by destruct (pt_owner k); [destruct (pageTable m)|].
Qed.

(** Kernel code at work on the machine. *)
Lemma on_machine_solo M' T c L S {A} (op : ST Machine A) a m' (k : A → prog devint Devs devop E R) w :
  winv w → holds (soloJ M T c L S) w → cur_frames (rest w) = [] →
  op (machine (rest w)) = Ok (a, m') → machine_kept (machine (rest w)) m' →
  (∀ r, M' = Some r → m' = r ∧ settled (registers r)) →
  ∃ w', runs 2 (On_machine op k) w (k a) w' ∧
    winv w' ∧ holds (soloJ M' T c L S) w' ∧
    cur_frames (rest w') = [] ∧ machine (rest w') = m'.
Proof.
  intros Hw HJ Hf Eop Hk HM. set (r := RMachine (let* _ := op in st_ret tt) : request (O := devop)).
  assert (E1 : (let* _ := op in st_ret tt) (machine (rest w)) = Ok (tt, m')) by (by st_step Eop).
  assert (Hq : req_ok w r) by (cbn [req_ok r]; eauto).
  assert (E' : request_do r w = Ok (tt, set_rest (put_machine m' (rest w)) w)) by (cbn [request_do r]; by rewrite E1).
  destruct (put_machine_ok (rest w) m' (ri_k _ (proj1 Hw)) Hk) as (_ & _ & Hc).
  destruct (put_machine_side m' (rest w)) as [Hs Hm].
  destruct (quiet_solo M' T c L S r (k a) w (set_rest (put_machine m' (rest w)) w) Hw HJ Hf Hq E' eq_refl eq_refl Hs)
    as (R1 & Hw' & HJ'); [cbn [set_rest rest]; by rewrite Hm|].
  exists (set_rest (put_machine m' (rest w)) w). split; [|split; [|split; [|split; [|exact Hm] ] ] ].
  - apply (runs_trans 1 1 _ (Do r (k a)) _ _ w); [|by eapply runs_do].
    pose proof (runs_ask T c L S (λ w, match op (machine (rest w)) with
      | Ok (a, _) => Do (RMachine (let* _ := op in st_ret tt)) (k a) | Fail f => Stop f end) w Hw HJ Hf) as R2.
    cbv beta in R2. rewrite Eop in R2. exact R2.
  - exact Hw'.
  - exact HJ'.
  - cbn [set_rest rest]. by rewrite Hc.
Qed.
End Requests.

End Solo.
