(* ===== verification/SynchConsole.v ===== *)
(** * The synchronous console (userprog/synchconsole.cc)

    Requests to the console made to wait for their interrupts, one writer and one reader
    at a time. The handlers given to the console, ReadAvailHandler and WriteDoneHandler,
    are the V's of [readAvail] and [writeDone] in Devices.v. *)
From S2P Require Import Prelude Words LinkedList Interrupt Disk Console Network Machine MipsSim Threads.
From S2P Require Import Programs Devices.

Section SynchConsole.
Context {E : Type}.
Abbreviation program := (prog devint Devs devop E).

Definition new_SynchConsole (in_ out : option Z) : program unit :=
  do* RDev (ConsoleOpen in_ out);
  do* RSemaphore m_readLock 1;
  do* RSemaphore m_writeLock 1;
  Done tt.

Definition SynchPutChar (ch : Z) : program unit :=
  do* RP m_writeLock;
  do* RDev (ConsolePutChar ch);
  do* RP writeDone;
  do* RV m_writeLock;
  Done tt.

(** [int c = console->GetChar()] *)
Definition take_char {R} (k : Z → program R) : program R :=
  Ask (λ w, let c := (GetChar (console (dev (rest w)))).1 in do* RDev ConsoleGetChar; k c).

Definition SynchGetChar : program Z :=
  do* RP m_readLock;
  do* RP readAvail;
  take_char (λ c,
  do* RV m_readLock;
  Done c).

(** The loop of SynchPutString over the bytes of the array; a [char] is signed, and an
    array without a NUL is read past its end. *)
Fixpoint put_string (s : list Z) : program unit :=
  match s with
  | [] => Stop MemoryFault
  | b :: s =>
      if b =? 0 then Done tt
      else
        do* RDev (ConsolePutChar (int8 b));
        do* RP writeDone;
        put_string s
  end.

Definition SynchPutString (s : list Z) : program unit :=
  do* RP m_writeLock;
  call* _ := put_string s in
  do* RV m_writeLock;
  Done tt.

(** The loop of SynchGetString, [n] characters before the NUL at most; the bytes stored. *)
Fixpoint get_string (n : nat) : program (list Z) :=
  match n with
  | 0%nat => Done []
  | S n =>
      do* RP readAvail;
      take_char (λ c,
      if int8 c =? 10 then Done [uint8 c]
      else call* s := get_string n in Done (uint8 c :: s))
  end.

Definition SynchGetString (n : Z) : program (list Z) :=
  do* RP m_readLock;
  call* s := get_string (Z.to_nat (n - 1)) in
  do* RV m_readLock;
  Done (s ++ [0]).

(** SynchConsole::~SynchConsole up to the loops in which the console waits for its last
    interrupts; [wait] is those loops and what follows. *)
Definition delete_SynchConsole {R} (wait : program R) : program R :=
  do* RV m_readLock;
  do* RV m_writeLock;
  do* RDev ConsoleClose;
  wait.

(** One turn of those loops. *)
Definition wait_console {R} (again done_ : program R) : program R :=
  Ask (λ w, if still_open (console (dev (rest w))) then do* RYield; again else done_).
End SynchConsole.
