(* ===== verification/UserThread.v ===== *)
(** * User threads (userprog/userthread.cc)

    A table of ten slots shared by all user threads, each slot a piece of the stack area
    of the address space. *)
From S2P Require Import Prelude Words LinkedList BitMap Interrupt Disk Console Network Machine MipsSim.
From S2P Require Import Threads AddrSpace Programs Devices.

Definition USER_THREAD_STACK_SIZE : Z := 256.
Definition STACK_PADDING : Z := 16.
Definition MAX_THREADS : Z := 10.

(** ** The table *)

(** The static variables, as the start of the program leaves them; [new BitMap]. *)
Definition no_threads (b : BitMap) (g : Globals) : Globals :=
  mkGlobals (replicate (Z.to_nat MAX_THREADS) 0) b 0 (netAddr g) (numBoxes g) (boxes g).

Definition set_table (l : list Z) (b : BitMap) (n : Z) (g : Globals) : Globals :=
  mkGlobals l b n (netAddr g) (numBoxes g) (boxes g).

Fixpoint GetStackId_loop (l : list Z) (threadId : Z) (g : Globals) : res Z :=
  match l with
  | [] => Ok (-1)
  | i :: l =>
      let? x := arr_get (g_threads g) i in
      if x =? threadId then Ok i else GetStackId_loop l threadId g
  end.
Definition GetStackIdFromThread (threadId : Z) (g : Globals) : res Z :=
  GetStackId_loop (seqZ 0 MAX_THREADS) threadId g.

(** [stackMap->Find()] *)
Definition find_slot : ST Globals Z := λ g,
  let? r := Find (stackMap g) in
  Ok (r.1, set_table (g_threads g) r.2 (g_threadsIdx g) g).

(** [g_threads[idx] = (int) newThread; g_threadsIdx++] *)
Definition fill_slot (idx threadId : Z) : ST Globals unit := λ g,
  let? l := arr_set (g_threads g) idx threadId in
  Ok (tt, set_table l (stackMap g) (int32 (g_threadsIdx g + 1)) g).

(** do_ThreadExit while it has the lock. *)
Definition leave_slot (threadId : Z) : ST Globals unit := λ g,
  let? idx := GetStackIdFromThread threadId g in
  let? g :=
    if idx >=? 0 then
      let? l := arr_set (g_threads g) idx 0 in
      let? r := Clear idx (stackMap g) in
      Ok (set_table l r.2 (g_threadsIdx g) g)
    else Ok g in
  Ok (tt, set_table (g_threads g) (stackMap g) (int32 (g_threadsIdx g - 1)) g).

(** ** A new thread's registers *)

Definition stack_address (numPages idx : Z) : Z :=
  uint32 (numPages * PageSize - STACK_PADDING - (idx + 1) * USER_THREAD_STACK_SIZE - STACK_PADDING).

(** StartUserThread before [machine->Run()]. *)
Definition StartUserThread_registers (f arg f_exit idx numPages : Z) : ST Machine unit :=
  let* _ := st_for 0 NumTotalRegs (λ i, WriteRegister i 0) in
  let* pc := ReadRegister PCReg in
  let* _ := WriteRegister PrevPCReg pc in
  let* _ := WriteRegister PCReg f in
  let* _ := WriteRegister NextPCReg (int32 (f + 4)) in
  let* _ := WriteRegister RetAddrReg f_exit in
  let* _ := WriteRegister StackReg (int32 (stack_address numPages idx)) in
  WriteRegister 4 arg.

(** ** The kernel's side *)

(** Where threads start, and the loops. *)
Inductive entry :=
  | EStartUserThread (f arg f_exit idx : Z)
  | ERun                              (** the [for (;;)] of Machine::Run *)
  | ECloseConsole.                    (** the loops of Console::~Console *)

Section UserThread.
Context (thread_int : tid → Z).       (** what [(int)] makes of a pointer to a thread *)
Abbreviation program := (prog devint Devs devop entry).

(** An operation on the table. *)
Definition On_globals {A R} (op : ST Globals A) (k : A → program R) : program R :=
  Ask (λ w, match op (globals (dev (rest w))) with
            | Ok (a, g) => do* RDev (SetGlobals (λ _, g)); k a
            | Fail f => Stop f
            end).

(** [Machine::Run()] *)
Definition MachineRun {R} : program R := do* RUserMode; Goto ERun.

(** [currentThread->GetSpace()] *)
Definition GetSpace (k : KState Devs) : option AddrSpace :=
  match threads k !! currentThread k with
  | Some th => match space th with Some sp => spaces k !! sp | None => None end
  | None => None
  end.

Definition StartUserThread (f arg f_exit idx : Z) : program unit :=
  Ask (λ w,
  match GetSpace (rest w) with
  | Some a => On_machine (StartUserThread_registers f arg f_exit idx (numPages a)) (λ _, MachineRun)
  | None => Stop MemoryFault
  end).

(** The new thread is at an address no thread has; [garbage] is what its registers held. *)
Definition do_ThreadCreate (f arg f_exit : Z) (garbage : list Z) : program Z :=
  do* RP thread_lock;
  On_globals find_slot (λ idx,
  if idx >=? 0 then
    Ask (λ w,
    let newThread := fresh (dom (threads (rest w))) in
    do* RNew newThread garbage;
    On_globals (fill_slot idx (thread_int newThread)) (λ _,
    StartAt newThread (EStartUserThread f arg f_exit idx) (
    do* RV thread_lock;
    Done 0)))
  else
    do* RV thread_lock;
    Done (-1)).

(** [halt] is [interrupt->Halt()]. *)
Definition do_ThreadExit {R} (halt after : program R) : program R :=
  do* RP thread_lock;
  Ask (λ w,
  On_globals (leave_slot (thread_int (currentThread (rest w)))) (λ _,
  do* RV thread_lock;
  Ask (λ w,
  if g_threadsIdx (globals (dev (rest w))) >=? 0 then do* RFinish; after else halt))).
End UserThread.

(** ** The stacks *)

(** What a thread started in a slot finds in the machine. *)
Definition start_registers (f arg f_exit sp : Z) : list Z :=
  <[4%nat := arg]> (<[Z.to_nat StackReg := sp]> (<[Z.to_nat RetAddrReg := f_exit]>
    (<[Z.to_nat NextPCReg := int32 (f + 4)]> (<[Z.to_nat PCReg := f]> (replicate 40 0))))).

(** The part of the space that belongs to a slot: the 16 bytes above the stack pointer, where
    a function called saves its arguments, and what is below. *)
Definition window (numPages idx : Z) (a : Z) : Prop :=
  stack_address numPages idx - 240 ≤ a < stack_address numPages idx + 16.

Lemma stack_address_eq n idx :
  32 ≤ n ≤ NumPhysPages → 0 ≤ idx < MAX_THREADS → stack_address n idx = n * 128 - 32 - (idx + 1) * 256.
Proof.
  unfold stack_address, MAX_THREADS, STACK_PADDING, USER_THREAD_STACK_SIZE, PageSize, NumPhysPages. intros Hn Hi.
  rewrite uint32_id; [lia|]. unfold is_uint32. lia.
Qed.

(** C20. The stacks of user threads. A thread started in slot [idx] of a space of at least
    32 pages (every loaded space) enters user mode at [f], with [arg] in r4, the exit
    function in the return address, a word-aligned stack pointer and every other register
    0. Each slot has a window of 256 bytes inside the 4096 bytes of the stack area; the
    windows of two slots have no byte in common, and none comes closer than 272 bytes to
    the end of the space, where the main thread's stack starts. *)
Theorem user_stacks f arg f_exit idx n m :
  length (registers m) = 40%nat → 32 ≤ n ≤ NumPhysPages → 0 ≤ idx < MAX_THREADS →
  let sp := n * 128 - 32 - (idx + 1) * 256 in
  StartUserThread_registers f arg f_exit idx n m =
    Ok (tt, set_registers (start_registers f arg f_exit sp) m) ∧
  sp mod 4 = 0 ∧
  (∀ a, window n idx a → n * PageSize - UserStacksAreaSize ≤ a < n * PageSize - 272) ∧
  (∀ idx' a, 0 ≤ idx' < MAX_THREADS → window n idx a → window n idx' a → idx' = idx).
Proof.
  intros Hl Hn Hi sp. pose proof (stack_address_eq n idx Hn Hi) as Hsp. fold sp in Hsp. split_and!.
  - assert (Hs : int32 sp = sp)
      by (apply int32_id; unfold is_int32, sp, NumPhysPages, MAX_THREADS in *; lia).
    unfold StartUserThread_registers. rewrite Hsp, Hs. st_step (clear_registers m Hl).
    set (m0 := set_registers (replicate 40 0) m).
    assert (E : ReadRegister PCReg m0 = Ok (0, m0)) by reflexivity. st_step E.
    st_step (WriteRegister_eq m0 PrevPCReg 0 eq_refl ltac:(done)).
    change (set_registers (<[Z.to_nat PrevPCReg:=0]> (registers m0)) m0) with m0.
    st_step (WriteRegister_eq m0 PCReg f eq_refl ltac:(done)). set (m1 := set_registers _ m0).
    st_step (WriteRegister_eq m1 NextPCReg (int32 (f + 4)) eq_refl ltac:(done)). set (m2 := set_registers _ m1).
    st_step (WriteRegister_eq m2 RetAddrReg f_exit eq_refl ltac:(done)). set (m3 := set_registers _ m2).
    st_step (WriteRegister_eq m3 StackReg sp eq_refl ltac:(done)). set (m4 := set_registers _ m3).
    by rewrite (WriteRegister_eq m4 4 arg eq_refl) by done.
  - unfold sp. replace (n * 128 - 32 - (idx + 1) * 256) with ((n * 32 - 8 - (idx + 1) * 64) * 4) by lia.
    apply Z_mod_mult.
  - unfold window, PageSize, UserStacksAreaSize, MAX_THREADS in *. rewrite Hsp. unfold sp. lia.
  - unfold window. intros idx' a Hi'. rewrite Hsp, (stack_address_eq n idx' Hn Hi'). unfold sp, MAX_THREADS in *. lia.
Qed.

Lemma user_stacks_witness :
  let m := mkMachine ∅ (replicate 40 5) None None 0 false 0 in
  StartUserThread_registers 512 7 640 3 33 m = Ok (tt, set_registers (start_registers 512 7 640 3168) m) ∧
  3168 mod 4 = 0 ∧
  (∀ a, window 33 3 a → 33 * PageSize - UserStacksAreaSize ≤ a < 33 * PageSize - 272) ∧
  (∀ idx' a, 0 ≤ idx' < MAX_THREADS → window 33 3 a → window 33 idx' a → idx' = 3).
Proof.
  intros m. apply (user_stacks 512 7 640 3 33 m); [reflexivity|unfold NumPhysPages; lia|unfold MAX_THREADS; lia].
Defined.

(** ** The table as a map *)

(** The slots in use, each with its thread, and how many threads outside the table have
    called ThreadExit (the main thread, when it has). *)
Definition slots : Type := gmap Z Z * Z.

Inductive thread_op := TCreate (t : Z) | TExit (t : Z).

(** What do_ThreadCreate and do_ThreadExit do to the table while they hold the lock. The
    result of an exit is whether the machine goes on. *)
Definition table_step (o : thread_op) : ST Globals Z :=
  match o with
  | TCreate t =>
      let* idx := find_slot in
      if idx >=? 0 then let* _ := fill_slot idx t in st_ret idx else st_ret (-1)
  | TExit t =>
      let* _ := leave_slot t in λ g, Ok (Z.b2z (g_threadsIdx g >=? 0), g)
  end.

Fixpoint table_run (os : list thread_op) : ST Globals (list Z) :=
  match os with
  | [] => st_ret []
  | o :: os => let* r := table_step o in let* rs := table_run os in st_ret (r :: rs)
  end.

(** The first slot of ten for which [P] holds. *)
Definition first_slot (P : Z → Prop) `{!∀ i, Decision (P i)} : option Z :=
  head (filter P (seqZ 0 MAX_THREADS)).

(** The machine goes on while more threads are in the table than have left outside it. *)
Definition goes_on (s : slots) : bool := s.2 <=? Z.of_nat (size s.1).

Definition slots_step (o : thread_op) (s : slots) : Z * slots :=
  match o with
  | TCreate t =>
      match first_slot (λ i, s.1 !! i = None) with
      | Some i => (i, (<[i := t]> s.1, s.2))
      | None => (-1, s)
      end
  | TExit t =>
      let s := match first_slot (λ i, s.1 !! i = Some t) with
               | Some i => (delete i s.1, s.2)
               | None => (s.1, s.2 + 1)
               end in
      (Z.b2z (goes_on s), s)
  end.

Fixpoint slots_run (os : list thread_op) (s : slots) : list Z * slots :=
  match os with
  | [] => ([], s)
  | o :: os =>
      let '(r, s) := slots_step o s in
      let '(rs, s) := slots_run os s in (r :: rs, s)
  end.

(** Threads are at non-null addresses, and a new one is not in the table. *)
Definition op_fresh (o : thread_op) (s : slots) : Prop :=
  match o with
  | TCreate t => t ≠ 0 ∧ first_slot (λ i, s.1 !! i = Some t) = None
  | TExit t => t ≠ 0
  end.
Fixpoint ops_fresh (os : list thread_op) (s : slots) : Prop :=
  match os with
  | [] => True
  | o :: os => op_fresh o s ∧ ops_fresh os (slots_step o s).2
  end.

Record table_ok (s : slots) (g : Globals) : Prop := {
  to_map : wf (stackMap g);
  to_bits : numBits (stackMap g) = MAX_THREADS;
  to_marked : marked (stackMap g) = dom s.1;
  to_len : length (g_threads g) = 10%nat;
  to_range i t : s.1 !! i = Some t → 0 ≤ i < MAX_THREADS ∧ t ≠ 0;
  to_slot i : 0 ≤ i < MAX_THREADS → g_threads g !! Z.to_nat i = Some (default 0 (s.1 !! i));
  to_inj i j t : s.1 !! i = Some t → s.1 !! j = Some t → i = j;
  to_count : g_threadsIdx g = Z.of_nat (size s.1) - s.2;
  to_left : 0 ≤ s.2;
}.

Section Table.
Implicit Types (s : slots) (g : Globals).

Lemma first_slot_Some (P : Z → Prop) `{!∀ i, Decision (P i)} i :
  first_slot P = Some i → P i ∧ 0 ≤ i < MAX_THREADS.
Proof.
  unfold first_slot. intros E. assert (Hin : i ∈ filter P (seqZ 0 MAX_THREADS)).
  { destruct (filter P _) as [|x l]; [done|]. injection E as ->. constructor. }
  apply list_elem_of_filter in Hin as [? Hs%elem_of_seqZ]. split; [done|lia].
Qed.

Lemma first_slot_None (P : Z → Prop) `{!∀ i, Decision (P i)} i :
  first_slot P = None → 0 ≤ i < MAX_THREADS → ¬ P i.
Proof.
  unfold first_slot. intros E Hi HP. assert (Hin : i ∈ filter P (seqZ 0 MAX_THREADS)).
  { apply list_elem_of_filter. split; [done|]. apply elem_of_seqZ. lia. }
  destruct (filter P _); [by apply elem_of_nil in Hin|done].
Qed.

Lemma first_slot_least (P : Z → Prop) `{!∀ i, Decision (P i)} i :
  0 ≤ i < MAX_THREADS → P i → (∀ j, 0 ≤ j < i → ¬ P j) → first_slot P = Some i.
Proof. intros Hi HP Hlt. unfold first_slot. by destruct (head_filter_seqZ P MAX_THREADS i Hi HP Hlt) as [l ->]. Qed.

Lemma GetStackId_ok s g t :
  table_ok s g → t ≠ 0 →
  GetStackIdFromThread t g = Ok (default (-1) (first_slot (λ i, s.1 !! i = Some t))).
Proof.
  intros Ht Hne. unfold GetStackIdFromThread, first_slot.
  assert (Hl : Forall (λ i, 0 ≤ i < MAX_THREADS) (seqZ 0 MAX_THREADS)).
  { apply Forall_forall. intros i Hi%elem_of_seqZ. lia. }
  induction Hl as [|i l Hi Hl IH]; [done|]. cbn [GetStackId_loop].
  rewrite (arr_get_lookup _ i _ ltac:(lia) (to_slot _ _ Ht i Hi)). cbn [res_bind].
  destruct (Z.eqb_spec (default 0 (s.1 !! i)) t) as [E|E].
  - rewrite filter_cons_True; [done|]. destruct (s.1 !! i); simpl in E; congruence.
  - rewrite filter_cons_False; [apply IH|]. intros E'. rewrite E' in E. done.
Qed.

Lemma slots_small s g : table_ok s g → (size s.1 ≤ 10)%nat.
Proof.
  intros Ht. rewrite <- size_dom. transitivity (size (list_to_set (seqZ 0 MAX_THREADS) : gset Z)).
  - apply subseteq_size. intros i [t E]%elem_of_dom.
    apply elem_of_list_to_set, elem_of_seqZ. destruct (to_range _ _ Ht i t E). lia.
  - rewrite size_list_to_set by apply NoDup_seqZ. by vm_compute; lia.
Qed.

Lemma create_ok s g t :
  table_ok s g → s.2 < 2 ^ 31 - 1 → op_fresh (TCreate t) s →
  ∃ g', table_step (TCreate t) g = Ok ((slots_step (TCreate t) s).1, g') ∧
    table_ok (slots_step (TCreate t) s).2 g'.
Proof.
  intros Ht Hmax [Hne Hfresh]. pose proof Ht as [Hwf Hb Hm Hl Hr Hs Hi Hc He].
  pose proof (slots_small s g Ht) as Hsz. cbn [slots_step table_step].
  assert (Hnew : ∀ i, s.1 !! i ≠ Some t).
  { intros i E. destruct (Hr i t E) as [Hi' _]. by apply (first_slot_None _ i Hfresh Hi'). }
  assert (Hf : ∀ i, i ∉ marked (stackMap g) ↔ s.1 !! i = None).
  { intros i. by rewrite Hm, not_elem_of_dom. }
  destruct (Find_ok (stackMap g) Hwf) as [(i & bm & E & Hin & Hni & Hlt & Hwf' & Hb' & Hm')|[E Hall] ].
  - rewrite Hb in Hin. apply Hf in Hni. rewrite (first_slot_least _ i Hin Hni).
    2: { intros j Hj Hn. apply Hf in Hn. by apply Hn, Hlt. }
    assert (E1 : find_slot g = Ok (i, set_table (g_threads g) bm (g_threadsIdx g) g)) by (unfold find_slot; by rewrite E).
    st_step E1. destruct (Z.geb_spec i 0); [|lia].
    unfold MAX_THREADS in *.
    assert (Hset : arr_set (g_threads g) i t = Ok (<[Z.to_nat i := t]> (g_threads g))) by (apply arr_set_in; lia).
    unfold st_bind, fill_slot. cbn [g_threads set_table]. rewrite Hset. cbn [res_bind st_ret].
    eexists. split; [done|]. split; cbn; try done.
    + by rewrite Hb', Hb.
    + rewrite Hm', dom_insert_L, Hm. done.
    + by rewrite length_insert.
    + intros j u [ [-> ->]|[_ ?] ]%lookup_insert_Some; [done|by apply Hr].
    + intros j Hj. destruct (decide (j = i)) as [->|Hij].
      * rewrite lookup_insert_eq, list_lookup_insert_eq by lia. done.
      * rewrite lookup_insert_ne, list_lookup_insert_ne by lia. by apply Hs.
    + intros j k u [ [<- <-]|[Hj Ej] ]%lookup_insert_Some [ [<- Ek]|[Hk Ek] ]%lookup_insert_Some; try done.
      * by destruct (Hnew k).
      * subst u. by destruct (Hnew j).
      * by apply (Hi j k u).
    + rewrite Hc, map_size_insert_None by done. rewrite int32_id; [lia|]. unfold is_int32. lia.
  - assert (E1 : find_slot g = Ok (-1, set_table (g_threads g) (stackMap g) (g_threadsIdx g) g)) by (unfold find_slot; by rewrite E).
    st_step E1. destruct (first_slot (λ i, s.1 !! i = None)) as [i|] eqn:Ef.
    { apply first_slot_Some in Ef as [Ef Hi']. apply Hf in Ef. rewrite Hb in Hall. by destruct Ef; apply Hall. }
    cbn. eexists. split; [done|]. by split.
Qed.

Lemma geb_sub a b : Z.b2z (a - b >=? 0) = Z.b2z (b <=? a).
Proof. f_equal. destruct (Z.geb_spec (a - b) 0), (Z.leb_spec b a); done || lia. Qed.

Lemma exit_ok s g t :
  table_ok s g → s.2 < 2 ^ 31 - 1 → op_fresh (TExit t) s →
  ∃ g', table_step (TExit t) g = Ok ((slots_step (TExit t) s).1, g') ∧
    table_ok (slots_step (TExit t) s).2 g'.
Proof.
  intros Ht Hmax Hne. pose proof Ht as [Hwf Hb Hm Hl Hr Hs Hi Hc He].
  pose proof (slots_small s g Ht) as Hsz. cbn [slots_step table_step op_fresh fst snd] in *.
  unfold st_bind, leave_slot. rewrite (GetStackId_ok s g t Ht Hne). cbn [res_bind].
  destruct (first_slot (λ i, s.1 !! i = Some t)) as [i|] eqn:Ef; cbn [default from_option].
  - apply first_slot_Some in Ef as [Ei Hin]. destruct (Z.geb_spec (id i) 0); [|unfold id in *; lia].
    unfold id, MAX_THREADS in *. rewrite arr_set_in by lia. cbn [res_bind].
    destruct (Clear_ok (stackMap g) i Hwf) as (bm & -> & Hwf' & Hb' & Hm'); [lia|]. cbn [res_bind snd].
    assert (Hsz' : size (delete i s.1) = (size s.1 - 1)%nat) by (rewrite map_size_delete, Ei; lia).
    assert (0 < size s.1)%nat.
    { destruct (size s.1) eqn:E; [|lia]. apply map_size_empty_iff in E. by rewrite E in Ei. }
    assert (Hcount : int32 (g_threadsIdx g - 1) = Z.of_nat (size (delete i s.1)) - s.2).
    { rewrite Hc, Hsz', int32_id; [lia|]. unfold is_int32. lia. }
    eexists. split; [unfold goes_on; cbn [fst snd]; rewrite <- geb_sub, <- Hcount; reflexivity|]. split; cbn; try done.
    + by rewrite Hb', Hb.
    + by rewrite Hm', dom_delete_L, Hm.
    + by rewrite length_insert.
    + intros j u [_ Ej]%lookup_delete_Some. by apply Hr.
    + intros j Hj. destruct (decide (j = i)) as [->|Hij].
      * rewrite lookup_delete_eq, list_lookup_insert_eq by lia. done.
      * rewrite lookup_delete_ne, list_lookup_insert_ne by lia. by apply Hs.
    + intros j k u [_ Ej]%lookup_delete_Some [_ Ek]%lookup_delete_Some. by apply (Hi j k u).
  - cbn. assert (Hcount : int32 (g_threadsIdx g - 1) = Z.of_nat (size s.1) - (s.2 + 1)).
    { rewrite Hc, int32_id; [lia|]. unfold is_int32. lia. }
    eexists. split; [unfold goes_on; cbn [fst snd]; rewrite <- geb_sub, <- Hcount; reflexivity|]. split; cbn; try done; lia.
Qed.

(** C15. The thread table. From the empty table on, whatever threads are created and
    leave, one critical section after the other, the arrays, the bitmap and the counter
    behave as a map from ten slots to live threads: a creation takes the least free slot or
    gives -1 and changes nothing when all ten are taken, an exit frees the slot of the
    thread that leaves, no slot is ever shared or lost, and the machine is halted by the
    exit that leaves fewer threads in the table than have left outside it, which, when only
    the main thread does, is the exit of the last thread. *)
Theorem thread_table os s g :
  table_ok s g → s.2 + Z.of_nat (length os) < 2 ^ 31 → ops_fresh os s →
  ∃ g', table_run os g = Ok ((slots_run os s).1, g') ∧ table_ok (slots_run os s).2 g'.
Proof.
  revert s g. induction os as [|o os IH]; intros s g Ht Hlen Hf; [by exists g|].
  cbn [length ops_fresh] in *. destruct Hf as [Ho Hf].
  assert (Hstep : ∃ g', table_step o g = Ok ((slots_step o s).1, g') ∧ table_ok (slots_step o s).2 g').
  { destruct o; [apply create_ok|apply exit_ok]; try done; lia. }
  assert (Hleft : (slots_step o s).2.2 ≤ s.2 + 1).
  { destruct o; cbn; destruct (first_slot _); cbn; lia. }
  destruct Hstep as (g1 & E & Ht1). destruct (IH _ g1 Ht1) as (g2 & E2 & Ht2); [lia|done|].
  cbn [table_run slots_run]. st_step E. st_step E2.
  destruct (slots_step o s) as [r s1]. cbn in *. destruct (slots_run os s1) as [rs s2].
  exists g2. by split.
Qed.
End Table.

Lemma no_threads_ok b g :
  wf b → numBits b = MAX_THREADS → marked b = ∅ → table_ok (∅, 0) (no_threads b g).
Proof.
  intros Hwf Hb Hm. split; cbn; try done.
  intros i Hi. rewrite lookup_replicate_2; [done|]. unfold MAX_THREADS in *. lia.
Qed.

Lemma thread_table_witness :
  let os := [TCreate 700; TCreate 800; TExit 700; TCreate 900; TExit 1; TExit 900; TExit 800] in
  let g := mkGlobals [] (mkBitMap 10 1 [0]) 0 0 0 [] in
  ∃ g', table_run os (no_threads (mkBitMap 10 1 [0]) g) = Ok ([0; 1; 1; 0; 1; 1; 0], g') ∧ table_ok (∅, 1) g'.
Proof.
  intros os g.
  destruct (thread_table os (∅, 0) (no_threads (mkBitMap 10 1 [0]) g)) as (g' & E & Ht).
  - apply no_threads_ok; [|reflexivity|vm_compute; reflexivity].
    split; [done|]. split; [reflexivity|]. split; [reflexivity|]. repeat constructor; done.
  - done.
  - repeat split; done.
  - exists g'. split; [exact E|exact Ht].
Defined.
