(* ===== verification/Post.v ===== *)
(** * The post office (network/post.cc, threads/synchlist.cc)

    Messages with a header of their own inside the packets of the network, sorted into
    mailboxes by a thread that waits for packets. A mailbox is a list behind a lock and a
    condition variable; condition variables are stubs whose every operation, construction
    included, fails an assertion, so a post office never comes to life: [Stop
    AssertFailure] below is where that happens. What goes over the wire is proved. *)
From S2P Require Import Prelude Words LinkedList BitMap Interrupt Disk Console Network Machine MipsSim.
From S2P Require Import Threads Programs Devices.

(** class Mail *)
Record Mail := mkMail { pktHdr : Header; mailHdr : Header; mail_data : list Z }.

(** [new Mail]; [garbage] is the array before. *)
Definition new_Mail (pktH mailH : Header) (msgData garbage : list Z) : res Mail :=
  let? _ := ASSERT (length_ mailH <=? MaxMailSize) in
  let? data := bcopy msgData (length_ mailH) garbage 0 in
  Ok (mkMail pktH mailH data).

(** What Get gives its caller, whose buffer is [buf]. *)
Definition take_Mail (mail : Mail) (buf : list Z) : res (Header * Header * list Z) :=
  let? data := bcopy (mail_data mail) (length_ (mailHdr mail)) buf 0 in
  Ok (pktHdr mail, mailHdr mail, data).

(** The buffer PostOffice::Send hands to the network and the packet header that goes with
    it. *)
Definition post_packet (netAddr : Z) (pktHdr mailHdr : Header) (data garbage : list Z)
    : res (Header * list Z) :=
  let pktHdr := mkHeader (to pktHdr) netAddr (uint32 (length_ mailHdr + sizeof_MailHeader)) in
  let? buffer := bcopy (header_bytes mailHdr) sizeof_MailHeader garbage 0 in
  let? buffer := bcopy data (length_ mailHdr) buffer sizeof_MailHeader in
  Ok (pktHdr, buffer).

(** What PostalDelivery makes of what [Receive] left in its buffer: the mail header and the
    data behind it. *)
Definition sort_packet (numBoxes : Z) (buffer : list Z) : res (Header * list Z) :=
  let mailHdr := header_of buffer in
  let? _ := ASSERT ((0 <=? to mailHdr) && (to mailHdr <? numBoxes)) in
  let? _ := ASSERT (length_ mailHdr <=? MaxMailSize) in
  Ok (mailHdr, drop (Z.to_nat sizeof_MailHeader) buffer).

Section PostOffice.
Context {E : Type} (garbage : nat → Z).
Abbreviation program := (prog devint Devs devop E).

Definition char_array (n : Z) : list Z := (λ i, uint8 (garbage i)) <$> seq 0 (Z.to_nat n).

(** ** Synchronised lists *)

(** The lock of mailbox [box]. *)
Definition list_lock (box : Z) : semid := Pos.of_nat (Z.to_nat (box + 11)).

Definition new_SynchList (box : Z) : program unit :=
  do* RSemaphore (list_lock box) 1;
  Stop AssertFailure.                            (* new Condition *)

Definition messages (box : Z) (g : Globals) : list (Header * Header * list Z) :=
  default [] (boxes g !! Z.to_nat box).
Definition set_messages (box : Z) l (g : Globals) : Globals :=
  mkGlobals (g_threads g) (stackMap g) (g_threadsIdx g) (netAddr g) (numBoxes g)
    (<[Z.to_nat box := l]> (boxes g)).

Definition SynchList_Append (box : Z) (m : Mail) : program unit :=
  do* RP (list_lock box);
  do* RDev (SetGlobals (λ g, set_messages box (messages box g ++ [(pktHdr m, mailHdr m, mail_data m)]) g));
  Stop AssertFailure.                            (* listEmpty->Signal *)

Definition SynchList_Remove (box : Z) : program Mail :=
  do* RP (list_lock box);
  Ask (λ w,
  match messages box (globals (dev (rest w))) with
  | [] => Stop AssertFailure                     (* listEmpty->Wait *)
  | (p, m, data) :: l =>
      do* RDev (SetGlobals (set_messages box l));
      do* RV (list_lock box);
      Done (mkMail p m data)
  end).

(** [f] is what the function does to each item. *)
Definition SynchList_Mapcar (box : Z) (f : Header * Header * list Z → program unit) : program unit :=
  do* RP (list_lock box);
  Ask (λ w,
  call* _ := foldr (λ x p, call* _ := f x in p) (Done tt) (messages box (globals (dev (rest w)))) in
  do* RV (list_lock box);
  Done tt).

(** ** The post office *)

Definition lift_res {R S} (r : res S) (k : S → program R) : program R :=
  match r with Ok a => k a | Fail f => Stop f end.

Definition MailBox_Put (box : Z) (pktHdr mailHdr : Header) (data : list Z) : program unit :=
  lift_res (new_Mail pktHdr mailHdr data (char_array MaxMailSize)) (SynchList_Append box).
Definition MailBox_Get (box : Z) (buf : list Z) : program (Header * Header * list Z) :=
  call* mail := SynchList_Remove box in lift_res (take_Mail mail buf) Done.

(** The mailboxes are made first, and one is enough to stop. *)
Fixpoint new_MailBoxes (boxes : list Z) (k : program unit) : program unit :=
  match boxes with
  | [] => k
  | b :: boxes => call* _ := new_SynchList b in new_MailBoxes boxes k
  end.

Definition set_office (addr nBoxes : Z) (g : Globals) : Globals :=
  mkGlobals (g_threads g) (stackMap g) (g_threadsIdx g) addr nBoxes (replicate (Z.to_nat nBoxes) []).

(** [open] is [new Network] and [helper] where the postal worker starts. *)
Definition new_PostOffice (addr nBoxes : Z) (open : program unit) (helper : E) (registers : list Z) : program unit :=
  do* RSemaphore messageAvailable 0;
  do* RSemaphore messageSent 0;
  do* RSemaphore sendLock 1;
  do* RDev (SetGlobals (set_office addr nBoxes));
  new_MailBoxes (seqZ 0 nBoxes) (
  call* _ := open in
  Ask (λ w,
  let t := fresh (dom (threads (rest w))) in
  do* RNew t registers;
  StartAt t helper (Done tt))).

(** One turn of the loop of PostalDelivery; [buffer] stays from turn to turn. *)
Definition PostalDelivery_turn (buffer : list Z) (again : list Z → program unit) : program unit :=
  do* RP messageAvailable;
  Ask (λ w,
  lift_res (Receive buffer (network (dev (rest w)))) (λ '(pktHdr, buffer', _),
  do* RDev (NetworkReceive buffer);
  lift_res (sort_packet (numBoxes (globals (dev (rest w)))) buffer') (λ '(mailHdr, data),
  call* _ := MailBox_Put (to mailHdr) pktHdr mailHdr data in
  again buffer'))).

Definition PostOffice_Send (pktHdr mailHdr : Header) (data : list Z) : program unit :=
  Assert (length_ mailHdr <=? MaxMailSize) (
  Ask (λ w,
  let g := globals (dev (rest w)) in
  Assert ((0 <=? to mailHdr) && (to mailHdr <? numBoxes g)) (
  lift_res (post_packet (netAddr g) pktHdr mailHdr data (char_array MaxPacketSize)) (λ '(pktHdr, buffer),
  do* RP sendLock;
  do* RDev (NetworkSend pktHdr buffer (char_array MaxWireSize));
  do* RP messageSent;
  do* RV sendLock;
  Done tt)))).

Definition PostOffice_Receive (box : Z) (buf : list Z) : program (Header * Header * list Z) :=
  Ask (λ w,
  Assert ((box >=? 0) && (box <? numBoxes (globals (dev (rest w))))) (
  call* r := MailBox_Get box buf in
  Assert (length_ r.1.2 <=? MaxMailSize) (Done r))).
End PostOffice.

(** ** Facts *)

(** A post office fails its assertion before any mail is sent. *)
Lemma new_MailBoxes_stop {E} box boxes (k : prog devint Devs devop E unit) :
  new_MailBoxes (box :: boxes) k = (do* RSemaphore (list_lock box) 1; Stop AssertFailure).
Proof. done. Qed.

(** C19. A message comes through the network as it was sent. The buffer Send makes of a mail
    header and up to 40 bytes of data, put on the wire by the network device, polled by
    the device of the machine it is addressed to, received into the postal worker's buffer
    and sorted, gives the mailbox, the mail header and the data of the sender, with the
    packet header naming both machines; what the buffers held before does not show in the
    bytes of the message. *)
Theorem mail_delivered {H} (ReadPoll Done_ : H) n m pktH mailH data garbage wire rnd t now nb box_garbage user_buf :
  header_wf mailH → length_ mailH ≤ MaxMailSize → length_ mailH ≤ Z.of_nat (length data) →
  is_int32 (to pktH) → is_int32 (ident n) → sendBusy n = false →
  Qle_bool (chanceToWork n * 100) (inject_Z (rnd mod 100)) = false →
  Z.of_nat (length garbage) = MaxPacketSize → Z.of_nat (length wire) = MaxWireSize →
  network_wf m → to pktH = ident m → length_ (inHdr m) = 0 → t ≤ now → 0 ≤ to mailH < nb →
  Z.of_nat (length box_garbage) = MaxMailSize → length_ mailH ≤ Z.of_nat (length user_buf) →
  ∃ ph buffer n' acts b,
    post_packet (ident n) pktH mailH data garbage = Ok (ph, buffer) ∧
    Send Done_ ph buffer wire rnd n = Ok (n', acts) ∧ sent n' = sent n ++ [(to pktH, b)] ∧
    ∀ l old, arriving m = (t, b) :: l → Z.of_nat (length old) = MaxPacketSize →
    ∃ m' r m'' d mail got,
      CheckPktAvail ReadPoll now m =
        Ok (m', true, [ASchedule ReadPoll NetworkTime NetworkRecvInt; ACount PacketsRecvd]) ∧
      Receive old m' = Ok (ph, r, m'') ∧ to ph = to pktH ∧ from ph = ident n ∧
      sort_packet nb r = Ok (mailH, d) ∧ new_Mail ph mailH d box_garbage = Ok mail ∧
      take_Mail mail user_buf = Ok (ph, mailH, got) ∧
      take (Z.to_nat (length_ mailH)) got = take (Z.to_nat (length_ mailH)) data.
Proof.
  intros Hmh Hlen Hd Hto Hid Hb Hq Hg Hw Hm Htm Hz Ht Hbox Hbg Hub.
  assert (Hl0 : 0 ≤ length_ mailH) by apply Hmh.
  unfold MaxMailSize, MaxPacketSize, MaxWireSize, sizeof_MailHeader, sizeof_PacketHeader in *.
  unfold post_packet. rewrite uint32_id by (unfold is_uint32; change sizeof_MailHeader with 12; lia).
  change sizeof_MailHeader with 12.
  destruct (bcopy_ok (header_bytes mailH) 12 garbage 0) as (b1 & -> & Hl1 & Hb1 & _);
    [rewrite length_header_bytes; lia|lia|lia|]. cbn [res_bind].
  destruct (bcopy_ok data (length_ mailH) b1 12) as (buffer & -> & Hl2 & Hb2 & Hb2'); [lia|lia|lia|]. cbn [res_bind].
  set (ph := mkHeader (to pktH) (ident n) (length_ mailH + 12)).
  assert (Hph : header_wf ph) by (split; [done|split; [done|split; cbn; lia] ]).
  destruct (sent_is_received ReadPoll Done_ n m ph buffer wire rnd t now) as (n' & acts & b & E & Hs & Hrecv);
    try done; [cbn; unfold MaxPacketSize, MaxWireSize, sizeof_PacketHeader; lia|cbn; lia|].
  exists ph, buffer, n', acts, b. split; [done|]. split; [exact E|]. split; [exact Hs|]. intros l old Ha Ho.
  destruct (Hrecv l old Ha) as (m' & r & m'' & E1 & E2 & Hr & _); [done|]. cbn [length_ ph] in Hr.
  (* the packet received is the buffer sent, as far as the message goes *)
  assert (Hhead : take 12 r = header_bytes mailH).
  { assert (Hk : take 12 (take (Z.to_nat (length_ mailH + 12)) r) = take 12 buffer).
    { rewrite Hr, take_take. f_equal. lia. }
    rewrite take_take, Nat.min_l in Hk by lia. rewrite Hk. change 12%nat with (Z.to_nat 12). rewrite Hb2'.
    rewrite Z2Nat.inj_0, drop_0 in Hb1. rewrite Hb1. apply take_ge. rewrite length_header_bytes. lia. }
  assert (Hdata : take (Z.to_nat (length_ mailH)) (drop 12 r) = take (Z.to_nat (length_ mailH)) data).
  { rewrite <- Hb2. change (Z.to_nat 12) with 12%nat. rewrite !take_drop_commute.
    replace (12 + Z.to_nat (length_ mailH))%nat with (Z.to_nat (length_ mailH + 12)) by lia. by rewrite Hr. }
  assert (Hrl : (Z.to_nat (length_ mailH) <= length (drop 12 r))%nat).
  { apply (f_equal length) in Hdata. rewrite !length_take in Hdata. lia. }
  assert (Hh : header_of r = mailH) by (rewrite <- (take_drop 12 r), Hhead; by apply header_of_bytes).
  destruct (bcopy_ok (drop 12 r) (length_ mailH) box_garbage 0) as (md & Emd & Hlmd & Hmd & _); [lia..|].
  destruct (bcopy_ok md (length_ mailH) user_buf 0) as (got & Egot & _ & Hgot & _); [lia..|].
  rewrite Z2Nat.inj_0, drop_0 in Hmd, Hgot.
  exists m', r, m'', (drop 12 r), (mkMail ph mailH md), got.
  split; [exact E1|]. split; [exact E2|]. split; [done|]. split; [done|].
  split; [|split; [|split] ].
  - unfold sort_packet. rewrite Hh, (proj2 (Z.leb_le 0 _)), (proj2 (Z.ltb_lt _ nb)) by lia. cbn [andb ASSERT res_bind].
    unfold MaxMailSize, MaxPacketSize, MaxWireSize, sizeof_PacketHeader, sizeof_MailHeader.
    by rewrite (proj2 (Z.leb_le _ _)) by lia.
  - unfold new_Mail. unfold MaxMailSize, MaxPacketSize, MaxWireSize, sizeof_PacketHeader, sizeof_MailHeader.
    rewrite (proj2 (Z.leb_le _ _)) by lia. cbn [ASSERT res_bind]. by rewrite Emd.
  - unfold take_Mail. cbn [mail_data mailHdr pktHdr]. by rewrite Egot.
  - by rewrite Hgot, Hmd, Hdata.
Qed.

Lemma mail_delivered_witness :
  let n := mkNetwork 1 1%Q false (mkHeader 0 0 0) (replicate 52 0) [] [] in
  let data := [71; 111; 116; 32; 105; 116; 33; 0] in
  let mailH := mkHeader 3 1 8 in
  let b := header_bytes (mkHeader 2 1 20) ++ header_bytes mailH ++ data ++ replicate 32 9 in
  let m := mkNetwork 2 1%Q false (mkHeader 0 0 0) (replicate 52 5) [(500, b)] [] in
  ∃ m' r m'' d mail got,
    CheckPktAvail tt 600 m = Ok (m', true, [ASchedule tt NetworkTime NetworkRecvInt; ACount PacketsRecvd]) ∧
    Receive (replicate 52 0) m' = Ok (mkHeader 2 1 20, r, m'') ∧ sort_packet 10 r = Ok (mailH, d) ∧
    new_Mail (mkHeader 2 1 20) mailH d (replicate 40 0) = Ok mail ∧
    take_Mail mail (replicate 40 0) = Ok (mkHeader 2 1 20, mailH, got) ∧ take 8 got = data.
Proof.
  intros n data mailH b m.
  destruct (mail_delivered tt tt n m (mkHeader 2 0 0) mailH data
    (replicate 52 7) (replicate 64 9) 50 500 600 10 (replicate 40 0) (replicate 40 0))
    as (ph & buffer & n' & acts & b' & E1 & E2 & Hs & Hrecv).
  - split; [|split]; split; cbn; lia.
  - vm_compute. discriminate.
  - vm_compute. discriminate.
  - split; cbn; lia.
  - split; cbn; lia.
  - reflexivity.
  - vm_compute. reflexivity.
  - reflexivity.
  - reflexivity.
  - split; [reflexivity|split; vm_compute; intuition discriminate|].
    constructor; [|constructor]. split; [|split]; vm_compute; intuition discriminate.
  - reflexivity.
  - reflexivity.
  - lia.
  - cbn; lia.
  - reflexivity.
  - vm_compute. discriminate.
  - vm_compute in E1. injection E1 as <- <-. vm_compute in E2. injection E2 as <- <-.
    vm_compute in Hs. injection Hs as <-.
    destruct (Hrecv [] (replicate 52 0)) as (m' & r & m'' & d & mail & got & Ea & Eb & _ & _ & Ec & Ed & Ee & Ef);
      [vm_compute; reflexivity|reflexivity|].
    exists m', r, m'', d, mail, got. split; [exact Ea|]. split; [exact Eb|]. split; [exact Ec|].
    split; [exact Ed|]. split; [exact Ee|exact Ef].
Defined.
