(* ===== verification/System.v ===== *)
(** * The whole machine: start-up (threads/system.cc), and what holds of every run

    [booted] is the machine as Initialize leaves it before interrupts are first enabled;
    [Initialize] goes on from there. The theorems are about every kernel whose devices
    satisfy [DeviceLaws], and their witnesses about the devices of Devices.v. *)
From stdpp Require Import strings.
From S2P Require Import Prelude Words LinkedList BitMap SectorIO Interrupt Machine MipsSim Threads.
From S2P Require Import SchedInv Kernel KernelSteps Locks Programs Disk Console Network Devices SynchConsole.

(** ** What a kernel with any devices guarantees *)
Section Kernels.
Context {H D O : Type} {dv : Devices H D O} {DI : D → Prop} {irq : semid → Prop}.
Context {dlaws : DeviceLaws dv DI irq}.
Abbreviation world := (World H (KState D)).
Implicit Types (w : world).
Abbreviation winv := (Kernel.winv (DI := DI) (irq := irq)).

(** C1. The kernel keeps its invariant and none of its assertions fails. [winv] says:
    every thread is running, on the ready list, in the queue of one semaphore, finishing or
    not started, and only in the place its status and stack say; semaphore values are not
    negative; the machine runs in the page table of the thread that runs; interrupts are
    off inside scheduler calls; the interrupt list is sorted and the tick counts add up.
    Whatever legal requests threads make, in whatever order, it holds after every step; a
    call in progress can always go on, or the machine halts with nothing to do; and a legal
    request never stops at an assertion or a bad pointer. *)
Theorem kernel_invariant w w' :
  winv w → rtc kernel_step w w' →
  winv w' ∧
  (cur_frames (rest w') ≠ [] → resume w' = Fail (Exited 0) ∨ ∃ w'', kernel_step w' w'') ∧
  (∀ r, cur_frames (rest w') = [] → req_ok w' r → ∃ w'', request_do r w' = Ok (tt, w'') ∧ winv w'').
Proof.
  intros Hw Hs. pose proof (steps_ok w w' Hw Hs) as Hw'. split; [done|]. split.
  - intros Hf. destruct (resume_ok w' Hw' Hf) as [?|(w'' & E & _)]; [by left|right].
    exists w''. by apply step_resume.
  - intros r Hf Hq. destruct (request_ok w' r Hw' Hf Hq) as (w'' & E & ? & _). eauto.
Qed.

(** C8. The ready list is served first come, first served, so no ready thread starves:
    a thread with [n] threads before it on the list runs at the [n+1]st switch from there,
    whatever the threads do in between. *)
Theorem ready_thread_runs n w w' w'' t :
  winv w → readyList (rest w) !! n = Some t →
  passed n w w' → kernel_step w' w'' → switched (cur_frames (rest w'')) = true →
  currentThread (rest w'') = t.
Proof. intros Hw Ht Hp Hs Hsw. by apply (passed_turn n w w' w''). Qed.

(** C7. No wake-up is lost. When the machine stops because nothing is left to do, no
    thread is ready or running, every started thread waits at a semaphore or has
    finished, and every semaphore with a thread waiting at it has value 0. *)
Theorem no_lost_wakeup w :
  winv w → halted (rest w) = false → resume w = Fail (Exited 0) →
  readyList (rest w) = [] ∧
  (∀ t th, threads (rest w) !! t = Some th →
     t_status th = JUST_CREATED ∨ t_status th = BLOCKED ∧
       ((∃ s sm, pend (frames th) = Some s ∧ sems (rest w) !! s = Some sm ∧ t ∈ queue sm ∧ value sm = 0) ∨
        threadToBeDestroyed (rest w) = Some t)).
Proof.
  intros Hw Hh E. pose proof (stopped_asleep w Hw E) as Has.
  destruct (stopped_idle w Hw E Hh) as [Hl _]. split; [done|].
  destruct (stopped_blocked w Hw Has Hl) as [Hst Hv]. pose proof (kI_k _ (ri_k _ (proj1 Hw))) as Hk.
  intros t th Et. destruct (Hst t th Et) as [Hb|?]; [right|by left]. split; [done|].
  destruct (pend (frames th)) as [s|] eqn:Hp; [left|right; by apply (ki_blocked _ _ Hk t th)].
  destruct (ki_sem _ _ Hk t th s Et Hp) as [sm Es]. exists s, sm.
  destruct (ki_queue _ _ Hk s sm Es) as (_ & _ & Hin).
  assert (t ∈ queue sm) by (apply Hin; by exists th).
  split_and!; try done. apply (Hv s sm Es). destruct (queue sm); set_solver.
Qed.

(** C9. A user program does not notice that it lost the processor. When a thread with
    an address space is switched out ([w1] to [w2]), and later, whatever other threads
    have done meanwhile, comes back from that switch ([w3] to [w4]), every register of
    the machine is as it was when it left, and the machine translates through the page
    table of the thread's own space. *)
Theorem user_context_kept w1 w2 w3 w4 t th :
  winv w1 → currentThread (rest w1) = t → threads (rest w1) !! t = Some th → is_Some (space th) →
  kernel_step w1 w2 → switched (cur_frames (rest w2)) = true →
  away t w2 w3 → currentThread (rest w3) = t →
  (∃ b, cur_frames (rest w3) = FSwitched :: b) → resume w3 = Ok (tt, w4) →
  registers (machine (rest w4)) = registers (machine (rest w2)) ∧
  ∃ th2 sp a, threads (rest w2) !! t = Some th2 ∧ space th2 = Some sp ∧ pt_owner (rest w4) = Some sp ∧
    spaces (rest w4) !! sp = Some a ∧ pageTable (machine (rest w4)) = Some (as_pageTable a) ∧
    pageTableSize (machine (rest w4)) = numPages a.
Proof.
  intros Hw1 Hc E1 Hsp Hs Hsw Ha Hc3 [b Hf3] Hres.
  destruct (step_ok w1 w2 Hw1 Hs) as [Hw2 Hu]. rewrite <- Hc in E1.
  destruct (us_saves _ _ Hu th Hsw E1 Hsp) as (th2 & E2 & [sp Hsp2] & Hreg). rewrite Hc in E2.
  pose proof (away_kept t w2 w3 th2 Hw2 Ha E2) as Hk.
  pose proof (steps_ok w2 w3 Hw2 (away_steps t w2 w3 Ha)) as Hw3.
  destruct (arrive_ok (rest w3) (ri_k _ (proj1 Hw3))) as (k' & th3 & EA & HI & E3 & Hc' & _ & _ & _ & _ & Hown & Hm);
    [by rewrite Hf3|].
  rewrite Hc3 in E3. rewrite E3 in Hk. injection Hk as Hr3 Hs3. rewrite Hs3, Hsp2 in Hm.
  destruct Hm as (Hm1 & Hm2 & _).
  assert (w4 = set_rest k' w3) as ->.
  { unfold resume in Hres. rewrite Hf3, EA in Hres. by injection Hres. }
  cbn [set_rest rest]. split; [congruence|]. exists th2, sp.
  pose proof (mi_owner _ (kI_m _ HI)) as Ho. rewrite Hm2 in Ho. destruct Ho as (a & Ea & Ept & Esz).
  exists a. by split_and!.
Qed.

(** C2. Mutual exclusion. Take any run of the machine, with any devices whose handlers do
    not raise the lock, any number of threads, any interleaving of their steps and of
    interrupts, in which a thread releases the lock only while it has it. Then at most one
    thread has the lock, the lock's value is 0 exactly while one has, and the next thread
    can get through Acquire only once the owner has released it. *)
Theorem lock_excludes l w0 h w :
  ¬ irq l → winv w0 → semval l (rest w0) = Some 1 → lock_run l w0 h w →
  (h = [] ∧ semval l (rest w) = Some 1 ∨ ∃ t, h = [t] ∧ semval l (rest w) = Some 0) ∧
  (gets_through l w = true → h = []).
Proof.
  intros Hl Hw0 H0 Hr. pose proof (lock_run_holders l Hl w0 h w Hw0 H0 Hr) as Hh. split; [done|].
  destruct Hh as [ [-> _]|(t & -> & Hv)]; [done|]. unfold gets_through. rewrite Hv.
  destruct (cur_frames (rest w)) as [|[] b]; try done. rewrite andb_false_r. done.
Qed.
End Kernels.

(** ** Start-up *)

(** The options Initialize reads; the numbers are what [atoi] and [atof] make of them. *)
Record Options := mkOptions {
  randomYield : bool;
  debugUserProg : bool;
  format : bool;
  rely : Q;
  netname : Z }.

(** What the program was built with. *)
Record Build := mkBuild { user_program : bool; filesys : bool; with_network : bool }.

Section Initialize.
Context (build : Build) (atoi : string → Z) (atof : string → Q).

(** The loop over the arguments, after the program's name. [exit(EXIT_FAILURE)] for a
    seed of 0. *)
Fixpoint parse_args (fuel : nat) (argv : list string) (o : Options) : res Options :=
  match fuel, argv with
  | 0%nat, _ => Fail OutOfFuel
  | _, [] => Ok o
  | S fuel, arg :: more =>
      let? r :=
        if bool_decide (arg = "-d") then
          match more with [] => Ok (o, 1%nat) | _ => Ok (o, 2%nat) end
        else if bool_decide (arg = "-rs") then
          match more with
          | [] => Fail AssertFailure
          | seed :: _ =>
              if atoi seed =? 0 then Fail (Exited 1)
              else Ok (mkOptions true (debugUserProg o) (format o) (rely o) (netname o), 2%nat)
          end
        else Ok (o, 1%nat) in
      let '(o, argCount) := r in
      let o := if user_program build && bool_decide (arg = "-s")
               then mkOptions (randomYield o) true (format o) (rely o) (netname o) else o in
      let o := if filesys build && bool_decide (arg = "-f")
               then mkOptions (randomYield o) (debugUserProg o) true (rely o) (netname o) else o in
      let? r :=
        if with_network build && bool_decide (arg = "-l") then
          match more with
          | [] => Fail AssertFailure
          | x :: _ => Ok (mkOptions (randomYield o) (debugUserProg o) (format o) (atof x) (netname o), 2%nat)
          end
        else if with_network build && bool_decide (arg = "-m") then
          match more with
          | [] => Fail AssertFailure
          | x :: _ => Ok (mkOptions (randomYield o) (debugUserProg o) (format o) (rely o) (atoi x), 2%nat)
          end
        else Ok (o, argCount) in
      parse_args fuel (drop r.2 (arg :: more)) r.1
  end.

Definition default_options : Options := mkOptions false false false 1 0.
End Initialize.

(** The semaphores: [readAvail], [writeDone] and [thread_lock] are static, the others come
    with the objects of the build, the console's locks being made by its constructor. *)
Definition boot_sem_list : list (semid * Semaphore) :=
    [(readAvail, mkSemaphore 0 []); (writeDone, mkSemaphore 0 []); (diskDone, mkSemaphore 0 []);
     (messageAvailable, mkSemaphore 0 []); (messageSent, mkSemaphore 0 []);
     (diskLock, mkSemaphore 1 []); (sendLock, mkSemaphore 1 []); (thread_lock, mkSemaphore 1 [])].
Definition boot_sems : gmap semid Semaphore := list_to_map boot_sem_list.

(** The globals once they are allocated: statistics, interrupts (off, none pending), an
    empty ready list, the thread "main", running, with the registers its allocation left,
    and the machine. *)
Definition booted {H D} (sms : gmap semid Semaphore) (garbage : list Z) (m : Machine) (d : D)
    : World H (KState D) :=
  mkWorld new_Interrupt new_Statistics
    (mkK {[main_thread := mkThread RUNNING [] None (new_registers garbage)]} main_thread None [] false
       sms ∅ None m d).

(** The rest of Initialize: what it asks of the kernel. The file system it makes is
    FileSys.new_FileSystem, run on the booted machine in SynchDisk.v. A post office has ten
    mailboxes, so condition variables. *)
Definition Initialize {E} (build : Build) (o : Options) : prog devint Devs devop E unit :=
  let timer p := if randomYield o then do* RDev (TimerStart true); p else p in
  let synchconsole p := if user_program build then (call* _ := new_SynchConsole None None in p) else p in
  timer (
  do* RSetLevel IntOn;
  synchconsole (
  if with_network build then Stop AssertFailure else Done tt)).

(** ** The machine starts in the invariant *)

Lemma boot_sems_new s sm : boot_sems !! s = Some sm → queue sm = [] ∧ 0 ≤ value sm.
Proof.
  intros Es. apply elem_of_list_to_map_2 in Es.
  assert (Hall : Forall (λ e : semid * Semaphore, queue e.2 = [] ∧ 0 ≤ value e.2) boot_sem_list)
    by (repeat constructor; simpl; lia).
  rewrite Forall_forall in Hall. apply (Hall _ Es).
Qed.

Lemma boot_sems_signalled s : signalled s → is_Some (boot_sems !! s).
Proof.
  intros Hs. unfold signalled in Hs. rewrite !elem_of_cons in Hs.
  destruct Hs as [->|[->|[->|[->|[->|Hs] ] ] ] ]; [vm_compute; eauto..|by apply elem_of_nil in Hs].
Qed.

(** A machine no program has been loaded into. *)
Record machine_fresh (m : Machine) : Prop := {
  mf_regs : regs_ok (registers m);
  mf_mem : map_Forall (λ _ b, is_byte b) (mainMemory m);
  mf_tlb : tlb m = None;
  mf_table : pageTable m = None;
}.

Lemma int_garbage n : Forall is_int32 (replicate n 0).
Proof. apply Forall_replicate. unfold is_int32. lia. Qed.

Lemma new_Machine_fresh debug : ∃ m, new_Machine debug = Ok m ∧ machine_fresh m.
Proof.
  eexists. split; [reflexivity|]. split; simpl; try done.
  split; [done|]. split; [exact (int_garbage 40)|]. by exists 0.
Qed.

Section Boot.
Context {H D O : Type} {dv : Devices H D O} {DI : D → Prop} {irq : semid → Prop}.
Context {dlaws : DeviceLaws dv DI irq}.
Context (sms : gmap semid Semaphore) (garbage : list Z) (m : Machine) (d : D).
Hypotheses (Hnew : ∀ s sm, sms !! s = Some sm → queue sm = [] ∧ 0 ≤ value sm)
  (Hirq : ∀ s, irq s → is_Some (sms !! s)).
#[local] Abbreviation boot := (booted (H := H) sms garbage m d).

Lemma boot_threads t th : threads (rest boot) !! t = Some th →
  t = main_thread ∧ th = mkThread RUNNING [] None (new_registers garbage).
Proof. unfold booted. cbn [rest threads]. by intros [<- <-]%lookup_singleton_Some. Qed.

Lemma boot_kinv : kinv Normal (rest boot).
Proof.
  split.
  - by exists (mkThread RUNNING [] None (new_registers garbage)).
  - intros t th' E Hne. by destruct (boot_threads t th' E) as [-> _].
  - intros t th' E. by destruct (boot_threads t th' E) as [_ ->].
  - constructor.
  - intros t. split; [by intros ?%elem_of_nil|]. intros (_ & th' & E & Hs). by destruct (boot_threads t th' E) as [_ ->].
  - done.
  - intros s sm Es. destruct (Hnew s sm Es) as [Hq Hv]. rewrite Hq. split; [constructor|].
    split; [done|]. intros t. split; [by intros ?%elem_of_nil|].
    intros (th' & E & [Hb _]). by destruct (boot_threads t th' E) as [_ ->].
  - intros t th' s E Hp. by destruct (boot_threads t th' E) as [_ ->].
  - intros t th' E Hb. by destruct (boot_threads t th' E) as [_ ->].
  - done.
  - intros s sm Es Hq. by destruct (Hnew s sm Es).
Qed.

Lemma boot_winv :
  length garbage = Z.to_nat NumTotalRegs → Forall is_int32 garbage → machine_fresh m → DI d →
  winv (DI := DI) (irq := irq) boot.
Proof.
  intros Hg Hi [Hr Hb Ht Hp] Hd. pose proof (new_registers_ok garbage Hg Hi) as Hn.
  split; [|done]. split; try done.
  split; [apply boot_kinv| |done|done].
  split; try done.
  - intros t th' E. by destruct (boot_threads t th' E) as [_ ->].
  - intros t th' sp E. by destruct (boot_threads t th' E) as [_ ->].
  - intros th' sp _ E. by destruct (boot_threads _ th' E) as [_ ->].
Qed.
End Boot.

(** The machine with the devices of Devices.v. *)
Lemma nachos_winv debug m d :
  new_Machine debug = Ok m → devs_wf d →
  winv (DI := devs_wf) (irq := signalled) (booted (H := devint) boot_sems (replicate 40 0) m d).
Proof.
  intros Em Hd. destruct (new_Machine_fresh debug) as (m' & Em' & Hf).
  assert (m' = m) as -> by congruence. apply boot_winv; try done.
  - apply boot_sems_new.
  - apply boot_sems_signalled.
  - apply int_garbage.
Qed.

(** ** Runs of a kernel without devices *)
Section Examples.
#[local] Instance no_devices : Devices Empty_set unit Empty_set := {
  fire h t d := Ok (d, [], []);
  dev_op o t d := Ok (d, []);
}.
#[local] Instance no_laws : DeviceLaws no_devices (λ _, True) (λ _, False).
Proof. split; [by intros []|by intros []]. Qed.

Abbreviation quiet := (World Empty_set (KState unit)).
Abbreviation req := (request (O := Empty_set)).

Definition quiet_boot : quiet :=
  booted {[1%positive := mkSemaphore 0 []]} (replicate 40 0)
    (mkMachine ∅ (replicate 40 0) None None 0 false 0) tt.

Lemma quiet_winv : winv (DI := λ _, True) (irq := λ _, False) quiet_boot.
Proof.
  apply boot_winv; try done.
  - intros s sm. unfold quiet_boot. by intros [<- <-]%lookup_singleton_Some.
  - apply int_garbage.
  - destruct (new_Machine_fresh false) as (m & E & Hf). by injection E as <-.
Qed.

(** [None] runs the call in progress on. *)
Definition move (r : option req) (w : quiet) : res quiet :=
  let? x := match r with None => resume w | Some r => request_do r w end in Ok x.2.
Fixpoint play (l : list (option req)) (w : quiet) : res quiet :=
  match l with [] => Ok w | r :: l => let? w := move r w in play l w end.

Definition one_space : AddrSpace :=
  mkAddrSpace [mkTranslation 0 5 true false false false] 1.
Definition set4 (v : Z) : option req := Some (RMachine (WriteRegister 4 v)).

(** Thread 1 enters a space and leaves a mark in a register, starts thread 2 and yields;
    thread 2 changes the register and yields back. *)
Definition scene : list (option req) :=
  [Some (RSpace 1%positive one_space); Some (REnter 1%positive); set4 77;
   Some (RNew 2%positive (replicate 40 0)); Some (RStart 2%positive)].
Definition scene2 : list (option req) := [None; set4 5; Some RYield].

Definition play_from (l : list (option req)) (w : quiet) : quiet :=
  match play l w with Ok w => w | Fail _ => w end.

Lemma play_resume w w' : cur_frames (rest w) ≠ [] → move None w = Ok w' → kernel_step w w'.
Proof.
  intros Hf E. apply step_resume; [done|]. unfold move in E.
  apply res_bind_Ok_inv in E as ([ [] w1] & E1 & E). by injection E as <-.
Qed.
Lemma play_request r w w' :
  cur_frames (rest w) = [] → req_ok w r → move (Some r) w = Ok w' → kernel_step w w'.
Proof.
  intros Hf Hq E. apply (step_request _ _ r); [done|done|]. unfold move in E.
  apply res_bind_Ok_inv in E as ([ [] w1] & E1 & E). by injection E as <-.
Qed.

Lemma play_set4 v w w' :
  winv (DI := λ _, True) (irq := λ _, False) w → is_int32 v → cur_frames (rest w) = [] →
  move (set4 v) w = Ok w' → kernel_step w w'.
Proof.
  intros Hw Hv Hf E. apply (play_request (RMachine (WriteRegister 4 v)) w w' Hf); [|exact E].
  destruct (WriteRegister_kept (rest w) 4 v (kI_m _ (ri_k _ (proj1 Hw)))) as (r & Er & Hk & _); try done.
  by exists (set_registers r (machine (rest w))).
Qed.

Definition at_ (n : nat) : quiet := play_from (take n scene) quiet_boot.
Definition inv (w : quiet) : Prop := winv (DI := λ _, True) (irq := λ _, False) w.

Lemma then_step w w' : inv w ∧ rtc kernel_step quiet_boot w → (inv w → kernel_step w w') →
  inv w' ∧ rtc kernel_step quiet_boot w'.
Proof. intros [Hw Hs] Hst. split; [apply (step_ok w); auto|eapply rtc_r; eauto]. Qed.

Lemma scene_steps : inv (at_ 5) ∧ rtc kernel_step quiet_boot (at_ 5).
Proof.
  assert (H0 : inv (at_ 0) ∧ rtc kernel_step quiet_boot (at_ 0)) by (split; [exact quiet_winv|apply rtc_refl]).
  apply (then_step (at_ 4)); [apply (then_step (at_ 3)); [apply (then_step (at_ 2)); [apply (then_step (at_ 1));
    [apply (then_step (at_ 0)); [exact H0|]|]|]|]|]; intros Hi.
  - apply (play_request (RSpace 1%positive one_space)); [reflexivity| |vm_compute; reflexivity].
    split; [reflexivity|]. split; [reflexivity|]. by repeat constructor.
  - apply (play_request (REnter 1%positive)); [reflexivity| |vm_compute; reflexivity]. by exists one_space.
  - by apply (play_set4 77); [|done|reflexivity|vm_compute; reflexivity].
  - apply (play_request (RNew 2%positive (replicate 40 0))); [reflexivity| |vm_compute; reflexivity].
    split; [reflexivity|]. split; [reflexivity|exact (int_garbage 40)].
  - apply (play_request (RStart 2%positive)); [reflexivity| |vm_compute; reflexivity].
    eexists. split; reflexivity.
Qed.

Definition yielded : quiet := play_from [Some RYield] (at_ 5).
Definition second : quiet := play_from [None] yielded.
Definition marked : quiet := play_from [set4 5] second.
Definition back : quiet := play_from [Some RYield] marked.
Definition again : quiet := play_from [None] back.

Lemma yield_steps : kernel_step (at_ 5) yielded ∧ away 1%positive yielded back.
Proof.
  assert (Hy : kernel_step (at_ 5) yielded) by (apply (play_request RYield); [reflexivity|exact I|vm_compute; reflexivity]).
  split; [exact Hy|]. destruct (then_step _ _ scene_steps (λ _, Hy)) as [Hiy Hsy].
  assert (Hs : kernel_step yielded second) by (apply play_resume; [vm_compute; discriminate|vm_compute; reflexivity]).
  assert (His : inv second) by by apply (step_ok yielded).
  assert (Hm : kernel_step second marked) by by apply (play_set4 5); [|done|reflexivity|vm_compute; reflexivity].
  assert (Hb : kernel_step marked back) by (apply (play_request RYield); [reflexivity|exact I|vm_compute; reflexivity]).
  apply (away_step _ yielded marked); [|vm_compute; discriminate|vm_compute; discriminate|exact Hb].
  apply (away_step _ yielded second); [|vm_compute; discriminate|vm_compute; discriminate|exact Hm].
  apply (away_step _ yielded yielded); [apply away_refl|vm_compute; discriminate|vm_compute; discriminate|exact Hs].
Qed.

Lemma kernel_invariant_witness : inv (at_ 5) ∧ readyList (rest (at_ 5)) = [2%positive].
Proof.
  split; [|vm_compute; reflexivity].
  apply (kernel_invariant quiet_boot (at_ 5)); [exact quiet_winv|apply scene_steps].
Defined.

Lemma ready_thread_runs_witness : currentThread (rest yielded) = 2%positive.
Proof.
  apply (ready_thread_runs 0 (at_ 5) (at_ 5) yielded); [apply scene_steps|vm_compute; reflexivity|apply passed_0| |vm_compute; reflexivity].
  apply yield_steps.
Defined.

Definition stopped : quiet := play_from [Some (RP 1%positive); None] quiet_boot.

Lemma stopped_inv : inv stopped.
Proof.
  assert (H1 : kernel_step quiet_boot (play_from [Some (RP 1%positive)] quiet_boot)).
  { apply (play_request (RP 1%positive)); [reflexivity|eexists; reflexivity|vm_compute; reflexivity]. }
  assert (H2 : inv (play_from [Some (RP 1%positive)] quiet_boot)) by (apply (step_ok _ _ quiet_winv H1)).
  apply (step_ok (play_from [Some (RP 1%positive)] quiet_boot)); [exact H2|].
  apply play_resume; [vm_compute; discriminate|vm_compute; reflexivity].
Qed.

Lemma no_lost_wakeup_witness :
  resume stopped = Fail (Exited 0) ∧
  ∃ th, threads (rest stopped) !! 1%positive = Some th ∧ t_status th = BLOCKED ∧
    ∃ sm, sems (rest stopped) !! 1%positive = Some sm ∧ 1%positive ∈ queue sm ∧ value sm = 0.
Proof.
  assert (Hr : resume stopped = Fail (Exited 0)) by (vm_compute; reflexivity).
  split; [exact Hr|]. destruct (no_lost_wakeup stopped stopped_inv ltac:(reflexivity) Hr) as [_ Hall].
  destruct (threads (rest stopped) !! 1%positive) as [th|] eqn:E; [|discriminate].
  exists th. split; [reflexivity|].
  destruct (Hall 1%positive th E) as [Hj|[Hb Hw] ].
  - exfalso. revert E Hj. vm_compute. intros [= <-]. discriminate.
  - split; [exact Hb|]. destruct Hw as [(s & sm & Hp & Es & Hin & Hv)|Hd].
    + exists sm. assert (s = 1%positive) as ->; [|auto].
      revert E Hp. vm_compute. intros [= <-]. by intros [= <-].
    + exfalso. revert Hd. vm_compute. discriminate.
Defined.

(** Thread 2 left 5 in the register; thread 1 finds its 77 again. *)
Lemma user_context_kept_witness :
  registers (machine (rest back)) !! 4%nat = Some 5 ∧
  registers (machine (rest again)) = registers (machine (rest yielded)) ∧
  registers (machine (rest again)) !! 4%nat = Some 77.
Proof.
  split; [vm_compute; reflexivity|].
  destruct (user_context_kept (at_ 5) yielded back again 1%positive
    (mkThread RUNNING [] (Some 1%positive) (new_registers (replicate 40 0)))) as [Hr _].
  - apply scene_steps.
  - vm_compute. reflexivity.
  - vm_compute. reflexivity.
  - exists 1%positive. reflexivity.
  - apply yield_steps.
  - vm_compute. reflexivity.
  - apply yield_steps.
  - vm_compute. reflexivity.
  - exists [FYield IntOff]. vm_compute. reflexivity.
  - vm_compute. reflexivity.
  - split; [exact Hr|]. vm_compute. reflexivity.
Defined.

(** Thread 1 acquires, starts thread 2 and yields; thread 2 tries to acquire and waits;
    thread 1 releases, yields, and thread 2 gets the lock. *)
Definition locked_boot : quiet :=
  booted {[1%positive := mkSemaphore 1 []]} (replicate 40 0)
    (mkMachine ∅ (replicate 40 0) None None 0 false 0) tt.

Lemma locked_winv : inv locked_boot.
Proof.
  apply boot_winv; try done.
  - intros s sm. unfold locked_boot. by intros [<- <-]%lookup_singleton_Some.
  - apply int_garbage.
  - destruct (new_Machine_fresh false) as (m & E & Hf). by injection E as <-.
Qed.

Definition contention : list (option req) :=
  [Some (RP 1%positive); None; Some (RNew 2%positive (replicate 40 0)); Some (RStart 2%positive); Some RYield; None;
   Some (RP 1%positive); None; None; None; None; Some (RV 1%positive); Some RYield; None; None].
Definition con (n : nat) : quiet := play_from (take n contention) locked_boot.

Lemma move_Ok r w w' : move r w = Ok w' → match r with None => resume w | Some r => request_do r w end = Ok (tt, w').
Proof. unfold move. intros E. apply res_bind_Ok_inv in E as ([ [] w1] & E1 & E). by injection E as <-. Qed.

Lemma con_pass h n t :
  lock_run 1%positive locked_boot h (con n) → gets_through 1%positive (con n) = true →
  currentThread (rest (con n)) = t → move None (con n) = Ok (con (S n)) → lock_run 1%positive locked_boot (t :: h) (con (S n)).
Proof. intros Hr Hp <- E%move_Ok. by eapply run_acquire. Qed.

Lemma con_resume h n :
  lock_run 1%positive locked_boot h (con n) → cur_frames (rest (con n)) ≠ [] →
  gets_through 1%positive (con n) = false → move None (con n) = Ok (con (S n)) → lock_run 1%positive locked_boot h (con (S n)).
Proof. intros Hr Hf Hp E%move_Ok. by eapply run_resume. Qed.

Lemma con_request h n r :
  lock_run 1%positive locked_boot h (con n) → cur_frames (rest (con n)) = [] → req_ok (con n) r →
  raises 1%positive r = false → move (Some r) (con n) = Ok (con (S n)) → lock_run 1%positive locked_boot h (con (S n)).
Proof. intros Hr Hf Hq Hv E%move_Ok. by eapply run_request. Qed.

Ltac by_vm := vm_compute; first [reflexivity|discriminate|exact I].
Ltac con_call := apply con_resume; [|by_vm|by_vm|by_vm].

Lemma con_acquired : lock_run 1%positive locked_boot [1%positive] (con 11).
Proof.
  do 4 con_call. apply (con_request _ 6 (RP 1%positive)); [|by_vm| |by_vm|by_vm].
  2: { apply (mk_is_Some _ (mkSemaphore 0 [])). by_vm. }
  con_call. apply (con_request _ 4 RYield); [|by_vm|by_vm|by_vm|by_vm].
  apply (con_request _ 3 (RStart 2%positive)); [|by_vm| |by_vm|by_vm].
  2: { exists (mkThread JUST_CREATED [] None (replicate 40 0)). split; by_vm. }
  apply (con_request _ 2 (RNew 2%positive (replicate 40 0))); [|by_vm| |by_vm|by_vm].
  2: { split; [by_vm|split; [by_vm|exact (int_garbage 40)] ]. }
  apply con_pass; [|by_vm|by_vm|by_vm]. apply (con_request _ 0 (RP 1%positive)); [|by_vm| |by_vm|by_vm].
  2: { apply (mk_is_Some _ (mkSemaphore 1 [])). by_vm. }
  apply run_start.
Qed.

Lemma con_handed_over : lock_run 1%positive locked_boot [2%positive] (con 15).
Proof.
  apply con_pass; [|by_vm..]. con_call. apply (con_request _ 12 RYield); [|by_vm|by_vm|by_vm|by_vm].
  apply (run_release 1%positive locked_boot [] [] (con 11)).
  - assert (Hc : currentThread (rest (con 11)) = 1%positive) by by_vm. rewrite Hc. exact con_acquired.
  - by_vm.
  - apply (mk_is_Some _ (mkSemaphore 0 [2%positive])). by_vm.
  - apply (move_Ok (Some (RV 1%positive))). by_vm.
Qed.

Lemma lock_excludes_witness :
  currentThread (rest (con 8)) = 2%positive ∧ semval 1%positive (rest (con 11)) = Some 0 ∧
  semval 1%positive (rest (con 15)) = Some 0.
Proof.
  assert (H1 : semval 1%positive (rest locked_boot) = Some 1) by by_vm.
  split; [vm_compute; reflexivity|]. split.
  - destruct (lock_excludes (DI := λ _, True) (irq := λ _, False) 1%positive locked_boot [1%positive] (con 11))
      as [ [ [H _]|(t & _ & H)] _]; [tauto|exact locked_winv|exact H1|exact con_acquired|discriminate|exact H].
  - destruct (lock_excludes (DI := λ _, True) (irq := λ _, False) 1%positive locked_boot [2%positive] (con 15))
      as [ [ [H _]|(t & _ & H)] _]; [tauto|exact locked_winv|exact H1|exact con_handed_over|discriminate|exact H].
Defined.
End Examples.
