(* ===== verification/Exception.v ===== *)
(** * System calls and the loop of user code (userprog/exception.cc; threads/system.cc,
    machine/mipssim.cc, machine/interrupt.cc and userprog/progtest.cc for what they call)

    ExceptionHandler, the copies of strings between user memory and the kernel, the
    numbers PutInt and GetInt convert, and the loop of Machine::Run that traps into the
    handler. A trap inside the handler - a bad pointer given to a system call - enters it
    again and fails its assertion. *)
From S2P Require Import Prelude Words Text LinkedList BitMap SectorIO FileHdr OpenFile Directory.
From S2P Require Import Interrupt Disk Console Network Machine MipsSim Threads AddrSpace Programs.
From S2P Require Import Devices SynchConsole UserThread.

Definition MAX_STRING_SIZE : Z := 15.

(** syscall.h *)
Definition SC_Halt : Z := 0.
Definition SC_Exit : Z := 1.
Definition SC_PutChar : Z := 11.
Definition SC_PutString : Z := 12.
Definition SC_GetChar : Z := 13.
Definition SC_GetString : Z := 14.
Definition SC_PutInt : Z := 15.
Definition SC_GetInt : Z := 16.
Definition SC_ThreadCreate : Z := 17.
Definition SC_ThreadExit : Z := 18.

(** ** Strings of user programs *)

(** An access of user memory by the kernel. *)
Definition user_read (addr : Z) : ST Machine Z :=
  let* r := ReadMem addr 1 in
  match r with inl _ => st_fail AssertFailure | inr v => st_ret v end.
Definition user_write (addr value : Z) : ST Machine unit :=
  let* r := WriteMem addr 1 value in
  match r with inl _ => st_fail AssertFailure | inr _ => st_ret tt end.

Section Strings.
Context (garbage : nat → Z).          (** what [new char[]] leaves in each byte *)

Definition new_chars (n : Z) : list Z := (λ i, uint8 (garbage i)) <$> seq 0 (Z.to_nat n).

(** [for (int i = 0; i < size; i++) tmp_str[i] = to[i]] *)
Definition copy_chars (from : list Z) (n : Z) (to : list Z) : res (list Z) :=
  let? r := st_for 0 n (λ i to,
              let? c := arr_get from i in
              let? to := arr_set to i c in Ok (tt, to)) to in
  Ok r.2.

(** The loop of copyStringFromMachine, as many turns as [fuel] at most; the result is
    [pos] and the array. *)
Fixpoint copy_from_loop (fuel : nat) (from pos size : Z) (to : list Z) : ST Machine (Z * list Z) :=
  match fuel with
  | 0%nat => st_fail OutOfFuel
  | S fuel =>
      let* tmp := user_read from in
      if negb (tmp =? 0) then
        let* st := st_lift
          (if pos >=? size - 1 then
             let? tmp_str := copy_chars to size (new_chars (size * 2 + 1)) in
             Ok (size * 2, tmp_str)
           else Ok (size, to)) in
        let* to := st_lift (arr_set st.2 pos (uint8 tmp)) in
        copy_from_loop fuel (int32 (from + 1)) (pos + 1) st.1 to
      else st_ret (pos + 1, to)
  end.

(** The pages of a space end the loop. *)
Definition string_fuel : nat := Z.to_nat (MemorySize + 1).

Definition copyStringFromMachine (from size : Z) : ST Machine (Z * list Z) :=
  let* r := copy_from_loop string_fuel from 0 size (new_chars size) in
  let* to := st_lift (arr_set r.2 r.1 0) in
  st_ret (r.1, to).
End Strings.

(** copyStringToMachine; [n] is how many characters it may still copy. *)
Fixpoint copy_to_loop (n : nat) (from : list Z) (to count : Z) : ST Machine Z :=
  match n with
  | 0%nat => st_ret count
  | S n =>
      match from with
      | [] => st_fail MemoryFault
      | c :: from =>
          let* _ := user_write to (int8 c) in
          if (c =? 0) || (c =? 10) then st_ret (count + 1)
          else copy_to_loop n from (int32 (to + 1)) (count + 1)
      end
  end.
Definition copyStringToMachine (from : list Z) (to size : Z) : ST Machine Z :=
  copy_to_loop (Z.to_nat size) from to 0.

(** ** Numbers *)

(** [snprintf(st, size, "%d", val)], [size] not 0: what fits of the number, and a NUL. *)
Definition print_int (size val : Z) : list Z := take (Z.to_nat (size - 1)) (dec val) ++ [0].

(** [sscanf(st, "%d", &n)]: blanks, a sign, digits; [None] when there is no number. A number
    too large for an [int], which C leaves undefined, is truncated. *)
Definition is_blank (c : Z) : bool := (c =? 32) || ((9 <=? c) && (c <=? 13)).
Definition is_digit (c : Z) : bool := (48 <=? c) && (c <=? 57).

Fixpoint scan_digits (l : list Z) (n : Z) : Z :=
  match l with
  | [] => n
  | c :: l => if is_digit c then scan_digits l (n * 10 + (c - 48)) else n
  end.
Fixpoint scan_int (l : list Z) : option Z :=
  let number l := match l with
                  | c :: _ => if is_digit c then Some (scan_digits l 0) else None
                  | [] => None
                  end in
  match l with
  | [] => None
  | c :: l' =>
      if is_blank c then scan_int l'
      else if c =? 45 then option_map (λ n, int32 (- n)) (number l')
      else if c =? 43 then option_map int32 (number l')
      else option_map int32 (number l)
  end.

(** ** The handler *)

Definition UpdatePC : ST Machine unit :=
  let* pc := ReadRegister PCReg in
  let* _ := WriteRegister PrevPCReg pc in
  let* pc := ReadRegister NextPCReg in
  let* _ := WriteRegister PCReg pc in
  WriteRegister NextPCReg (int32 (pc + 4)).

Section Handler.
Context (thread_int : tid → Z) (garbage : nat → Z) (junk : Z) (registers_garbage : list Z).
Abbreviation program := (prog devint Devs devop entry).

(** Cleanup, after Interrupt::Halt has printed the statistics; what it deletes after the
    console is host memory. *)
Definition Cleanup {R} : program R :=
  do* RHalt;
  do* RSetLevel IntOn;
  delete_SynchConsole (Goto ECloseConsole).
Definition Halt {R} : program R := Cleanup.

(** The cases of the switch on [type]. [junk] is the [n] of SC_GetInt before sscanf. *)
Definition Syscall (type : Z) : program unit :=
  if type =? SC_Halt then Halt
  else if type =? SC_PutChar then
    On_machine (ReadRegister 4) (λ ch, SynchPutChar ch)
  else if type =? SC_PutString then
    On_machine (let* reg := ReadRegister 4 in copyStringFromMachine garbage reg MAX_STRING_SIZE) (λ st,
    SynchPutString st.2)
  else if type =? SC_Exit then
    On_machine (ReadRegister 4) (λ returnValue, Stop (Exited returnValue))
  else if type =? SC_GetChar then
    call* readValue := SynchGetChar in
    On_machine (WriteRegister 2 (int8 readValue)) Done
  else if type =? SC_GetString then
    On_machine (ReadRegister 4) (λ reg,
    call* st := SynchGetString MAX_STRING_SIZE in
    On_machine (copyStringToMachine st reg MAX_STRING_SIZE) (λ _, Done tt))
  else if type =? SC_PutInt then
    On_machine (ReadRegister 4) (λ val, SynchPutString (print_int MAX_STRING_SIZE val))
  else if type =? SC_GetInt then
    call* st := SynchGetString MAX_STRING_SIZE in
    On_machine (WriteRegister 2 (default junk (scan_int st))) Done
  else if type =? SC_ThreadCreate then
    On_machine (let* f := ReadRegister 4 in let* arg := ReadRegister 5 in let* f_exit := ReadRegister 6 in
                st_ret (f, arg, f_exit)) (λ '(f, arg, f_exit),
    call* ret := do_ThreadCreate thread_int f arg f_exit registers_garbage in
    On_machine (WriteRegister 2 ret) Done)
  else if type =? SC_ThreadExit then
    do_ThreadExit thread_int Halt (Done tt)
  else Stop AssertFailure.

Definition ExceptionHandler (which : ExceptionType) : program unit :=
  On_machine (ReadRegister 2) (λ type,
  match which with
  | SyscallException =>
      call* _ := Syscall type in
      On_machine UpdatePC Done
  | _ => Stop AssertFailure
  end).

(** The [for (;;)] of Machine::Run. *)
Definition run_turn : program unit :=
  Ask (λ w,
  match OneInstruction (machine (rest w)) with
  | Ok (Some (which, _), _) =>
      do* RUser;
      call* _ := ExceptionHandler which in
      do* RReturn;
      Goto ERun
  | _ => do* RUser; Goto ERun
  end).

Definition body (e : entry) : program unit :=
  match e with
  | EStartUserThread f arg f_exit idx => StartUserThread f arg f_exit idx
  | ERun => run_turn
  | ECloseConsole => wait_console (Goto ECloseConsole) (Stop (Exited 0))
  end.

(** StartProcess once the file is open: the space, its registers, its page table. [load] is
    what the constructor does to the memory. *)
Definition StartProcess (sp : spaceid) (a : AddrSpace) (load : ST Machine unit) : program unit :=
  On_machine load (λ _,
  do* RSpace sp a;
  On_machine (InitRegisters a) (λ _,
  do* REnter sp;
  MachineRun)).
End Handler.

(** ** Numbers that are printed are read back *)

Lemma scan_digits_digits fuel n l :
  0 ≤ n < 10 ^ Z.of_nat fuel → scan_digits (digits fuel n l) 0 = scan_digits l n.
Proof.
  revert n l. induction fuel as [|fuel IH]; intros n l Hn.
  { change (10 ^ Z.of_nat 0) with 1 in Hn. by replace n with 0 by lia. }
  rewrite Nat2Z.inj_succ, Z.pow_succ_r in Hn by lia. cbn [digits].
  pose proof (Z.mod_pos_bound n 10 ltac:(lia)) as Hm. pose proof (Z.div_mod n 10 ltac:(lia)) as Hd.
  assert (Hdig : is_digit (48 + n mod 10) = true)
    by (unfold is_digit; apply andb_true_iff; rewrite !Z.leb_le; lia).
  destruct (Z.ltb_spec n 10) as [Hlt|Hge].
  - cbn [scan_digits]. rewrite Hdig. f_equal. rewrite Z.mod_small by lia. lia.
  - rewrite IH by (split; [apply Z.div_pos|apply Z.div_lt_upper_bound]; lia).
    cbn [scan_digits]. rewrite Hdig. f_equal. lia.
Qed.

Lemma digits_app fuel n l l' : digits fuel n l ++ l' = digits fuel n (l ++ l').
Proof.
  revert n l. induction fuel as [|fuel IH]; intros n l; [done|]. cbn [digits].
  destruct (n <? 10); [done|]. apply IH.
Qed.

(** The first character is a digit. *)
Lemma digits_head fuel n l :
  0 ≤ n → ∃ c r, digits (S fuel) n l = c :: r ∧ is_digit c = true.
Proof.
  revert n l. induction fuel as [|fuel IH]; intros n l Hn.
  all: assert (Hdig : is_digit (48 + n mod 10) = true)
    by (pose proof (Z.mod_pos_bound n 10 ltac:(lia)); unfold is_digit; apply andb_true_iff;
        rewrite !Z.leb_le; lia).
  - cbn [digits]. destruct (n <? 10); eauto.
  - change (digits (S (S fuel)) n l) with
      (if n <? 10 then 48 + n mod 10 :: l else digits (S fuel) (n / 10) (48 + n mod 10 :: l)).
    destruct (n <? 10); [eauto|]. apply IH, Z.div_pos; lia.
Qed.

Lemma scan_number n l :
  0 ≤ n < 2 ^ 31 + 1 → scan_digits l n = n →
  ∃ c r, digits 10 n l = c :: r ∧ is_digit c = true ∧ is_blank c = false ∧ (c =? 45) = false ∧
    (c =? 43) = false ∧ scan_digits (c :: r) 0 = n.
Proof.
  intros Hn Hl. destruct (digits_head 9 n l) as (c & r & E & Hc); [lia|].
  exists c, r. split; [done|]. split; [done|]. unfold is_digit in Hc.
  apply andb_true_iff in Hc as [H1%Z.leb_le H2%Z.leb_le].
  split_and!; [|apply Z.eqb_neq; lia..|rewrite <- E; rewrite scan_digits_digits by (change (10 ^ Z.of_nat 10) with 10000000000; lia); done].
  unfold is_blank. apply orb_false_iff. split; [apply Z.eqb_neq; lia|].
  apply andb_false_iff. right. apply Z.leb_gt. lia.
Qed.

(** A number as [%d] prints it, with something after it that is not a digit. *)
Lemma scan_printed val l :
  is_int32 val → (∀ n, scan_digits l n = n) →
  scan_int (dec val ++ l) = Some val.
Proof.
  intros Hv Hl. unfold is_int32 in Hv. unfold dec. destruct (Z.ltb_spec val 0).
  - destruct (scan_number (- val) l) as (c & r & E & Hc & _ & _ & _ & Hs); [lia | apply Hl |].
    rewrite <- app_comm_cons, digits_app. cbn [app]. rewrite E.
    cbn [scan_int]. change (is_blank 45) with false. change (45 =? 45) with true. cbv beta iota zeta.
    rewrite Hc. cbn [option_map]. rewrite Hs. f_equal. rewrite int32_id; [lia|unfold is_int32; lia].
  - destruct (scan_number val l) as (c & r & E & Hc & Hb & Hm & Hp & Hs); [lia | apply Hl |].
    rewrite digits_app. cbn [app]. rewrite E.
    cbn [scan_int]. rewrite Hb, Hm, Hp, Hc. cbn [option_map]. rewrite Hs. f_equal. by rewrite int32_id.
Qed.

Lemma digits_length fuel n l : (length (digits fuel n l) ≤ fuel + length l)%nat.
Proof.
  revert n l. induction fuel as [|fuel IH]; intros n l; [done|]. cbn [digits]. destruct (n <? 10); cbn [length]; [lia|].
  etransitivity; [apply IH|]. cbn [length]. lia.
Qed.

Lemma dec_length val : (length (dec val) ≤ 11)%nat.
Proof.
  unfold dec. destruct (val <? 0); cbn [length].
  - pose proof (digits_length 10 (- val) []). cbn [length] in *. lia.
  - pose proof (digits_length 10 val []). cbn [length] in *. lia.
Qed.

(** Nothing is cut off in an array that has room for the longest number. *)
Lemma print_int_whole size val : 12 ≤ size → print_int size val = dec val ++ [0].
Proof.
  intros Hs. unfold print_int. pose proof (dec_length val). rewrite take_ge; [done | lia].
Qed.

(** Its characters are a minus sign and digits. *)
Lemma digits_printable fuel n l :
  0 ≤ n → Forall (λ b, 45 ≤ b < 58) l → Forall (λ b, 45 ≤ b < 58) (digits fuel n l).
Proof.
  revert n l. induction fuel as [|fuel IH]; intros n l Hn Hl; [done|]. cbn [digits].
  pose proof (Z.mod_pos_bound n 10). assert (Forall (λ b, 45 ≤ b < 58) (48 + n mod 10 :: l)) by (constructor; [lia|done]).
  destruct (n <? 10); [done|]. apply IH; [apply Z.div_pos; lia|done].
Qed.

Lemma dec_printable val : Forall (λ b, 45 ≤ b < 58) (dec val).
Proof.
  unfold dec. destruct (Z.ltb_spec val 0); [constructor; [lia|] |]; apply digits_printable; (lia || done).
Qed.

(** ** Strings that go to the kernel *)

(** The byte at a virtual address of a machine with a page table. *)
Definition readable (m : Machine) (va b : Z) : Prop :=
  ∃ t e, tlb m = None ∧ pageTable m = Some t ∧ uint32 va / PageSize < pageTableSize m ∧
    t !! Z.to_nat (uint32 va / PageSize) = Some e ∧ valid e = true ∧ 0 ≤ physicalPage e < NumPhysPages ∧
    default 0 (mainMemory m !! (physicalPage e * PageSize + uint32 va mod PageSize)) = b.

Lemma user_read_ok m va b :
  readable m va b →
  ∃ m', user_read va m = Ok (int8 b, m') ∧ ∀ va' b', readable m va' b' → readable m' va' b'.
Proof.
  intros (t & e & Ht & Hp & Hlt & Ee & Hv & Hpp & Hb). unfold user_read, ReadMem, Translate, st_bind.
  cbn [Z.eqb Pos.eqb andb orb]. rewrite Ht, Hp. cbn [bool_decide].
  rewrite (bool_decide_true (None = None)) by done. rewrite (bool_decide_false (Some t = None)) by done.
  cbn [negb orb ASSERT res_bind]. change (default [] (Some t)) with t.
  pose proof (uint32_range va) as Hu. unfold is_uint32 in Hu.
  assert (Hvpn : 0 ≤ uint32 va / PageSize) by (apply Z.div_pos; [lia|done]).
  destruct (Z.geb_spec (uint32 va / PageSize) (pageTableSize m)); [lia|].
  rewrite (arr_get_lookup _ _ e) by done. cbn [res_bind]. rewrite Hv. cbn [negb].
  rewrite use_entry_ok; [|unfold entry_ok, is_uint32, NumPhysPages in *; lia|by left|apply Z.mod_1_r].
  rewrite andb_false_r. destruct (Z.geb_spec (physicalPage e) NumPhysPages); [lia|]. cbn [res_bind].
  unfold mem_byte. pose proof (Z.mod_pos_bound (uint32 va) PageSize ltac:(done)) as Hm.
  rewrite decide_True by (unfold MemorySize, NumPhysPages, PageSize in *; lia). cbn [res_bind].
  cbn [mainMemory set_pageTable]. rewrite Hb. eexists. split; [done|].
  intros va' b' (t' & e' & _ & Hp' & Hlt' & Ee' & Hv' & Hpp' & Hb'). rewrite Hp in Hp'. injection Hp' as <-.
  destruct (decide (Z.to_nat (uint32 va / PageSize) = Z.to_nat (uint32 va' / PageSize))) as [Heq|Hne].
  - exists (<[Z.to_nat (uint32 va / PageSize) := mark_used false e]> t), (mark_used false e).
    rewrite <- Heq in *. assert (e' = e) as -> by congruence. split_and!; try done; try (cbn; lia).
    apply list_lookup_insert_eq. by apply lookup_lt_Some in Ee.
  - exists (<[Z.to_nat (uint32 va / PageSize) := mark_used false e]> t), e'. split_and!; try done; try lia.
    by rewrite list_lookup_insert_ne.
Qed.

Lemma char_byte b : is_byte b → b ≠ 0 → int8 b ≠ 0 ∧ uint8 (int8 b) = b.
Proof.
  unfold int8, uint8, is_byte. intros Hb Hne. destruct (decide (b < 128)).
  - rewrite (Z.mod_small (b + 128)) by lia. split; [lia|]. rewrite Z.mod_small by lia. lia.
  - assert ((b + 128) mod 256 = b - 128) as -> by (symmetry; apply (Z.mod_unique _ _ 1); lia).
    split; [lia|]. symmetry. apply (Z.mod_unique _ _ (-1)); lia.
Qed.

Section CopyFrom.
Context (garbage : nat → Z).

(** [for (int i = 0; i < size; i++) tmp_str[i] = to[i]] is a copy. *)
Lemma copy_chars_ok from n to :
  0 ≤ n → n ≤ Z.of_nat (length from) → n ≤ Z.of_nat (length to) →
  copy_chars from n to = Ok (take (Z.to_nat n) from ++ drop (Z.to_nat n) to).
Proof.
  intros H0 Hf Ht. unfold copy_chars.
  match goal with |- context [st_for 0 n ?b to] =>
    destruct (st_for_inv (λ i t, 0 ≤ i ∧ t = take (Z.to_nat i) from ++ drop (Z.to_nat i) to) 0 n b to)
      as (t & -> & _ & ->); [done|by rewrite drop_0| |done] end.
  intros i t Hi [_ ->]. destruct (arr_get_in from i) as (c & -> & Ec); [lia|]. cbn [res_bind].
  rewrite arr_set_in by (rewrite length_app, length_take, length_drop; lia). cbn [res_bind].
  eexists. split; [done|]. split; [lia|]. replace (Z.to_nat (i + 1)) with (S (Z.to_nat i)) by lia.
  rewrite (take_S_r _ _ _ Ec), insert_app_r_alt by (rewrite length_take; lia).
  rewrite length_take, Nat.min_l, Nat.sub_diag by lia.
  destruct (lookup_lt_is_Some_2 to (Z.to_nat i)) as [x Ex]; [lia|]. rewrite (drop_S _ _ _ Ex).
  by rewrite <- app_assoc.
Qed.

(** The array in the loop: the first [pos] characters are copied, what follows is as
    [new] left it, and there is one byte to spare once the array has grown. *)
Record filled (s : list Z) (pos size : Z) (to : list Z) : Prop := {
  fl_pos : 0 ≤ pos;
  fl_size : MAX_STRING_SIZE ≤ size;
  fl_room : pos ≤ size - 1;
  fl_chars : take (Z.to_nat pos) to = s;
  fl_len : Z.of_nat (length s) = pos;
  fl_rest i c : (Z.to_nat pos ≤ i)%nat → to !! i = Some c → c = uint8 (garbage i);
  fl_cap : Z.of_nat (length to) = size ∧ size = MAX_STRING_SIZE ∨
    Z.of_nat (length to) = size + 1 ∧ MAX_STRING_SIZE ≤ pos;
}.

Lemma length_new_chars n : 0 ≤ n → Z.of_nat (length (new_chars garbage n)) = n.
Proof. intros Hn. unfold new_chars. rewrite length_fmap, length_seq. lia. Qed.

Lemma lookup_new_chars n i c : new_chars garbage n !! i = Some c → c = uint8 (garbage i).
Proof.
  unfold new_chars. rewrite list_lookup_fmap. intros (j & Ej & ->)%fmap_Some. apply lookup_seq in Ej as [-> _]. done.
Qed.

(** One character more. *)
Lemma filled_put s pos size to c :
  filled s pos size to →
  ∃ size' to1, (if pos >=? size - 1 then
                 let? tmp_str := copy_chars to size (new_chars garbage (size * 2 + 1)) in Ok (size * 2, tmp_str)
               else Ok (size, to)) = Ok (size', to1) ∧
    arr_set to1 pos c = Ok (<[Z.to_nat pos := c]> to1) ∧ filled (s ++ [c]) (pos + 1) size' (<[Z.to_nat pos := c]> to1).
Proof.
  intros [Hp Hs Hroom Hc Hl Hr Hcap]. unfold MAX_STRING_SIZE in Hs, Hcap.
  assert (Hgrow : ∃ size' to1, (if pos >=? size - 1 then
                 let? tmp_str := copy_chars to size (new_chars garbage (size * 2 + 1)) in Ok (size * 2, tmp_str)
               else Ok (size, to)) = Ok (size', to1) ∧ pos < size' - 1 ∧ 15 ≤ size' ∧
      take (Z.to_nat pos) to1 = s ∧ (∀ i c, (S (Z.to_nat pos) ≤ i)%nat → to1 !! i = Some c → c = uint8 (garbage i)) ∧
      (Z.of_nat (length to1) = size' ∧ size' = 15 ∨ Z.of_nat (length to1) = size' + 1 ∧ 15 ≤ pos + 1)).
  { destruct (Z.geb_spec pos (size - 1)).
    - pose proof (length_new_chars (size * 2 + 1) ltac:(lia)) as Hln. rewrite copy_chars_ok by lia.
      cbn [res_bind]. eexists _, _. split; [done|]. split_and!; try lia.
      + rewrite take_app_le by (rewrite length_take; lia). rewrite take_take, Nat.min_l by lia. done.
      + intros i x Hi E. rewrite lookup_app_r in E by (rewrite length_take; lia).
        rewrite lookup_drop, length_take in E.
        replace (Z.to_nat size + (i - Z.to_nat size `min` length to))%nat with i in E by lia.
        by apply (lookup_new_chars _ _ _ E).
      + right. rewrite length_app, length_take, length_drop. unfold MAX_STRING_SIZE in *. lia.
    - exists size, to. split_and!; try done; [intros i x Hi; apply Hr; lia|lia]. }
  destruct Hgrow as (size' & to1 & -> & Hlt & Hs' & Hc' & Hr' & Hcap'). exists size', to1. split; [done|].
  assert (Hin : pos < Z.of_nat (length to1)) by lia.
  split; [by apply arr_set_in|]. split; unfold MAX_STRING_SIZE in *; try lia.
  - replace (Z.to_nat (pos + 1)) with (S (Z.to_nat pos)) by lia.
    rewrite (take_S_r _ _ c) by (apply list_lookup_insert_eq; lia). rewrite take_insert_ge by lia. by rewrite Hc'.
  - rewrite length_app. cbn. lia.
  - intros i x Hi. rewrite list_lookup_insert_ne by lia. apply Hr'. lia.
  - rewrite length_insert. lia.
Qed.

(** The loop over the rest of the string. *)
Lemma copy_from_loop_ok rest fuel s pos size to from m :
  (length rest < fuel)%nat → filled s pos size to →
  (∀ i b, (rest ++ [0]) !! i = Some b → readable m (from + Z.of_nat i) b) →
  Forall (λ b, is_byte b ∧ b ≠ 0) rest → is_int32 from → is_int32 (from + Z.of_nat (length rest)) →
  ∃ size' to' m', copy_from_loop garbage fuel from pos size to m = Ok ((pos + Z.of_nat (length rest) + 1, to'), m') ∧
    filled (s ++ rest) (pos + Z.of_nat (length rest)) size' to'.
Proof.
  revert fuel s pos size to from m. induction rest as [|b rest IH];
    intros [|fuel] s pos size to from m Hfuel Hfl Hm Hb Hi Hi'; try (cbn in Hfuel; lia).
  - destruct (user_read_ok m from 0) as (m' & E & _).
    { replace from with (from + Z.of_nat 0) by lia. by apply (Hm 0%nat). }
    cbn [copy_from_loop]. st_step E. change (int8 0 =? 0) with true.
    exists size, to, m'. cbn. rewrite app_nil_r.
    change (Z.of_nat 0) with 0. replace (pos + 0) with pos by lia. done.
  - apply Forall_cons in Hb as [ [Hb Hb0] Hrest].
    destruct (user_read_ok m from b) as (m1 & E & Hm1).
    { replace from with (from + Z.of_nat 0) by lia. by apply (Hm 0%nat). }
    cbn [copy_from_loop]. st_step E.
    assert (int8 b ≠ 0 ∧ uint8 (int8 b) = b) as [Hnz Hu].
    { by apply char_byte. }
    rewrite (proj2 (Z.eqb_neq _ _) Hnz). cbn [negb]. rewrite Hu.
    destruct (filled_put s pos size to b Hfl) as (size1 & to1 & -> & Es & Hfl1).
    st_step_lift (eq_refl (Ok (size1, to1))). cbn [fst snd]. st_step_lift Es. cbn [length] in *.
    rewrite int32_id by (unfold is_int32 in *; lia).
    destruct (IH fuel (s ++ [b]) (pos + 1) size1 _ (from + 1) m1 ltac:(lia) Hfl1) as (size' & to' & m' & E' & Hfl').
    + intros i b' Ei. apply Hm1. replace (from + 1 + Z.of_nat i) with (from + Z.of_nat (S i)) by lia. by apply Hm.
    + done.
    + unfold is_int32 in *. lia.
    + unfold is_int32 in *. lia.
    + exists size', to', m'. rewrite E'. rewrite <- app_assoc in Hfl'. cbn [app] in Hfl'.
      replace (pos + Z.of_nat (S (length rest))) with (pos + 1 + Z.of_nat (length rest)) by lia. done.
Qed.

Lemma c_string_app s l : Forall (λ b, is_byte b ∧ b ≠ 0) s → c_string (s ++ l) = let? r := c_string l in Ok (s ++ r).
Proof.
  intros Hs. induction Hs as [|b s [_ Hb] Hs IH]; [cbn [app]; by destruct (c_string l)|].
  cbn [app c_string]. rewrite (proj2 (Z.eqb_neq _ _) Hb), IH. by destruct (c_string l).
Qed.

(** Reading user memory only marks pages as used. *)
Lemma user_read_evolves m va v m' :
  machine_wf m → user_read va m = Ok (v, m') →
  evolves m m' ∧ registers m' = registers m ∧ mainMemory m' = mainMemory m.
Proof.
  intros Hwf E. unfold user_read in E. destruct (ReadMem_ok m va 1 Hwf ltac:(by left)) as (r & m2 & E2 & Hev & Hr & _).
  rewrite (st_bind_Ok _ _ _ _ _ E2) in E. destruct r as [|v']; [done|]. injection E as -> ->. do 2 (split; [done|]).
  destruct (Translate_confines_mem m va 1 false Hwf ltac:(by left)) as (r & m3 & E3 & Hm).
  unfold ReadMem in E2. rewrite E3 in E2. cbn [res_bind Z.eqb Pos.eqb] in E2. destruct r as [?|pa]; [done|].
  apply res_bind_Ok_inv in E2 as (b & _ & E2). by injection E2 as _ <-.
Qed.

Lemma copy_from_loop_evolves fuel from pos size to m r m' :
  machine_wf m → copy_from_loop garbage fuel from pos size to m = Ok (r, m') →
  evolves m m' ∧ registers m' = registers m ∧ mainMemory m' = mainMemory m.
Proof.
  revert from pos size to m. induction fuel as [|fuel IH]; intros from pos size to m Hwf E; [done|].
  cbn [copy_from_loop] in E. apply st_bind_Ok_inv in E as (tmp & m1 & E1 & E).
  destruct (user_read_evolves _ _ _ _ Hwf E1) as (Hev & Hr & Hm). clear E1.
  destruct (negb (tmp =? 0)); [|by injection E as _ <-].
  apply st_bind_Ok_inv in E as (st & m2 & E1 & E). apply st_lift_Ok_inv in E1 as [_ ->].
  apply st_bind_Ok_inv in E as (to' & m2 & E1 & E). apply st_lift_Ok_inv in E1 as [_ ->].
  destruct (IH _ _ _ _ m1 (ev_wf _ _ Hev Hwf) E) as (Hev' & Hr' & Hm').
  split; [by apply (evolves_trans m m1)|split; congruence].
Qed.

Lemma copyStringFromMachine_evolves from size m r m' :
  machine_wf m → copyStringFromMachine garbage from size m = Ok (r, m') →
  evolves m m' ∧ registers m' = registers m ∧ mainMemory m' = mainMemory m.
Proof.
  intros Hwf E. unfold copyStringFromMachine in E. apply st_bind_Ok_inv in E as (x & m1 & E1 & E).
  apply st_bind_Ok_inv in E as (to & m2 & E2 & E). apply st_lift_Ok_inv in E2 as [_ ->]. injection E as _ <-.
  by apply (copy_from_loop_evolves _ _ _ _ _ _ _ _ Hwf E1).
Qed.

Lemma copyStringFromMachine_ok s from m :
  (∀ i b, (s ++ [0]) !! i = Some b → readable m (from + Z.of_nat i) b) →
  Forall (λ b, is_byte b ∧ b ≠ 0) s → is_int32 from → is_int32 (from + Z.of_nat (length s)) →
  Z.of_nat (length s) ≤ MemorySize →
  if bool_decide (length s = 14%nat) then
    copyStringFromMachine garbage from MAX_STRING_SIZE m = Fail MemoryFault
  else
    ∃ to m', copyStringFromMachine garbage from MAX_STRING_SIZE m = Ok ((Z.of_nat (length s) + 1, to), m') ∧
      c_string to = Ok (s ++ let c := uint8 (garbage (length s)) in if c =? 0 then [] else [c]).
Proof.
  intros Hm Hs Hi Hi' Hlen. unfold copyStringFromMachine.
  assert (Hfl : filled [] 0 MAX_STRING_SIZE (new_chars garbage MAX_STRING_SIZE)).
  { split; try done; [|by left]. intros i c _. apply lookup_new_chars. }
  destruct (copy_from_loop_ok s string_fuel [] 0 MAX_STRING_SIZE _ from m ltac:(unfold string_fuel; lia) Hfl Hm Hs Hi Hi')
    as (size' & to & m' & E & [_ _ Hroom Htake _ Hrest Hcap]).
  st_step E. cbn [fst snd app] in *. rewrite Z.add_0_l in *. unfold MAX_STRING_SIZE in Hcap.
  rewrite Nat2Z.id in *. case_bool_decide as H14.
  - rewrite H14 in *. unfold st_bind, st_lift. rewrite arr_set_out by lia. done.
  - st_step_lift (arr_set_in to (Z.of_nat (length s) + 1) 0 ltac:(lia)).
    eexists _, m'. split; [done|]. replace (Z.to_nat (Z.of_nat (length s) + 1)) with (S (length s)) by lia.
    destruct (lookup_lt_is_Some_2 to (length s)) as [g Eg]; [lia|].
    destruct (lookup_lt_is_Some_2 to (S (length s))) as [x Ex]; [lia|].
    rewrite (Hrest _ _ ltac:(done) Eg) in Eg. set (c := uint8 (garbage (length s))) in *.
    rewrite <- (take_drop (length s) (<[_ := _]> to)), take_insert_ge by lia.
    rewrite Htake, (c_string_app _ _ Hs).
    rewrite (drop_S _ c) by (by rewrite list_lookup_insert_ne by lia).
    rewrite (drop_S _ 0) by (apply list_lookup_insert_eq; by apply lookup_lt_Some in Ex).
    cbn [c_string]. by destruct (c =? 0).
Qed.

(** C40. What SC_PutString makes of a string of the user program, stored with its NUL in
    readable pages: the string itself, when the byte [new] left after it happens to be 0;
    otherwise the string and that byte, because the NUL is stored one place too far. With
    14 characters the NUL goes past the end of the array. *)
Theorem copyStringFromMachine_spec s from m :
  (∀ i b, (s ++ [0]) !! i = Some b → readable m (from + Z.of_nat i) b) →
  Forall (λ b, is_byte b ∧ b ≠ 0) s → is_int32 from → is_int32 (from + Z.of_nat (length s)) →
  Z.of_nat (length s) ≤ MemorySize →
  if bool_decide (length s = 14%nat) then
    copyStringFromMachine garbage from MAX_STRING_SIZE m = Fail MemoryFault
  else
    ∃ to m', copyStringFromMachine garbage from MAX_STRING_SIZE m = Ok ((Z.of_nat (length s) + 1, to), m') ∧
      c_string to = Ok (s ++ let c := uint8 (garbage (length s)) in if c =? 0 then [] else [c]).
Proof. apply copyStringFromMachine_ok. Qed.
End CopyFrom.

(** ** Strings that go to the user program *)

(** The physical address of a virtual address the program may write. *)
Definition writable (m : Machine) (va pa : Z) : Prop :=
  ∃ t e, tlb m = None ∧ pageTable m = Some t ∧ uint32 va / PageSize < pageTableSize m ∧
    t !! Z.to_nat (uint32 va / PageSize) = Some e ∧ valid e = true ∧ readOnly e = false ∧
    0 ≤ physicalPage e < NumPhysPages ∧ physicalPage e * PageSize + uint32 va mod PageSize = pa.

Lemma user_write_ok m va v pa :
  writable m va pa →
  ∃ m', user_write va v m = Ok (tt, m') ∧ mainMemory m' = <[pa := uint8 (Z.land v 0xff)]> (mainMemory m) ∧
    ∀ va' pa', writable m va' pa' → writable m' va' pa'.
Proof.
  intros (t & e & Ht & Hp & Hlt & Ee & Hv & Hro & Hpp & Hpa). unfold user_write, WriteMem, Translate, st_bind.
  cbn [Z.eqb Pos.eqb andb orb]. rewrite Ht, Hp.
  rewrite (bool_decide_true (None = None)) by done. rewrite (bool_decide_false (Some t = None)) by done.
  cbn [negb orb ASSERT res_bind]. change (default [] (Some t)) with t.
  pose proof (uint32_range va) as Hu. unfold is_uint32 in Hu.
  assert (Hvpn : 0 ≤ uint32 va / PageSize) by (apply Z.div_pos; [lia|done]).
  destruct (Z.geb_spec (uint32 va / PageSize) (pageTableSize m)); [lia|].
  rewrite (arr_get_lookup _ _ e) by done. cbn [res_bind]. rewrite Hv. cbn [negb].
  rewrite use_entry_ok; [|unfold entry_ok, is_uint32, NumPhysPages in *; lia|by left|apply Z.mod_1_r].
  rewrite Hro. cbn [andb]. destruct (Z.geb_spec (physicalPage e) NumPhysPages); [lia|]. cbn [res_bind].
  unfold set_mem_byte. pose proof (Z.mod_pos_bound (uint32 va) PageSize ltac:(done)) as Hm. rewrite Hpa.
  rewrite decide_True by (unfold MemorySize, NumPhysPages, PageSize in *; lia). cbn [res_bind st_ret].
  eexists. split; [done|]. split; [done|].
  intros va' pa' (t' & e' & _ & Hp' & Hlt' & Ee' & Hv' & Hro' & Hpp' & Hpa'). rewrite Hp in Hp'. injection Hp' as <-.
  destruct (decide (Z.to_nat (uint32 va / PageSize) = Z.to_nat (uint32 va' / PageSize))) as [Heq|Hne].
  - exists (<[Z.to_nat (uint32 va / PageSize) := mark_used true e]> t), (mark_used true e).
    rewrite <- Heq in *. assert (e' = e) as -> by congruence. split_and!; try done; try (cbn; lia).
    apply list_lookup_insert_eq. by apply lookup_lt_Some in Ee.
  - exists (<[Z.to_nat (uint32 va / PageSize) := mark_used true e]> t), e'. split_and!; try done; try lia.
    by rewrite list_lookup_insert_ne.
Qed.

(** A string up to its NUL or its newline, which is where copyStringToMachine stops. *)
Fixpoint ended (l : list Z) : list Z :=
  match l with
  | [] => []
  | c :: l => if (c =? 0) || (c =? 10) then [c] else c :: ended l
  end.

(** Bytes [bs] stored at the physical addresses [pas]. *)
Fixpoint write_bytes (pas bs : list Z) (mem : gmap Z Z) : gmap Z Z :=
  match pas, bs with
  | pa :: pas, b :: bs => write_bytes pas bs (<[pa := b]> mem)
  | _, _ => mem
  end.

Lemma char_land c : is_byte c → uint8 (Z.land (int8 c) 0xff) = c.
Proof.
  intros Hc. change 0xff with (Z.ones 8). rewrite Z.land_ones by done. change (2 ^ 8) with 256.
  unfold uint8. rewrite Zmod_mod. change (int8 c mod 256) with (uint8 (int8 c)).
  destruct (decide (c = 0)) as [->|]; [done|]. by apply char_byte.
Qed.

Lemma ended_split l :
  ∃ s e junk, l ++ [0] = s ++ e :: junk ∧ (e = 0 ∨ e = 10) ∧ Forall (λ c, c ≠ 0 ∧ c ≠ 10) s ∧ ended (l ++ [0]) = s ++ [e].
Proof.
  induction l as [|c l (s & e & junk & El & He & Hs & E)].
  { exists [], 0, []. split_and!; auto. }
  cbn [app ended]. destruct ((c =? 0) || (c =? 10)) eqn:Ec.
  - exists [], c, (s ++ e :: junk). split; [by rewrite El|]. split; [|done]. apply orb_true_iff in Ec as [?%Z.eqb_eq|?%Z.eqb_eq]; auto.
  - apply orb_false_iff in Ec as [H1%Z.eqb_neq H2%Z.eqb_neq]. exists (c :: s), e, junk. rewrite E, El. do 2 (split; [done|]). split; [by constructor|done].
Qed.

Lemma copy_to_loop_ok s e junk n to count m pas :
  e = 0 ∨ e = 10 → Forall (λ c, c ≠ 0 ∧ c ≠ 10) s → Forall is_byte s → (length s < n)%nat → (length s < length pas)%nat →
  is_int32 to → is_int32 (to + Z.of_nat (length s)) →
  (∀ i pa, pas !! i = Some pa → writable m (to + Z.of_nat i) pa) →
  ∃ m', copy_to_loop n (s ++ e :: junk) to count m = Ok (count + Z.of_nat (length s) + 1, m') ∧
    mainMemory m' = write_bytes pas (s ++ [e]) (mainMemory m).
Proof.
  intros He. revert n to count m pas.
  induction s as [|c s IH]; intros [|n] to count m [|pa pas] Hs Hb Hn Hlen Hto Hto' Hpas; try (cbn in *; lia);
    pose proof (Hpas 0%nat pa eq_refl) as Hpa; rewrite Z.add_0_r in Hpa; cbn [app copy_to_loop].
  - destruct (user_write_ok m to (int8 e) pa Hpa) as (m1 & E1 & Hm1 & _). st_step E1.
    rewrite (proj2 (orb_true_iff _ _)) by (destruct He as [-> | ->]; auto). exists m1.
    split; [change (Z.of_nat (length [])) with 0; by rewrite Z.add_0_r|]. cbn. rewrite Hm1, char_land by (destruct He as [-> | ->]; done). by destruct pas.
  - apply Forall_cons in Hs as [ [H0 H10] Hs]. apply Forall_cons in Hb as [Hc Hb]. cbn [length] in *.
    destruct (user_write_ok m to (int8 c) pa Hpa) as (m1 & E1 & Hm1 & Hw1). rewrite char_land in Hm1 by done. st_step E1.
    rewrite (proj2 (Z.eqb_neq _ _) H0), (proj2 (Z.eqb_neq _ _) H10). cbn [orb].
    rewrite int32_id by (unfold is_int32 in *; lia).
    destruct (IH n (to + 1) (count + 1) m1 pas Hs Hb ltac:(lia) ltac:(lia)) as (m' & E' & Hm').
    + unfold is_int32 in *. lia.
    + unfold is_int32 in *. lia.
    + intros i pa' Ei. apply Hw1. replace (to + 1 + Z.of_nat i) with (to + Z.of_nat (S i)) by lia. by apply Hpas.
    + exists m'. rewrite E'. replace (count + 1 + Z.of_nat (length s)) with (count + Z.of_nat (S (length s))) by lia.
      split; [done|]. cbn [write_bytes]. by rewrite Hm', Hm1.
Qed.

Lemma copy_to_loop_evolves l n to count m r m' :
  machine_wf m → copy_to_loop n l to count m = Ok (r, m') → evolves m m' ∧ registers m' = registers m.
Proof.
  revert n to count m. induction l as [|c l IH]; intros [|n] to count m Hwf E; cbn [copy_to_loop] in E;
    [injection E as _ <-; split; [apply evolves_refl|done]|done|injection E as _ <-; split; [apply evolves_refl|done]|].
  apply st_bind_Ok_inv in E as ([] & m1 & E1 & E). unfold user_write in E1.
  destruct (WriteMem_ok m to 1 (int8 c) Hwf ltac:(by left)) as (v & m2 & E2 & Hev & Hr).
  rewrite (st_bind_Ok _ _ _ _ _ E2) in E1. destruct v as [|[] ]; [done|]. injection E1 as ->.
  destruct (_ || _); [injection E as _ <-; done|].
  destruct (IH _ _ _ m1 (ev_wf _ _ Hev Hwf) E) as [Hev' Hr']. split; [by apply (evolves_trans m m1)|congruence].
Qed.

Definition user_hello : Machine :=
  mkMachine (list_to_map [(192, 104); (193, 105); (194, 0)]) (replicate 40 0) None
    (Some (identity_table (λ _, 0) 33)) 33 false 0.

Lemma copyStringFromMachine_spec_witness :
  ∃ to m', copyStringFromMachine (λ _, 33) 192 MAX_STRING_SIZE user_hello = Ok ((3, to), m') ∧
    c_string to = Ok [104; 105; 33].
Proof.
  apply (copyStringFromMachine_spec (λ _, 33) [104; 105] 192 user_hello).
  - intros i b E. assert (uint32 (192 + Z.of_nat i) / PageSize = 1 ∧ uint32 (192 + Z.of_nat i) mod PageSize = 64 + Z.of_nat i)
      as [Ed Em] by (apply lookup_lt_Some in E; cbn in E;
        destruct i as [|[|[|i] ] ]; [vm_compute; auto..|lia]).
    exists (identity_table (λ _, 0) 33), (mkTranslation 0 1 true false false false).
    rewrite Ed, Em. split_and!; try reflexivity; try done.
    destruct i as [|[|[|i] ] ]; cbn in E; try (injection E as <-; reflexivity); done.
  - repeat constructor; done.
  - split; done.
  - split; done.
  - done.
Defined.
