(* ===== verification/Debug.v ===== *)
(** * What the kernel and the machine print, and the debugger

    The debugger of machine.cc, which a user types commands at when programs are run one
    step at a time, and the Print and DumpState functions of machine/ and threads/. What
    is printed is text, as in Text.v; threads have no name in Threads.v, so the names are
    a parameter. *)
From stdpp Require Import strings.
From S2P Require Import Prelude Words Text Disk Interrupt Machine Threads Network Exception.

Module Debug.

(** [%lld] *)
Definition dec64 (z : Z) : text := if z <? 0 then 45 :: digits 19 (- z) [] else digits 19 z [].

(** ** Messages *)

(** DebugIsEnabled: [enableFlags] is what DebugInit was given, if it was called. *)
Definition DebugIsEnabled (enableFlags : option (list Z)) (flag : Z) : bool :=
  match enableFlags with
  | Some flags => bool_decide (flag ∈ flags ++ [0]) || bool_decide (43 ∈ flags)
  | None => false
  end.

(** DEBUG: the message, if the flag is enabled. *)
Definition DEBUG (enableFlags : option (list Z)) (flag : Z) (message : text) : text :=
  if DebugIsEnabled enableFlags flag then message else [].

Definition exceptionNames (which : ExceptionType) : option string :=
  match which with
  | NoException => Some "no exception"
  | SyscallException => Some "syscall"
  | PageFaultException => Some "page fault/no TLB entry"
  | ReadOnlyException => Some "page read only"
  | BusErrorException => Some "bus error"
  | AddressErrorException => Some "address error"
  | OverflowException => Some "overflow"
  | IllegalInstrException => Some "illegal instruction"
  | NumExceptionTypes => None           (* past the end of the array *)
  end%string.

(** ** The state of interrupts *)

Definition intLevelNames (l : IntStatus) : string :=
  match l with IntOff => "off" | IntOn => "on" end%string.
Definition intTypeNames (t : IntType) : string :=
  match t with
  | TimerInt => "timer"
  | DiskInt => "disk"
  | ConsoleWriteInt => "console write"
  | ConsoleReadInt => "console read"
  | NetworkSendInt => "network send"
  | NetworkRecvInt => "network recv"
  end%string.

Definition PrintPending {H} (pend : PendingInterrupt H) : text :=
  str "Interrupt handler " ++ str (intTypeNames (type pend)) ++ str ", scheduled at " ++
  dec64 (when pend) ++ newline.

(** Interrupt::DumpState *)
Definition Interrupt_DumpState {H X} (w : World H X) : text :=
  str "Time: " ++ dec64 (now w) ++ str ", interrupts " ++ str (intLevelNames (level (interrupt w))) ++ newline ++
  str "Pending interrupts:" ++ newline ++
  (pending (interrupt w) ≫= λ e, PrintPending e.2) ++
  str "End of pending interrupts" ++ newline.

(** Statistics::Print *)
Definition print_Statistics (s : Statistics) : text :=
  str "Ticks: total " ++ dec64 (totalTicks s) ++ str ", idle " ++ dec64 (idleTicks s) ++
  str ", system " ++ dec64 (systemTicks s) ++ str ", user " ++ dec64 (userTicks s) ++ newline ++
  str "Disk I/O: reads " ++ dec (numDiskReads s) ++ str ", writes " ++ dec (numDiskWrites s) ++ newline ++
  str "Console I/O: reads " ++ dec (numConsoleCharsRead s) ++
  str ", writes " ++ dec (numConsoleCharsWritten s) ++ newline ++
  str "Paging: faults " ++ dec (numPageFaults s) ++ newline ++
  str "Network I/O: packets received " ++ dec (numPacketsRecvd s) ++
  str ", sent " ++ dec (numPacketsSent s) ++ newline.

(** ** The rest of the kernel *)

(** Scheduler::Print, with ThreadPrint and Thread::Print. *)
Definition print_Scheduler {D} (getName : tid → text) (k : KState D) : text :=
  str "Ready list contents:" ++ newline ++ (readyList k ≫= λ t, getName t ++ str ", ").

(** PrintHeader of network/post.cc *)
Definition PrintHeader (pktHdr mailHdr : Header) : text :=
  str "From (" ++ dec (from pktHdr) ++ str ", " ++ dec (from mailHdr) ++ str ") to (" ++
  dec (to pktHdr) ++ str ", " ++ dec (to mailHdr) ++ str ") bytes " ++ dec (int32 (length_ mailHdr)) ++ newline.

(** PrintSector of machine/disk.cc *)
Definition print_sector (writing : bool) (sector : Z) (data : list Z) : text :=
  (if writing then str "Writing sector: " else str "Reading sector: ") ++ dec sector ++ newline ++
  (Disk.PrintSector data ≫= λ p, hex p ++ str " ") ++ newline.

(** ** The machine *)

(** One register of the table; [i % 4 == 3] ends a line. *)
Definition print_register (i v : Z) : text :=
  (if i =? StackReg then tab ++ str "SP(" ++ dec i ++ str "):"
   else if i =? RetAddrReg then tab ++ str "RA(" ++ dec i ++ str "):"
   else tab ++ dec i ++ str ":") ++
  tab ++ str "0x" ++ hex v ++ (if Z.rem i 4 =? 3 then newline else []).

Fixpoint print_registers (l : list Z) : ST Machine text :=
  match l with
  | [] => st_ret []
  | i :: l =>
      let* v := reg i in
      let* more := print_registers l in
      st_ret (print_register i v ++ more)
  end.

(** Machine::DumpState *)
Definition Machine_DumpState : ST Machine text :=
  let special nm num := let* v := reg num in st_ret (tab ++ str nm ++ tab ++ str "0x" ++ hex v) in
  let* gp := print_registers (seqZ 0 NumGPRegs) in
  let* hi := special "Hi:"%string HiReg in
  let* lo := special "Lo:"%string LoReg in
  let* pc := special "PC:"%string PCReg in
  let* next := special "NextPC:"%string NextPCReg in
  let* prev := special "PrevPC:"%string PrevPCReg in
  let* load := special "Load:"%string LoadReg in
  let* loadv := special "LoadV:"%string LoadValueReg in
  st_ret (str "Machine registers:" ++ newline ++ gp ++ hi ++ lo ++ newline ++
          pc ++ next ++ prev ++ newline ++ load ++ loadv ++ newline ++ newline).

(** [fgets(buf, 80, stdin)]: a line, or as much of it as fits; nothing at the end of the
    input, which leaves what [new] put there. *)
Fixpoint line_of (l : list Z) : list Z :=
  match l with
  | [] => []
  | c :: l => if c =? 10 then [c] else c :: line_of l
  end.
Definition fgets (input garbage : list Z) : list Z * list Z :=
  match input with
  | [] => (garbage, [])
  | _ => let got := take 79 (line_of input) in (got ++ [0], drop (length got) input)
  end.

Definition set_debug (step : bool) (until : Z) (m : Machine) : Machine :=
  mkMachine (mainMemory m) (registers m) (tlb m) (pageTable m) (pageTableSize m) step until.

Definition help : text :=
  str "Machine commands:" ++ newline ++
  str "    <return>  execute one instruction" ++ newline ++
  str "    <number>  run until the given timer tick" ++ newline ++
  str "    c         run until completion" ++ newline ++
  str "    ?         print help message" ++ newline.

(** Machine::Debugger: what it prints, and the input that is left. *)
Definition Debugger {H X} (w : World H X) (input garbage : list Z) : ST Machine (text * list Z) :=
  let* regs := Machine_DumpState in
  let shown := Interrupt_DumpState w ++ regs ++ dec64 (totalTicks (stats w)) ++ str "> " in
  let r := fgets input garbage in
  let buf := r.1 in
  λ m,
    match scan_int buf with
    | Some num => Ok (shown, r.2, set_debug (singleStep m) num m)
    | None =>
        let? c := arr_get buf 0 in
        let m := set_debug (singleStep m) 0 m in
        if c =? 99 then Ok (shown, r.2, set_debug false (runUntilTime m) m)
        else if c =? 63 then Ok (shown ++ help, r.2, m)
        else Ok (shown, r.2, m)
    end.

(** When Machine::Run calls it, after every instruction. *)
Definition stops (totalTicks : Z) (m : Machine) : bool := singleStep m && (runUntilTime m <=? totalTicks).

(** ** Facts *)

Section Facts.
Context {H X : Type}.
Implicit Types (m : Machine) (w : World H X).

Lemma reg_reads m i : machine_wf m → 0 ≤ i < NumTotalRegs → ∃ v, reg i m = Ok (v, m).
Proof.
  intros Hm Hi. destruct (arr_get_in (registers m) i) as (v & Hv & _).
  { rewrite (mw_len m Hm). unfold NumTotalRegs in *. lia. }
  exists v. unfold reg. by rewrite Hv.
Qed.

Lemma print_registers_ok m l :
  machine_wf m → Forall (λ i, 0 ≤ i < NumTotalRegs) l → ∃ t, print_registers l m = Ok (t, m).
Proof.
  intros Hm. induction 1 as [|i l Hi _ [t IH]]; [by eexists|]. cbn [print_registers].
  destruct (reg_reads m i Hm Hi) as [v Hv]. st_step Hv. st_step IH. by eexists.
Qed.

(** DumpState shows the registers and changes nothing. *)
Lemma Machine_DumpState_ok m : machine_wf m → ∃ t, Machine_DumpState m = Ok (t, m).
Proof.
  intros Hm. destruct (print_registers_ok m (seqZ 0 NumGPRegs) Hm) as [t Ht].
  { apply Forall_seqZ. intros i Hi. unfold NumGPRegs, NumTotalRegs in *. lia. }
  unfold Machine_DumpState. st_step Ht. 
  repeat match goal with |- context [st_bind (st_bind (reg ?i) _) _ m] =>
    let v := fresh "v" in let E := fresh "E" in
    destruct (reg_reads m i Hm ltac:(done)) as [v E]; unfold st_bind at 1 2; rewrite E; cbv beta iota;
    unfold st_ret at 1; cbv beta iota; clear E
  end. by eexists.
Qed.

(** What the user types decides when the debugger is next called, and nothing else of the
    machine changes: a number, not before the clock shows it; [c], never again; an empty
    line, after the next instruction. *)
Theorem Debugger_commands w m line input garbage :
  machine_wf m → (length line <= 78)%nat → 10 ∉ line →
  ∃ t m', Debugger w (line ++ 10 :: input) garbage m = Ok (t, input, m') ∧
    m' = set_debug (singleStep m') (runUntilTime m') m ∧
    (∀ n, is_int32 n → line = dec n → ∀ now, stops now m' = singleStep m && (n <=? now)) ∧
    (line = [99] → ∀ now, stops now m' = false) ∧
    (line = [] → ∀ now, 0 ≤ now → stops now m' = singleStep m).
Proof.
  intros Hm Hl Hn. destruct (Machine_DumpState_ok m Hm) as [t Ht]. unfold Debugger. st_step Ht.
  assert (Eline : line_of (line ++ 10 :: input) = line ++ [10]).
  { induction line as [|c line IH]; [done|]. apply not_elem_of_cons in Hn as [Hc Hn]. cbn.
    rewrite (proj2 (Z.eqb_neq c 10)) by done. rewrite IH; [done | cbn in Hl; lia | done]. }
  assert (Eg : fgets (line ++ 10 :: input) garbage = (line ++ [10; 0], input)).
  { unfold fgets. rewrite Eline, take_ge by (rewrite length_app; cbn; lia).
    destruct (line ++ 10 :: input) eqn:E; [by destruct line|]. rewrite <- E.
    rewrite <- (assoc_L (++)). f_equal. change (10 :: input) with ([10] ++ input). rewrite (assoc_L (++)).
    by rewrite drop_app_length. }
  rewrite Eg. cbn [fst snd].
  destruct (scan_int (line ++ [10; 0])) as [num|] eqn:Es.
  - do 2 eexists. split; [done|]. split; [done|]. split_and!.
    + intros n Hi -> now. rewrite scan_printed in Es by done. by injection Es as <-.
    + by intros ->.
    + by intros ->.
  - assert (Hc : ∃ c, arr_get (line ++ [10; 0]) 0 = Ok c ∧ (line = [99] → c = 99) ∧ (line = [] → c = 10)).
    { destruct line as [|c line]; [by exists 10|]. exists c. split; [done|]. split; [by intros [= ->]|done]. }
    destruct Hc as (c & Ec & H99 & H10). rewrite Ec. cbn [res_bind].
    assert (Hnum : ∀ n, is_int32 n → line ≠ dec n).
    { intros n Hi ->. by rewrite scan_printed in Es. }
    destruct (Z.eqb_spec c 99); [|destruct (Z.eqb_spec c 63)].
    all: do 2 eexists; split; [done|]; split; [done|]; split_and!; [naive_solver|..].
    all: intros ->; intros; unfold stops; cbn [singleStep runUntilTime set_debug].
    all: first [done | specialize (H99 eq_refl); lia | specialize (H10 eq_refl); lia
               | rewrite (proj2 (Z.leb_le 0 now)) by done; apply andb_true_r].
Qed.
End Facts.
End Debug.
