(* ===== verification/SynchDisk.v ===== *)
(** * The synchronous disk (filesys/synchdisk.cc)

    Requests to the simulated disk made to wait for their interrupt. On a machine with one
    thread and no timer it is the [SectorDevice] the file system is proved against: the
    whole path runs, through the lock, the disk's latency, the thread's sleep, the idle
    loop and the interrupt that wakes it. *)
From S2P Require Import Prelude Words LinkedList BitMap SectorIO FileHdr OpenFile Directory FileSys.
From S2P Require Import Interrupt Pending Disk Console Network Machine MipsSim Threads SchedInv.
From S2P Require Import Kernel KernelSteps Programs Devices Solo System.

Section SynchDisk.
Context {E : Type}.
Abbreviation program := (prog devint Devs devop E).

(** The data is in the caller's buffer as soon as the request is made; the caller may not
    look before the semaphore says so. *)
Definition SynchDisk_ReadSector (sectorNumber : Z) : program (list Z) :=
  do* RP diskLock;
  Ask (λ w,
  let data := mem_sector (store (disk (dev (rest w)))) sectorNumber in
  do* RDev (DiskRead sectorNumber);
  do* RP diskDone;
  do* RV diskLock;
  Done data).

Definition SynchDisk_WriteSector (sectorNumber : Z) (data : list Z) : program unit :=
  do* RP diskLock;
  do* RDev (DiskWrite sectorNumber data);
  do* RP diskDone;
  do* RV diskLock;
  Done tt.
End SynchDisk.

(** ** The disk as a duty *)

#[local] Instance disk_duty : Duty (list (list Z)) := {
  du_int := DiskDone;
  du_done := diskDone;
  du_lock := diskLock;
  du_busy d := active (disk d);
  du_view d := store (disk d);
  du_due T d l := l = due_at DiskDone DiskInt (active (disk d)) T;
  du_comes _ := True;
}.

#[local] Instance disk_duty_laws : DutyLaws disk_duty.
Proof.
  split; [by split; [|split; [|by intros []] ]|done|..]; cbn.
  - intros T d l l'. apply due_at_perm.
  - intros h d d' vs acts [_ _ Hd _ _ _ _] Hh. by rewrite Hd.
  - intros T e l t d d' vs acts Hd [= <- <- <-]. cbn. unfold due_at in *. destruct (active (disk d)); [|done].
    by injection Hd as _ ->.
  - intros T d l Hd Ha. destruct (due_at_awaited _ _ _ _ _ Hd Ha). done.
Qed.

(** Nothing else is followed here. *)
Abbreviation diskJ := (soloJ nothing_else None).

(** ** The device the file system sees *)

(** Enough for the slowest request ([disk_request]). *)
Definition disk_fuel : nat := Z.to_nat 32200.

Definition disk_read (n : Z) : ST nachos (list Z) := exec (E := Empty_set) disk_fuel (SynchDisk_ReadSector n).
Definition disk_write (n : Z) (data : list Z) : ST nachos unit :=
  exec (E := Empty_set) disk_fuel (SynchDisk_WriteSector n data).
Definition disk_sector (w : nachos) (n : Z) : list Z := mem_sector (store (disk (dev (rest w)))) n.

(** One thread, in code of its own, the lock free and no request in progress; no timer. *)
Definition disk_idle (w : nachos) : Prop :=
  winv w ∧ cur_frames (rest w) = [] ∧ ∃ T S, holds (diskJ T 0 1 S) w.

Lemma disk_idle_wf w : disk_idle w → disk_wf (disk (dev (rest w))).
Proof. intros (Hw & _). apply (dv_disk _ (kI_dev _ (ri_k _ (proj1 Hw)))). Qed.

Lemma runs_fuel {E R} n (p p' : prog devint Devs devop E R) w w' :
  runs n p w p' w' → (n < disk_fuel)%nat → exec disk_fuel p w = exec (disk_fuel - n) p' w'.
Proof. intros Hr Hn. replace disk_fuel with (n + (disk_fuel - n))%nat at 1 by lia. by apply runs_exec. Qed.

Lemma exec_done {E R} n (a : R) (w : nachos) :
  (0 < n)%nat → cur_frames (rest w) = [] → exec (E := E) n (Done a) w = Ok (a, w).
Proof. intros Hn Hf. destruct n; [lia|]. simpl. by rewrite Hf. Qed.

(** A request once the lock is held, and the lock given back. *)
Lemma disk_request {R} T S S' o d cnt ticks (a : R) w :
  winv w → holds (diskJ T 0 0 S) w → cur_frames (rest w) = [] →
  dev_op o (now w) (dev (rest w)) = Ok (set_disk d (dev (rest w)), [ACount cnt; ASchedule DiskDone ticks DiskInt]) →
  active d = true → store d = S' → ticks ≤ 32000 →
  ∃ n w', (n ≤ Z.to_nat 32000 + 8)%nat ∧
    runs n (do* RDev o; do* RP diskDone; do* RV diskLock; Done a : prog devint Devs devop Empty_set R) w (Done a) w' ∧
    disk_idle w' ∧ store (disk (dev (rest w'))) = S'.
Proof.
  intros Hw HJ Hf Eo Ha HS Ht.
  destruct (request_solo nothing_else None (E := Empty_set) T 0 S S' o _ _ ticks (Z.to_nat 32000) (do* RV diskLock; Done a) w Hw HJ Hf Eo)
    as (n & w1 & T1 & Hn & R1 & Hw1 & HJ1 & Hf1);
    [by repeat constructor| |done|done|done|done|lia|].
  { destruct (soloJ_idle nothing_else None _ _ _ _ Hw HJ) as (Hi & _). pose proof (soloJ_due _ _ _ _ _ _ _ _ _ HJ) as Hd.
    cbn in Hi, Hd |- *. rewrite Hi in Hd. by rewrite Hd, Ha. }
  destruct (unlock_solo nothing_else None (E := Empty_set) T1 0 S' (Done a) w1 Hw1 HJ1 Hf1) as (w2 & R2 & Hw2 & HJ2 & Hf2).
  exists (n + 1)%nat, w2. split; [lia|]. split; [by eapply runs_trans|].
  split; [split; [done|split; [done|eauto] ]|]. exact (soloJ_view _ _ _ _ _ _ _ _ _ HJ2).
Qed.

Lemma disk_read_ok w n :
  disk_idle w → valid_sector n →
  ∃ w', disk_read n w = Ok (disk_sector w n, w') ∧ disk_idle w' ∧
    store (disk (dev (rest w'))) = store (disk (dev (rest w))).
Proof.
  intros (Hw & Hf & T & S & HJ) Hn. pose proof (soloJ_view _ _ _ _ _ _ _ _ _ HJ) as HS.
  set (rest_prog := Ask (λ w : nachos, do* RDev (DiskRead n); do* RP diskDone; do* RV diskLock;
    Done (mem_sector (store (disk (dev (rest w)))) n)) : prog devint Devs devop Empty_set (list Z)).
  destruct (lock_solo nothing_else None T 0 S rest_prog w Hw HJ Hf) as (w1 & R1 & Hw1 & HJ1 & Hf1).
  pose proof (soloJ_view _ _ _ _ _ _ _ _ _ HJ1) as HS1. destruct (soloJ_idle nothing_else None _ _ _ _ Hw1 HJ1) as (Hi1 & _).
  destruct (ReadRequest_ok DiskDone (now w1) n (disk (dev (rest w1)))) as (d & ticks & Er & Ht & Hd & Ha & Hst & _);
    [apply (dv_disk _ (kI_dev _ (ri_k _ (proj1 Hw1))))|done|done|apply (ri_now _ (proj1 Hw1))|].
  cbn [du_view disk_duty] in HS, HS1.
  set (data := mem_sector (store (disk (dev (rest w1)))) n) in *.
  destruct (disk_request T S S (DiskRead n) d DiskReads ticks data w1 Hw1 HJ1 Hf1) as (m & w3 & Hm & R3 & Hi & Hs3);
    [cbn [dev_op nachos_devices]; by rewrite Er|done|congruence|lia|].
  exists w3. split; [|split; [done|congruence] ].
  assert (R : runs (2 + (1 + m)) (SynchDisk_ReadSector (E := Empty_set) n) w (Done data) w3).
  { eapply runs_trans; [exact R1|]. eapply runs_trans; [by eapply runs_ask|]. exact R3. }
  unfold disk_read. rewrite (runs_fuel _ _ _ _ _ R) by (unfold disk_fuel; lia).
  destruct Hi as (_ & Hf3 & _). rewrite exec_done by (done || unfold disk_fuel; lia).
  unfold data, disk_sector. by rewrite HS1, HS.
Qed.

Lemma disk_write_ok w n data :
  disk_idle w → valid_sector n → length data = Z.to_nat SectorSize →
  ∃ w', disk_write n data w = Ok (tt, w') ∧ disk_idle w' ∧
    ∀ m, disk_sector w' m = if decide (m = n) then data else disk_sector w m.
Proof.
  intros (Hw & Hf & T & S & HJ) Hn Hl. pose proof (soloJ_view _ _ _ _ _ _ _ _ _ HJ) as HS.
  set (rest_prog := (do* RDev (DiskWrite n data); do* RP diskDone; do* RV diskLock; Done tt)
    : prog devint Devs devop Empty_set unit).
  destruct (lock_solo nothing_else None T 0 S rest_prog w Hw HJ Hf) as (w1 & R1 & Hw1 & HJ1 & Hf1).
  pose proof (soloJ_view _ _ _ _ _ _ _ _ _ HJ1) as HS1. destruct (soloJ_idle nothing_else None _ _ _ _ Hw1 HJ1) as (Hi1 & _).
  destruct (WriteRequest_ok DiskDone (now w1) n data (disk (dev (rest w1)))) as (d & ticks & Er & Ht & Hd & Ha & Hst & _);
    [apply (dv_disk _ (kI_dev _ (ri_k _ (proj1 Hw1))))|done|done|apply (ri_now _ (proj1 Hw1))|done|].
  cbn [du_view disk_duty] in HS, HS1.
  destruct (disk_request T S (store d) (DiskWrite n data) d DiskWrites ticks tt w1 Hw1 HJ1 Hf1) as (m & w3 & Hm & R3 & Hi & Hs3);
    [cbn [dev_op nachos_devices]; rewrite bool_decide_true by done; by rewrite Er|done|done|lia|].
  exists w3. split; [|split; [done|] ].
  - assert (R : runs (2 + m) (SynchDisk_WriteSector (E := Empty_set) n data) w (Done tt) w3) by by eapply runs_trans.
    unfold disk_write. rewrite (runs_fuel _ _ _ _ _ R) by (unfold disk_fuel; lia).
    destruct Hi as (_ & Hf3 & _). rewrite exec_done; [done|unfold disk_fuel; lia|done].
  - intros x. unfold disk_sector. rewrite Hs3, Hst. by rewrite HS1, HS.
Qed.

#[global] Strategy 1000 [disk_fuel].
#[local] Obligation Tactic := idtac.

(** The simulated disk, behind its lock, its interrupt and its semaphore, is a device of
    sectors. *)
#[export] Program Instance nachos_disk : SectorDevice nachos := {
  ReadSector := disk_read;
  WriteSector := disk_write;
  sector := disk_sector;
  ready := disk_idle;
}.
Next Obligation.
  intros w n Hr Hn. exact (@sector_length _ mem_device _ n (dw_ready _ (disk_idle_wf w Hr)) Hn).
Qed.
Next Obligation.
  intros w n Hr Hn. destruct (disk_read_ok w n Hr Hn) as (w' & E & Hr' & Hs).
  exists w'. split; [done|]. split; [done|]. intros m. unfold disk_sector. by rewrite Hs.
Qed.
Next Obligation. intros w n d Hr Hn Hd. by apply disk_write_ok. Qed.

(** C11. The synchronous disk reads and writes whole sectors. Called by the only thread
    of a machine without a timer, with interrupts on or off and whatever the console and
    the network have pending, ReadSector returns what the sector holds and WriteSector
    replaces it and nothing else: the lock is taken, the request made, the thread sleeps,
    the idle loop brings the interrupt, the handler wakes the thread, which gives the lock
    back. Both return within the fuel, no assertion fails on the way, and the disk is ready
    for the next request. *)
Theorem SynchDisk_serves w n data :
  disk_idle w → valid_sector n → length data = Z.to_nat SectorSize →
  (∃ w', exec (E := Empty_set) disk_fuel (SynchDisk_ReadSector n) w = Ok (disk_sector w n, w') ∧
     disk_idle w' ∧ ∀ m, disk_sector w' m = disk_sector w m) ∧
  (∃ w', exec (E := Empty_set) disk_fuel (SynchDisk_WriteSector n data) w = Ok (tt, w') ∧
     disk_idle w' ∧ ∀ m, disk_sector w' m = if decide (m = n) then data else disk_sector w m).
Proof.
  intros Hw Hn Hl. split; [|pose proof (disk_write_ok w n data Hw Hn Hl) as Hd; unfold disk_write in Hd; exact Hd].
  destruct (disk_read_ok w n Hw Hn) as (w' & E & Hw' & Hs). unfold disk_read in E.
  exists w'. split; [exact E|]. split; [done|]. intros m. unfold disk_sector. by rewrite Hs.
Qed.

(** C10. The file system on the simulated disk. With every sector going through the
    synchronous disk, its interrupts and the scheduler, formatting and then creating,
    removing, reading and writing files with restarts in between still gives the results
    of the map from names to byte arrays, and leaves the machine in its invariant with
    the disk idle. *)
Theorem FileSystem_on_simulated_disk (garbage : nat → Z) (os : list fs_op) (w : nachos) :
  disk_idle w → Forall (λ o, fs_op_ok o = true) os →
  ∃ fs w1 rs fs' w' a',
    new_FileSystem garbage true w = Ok (fs, w1) ∧
    fs_run garbage os fs w1 = Ok ((rs, fs'), w') ∧
    abs_run os rs (∅, 1019) a' ∧ abstracts fs' w' a' ∧ winv w'.
Proof.
  intros Hw Hos. destruct (@format_then_run nachos nachos_disk garbage os w Hw Hos) as (fs & w1 & rs & fs' & w' & a' & E1 & E2 & Ha & Habs).
  exists fs, w1, rs, fs', w', a'. split; [exact E1|]. split; [exact E2|]. split; [exact Ha|]. split; [exact Habs|].
  destruct Habs as (bm & d & Hi & _). apply (fi_ready _ _ _ _ Hi).
Qed.

(** ** The machine at start-up is ready *)

Definition globals0 : Globals :=
  mkGlobals (replicate 10 0) (mkBitMap 10 1 [0]) 0 0 0 [].
Definition devs0 (d : Disk) : Devs :=
  mkDevs false [] false (mkConsole 0 1 false EOF) (mkTerminal [] false [] true) d
    (mkNetwork 0 1%Q false (mkHeader 0 0 0) (replicate 52 0) [] []) globals0.

Lemma devs0_wf d : disk_wf d → devs_wf (devs0 d).
Proof.
  intros Hd. split; [constructor|exact Hd|]. split; [reflexivity| |constructor]. vm_compute. intuition discriminate.
Qed.

Definition nachos0 : nachos :=
  booted boot_sems (replicate 40 0) (mkMachine ∅ (replicate 40 0) None None 0 false 0)
    (devs0 (mkDisk mem_blank false 0 0)).

Lemma nachos0_idle : disk_idle nachos0.
Proof.
  split; [|split; [reflexivity|] ].
  - apply (nachos_winv false); [reflexivity|]. apply devs0_wf. split; [exact mem_blank_ready|].
    unfold valid_sector. vm_compute. intuition discriminate.
  - exists 0, mem_blank. split; try done; [split; try done|..].
    + exists (mkSemaphore 0 []). split; [vm_compute; reflexivity|reflexivity].
    + exists (mkSemaphore 1 []). split; [vm_compute; reflexivity|reflexivity].
    + intros t th Et. by apply boot_threads in Et as [-> _].
Qed.

Lemma SynchDisk_serves_witness :
  ∃ w', exec (E := Empty_set) disk_fuel (SynchDisk_WriteSector 700 (replicate 128 7)) nachos0 = Ok (tt, w') ∧
    disk_idle w' ∧ disk_sector w' 700 = replicate 128 7.
Proof.
  destruct (SynchDisk_serves nachos0 700 (replicate 128 7) nachos0_idle) as [_ (w' & E & Hw' & Hs)].
  - unfold valid_sector. vm_compute. intuition discriminate.
  - reflexivity.
  - exists w'. split; [exact E|]. split; [exact Hw'|]. rewrite Hs. reflexivity.
Defined.

Lemma FileSystem_on_simulated_disk_witness :
  let os := [FsCreate [97] 200; FsWrite [97] [1; 2; 3] 3 126; FsRead [97] 5 125; FsRestart; FsRemove [97]] in
  ∃ fs w1 rs fs' w' a',
    new_FileSystem (W := nachos) (λ _, 7) true nachos0 = Ok (fs, w1) ∧
    fs_run (λ _, 7) os fs w1 = Ok ((rs, fs'), w') ∧
    abs_run os rs (∅, 1019) a' ∧ abstracts fs' w' a' ∧ winv w'.
Proof.
  intros os. apply (FileSystem_on_simulated_disk (λ _, 7) os nachos0 nachos0_idle).
  repeat (constructor; [reflexivity|]). constructor.
Defined.
