(* ===== verification/Calls.v ===== *)
(** * System calls of a program on its own (userprog/exception.cc, machine/mipssim.cc)

    What is around a case of the switch in ExceptionHandler: the trap out of Machine::Run,
    the register that tells which call it is, UpdatePC, the return to user mode. A call that
    does its work takes the program from its SYSCALL instruction to the one after. *)
From S2P Require Import Prelude Words LinkedList BitMap Interrupt Pending Disk Console Network Machine MipsSim.
From S2P Require Import Threads SchedInv AddrSpace Kernel KernelSteps Programs Devices Solo UserThread Exception.

(** ** The registers around a system call *)

Definition next_pc (r : list Z) : list Z :=
  let pc := default 0 (r !! Z.to_nat PCReg) in
  let npc := default 0 (r !! Z.to_nat NextPCReg) in
  <[Z.to_nat NextPCReg := int32 (npc + 4)]> (<[Z.to_nat PCReg := npc]> (<[Z.to_nat PrevPCReg := pc]> r)).

Lemma ReadRegister_get m n v :
  registers m !! Z.to_nat n = Some v → 0 ≤ n < NumTotalRegs → ReadRegister n m = Ok (v, m).
Proof.
  intros Hv Hn. unfold ReadRegister. rewrite (proj2 (andb_true_iff _ _)) by (change NumTotalRegs with 40 in *; lia).
  cbn [ASSERT res_bind]. unfold reg. by rewrite (arr_get_lookup _ _ v) by (done || lia).
Qed.

Lemma WriteRegister_set m n v :
  length (registers m) = Z.to_nat NumTotalRegs → 0 ≤ n < NumTotalRegs →
  WriteRegister n v m = Ok (tt, set_registers (<[Z.to_nat n := v]> (registers m)) m).
Proof.
  intros Hl Hn. unfold WriteRegister. rewrite (proj2 (andb_true_iff _ _)) by (change NumTotalRegs with 40 in *; lia).
  cbn [ASSERT res_bind]. unfold set_reg. rewrite arr_set_in; [done|]. rewrite Hl. change NumTotalRegs with 40 in *. lia.
Qed.

Lemma UpdatePC_next m :
  length (registers m) = Z.to_nat NumTotalRegs → UpdatePC m = Ok (tt, set_registers (next_pc (registers m)) m).
Proof.
  intros Hl. change NumTotalRegs with 40 in Hl. unfold UpdatePC, next_pc.
  destruct (lookup_lt_is_Some_2 (registers m) (Z.to_nat PCReg)) as [pc Hpc]; [rewrite Hl; unfold PCReg; lia|].
  destruct (lookup_lt_is_Some_2 (registers m) (Z.to_nat NextPCReg)) as [npc Hnpc]; [rewrite Hl; unfold NextPCReg; lia|].
  rewrite Hpc, Hnpc. cbn [default from_option id].
  st_step (ReadRegister_get m PCReg pc Hpc ltac:(done)).
  st_step (WriteRegister_set m PrevPCReg pc Hl ltac:(done)). set (m1 := set_registers _ m).
  assert (Hn1 : registers m1 !! Z.to_nat NextPCReg = Some npc) by (cbn [registers m1 set_registers]; by rewrite list_lookup_insert_ne).
  st_step (ReadRegister_get m1 NextPCReg npc Hn1 ltac:(done)).
  st_step (WriteRegister_set m1 PCReg npc ltac:(cbn [registers m1 set_registers]; by rewrite length_insert) ltac:(done)).
  set (m2 := set_registers _ m1).
  rewrite (WriteRegister_set m2 NextPCReg) by (done || (cbn [registers m2 m1 set_registers]; by rewrite !length_insert)).
  done.
Qed.

Lemma next_pc_ok r : regs_ok r → regs_ok (next_pc r).
Proof.
  intros (Hl & Hi & l & El & Hlr). unfold next_pc, regs_ok.
  assert (Hd : ∀ n, is_int32 (default 0 (r !! n))).
  { intros n. destruct (r !! n) eqn:En; [by apply (Forall_lookup_1 _ _ _ _ Hi En)|done]. }
  rewrite !length_insert. split; [done|]. split; [repeat apply Forall_insert; auto|].
  exists l. rewrite !list_lookup_insert_ne by done. done.
Qed.

Lemma next_pc_settled r : settled r → settled (next_pc r).
Proof.
  intros (H1 & H2 & H3). unfold settled, next_pc.
  by rewrite !(list_lookup_insert_ne _ (Z.to_nat NextPCReg)), !(list_lookup_insert_ne _ (Z.to_nat PCReg)),
    !(list_lookup_insert_ne _ (Z.to_nat PrevPCReg)) by done.
Qed.

Lemma registers_kept k r :
  minv k → regs_ok r → machine_kept (machine (D := Devs) k) (set_registers r (machine k)).
Proof.
  intros Hm Hr. pose proof (minv_table k Hm) as Ht. split; try apply Hm; try done.
  cbn [pageTable set_registers]. destruct (pageTable (machine k)); [eauto|done].
Qed.

Lemma kept_refl k : minv k → machine_kept (machine (D := Devs) k) (machine k).
Proof.
  intros Hm. pose proof (registers_kept k _ Hm (mi_regs _ Hm)) as Hk.
  by replace (set_registers _ (machine k)) with (machine k) in Hk by by destruct (machine k).
Qed.

(** What a call leaves of the machine: the memory, and of the page table all but use bits. *)
Record same_memory (m m' : Machine) : Prop := {
  sm_evolves : evolves m m';
  sm_memory : mainMemory m' = mainMemory m;
}.

Lemma same_memory_registers m r : regs_ok r → same_memory m (set_registers r m).
Proof. intros Hr. split; try done. split; try done. intros [? ? ? ? ?]. destruct Hr as (? & ? & ?). by split. Qed.
Lemma same_memory_refl m : same_memory m m.
Proof. by split. Qed.
Lemma same_memory_trans m1 m2 m3 : same_memory m1 m2 → same_memory m2 m3 → same_memory m1 m3.
Proof. intros [] []. split; [by apply (evolves_trans m1 m2)|congruence]. Qed.
Lemma same_memory_table m m' : same_memory m m' → pageTable m ≠ None → pageTable m' ≠ None.
Proof. intros [ [_ _ Ht _ _] _]. by destruct (pageTable m), (pageTable m'). Qed.

(** ** A trap and its return *)

(** The next instruction is one that raises [which]; [m'] is the machine in which the handler
    of the kernel starts. *)
Definition traps (m : Machine) (which : ExceptionType) (m' : Machine) : Prop :=
  ∃ badVAddr m1, OneInstruction m = Ok (Some (which, badVAddr), m1) ∧ RaiseException_enter badVAddr m1 = Ok (tt, m').

Lemma traps_settled m which m' : traps m which m' → settled (registers m').
Proof.
  intros (b & m1 & _ & E). apply st_bind_Ok_inv in E as (? & m2 & _ & E). by apply DelayedLoad_settles in E.
Qed.

(** The machine at the instruction after. *)
Definition next_machine (m : Machine) : Machine := set_registers (next_pc (registers m)) m.

Section Calls.
Context {View : Type} {du : Duty View} {laws : DutyLaws du}.
Context (F : list (Z * PendingInterrupt devint) → KState Devs → Prop) {frame : Frame du F}.
Abbreviation soloJ := (soloJ F).
Context (T c L : Z) (S : View).

Lemma soloJ_registers m w : winv w → holds (soloJ (Some m) T c L S) w → regs_ok (registers m).
Proof.
  intros Hw HJ. destruct (so_machine _ _ _ _ _ _ _ _ _ HJ m eq_refl) as [<- _].
  apply (mi_regs _ (kI_m _ (ri_k _ (proj1 Hw)))).
Qed.

(** The machine is asked something. *)
Lemma ask_solo {E R A} m (op : ST Machine A) a (k : A → prog devint Devs devop E R) w :
  winv w → holds (soloJ (Some m) T c L S) w → cur_frames (rest w) = [] → op m = Ok (a, m) →
  ∃ w', runs 2 (On_machine op k) w (k a) w' ∧ winv w' ∧ holds (soloJ (Some m) T c L S) w' ∧ cur_frames (rest w') = [].
Proof.
  intros Hw HJ Hf E1. destruct (so_machine _ _ _ _ _ _ _ _ _ HJ m eq_refl) as [Em Hset].
  pose proof (kept_refl _ (kI_m _ (ri_k _ (proj1 Hw)))) as Hk. rewrite <- Em in E1.
  destruct (on_machine_solo F (Some m) (Some m) T c L S op a _ k w Hw HJ Hf E1 Hk)
    as (w1 & R1 & Hw1 & HJ1 & Hf1 & _); [by intros ? [= <-]|]. eauto 6.
Qed.

(** Its registers are changed. *)
Lemma registers_solo {E R} m r (op : ST Machine unit) (k : unit → prog devint Devs devop E R) w :
  winv w → holds (soloJ (Some m) T c L S) w → cur_frames (rest w) = [] →
  op m = Ok (tt, set_registers r m) → regs_ok r → settled r →
  ∃ w', runs 2 (On_machine op k) w (k tt) w' ∧ winv w' ∧ holds (soloJ (Some (set_registers r m)) T c L S) w' ∧
    cur_frames (rest w') = [].
Proof.
  intros Hw HJ Hf E1 Hr Hset. destruct (so_machine _ _ _ _ _ _ _ _ _ HJ m eq_refl) as [<- _].
  destruct (on_machine_solo F (Some (machine (rest w))) (Some (set_registers r (machine (rest w)))) T c L S op tt _ k w Hw HJ Hf E1
    (registers_kept _ _ (kI_m _ (ri_k _ (proj1 Hw))) Hr)) as (w1 & R1 & Hw1 & HJ1 & Hf1 & _); [by intros ? [= <-]|]. eauto 6.
Qed.

Lemma next_solo {E R} m (k : unit → prog devint Devs devop E R) w :
  winv w → holds (soloJ (Some m) T c L S) w → cur_frames (rest w) = [] →
  ∃ w', runs 2 (On_machine UpdatePC k) w (k tt) w' ∧ winv w' ∧ holds (soloJ (Some (next_machine m)) T c L S) w' ∧
    cur_frames (rest w') = [].
Proof.
  intros Hw HJ Hf. pose proof (soloJ_registers m w Hw HJ) as Hr. destruct (so_machine _ _ _ _ _ _ _ _ _ HJ m eq_refl) as [_ Hset].
  apply (registers_solo m); [done..|apply UpdatePC_next, Hr|by apply next_pc_ok|by apply next_pc_settled].
Qed.

Lemma trap_solo {E R} which m (p : prog devint Devs devop E R) w M :
  winv w → holds (soloJ M T c L S) w → cur_frames (rest w) = [] → is_Some (pt_owner (rest w)) →
  traps (machine (rest w)) which m →
  ∃ w', runs 1 (do* RUser; p) w p w' ∧ winv w' ∧ holds (soloJ (Some m) T c L S) w' ∧ cur_frames (rest w') = [] ∧
    pageTable m ≠ None.
Proof.
  intros Hw HJ Hf Ho Ht. pose proof (traps_settled _ _ _ Ht) as Hset. destruct Ht as (b & m1 & E1 & E2).
  destruct (put_machine_side m (rest w)) as [Hs Hm].
  assert (E3 : request_do (O := devop) RUser w = Ok (tt, set_status SystemMode (set_rest (put_machine m (rest w)) w))).
  { cbn [request_do]. unfold user_turn, st_bind. rewrite E1. cbn [res_bind fst snd]. rewrite E2. done. }
  assert (Hq : req_ok (O := devop) w RUser) by (split; [done|congruence]).
  destruct (quiet_solo F M (Some m) T c L S RUser p w _ Hw HJ Hf Hq E3 eq_refl eq_refl Hs) as (R1 & Hw' & HJ').
  { intros ? [= <-]. change (rest (set_status _ _)) with (put_machine m (rest w)). by rewrite Hm. }
  eexists. split; [exact R1|]. split; [done|]. split; [done|]. split.
  - rewrite <- Hf. change (rest (set_status _ _)) with (put_machine m (rest w)). unfold put_machine.
    by destruct (pt_owner (set_machine _ m _)); [destruct (pageTable m)|].
  - pose proof (mi_owner _ (kI_m _ (ri_k _ (proj1 Hw')))) as Hown.
    change (rest (set_status _ _)) with (put_machine m (rest w)) in Hown. rewrite Hm in Hown.
    destruct Ho as [sp Ho]. replace (pt_owner (put_machine m (rest w))) with (Some sp) in Hown.
    + destruct Hown as (a & _ & -> & _). done.
    + unfold put_machine. cbn [set_machine pt_owner]. rewrite Ho. by destruct (pageTable m).
Qed.

(** The machine has a page table of some space. *)
Lemma soloJ_owner m w :
  winv w → holds (soloJ (Some m) T c L S) w → pageTable m ≠ None → is_Some (pt_owner (rest w)).
Proof.
  intros Hw HJ Ht. destruct (so_machine _ _ _ _ _ _ _ _ _ HJ m eq_refl) as [Em _].
  pose proof (mi_owner _ (kI_m _ (ri_k _ (proj1 Hw)))) as Hown. rewrite Em in Hown.
  destruct (pt_owner (rest w)); [eauto|done].
Qed.

Lemma return_solo {E R} M (p : prog devint Devs devop E R) w :
  winv w → holds (soloJ M T c L S) w → cur_frames (rest w) = [] →
  ∃ w', runs 1 (do* RReturn; p) w p w' ∧ winv w' ∧ holds (soloJ M T c L S) w' ∧ cur_frames (rest w') = [].
Proof.
  intros Hw HJ Hf. destruct (request_ok (DI := devs_wf) (irq := signalled) w RReturn Hw Hf I) as (w' & E1 & Hw' & _).
  exists w'. split; [by eapply runs_do|]. split; [done|].
  apply (tick_holds F M T c L S (set_status UserMode w) w'); try done.
  destruct (proj1 Hw) as [? [] ? ? ?]. by split.
Qed.
End Calls.

(** ** A whole call *)
Section Whole.
Context {View : Type} {du : Duty View} {laws : DutyLaws du}.
Context (F : list (Z * PendingInterrupt devint) → KState Devs → Prop) {frame : Frame du F}.
Abbreviation soloJ := (soloJ F).
Context (thread_int : tid → Z) (garbage : nat → Z) (junk : Z) (registers_garbage : list Z).

(** The case [type] of the switch does its work within [b] steps: what the duty looks at
    becomes [S'], and the machine is [m] and then [m'] with [P m']. *)
Definition call_works (type : Z) (m : Machine) (T c : Z) (S S' : View) (P : nat → Machine → Prop) : Prop :=
  ∀ (k : unit → prog devint Devs devop entry unit) w,
  winv w → holds (soloJ (Some m) T c 1 S) w → cur_frames (rest w) = [] →
  ∃ n w' T' m', P n m' ∧ runs n (bind (Syscall thread_int garbage junk registers_garbage type) k) w (k tt) w' ∧ winv w' ∧
    holds (soloJ (Some m') T' c 1 S') w' ∧ cur_frames (rest w') = [].

(** From the top of Machine::Run into the case [type] of the switch. *)
Lemma enter_solo type m T c S M w :
  winv w → holds (soloJ M T c 1 S) w → cur_frames (rest w) = [] → is_Some (pt_owner (rest w)) →
  traps (machine (rest w)) SyscallException m → registers m !! 2%nat = Some type →
  ∃ w', sys_run (body thread_int garbage junk registers_garbage) 5 (mkSys w {[main_thread := Goto ERun]}) =
      Ok (mkSys w' {[main_thread := call* _ := (call* _ := Syscall thread_int garbage junk registers_garbage type in
                                                On_machine UpdatePC Done) in do* RReturn; Goto ERun]}) ∧
    winv w' ∧ holds (soloJ (Some m) T c 1 S) w' ∧ cur_frames (rest w') = [] ∧ pageTable m ≠ None.
Proof.
  intros Hw HJ Hf Ho Ht H2. pose proof (solo_current F _ _ _ _ _ w Hw HJ) as Hcur.
  set (after := λ _ : unit, (do* RReturn; Goto ERun) : prog devint Devs devop entry unit).
  set (handler := bind (ExceptionHandler thread_int garbage junk registers_garbage SyscallException) after).
  assert (R0 : runs 1 (run_turn thread_int garbage junk registers_garbage) w (do* RUser; handler) w).
  { unfold run_turn. pose proof Ht as (b & m1 & E1 & _).
    match goal with |- runs 1 (Ask ?f) _ _ _ => pose proof (runs_ask F M T c 1 _ f w Hw HJ Hf) as R0 end.
    cbv beta in R0. rewrite E1 in R0. exact R0. }
  destruct (trap_solo F T c 1 S SyscallException m handler w M Hw HJ Hf Ho Ht) as (w1 & R1 & Hw1 & HJ1 & Hf1 & Hpt).
  pose proof (ReadRegister_get _ 2 type H2 ltac:(done)) as E2.
  assert (R2 : ∃ w2, runs 2 (ExceptionHandler thread_int garbage junk registers_garbage SyscallException) w1
      (bind (Syscall thread_int garbage junk registers_garbage type) (λ _, On_machine UpdatePC Done)) w2 ∧
    winv w2 ∧ holds (soloJ (Some m) T c 1 S) w2 ∧ cur_frames (rest w2) = []) by exact (ask_solo F T c 1 S m _ _ _ w1 Hw1 HJ1 Hf1 E2).
  destruct R2 as (w2 & R2 & Hw2 & HJ2 & Hf2). exists w2. split; [|done].
  rewrite <- !insert_empty, (sys_run_app _ 1 4 _ (mkSys w (<[main_thread := run_turn thread_int garbage junk registers_garbage]> ∅))).
  - apply runs_sys. apply (runs_trans 1 3 _ (do* RUser; handler) _ _ w); [exact R0|].
    apply (runs_trans 1 2 _ handler _ _ w1); [exact R1|]. exact (runs_bind after _ _ _ _ _ R2).
  - cbn [sys_run]. unfold sys_step. cbn [sys_world progs]. by rewrite Hf, Hcur, lookup_insert_eq, insert_insert_eq.
Qed.

Lemma call_solo type m T c S S' P M w :
  winv w → holds (soloJ M T c 1 S) w → cur_frames (rest w) = [] → is_Some (pt_owner (rest w)) →
  traps (machine (rest w)) SyscallException m → registers m !! 2%nat = Some type →
  call_works type m T c S S' P →
  ∃ n w' T' m', P n m' ∧
    sys_run (body thread_int garbage junk registers_garbage) (n + 8) (mkSys w {[main_thread := Goto ERun]}) =
      Ok (mkSys w' {[main_thread := Goto ERun]}) ∧
    winv w' ∧ holds (soloJ (Some (next_machine m')) T' c 1 S') w' ∧ cur_frames (rest w') = [] ∧ pageTable m ≠ None.
Proof.
  intros Hw HJ Hf Ho Ht H2 Hcall.
  destruct (enter_solo type m T c S M w Hw HJ Hf Ho Ht H2) as (w2 & E2 & Hw2 & HJ2 & Hf2 & Hpt).
  set (after := λ _ : unit, (do* RReturn; Goto ERun) : prog devint Devs devop entry unit).
  destruct (Hcall (λ _, On_machine UpdatePC Done) w2 Hw2 HJ2 Hf2) as (n & w3 & T3 & m3 & HP & R3 & Hw3 & HJ3 & Hf3).
  destruct (next_solo F T3 c 1 S' m3 (Done (E := entry)) w3 Hw3 HJ3 Hf3) as (w4 & R4 & Hw4 & HJ4 & Hf4).
  destruct (return_solo F T3 c 1 S' _ (Goto ERun : prog devint Devs devop entry unit) w4 Hw4 HJ4 Hf4) as (w5 & R5 & Hw5 & HJ5 & Hf5).
  exists n, w5, T3, m3. split; [done|]. split; [|done]. replace (n + 8)%nat with (5 + (n + 2 + 1))%nat by lia.
  rewrite (sys_run_app _ _ _ _ _ E2), <- !insert_empty. apply runs_sys.
  eapply runs_trans; [exact (runs_bind after _ _ _ _ _ (runs_trans _ _ _ _ _ _ _ _ R3 R4))|exact R5].
Qed.
End Whole.
