(* ===== verification/Booted.v ===== *)
(** * A machine to start from

    What is there once [new SynchConsole] has run in Initialize, and then once a user
    program has been put in place: from such a machine the calls of the program and the
    work of the kernel can be followed. *)
From S2P Require Import Prelude Words LinkedList BitMap SectorIO Interrupt Pending Disk Console Network Machine MipsSim.
From S2P Require Import Threads SchedInv AddrSpace Kernel KernelSteps Programs Devices Solo SynchConsole UserThread System SynchDisk.

(** ** The console made, [kb] typed or to be typed *)

Definition keyboard_devs (kb : list (Z * Z)) : Devs :=
  set_console false (mkConsole 0 1 false EOF) (mkTerminal kb false [] true) (devs0 (mkDisk mem_blank false 0 0)).
Definition nachos_typing (kb : list (Z * Z)) : nachos :=
  booted boot_sems (replicate 40 0) (mkMachine ∅ (replicate 40 0) None None 0 false 0) (keyboard_devs kb).

Record just_booted (kb : list (Z * Z)) (w : nachos) : Prop := {
  bo_pending : pending (interrupt w) ≡ₚ [(ConsoleTime, mkPending ConsoleReadPoll ConsoleTime ConsoleReadInt)];
  bo_yield : yieldOnReturn (interrupt w) = false;
  bo_dev : dev (rest w) = set_console true (mkConsole 0 1 false EOF) (mkTerminal kb false [] true) (keyboard_devs kb);
  bo_sems s : s ∈ [readAvail; writeDone; diskDone] → sems (rest w) !! s = Some (mkSemaphore 0 []);
  bo_locks s : s ∈ [m_readLock; m_writeLock; diskLock] → sems (rest w) !! s = Some (mkSemaphore 1 []);
  bo_alone t th : threads (rest w) !! t = Some th → t = main_thread;
  bo_halted : halted (rest w) = false;
  bo_spaces : spaces (rest w) = ∅;
}.

Lemma keyboard_devs_wf kb : devs_wf (keyboard_devs kb).
Proof. destruct (devs0_wf (mkDisk mem_blank false 0 0)); [|by split]. split; [exact mem_blank_ready|vm_compute; intuition discriminate]. Qed.

(** [new SynchConsole], and what comes after. *)
Lemma console_booted kb :
  ∃ w, winv w ∧ cur_frames (rest w) = [] ∧ just_booted kb w ∧
    ∀ (E R : Type) (k : unit → prog devint Devs devop E R),
      runs 3 (bind (new_SynchConsole None None) k) (nachos_typing kb) (k tt) w.
Proof.
  assert (Hw : winv (nachos_typing kb)) by (apply (nachos_winv false); [reflexivity|apply keyboard_devs_wf]).
  assert (Hf : cur_frames (rest (nachos_typing kb)) = []) by reflexivity.
  destruct (request_ok (DI := devs_wf) (irq := signalled) (nachos_typing kb) (RDev (ConsoleOpen None None)) Hw Hf)
    as (w1 & E1 & Hw1 & _); [eexists; reflexivity|].
  assert (E1' : run_acts [ASchedule ConsoleReadPoll ConsoleTime ConsoleReadInt]
    (set_rest (set_dev (set_console true (mkConsole 0 1 false EOF) (mkTerminal kb false [] true) (keyboard_devs kb))
      (rest (nachos_typing kb))) (nachos_typing kb)) = Ok (tt, w1)) by exact E1.
  destruct (run_acts_effect _ _ _ E1') as (Hp & Hy & Hr & _). cbn [set_rest interrupt rest] in Hp, Hy, Hr.
  assert (Hf1 : cur_frames (rest w1) = []) by by rewrite Hr.
  destruct (request_ok (DI := devs_wf) (irq := signalled) w1 (RSemaphore m_readLock 1) Hw1 Hf1)
    as (w2 & E2 & Hw2 & _); [cbn [req_ok]; rewrite Hr; split; [by vm_compute|done]|]. injection E2 as <-.
  destruct (request_ok (DI := devs_wf) (irq := signalled) _ (RSemaphore m_writeLock 1) Hw2 Hf1)
    as (w3 & E3 & Hw3 & _); [cbn [req_ok set_rest rest set_sems sems]; rewrite Hr; split; [by vm_compute|done]|]. injection E3 as <-.
  eexists. split; [exact Hw3|]. split; [exact Hf1|]. split.
  2:{ intros E R k. unfold new_SynchConsole. cbn [bind]. eapply runs_step; [apply goes_do; [done|done|exact E1]|].
    assert (Hc1 : currentThread (rest w1) = main_thread) by by rewrite Hr.
    eapply runs_step; [by apply goes_do|]. by apply runs_one, goes_do. }
  split; cbn [set_rest interrupt rest set_sems sems dev threads halted spaces]; rewrite ?Hr; try done.
  - intros s Hs. rewrite !elem_of_cons in Hs. destruct Hs as [-> |[-> |[-> |Hs] ] ]; [vm_compute; reflexivity..|by apply not_elem_of_nil in Hs].
  - intros s Hs. rewrite !elem_of_cons in Hs. destruct Hs as [-> |[-> |[-> |Hs] ] ]; [vm_compute; reflexivity..|by apply not_elem_of_nil in Hs].
  - intros t th Et. cbn in Et. by apply lookup_singleton_Some in Et as [<- _].
Qed.

(** Any duty can be taken up there. *)
Section Booted.
Context {View : Type} {du : Duty View} {laws : DutyLaws du}.

Lemma booted_duty kb T c S w :
  just_booted kb w → du_done ∈ [readAvail; writeDone; diskDone] → du_lock ∈ [m_readLock; m_writeLock; diskLock] →
  let d := set_console true (mkConsole 0 1 false EOF) (mkTerminal kb false [] true) (keyboard_devs kb) in
  (if du_busy d then 1 else 0) = c → du_view d = S →
  du_due T d (filter (λ e, handler e.2 = du_int) [(ConsoleTime, mkPending ConsoleReadPoll ConsoleTime ConsoleReadInt)]) →
  dutyJ T c 1 S (pending (interrupt w)) (rest w).
Proof.
  intros [] Hd Hl d Hc HS Hdue. split; rewrite ?bo_dev0; fold d.
  - eapply du_perm; [by rewrite bo_pending0|exact Hdue].
  - eexists. split; [by apply bo_sems0|done].
  - eexists. split; [by apply bo_locks0|done].
  - done.
Qed.

Lemma booted_solo kb F T c S w :
  just_booted kb w → dutyJ T c 1 S (pending (interrupt w)) (rest w) → F (pending (interrupt w)) (rest w) →
  holds (soloJ F None T c 1 S) w.
Proof.
  intros [] Hd HF. split; try done. rewrite bo_pending0. by repeat constructor.
Qed.
End Booted.

(** ** A user program in place: its space, its memory and its registers *)
Section Placed.
Context {View : Type} {du : Duty View} {laws : DutyLaws du}.
Context (F : list (Z * PendingInterrupt devint) → KState Devs → Prop) {frame : Frame du F} (T c L : Z) (S : View).

Lemma program_placed a mem r w0 :
  space_ok a → map_Forall (λ _ b, is_byte b) mem → regs_ok r → settled r →
  winv w0 → holds (soloJ F None T c L S) w0 → cur_frames (rest w0) = [] → spaces (rest w0) = ∅ →
  ∃ w, winv w ∧ holds (soloJ F None T c L S) w ∧ cur_frames (rest w) = [] ∧ is_Some (pt_owner (rest w)) ∧
    ∃ s t, machine (rest w) = mkMachine mem r None (Some (as_pageTable a)) (numPages a) s t.
Proof.
  intros Ha Hmem Hr Hs Hw HJ Hf Hsp.
  set (w1 := set_rest (set_spaces (<[1%positive := a]> (spaces (rest w0))) (rest w0)) w0).
  assert (Q1 : req_ok (O := devop) w0 (RSpace 1 a)) by (cbn [req_ok]; by rewrite Hsp).
  destruct (quiet_solo F (E := Empty_set) (R := unit) None None T c L S (RSpace 1 a) (Done tt) w0 w1 Hw HJ Hf Q1
    eq_refl eq_refl eq_refl) as (_ & Hw1 & HJ1); [by split|by intros ?|].
  assert (Ea : spaces (rest w1) !! 1%positive = Some a) by apply lookup_insert_eq.
  destruct (enter_space_ok w1 1%positive Hw1 Hf) as (w2 & E2 & _); [cbn [req_ok]; by rewrite Ea|].
  pose proof E2 as E2'. unfold enter_space, RestoreState in E2'.
  change (spaces (upd_thread _ _ (rest w1))) with (spaces (rest w1)) in E2'. rewrite Ea in E2'. injection E2' as <-.
  match type of E2 with _ = Ok (tt, ?w2') => set (w2 := w2') in * end.
  destruct (quiet_solo F (E := Empty_set) (R := unit) None None T c L S (REnter 1) (Done tt) w1 w2 Hw1 HJ1 Hf)
    as (_ & Hw2 & HJ2); [cbn [req_ok]; by rewrite Ea|exact E2|done|done| |by intros ?|].
  { apply (same_side_trans _ (upd_thread (λ th, mkThread (t_status th) (frames th) (Some 1%positive) (userRegisters th))
      (currentThread (rest w1)) (rest w1))); [apply same_side_upd|by split]. }
  assert (Hf2 : cur_frames (rest w2) = []) by (rewrite <- Hf;
    exact (cur_frames_upd (λ th, mkThread (t_status th) (frames th) (Some 1%positive) (userRegisters th))
      (currentThread (rest w1)) (rest w1) (λ _, eq_refl))).
  set (m := machine (rest w2)).
  destruct (on_machine_solo F (E := Empty_set) None None T c L S
    (λ m, Ok (tt, mkMachine mem r (tlb m) (pageTable m) (pageTableSize m) (singleStep m) (runUntilTime m))) tt
    (mkMachine mem r (tlb m) (pageTable m) (pageTableSize m) (singleStep m) (runUntilTime m)) Done w2 Hw2 HJ2 Hf2 eq_refl)
    as (w & _ & Hw' & HJ' & Hf' & Em); [|by intros ?|].
  { split; try done; [apply (mi_tlb _ (kI_m _ (ri_k _ (proj1 Hw2))))|]. exists (as_pageTable a). split_and!; [done..|apply Ha]. }
  exists w. do 3 (split; [done|]). split.
  - pose proof (mi_owner _ (kI_m _ (ri_k _ (proj1 Hw')))) as Ho. destruct (pt_owner (rest w)); [eauto|].
    rewrite Em in Ho. discriminate Ho.
  - exists (singleStep m), (runUntilTime m). rewrite Em. f_equal. apply (mi_tlb _ (kI_m _ (ri_k _ (proj1 Hw2)))).
Qed.
End Placed.
