(* ===== verification/Output.v ===== *)
(** * What the console shows (userprog/synchconsole.cc and the printing calls of exception.cc)

    On a machine with one thread and no timer a request to the synchronous console runs to
    its end: every character is written, its interrupt waited for, and the lock given back.
    It follows what SC_PutChar, SC_PutInt and SC_PutString put on the terminal, and where
    the user program goes on. *)
From S2P Require Import Prelude Words LinkedList BitMap SectorIO FileHdr OpenFile Directory.
From S2P Require Import Interrupt Pending Disk Console Network Machine MipsSim Threads SchedInv.
From S2P Require Import AddrSpace Kernel KernelSteps Programs Devices Solo SynchConsole UserThread System Exception SynchDisk Calls Booted.

(** ** The display as a duty *)

#[export] Instance console_duty : Duty (list Z * bool) := {
  du_int := ConsoleWriteDone;
  du_done := writeDone;
  du_lock := m_writeLock;
  du_busy d := putBusy (console d);
  du_view d := (display (terminal d), utf8 (terminal d));
  du_due T d l := l = due_at ConsoleWriteDone ConsoleWriteInt (putBusy (console d)) T;
  du_comes _ := True;
}.

#[export] Instance console_duty_laws : DutyLaws console_duty.
Proof.
  split; [by split; [|split; [|by intros []] ]|done|..]; cbn.
  - intros T d l l'. apply due_at_perm.
  - intros h d d' vs acts [_ _ _ Hb _ [Hd Hu] _] Hh. by rewrite Hb, Hd, Hu.
  - intros T e l t d d' vs acts Hd [= <- <- <-]. cbn. unfold due_at in *. destruct (putBusy (console d)); [|done].
    by injection Hd as _ ->.
  - intros T d l Hd Ha. destruct (due_at_awaited _ _ _ _ _ Hd Ha). done.
Qed.

(** One thread, in code of its own, the lock of the display free; [M] is the machine of the
    user program, if it is followed, and [F] what else is. *)
Definition console_ready (F : list (Z * PendingInterrupt devint) → KState Devs → Prop) (M : option Machine) (w : nachos) : Prop :=
  winv w ∧ cur_frames (rest w) = [] ∧ ∃ T S, holds (soloJ F M T 0 1 S) w.

Definition shown (w : nachos) : list Z := display (terminal (dev (rest w))).
Definition in_utf8 (w : nachos) : bool := utf8 (terminal (dev (rest w))).

Section Printing.
Context {E : Type} {R : Type}.
Context (F : list (Z * PendingInterrupt devint) → KState Devs → Prop) {frame : Frame console_duty F}.
Context (apart : ∀ ch, undisturbed F (ConsolePutChar ch)) (M : option Machine).
Abbreviation soloJ := (soloJ F).
Implicit Types (w : nachos) (p : prog devint Devs devop E R).

(** A character written. *)
Lemma put_char_solo T L s u ch p w :
  winv w → holds (soloJ M T 0 L (s, u)) w → cur_frames (rest w) = [] →
  ∃ n w' T', (n ≤ 107)%nat ∧ runs n (do* RDev (ConsolePutChar ch); do* RP writeDone; p) w p w' ∧ winv w' ∧
    holds (soloJ M T' 0 L (s ++ put_bytes u ch, u)) w' ∧ cur_frames (rest w') = [].
Proof.
  intros Hw HJ Hf. destruct (soloJ_idle F M _ _ _ _ Hw HJ) as (Hi & _). cbn in Hi.
  pose proof (soloJ_view _ _ _ _ _ _ _ _ _ HJ) as HS. cbn in HS. injection HS as HS Hu.
  pose proof (soloJ_due _ _ _ _ _ _ _ _ _ HJ) as Hd.
  set (c := console (dev (rest w))) in *. set (tm := terminal (dev (rest w))) in *.
  exact (request_solo F M T L (s, u) (s ++ put_bytes u ch, u) (ConsolePutChar ch)
    (set_console (stdin_busy (dev (rest w))) (set_putBusy true c) (WriteFile (put_bytes (utf8 tm) ch) tm) (dev (rest w)))
    [ASchedule ConsoleWriteDone ConsoleTime ConsoleWriteInt] ConsoleTime 100 p w Hw HJ Hf
    ltac:(cbn [dev_op nachos_devices]; unfold PutChar; fold c tm; by rewrite Hi) ltac:(by repeat constructor)
    ltac:(cbn in Hd |- *; fold c in Hd |- *; rewrite Hi in Hd; by rewrite Hd) eq_refl ltac:(cbn; by rewrite HS, Hu) I (apart ch) ltac:(done)).
Qed.

(** A string up to its NUL. *)
Lemma put_string_solo T s u l junk (k : unit → prog devint Devs devop E R) w :
  winv w → holds (soloJ M T 0 0 (s, u)) w → cur_frames (rest w) = [] → Forall (λ b, b ≠ 0) l →
  ∃ n w' T', (n ≤ 107 * length l)%nat ∧ runs n (bind (put_string (l ++ 0 :: junk)) k) w (k tt) w' ∧ winv w' ∧
    holds (soloJ M T' 0 0 (s ++ (l ≫= λ b, put_bytes u (int8 b)), u)) w' ∧ cur_frames (rest w') = [].
Proof.
  intros Hw HJ Hf Hl. revert T s w Hw HJ Hf. induction Hl as [|b l Hb Hl IH]; intros T s w Hw HJ Hf.
  - exists 0%nat, w, T. cbn [app put_string Z.eqb bind mbind list_bind]. rewrite app_nil_r.
    split; [done|]. split; [apply runs_refl|done].
  - cbn [app put_string]. rewrite (proj2 (Z.eqb_neq _ _) Hb). cbn [bind].
    destruct (put_char_solo T 0 s u (int8 b) (bind (put_string (l ++ 0 :: junk)) k) w Hw HJ Hf)
      as (n1 & w1 & T1 & Hn1 & R1 & Hw1 & HJ1 & Hf1).
    destruct (IH T1 _ w1 Hw1 HJ1 Hf1) as (n2 & w2 & T2 & Hn2 & R2 & Hw2 & HJ2 & Hf2).
    exists (n1 + n2)%nat, w2, T2. split; [cbn [length]; lia|]. split; [by eapply runs_trans|]. split; [done|].
    cbn [mbind list_bind] in *. by rewrite <- app_assoc in HJ2.
Qed.

Lemma put_string_bind {A B} l (f : unit → prog devint Devs devop E A) (k : A → prog devint Devs devop E B) :
  bind (bind (put_string l) f) k = bind (put_string l) (λ x, bind (f x) k).
Proof. induction l as [|b l IH]; [done|]. cbn [put_string]. destruct (b =? 0); [done|]. cbn [bind]. by rewrite IH. Qed.

(** SynchPutChar and SynchPutString, and the rest of the program. *)
Lemma SynchPutChar_solo T s u ch (k : unit → prog devint Devs devop E R) w :
  winv w → holds (soloJ M T 0 1 (s, u)) w → cur_frames (rest w) = [] →
  ∃ n w' T', (n ≤ 110)%nat ∧ runs n (bind (SynchPutChar ch) k) w (k tt) w' ∧ winv w' ∧
    holds (soloJ M T' 0 1 (s ++ put_bytes u ch, u)) w' ∧ cur_frames (rest w') = [].
Proof.
  intros Hw HJ Hf. unfold SynchPutChar. cbn [bind].
  destruct (lock_solo F M T 0 (s, u) (do* RDev (ConsolePutChar ch); do* RP writeDone; do* RV m_writeLock; k tt) w Hw HJ Hf)
    as (w1 & R1 & Hw1 & HJ1 & Hf1).
  destruct (put_char_solo T 0 s u ch (do* RV m_writeLock; k tt) w1 Hw1 HJ1 Hf1)
    as (n2 & w2 & T2 & Hn2 & R2 & Hw2 & HJ2 & Hf2).
  destruct (unlock_solo F M T2 0 _ (k tt) w2 Hw2 HJ2 Hf2) as (w3 & R3 & Hw3 & HJ3 & Hf3).
  exists (2 + (n2 + 1))%nat, w3, T2. split; [lia|]. split; [|done].
  eapply runs_trans; [exact R1|]. by eapply runs_trans.
Qed.

Lemma SynchPutString_solo T s u l junk (k : unit → prog devint Devs devop E R) w :
  winv w → holds (soloJ M T 0 1 (s, u)) w → cur_frames (rest w) = [] → Forall (λ b, b ≠ 0) l →
  ∃ n w' T', (n ≤ 107 * length l + 3)%nat ∧ runs n (bind (SynchPutString (l ++ 0 :: junk)) k) w (k tt) w' ∧ winv w' ∧
    holds (soloJ M T' 0 1 (s ++ (l ≫= λ b, put_bytes u (int8 b)), u)) w' ∧ cur_frames (rest w') = [].
Proof.
  intros Hw HJ Hf Hl. unfold SynchPutString. cbn [bind].
  destruct (lock_solo F M T 0 (s, u) (bind (bind (put_string (l ++ 0 :: junk)) (λ _, do* RV m_writeLock; Done tt)) k) w Hw HJ Hf)
    as (w1 & R1 & Hw1 & HJ1 & Hf1). rewrite put_string_bind in R1 at 2.
  destruct (put_string_solo T s u l junk (λ _, do* RV m_writeLock; k tt) w1 Hw1 HJ1 Hf1 Hl)
    as (n2 & w2 & T2 & Hn2 & R2 & Hw2 & HJ2 & Hf2).
  destruct (unlock_solo F M T2 0 _ (k tt) w2 Hw2 HJ2 Hf2) as (w3 & R3 & Hw3 & HJ3 & Hf3).
  exists (2 + (n2 + 1))%nat, w3, T2. split; [lia|]. split; [|done].
  eapply runs_trans; [exact R1|]. by eapply runs_trans.
Qed.
End Printing.

(** A [char] of a string is written as it is. *)
Lemma put_bytes_char u b : put_bytes u (int8 b) = [uint8 b].
Proof.
  unfold put_bytes. assert (int8 b < 0x80) by (unfold int8; pose proof (Z.mod_pos_bound (b + 128) 256); lia).
  rewrite (proj2 (Z.ltb_lt _ _)) by done. cbn [orb]. f_equal. unfold int8, uint8.
  rewrite Zminus_mod_idemp_l. f_equal. lia.
Qed.

Lemma put_bytes_chars u l : (l ≫= λ b, put_bytes u (int8 b)) = uint8 <$> l.
Proof. induction l as [|b l IH]; [done|]. cbn [mbind list_bind fmap list_fmap] in *. by rewrite put_bytes_char, IH. Qed.

(** ** The calls that print *)

(** A string of the user program at the address [from], in readable pages. *)
Record user_string (m : Machine) (from : Z) (s : list Z) : Prop := {
  us_bytes i b : (s ++ [0]) !! i = Some b → readable m (from + Z.of_nat i) b;
  us_chars : Forall (λ b, is_byte b ∧ b ≠ 0) s;
  us_from : is_int32 from ∧ is_int32 (from + Z.of_nat (length s));
  us_len : Z.of_nat (length s) ≤ MemorySize;
}.

Lemma readable_owner k from s :
  minv (D := Devs) k → (∀ i b, (s ++ [0]) !! i = Some b → readable (machine k) (from + Z.of_nat i) b) →
  is_Some (pt_owner k).
Proof.
  intros Hm Hs. destruct (lookup_lt_is_Some_2 (s ++ [0]) 0) as [b Hb]; [rewrite length_app; cbn; lia|].
  destruct (Hs 0%nat b Hb) as (t & e & _ & Ept & _). pose proof (mi_owner _ Hm) as Ho.
  destruct (pt_owner k); [eauto|congruence].
Qed.

Section Calls.
Context (thread_int : tid → Z) (garbage : nat → Z) (junk : Z) (registers_garbage : list Z).
Context (F : list (Z * PendingInterrupt devint) → KState Devs → Prop) {frame : Frame console_duty F}.
Context (apart : ∀ ch, undisturbed F (ConsolePutChar ch)).
Abbreviation soloJ := (soloJ F).

(** What a call of type [type] with [v] in register 4 puts on the display. A string is
    followed by the byte the kernel's array happened to hold after it. *)
Inductive prints (m : Machine) (u : bool) : Z → Z → list Z → Prop :=
  | prints_char ch : prints m u SC_PutChar ch (put_bytes u ch)
  | prints_int v l : print_int MAX_STRING_SIZE v = l ++ [0] → prints m u SC_PutInt v l
  | prints_string from s :
      user_string m from s → length s ≠ 14%nat →
      prints m u SC_PutString from (s ++ let c := uint8 (garbage (length s)) in if c =? 0 then [] else [c]).

Lemma c_string_split a l : c_string a = Ok l → Forall (λ b, b ≠ 0) l ∧ ∃ t, a = l ++ 0 :: t.
Proof.
  revert l. induction a as [|c a IH]; intros l E; cbn [c_string] in E; [done|].
  destruct (Z.eqb_spec c 0) as [->|Hc]; [injection E as <-; split; [done|by exists a]|].
  apply res_bind_Ok_inv in E as (s & Es & [= <-]). destruct (IH s Es) as [Hs [t ->]].
  split; [by constructor|by exists t].
Qed.

Lemma print_int_printable size v l : print_int size v = l ++ [0] → Forall (λ b, 0 < b < 256) l.
Proof.
  unfold print_int. intros [El _]%app_inj_tail. subst l. apply Forall_take.
  eapply Forall_impl; [apply dec_printable|]. cbn beta. lia.
Qed.

Lemma uint8_chars l : Forall is_byte l → uint8 <$> l = l.
Proof. induction 1 as [|b l Hb _ IH]; [done|]. cbn. rewrite IH. f_equal. by apply Z.mod_small. Qed.

(** The case of the switch. *)
Lemma Syscall_prints T s u type v out m :
  registers m !! 4%nat = Some v → prints m u type v out →
  call_works F thread_int garbage junk registers_garbage type m T 0 (s, u) (s ++ out, u)
    (λ n m', (n ≤ 107 * length out + 112)%nat ∧ same_memory m m' ∧ registers m' = registers m).
Proof.
  intros Hv Hp k w Hw HJ Hf. pose proof (ReadRegister_get _ 4 v Hv ltac:(done)) as E4.
  destruct Hp as [ch|v l Hl|from str Hus H14].
  - destruct (ask_solo F T 0 1 (s, u) m (ReadRegister 4) ch (SynchPutChar (E := entry)) w Hw HJ Hf E4) as (w1 & R1 & Hw1 & HJ1 & Hf1).
    destruct (SynchPutChar_solo F apart (Some m) T s u ch k w1 Hw1 HJ1 Hf1) as (n & w2 & T2 & Hn & R2 & Hw2 & HJ2 & Hf2).
    exists (2 + n)%nat, w2, T2, m. split; [split; [lia|by split; [apply same_memory_refl|] ]|].
    split; [exact (runs_trans _ _ _ _ _ _ _ _ (runs_bind k _ _ _ _ _ R1) R2)|done].
  - destruct (ask_solo F T 0 1 (s, u) m (ReadRegister 4) v (λ val, SynchPutString (E := entry) (print_int MAX_STRING_SIZE val)) w Hw HJ Hf E4)
      as (w1 & R1 & Hw1 & HJ1 & Hf1). pose proof (print_int_printable _ _ _ Hl) as Hpr.
    destruct (SynchPutString_solo F apart (Some m) T s u l [] k w1 Hw1 HJ1 Hf1) as (n & w2 & T2 & Hn & R2 & Hw2 & HJ2 & Hf2).
    { eapply Forall_impl; [exact Hpr|]. cbn beta. lia. }
    rewrite put_bytes_chars, uint8_chars in HJ2 by (eapply Forall_impl; [exact Hpr|]; unfold is_byte; cbn beta; lia).
    exists (2 + n)%nat, w2, T2, m. split; [split; [lia|by split; [apply same_memory_refl|] ]|].
    split; [rewrite <- Hl in R2; exact (runs_trans _ _ _ _ _ _ _ _ (runs_bind k _ _ _ _ _ R1) R2)|done].
  - destruct (so_machine _ _ _ _ _ _ _ _ _ HJ m eq_refl) as [Em Hset]. pose proof (kI_m _ (ri_k _ (proj1 Hw))) as Hm.
    destruct Hus as [Hbytes Hchars [Hi Hi'] Hlen].
    pose proof (copyStringFromMachine_ok garbage str from m Hbytes Hchars Hi Hi' Hlen) as Hcopy.
    rewrite bool_decide_false in Hcopy by done. destruct Hcopy as (to & m' & Ecopy & Hto).
    set (out := str ++ (let c := uint8 (garbage (length str)) in if c =? 0 then [] else [c])) in *.
    destruct (c_string_split _ _ Hto) as [Hnz [t ->] ].
    assert (Hout : Forall is_byte out).
    { unfold out. apply Forall_app. split; [eapply Forall_impl; [exact Hchars|]; by intros ? [? _]|].
      cbv zeta. destruct (uint8 _ =? 0); [done|]. repeat constructor; apply uint8_range. }
    rewrite <- Em in Hbytes, Ecopy, E4. destruct (readable_owner (rest w) from str Hm Hbytes) as [sp Hsp].
    pose proof (minv_machine_wf _ sp Hm Hsp) as Hwf.
    destruct (copyStringFromMachine_evolves garbage from MAX_STRING_SIZE _ _ _ Hwf Ecopy) as (Hev & Hregs & Hmem).
    pose proof (evolves_kept _ sp m' Hm Hsp (ev_wf _ _ Hev Hwf) Hev) as Hk.
    assert (Eop : (let* reg := ReadRegister 4 in copyStringFromMachine garbage reg MAX_STRING_SIZE) (machine (rest w))
      = Ok ((Z.of_nat (length str) + 1, out ++ 0 :: t), m')) by (by st_step E4).
    destruct (on_machine_solo F (Some m) (Some m') T 0 1 (s, u) _ _ m' (λ st, SynchPutString (E := entry) st.2) w Hw HJ Hf Eop Hk)
      as (w1 & R1 & Hw1 & HJ1 & Hf1 & _); [intros ? [= <-]; split; [done|congruence]|].
    destruct (SynchPutString_solo F apart (Some m') T s u out t k w1 Hw1 HJ1 Hf1 Hnz) as (n & w2 & T2 & Hn & R2 & Hw2 & HJ2 & Hf2).
    rewrite put_bytes_chars, (uint8_chars _ Hout) in HJ2.
    exists (2 + n)%nat, w2, T2, m'. split; [split; [lia|split; [|congruence] ]|].
    + rewrite Em in Hev, Hmem. by split.
    + split; [exact (runs_trans _ _ _ _ _ _ _ _ (runs_bind k _ _ _ _ _ R1) R2)|done].
Qed.
End Calls.

(** A call that prints, from its instruction to the next. *)
Lemma print_call (F : list (Z * PendingInterrupt devint) → KState Devs → Prop) {frame : Frame console_duty F}
    (thread_int : tid → Z) (garbage : nat → Z) (junk : Z) (registers_garbage : list Z)
    (type v : Z) (out : list Z) (M : option Machine) (m : Machine) (w : nachos) :
  (∀ ch, undisturbed F (ConsolePutChar ch)) →
  console_ready F M w → is_Some (pt_owner (rest w)) →
  traps (machine (rest w)) SyscallException m →
  registers m !! 2%nat = Some type → registers m !! 4%nat = Some v → prints garbage m (in_utf8 w) type v out →
  ∃ n w' m', (n ≤ 107 * length out + 120)%nat ∧
    sys_run (body thread_int garbage junk registers_garbage) n (mkSys w {[main_thread := Goto ERun]}) =
      Ok (mkSys w' {[main_thread := Goto ERun]}) ∧
    console_ready F (Some m') w' ∧ is_Some (pt_owner (rest w')) ∧
    registers m' = next_pc (registers m) ∧ same_memory m m' ∧
    shown w' = shown w ++ out ∧ in_utf8 w' = in_utf8 w.
Proof.
  intros apart (Hw & Hf & T & S & HJ) Ho Ht H2 H4 Hp. pose proof (soloJ_view _ _ _ _ _ _ _ _ _ HJ) as HS. cbn in HS. subst S.
  pose proof (Syscall_prints thread_int garbage junk registers_garbage F apart
    T (shown w) (in_utf8 w) type v out m H4 Hp) as Hcall.
  destruct (call_solo F thread_int garbage junk registers_garbage type m T 0 _ _ _ M w Hw HJ Hf Ho Ht H2 Hcall)
    as (n & w' & T' & m' & (Hn & Hsm & Hr) & E & Hw' & HJ' & Hf' & Hpt).
  pose proof (soloJ_view _ _ _ _ _ _ _ _ _ HJ') as HS'. cbn in HS'. injection HS' as Hs Hu.
  exists (n + 8)%nat, w', (next_machine m'). split; [lia|]. split; [exact E|]. split; [split; [done|split; [done|eauto] ]|].
  split; [by apply (soloJ_owner _ _ _ _ _ _ _ Hw' HJ'), (same_memory_table m m')|]. split; [cbn; by rewrite Hr|]. split; [|done]. apply (same_memory_trans m m'); [done|].
  pose proof (soloJ_registers _ _ _ _ _ _ _ Hw' HJ') as Hro. split; try done. by apply (same_memory_registers m').
Qed.

(** C12. What a system call that prints does, from the instruction of the user program to
    the next. A program runs alone under Machine::Run; the lock of the display is free; the
    next instruction is SYSCALL, and the handler finds the number of the call in register
    2 and its argument in register 4. Within 107 steps for each character and 120 more the
    program is back at the top of Machine::Run, at the instruction after, with its memory
    and the other registers as the handler found them, and the display shows one thing
    more: the character of SC_PutChar, the digits of SC_PutInt, the bytes of the string of
    SC_PutString and the stray byte that follows them in the kernel's array. The lock is
    free again, no interrupt of the display is outstanding, and the kernel's invariant
    holds, so that the next call can be followed. All this whatever else [F] is known of the
    other devices, as long as writing a character does not disturb it. *)
Theorem printing_calls (F : list (Z * PendingInterrupt devint) → KState Devs → Prop) {frame : Frame console_duty F}
    (thread_int : tid → Z) (garbage : nat → Z) (junk : Z) (registers_garbage : list Z)
    (type v : Z) (out : list Z) (M : option Machine) (m : Machine) (w : nachos) :
  (∀ ch, undisturbed F (ConsolePutChar ch)) →
  console_ready F M w → is_Some (pt_owner (rest w)) →
  traps (machine (rest w)) SyscallException m →
  registers m !! 2%nat = Some type → registers m !! 4%nat = Some v → prints garbage m (in_utf8 w) type v out →
  ∃ n w' m', (n ≤ 107 * length out + 120)%nat ∧
    sys_run (body thread_int garbage junk registers_garbage) n (mkSys w {[main_thread := Goto ERun]}) =
      Ok (mkSys w' {[main_thread := Goto ERun]}) ∧
    console_ready F (Some m') w' ∧ is_Some (pt_owner (rest w')) ∧
    registers m' = next_pc (registers m) ∧ same_memory m m' ∧
    shown w' = shown w ++ out ∧ in_utf8 w' = in_utf8 w.
Proof. by apply print_call. Qed.

(** A program in place on a machine whose console has just been made. *)
Lemma program_booted a mem r :
  space_ok a → map_Forall (λ _ b, is_byte b) mem → regs_ok r → settled r →
  ∃ w, console_ready nothing_else None w ∧ is_Some (pt_owner (rest w)) ∧ shown w = [] ∧ in_utf8 w = true ∧
    ∃ s t, machine (rest w) = mkMachine mem r None (Some (as_pageTable a)) (numPages a) s t.
Proof.
  intros Ha Hmem Hr Hs. destruct (console_booted []) as (w0 & Hw & Hf & Hb & _).
  assert (HJ : holds (soloJ nothing_else None 0 0 1 ([], true)) w0).
  { apply (booted_solo [] _ _ _ _ w0 Hb); [|done]. apply (booted_duty [] 0 0 ([], true) w0 Hb); done || set_solver. }
  destruct (program_placed nothing_else 0 0 1 ([], true) a mem r w0 Ha Hmem Hr Hs Hw HJ Hf (bo_spaces _ _ Hb))
    as (w & Hw' & HJ' & Hf' & Ho & s & t & Em).
  pose proof (soloJ_view _ _ _ _ _ _ _ _ _ HJ') as HS. cbn in HS. injection HS as H1 H2.
  exists w. split; [split; [done|split; [done|eauto] ]|]. do 3 (split; [done|]). eauto.
Qed.

(** SC_PutInt of -7: a SYSCALL at address 100 of a program of one page. *)
Definition putint_space : AddrSpace := mkAddrSpace [mkTranslation 0 0 true false true false] 1.
Definition putint_memory : gmap Z Z := {[100 := 12]}.
Definition putint_regs : list Z :=
  <[2%nat := SC_PutInt]> (<[4%nat := -7]> (<[34%nat := 100]> (<[35%nat := 104]> (replicate 40 0)))).

Lemma printing_calls_witness :
  ∃ n w w', console_ready nothing_else None w ∧ shown w = [] ∧ mainMemory (machine (rest w)) !! 100 = Some 12 ∧
    sys_run (body (λ t, Zpos t) (λ _, 33) 5 (replicate 40 0)) n (mkSys w {[main_thread := Goto ERun]}) =
      Ok (mkSys w' {[main_thread := Goto ERun]}) ∧
    shown w' = [45; 55] ∧ registers (machine (rest w')) !! 34%nat = Some 104.
Proof.
  destruct (program_booted putint_space putint_memory putint_regs) as (w & Hw & Ho & H1 & H2 & s & t & Em).
  - split; [reflexivity|]. by repeat constructor.
  - by apply map_Forall_singleton.
  - split; [reflexivity|]. split; [|exists 0; by split]. repeat constructor; done.
  - done.
  - set (m := mkMachine putint_memory putint_regs None (Some (as_pageTable putint_space)) 1 s t).
    destruct (printing_calls nothing_else (λ t, Zpos t) (λ _, 33) 5 (replicate 40 0) SC_PutInt (-7) [45; 55] None m w
      (λ _ _ _ _ _ _ _ _, I) Hw Ho)
      as (n & w' & m' & _ & E & Hw' & _ & Hr & _ & Hs & _); [|reflexivity|reflexivity|apply prints_int; reflexivity|].
    { rewrite Em. exists 0, m. split; vm_compute; reflexivity. }
    exists n, w, w'. do 2 (split; [done|]). split; [by rewrite Em|]. split; [exact E|]. split; [by rewrite Hs, H1|].
    destruct Hw' as (_ & _ & T & S & HJ). destruct (so_machine _ _ _ _ _ _ _ _ _ HJ _ eq_refl) as [-> _]. by rewrite Hr.
Defined.
