(* ===== verification/Input.v ===== *)
(** * What is typed at the console (userprog/synchconsole.cc, the reading calls of
    exception.cc)

    The poll of the keyboard runs for ever; what has been typed is in the console's buffer
    or still with the host. On a machine with one thread and no timer, reading takes the
    characters in the order they were typed: the lock is taken, the semaphore waited for,
    whether the character has come or not, and the buffer emptied for the next. A number that
    one program has shown is the one another reads. *)
From S2P Require Import Prelude Words Text LinkedList BitMap SectorIO FileHdr OpenFile Directory.
From S2P Require Import Interrupt Pending Disk Console Network Machine MipsSim Threads SchedInv.
From S2P Require Import AddrSpace Kernel KernelSteps Programs Devices Solo SynchConsole UserThread System Exception.
From S2P Require Import SynchDisk Calls Booted Output.

(** ** The keyboard as a duty *)

(** What will be read: the buffer, then what the host has. *)
Definition to_read (d : Devs) : list Z :=
  (if incoming (console d) =? EOF then [] else [incoming (console d)]) ++
  default [] (typed (utf8 (terminal d)) (keyboard (terminal d)).*2).

(** The console polls; it has been given Latin-1 only and no end of file. By [T] what comes
    next has been typed and found. *)
Definition polling (T : Z) (d : Devs) (l : list (Z * PendingInterrupt devint)) : Prop :=
  readFileNo (console d) ≠ -1 ∧ closed (terminal d) = false ∧
  is_Some (typed (utf8 (terminal d)) (keyboard (terminal d)).*2) ∧
  ∃ e, l = [e] ∧
    (incoming (console d) = EOF →
     ∀ t b kb, keyboard (terminal d) = (t, b) :: kb → e.1 ≤ T ∧ t + ConsoleTime ≤ T).

#[export] Instance keyboard_duty : Duty (list Z) := {
  du_int := ConsoleReadPoll;
  du_done := readAvail;
  du_lock := m_readLock;
  du_busy d := incoming (console d) =? EOF;
  du_view := to_read;
  du_due := polling;
  du_comes s := s ≠ [];
}.

Lemma polling_fire T e l t d d' vs acts :
  polling T d (e :: l) → fire ConsoleReadPoll t d = Ok (d', vs, acts) →
  vs = (if (incoming (console d) =? EOF) && negb (incoming (console d') =? EOF) then [readAvail] else []) ∧
  ((incoming (console d) =? EOF) = false → (incoming (console d') =? EOF) = false) ∧
  to_read d' = to_read d ∧ polling T d' (news t acts ++ l).
Proof.
  intros (Hr & Hc & [s Hs] & e' & [= <- ->] & Ht) E. cbn [fire nachos_devices] in E.
  destruct (Z.eqb_spec (incoming (console d)) EOF) as [Hi|Hi].
  - pose proof (CheckCharAvail_typed ConsoleReadPoll t (console d) (terminal d) s Hr Hi Hc Hs) as Hp.
    destruct (PollFile t (terminal d)) eqn:Hpoll.
    + destruct Hp as (ch & s' & tm' & -> & Hch & Hs' & Hc' & Ep). rewrite Ep in E. injection E as <- <- <-.
      cbn [console terminal set_console set_incoming incoming]. unfold to_read, polling.
      cbn [console terminal set_console set_incoming incoming readFileNo].
      rewrite Hi, Hs, Hs', (proj2 (Z.eqb_neq ch EOF)) by (unfold EOF; lia). do 3 (split; [done|]).
      do 2 (split; [done|]). split; [eauto|]. eexists. split; [reflexivity|]. unfold EOF. lia.
    + rewrite Hp in E. injection E as <- <- <-. cbn [console terminal set_console]. unfold to_read, polling.
      cbn [console terminal set_console]. rewrite Hi. do 3 (split; [done|]).
      do 2 (split; [done|]). split; [eauto|]. eexists. split; [reflexivity|]. intros _ t0 b kb Hk.
      destruct (Ht Hi t0 b kb Hk) as [H1 H2]. split; [|done]. unfold PollFile in Hpoll. rewrite Hk in Hpoll.
      apply Z.leb_gt in Hpoll. cbn. lia.
  - assert (Ep : CheckCharAvail ConsoleReadPoll t (console d) (terminal d) =
      (console d, terminal d, false, [ASchedule ConsoleReadPoll ConsoleTime ConsoleReadInt])).
    { unfold CheckCharAvail. by rewrite (proj2 (Z.eqb_neq _ _) Hr), (proj2 (Z.eqb_neq _ _) Hi). }
    rewrite Ep in E. injection E as <- <- <-. unfold to_read, polling. cbn [console terminal set_console].
    rewrite (proj2 (Z.eqb_neq _ _) Hi). do 3 (split; [done|]). do 2 (split; [done|]). split; [eauto|].
    eexists. split; [reflexivity|]. by intros ?.
Qed.

#[export] Instance keyboard_duty_laws : DutyLaws keyboard_duty.
Proof.
  split; [by split; [|split; [|by intros []] ]|done|..]; cbn.
  - intros T d l l' Hp (Hr & Hc & Hs & e & -> & Ht). do 3 (split; [done|]). exists e. split; [|done].
    symmetry in Hp. by apply Permutation_singleton_r in Hp.
  - intros h d d' vs acts [_ _ _ _ Hk [_ Hu] _] Hh. specialize (Hk Hh). unfold keyboard_side in Hk.
    injection Hk as H1 H2 H3 H4. unfold to_read, polling. by rewrite H1, H2, H3, H4, Hu.
  - intros T e l t d d' vs acts. apply polling_fire.
  - intros T d l (Hr & Hc & [s Hs] & e & -> & Ht) Hi%Z.eqb_eq. split; [done|]. intros HS. constructor.
    unfold to_read in HS. rewrite Hi, Hs in HS. cbn in HS.
    destruct (keyboard (terminal d)) as [|[t b] kb] eqn:Hk; [cbn in Hs; by injection Hs as <-|].
    by apply (Ht Hi t b kb).
Qed.

(** ** Reading *)
Section Reading.
Context {E : Type}.
Context (F : list (Z * PendingInterrupt devint) → KState Devs → Prop) {frame : Frame keyboard_duty F}.
Context (apart : undisturbed F ConsoleGetChar) (M : option Machine).
Abbreviation soloJ := (soloJ F).
Implicit Types (w : nachos).

(** The buffer emptied: the poll goes on for the character after. *)
Lemma polling_taken T d l :
  polling T d l → ∃ T', polling T' (set_console (stdin_busy d) (set_incoming EOF (console d)) (terminal d) d) l.
Proof.
  intros (Hr & Hc & Hs & e & -> & _).
  exists (match keyboard (terminal d) with (t, _) :: _ => Z.max e.1 (t + ConsoleTime) | [] => 0 end).
  do 3 (split; [done|]). exists e. split; [done|]. intros _ t b kb Hk. cbn in Hk. rewrite Hk. lia.
Qed.

(** A character, whatever becomes of the lock. *)
Lemma take_char_solo {R} T L ch s (k : Z → prog devint Devs devop E R) w :
  winv w → holds (soloJ M T 1 L (ch :: s)) w → cur_frames (rest w) = [] →
  ∃ n w' T', runs n (do* RP readAvail; take_char k) w (k ch) w' ∧ winv w' ∧
    holds (soloJ M T' 1 L s) w' ∧ cur_frames (rest w') = [].
Proof.
  intros Hw HJ Hf.
  destruct (done_solo F M T L (ch :: s) (Z.to_nat (T - now w)) (take_char k) w) as (n & w1 & _ & R1 & Hw1 & HJ1 & Hf1);
    [done|done|done|done|lia|].
  destruct (soloJ_idle F M _ _ _ _ Hw1 HJ1) as (Hi & _). cbn [du_busy keyboard_duty] in Hi.
  pose proof (soloJ_view _ _ _ _ _ _ _ _ _ HJ1) as HS. cbn [du_view keyboard_duty] in HS. unfold to_read in HS.
  rewrite Hi in HS. injection HS as Hch Hs.
  pose proof (soloJ_due _ _ _ _ _ _ _ _ _ HJ1) as Hd. cbn [du_due keyboard_duty] in Hd.
  destruct (polling_taken _ _ _ Hd) as [T' Hd'].
  destruct (device_solo F M T T' L (ch :: s) s ConsoleGetChar _ [] (k ch) w1 Hw1 HJ1 Hf1 eq_refl)
    as (w2 & R2 & Hw2 & HJ2 & Hf2 & _); [done|exact Hd'|done|exact Hs|exact apart|].
  exists (n + (1 + 1))%nat, w2, T'. split; [|done]. eapply runs_trans; [exact R1|]. eapply runs_trans; [|exact R2].
  pose proof (runs_ask F M T 0 L (ch :: s) (λ w, let c := (GetChar (console (dev (rest w)))).1 in do* RDev ConsoleGetChar; k c)
    w1 Hw1 HJ1 Hf1) as R3. cbv beta zeta in R3. cbn [GetChar fst] in R3. rewrite Hch in R3. exact R3.
Qed.

(** SynchGetChar, and the rest of the program. *)
Lemma SynchGetChar_solo {R} T ch s (k : Z → prog devint Devs devop E R) w :
  winv w → holds (soloJ M T 1 1 (ch :: s)) w → cur_frames (rest w) = [] →
  ∃ n w' T', runs n (bind SynchGetChar k) w (k ch) w' ∧ winv w' ∧ holds (soloJ M T' 1 1 s) w' ∧ cur_frames (rest w') = [].
Proof.
  intros Hw HJ Hf. unfold SynchGetChar. cbn [bind].
  set (after := λ c, do* RV m_readLock; k c).
  destruct (lock_solo F M T 1 (ch :: s) (do* RP readAvail; take_char after) w Hw HJ Hf) as (w1 & R1 & Hw1 & HJ1 & Hf1).
  destruct (take_char_solo T 0 ch s after w1 Hw1 HJ1 Hf1) as (n & w2 & T2 & R2 & Hw2 & HJ2 & Hf2).
  destruct (unlock_solo F M T2 1 s (k ch) w2 Hw2 HJ2 Hf2) as (w3 & R3 & Hw3 & HJ3 & Hf3).
  exists (2 + (n + 1))%nat, w3, T2. split; [|done]. eapply runs_trans; [exact R1|]. by eapply runs_trans.
Qed.

(** What SynchGetString takes of [s], [n] characters at most: up to a newline. *)
Fixpoint line (n : nat) (s : list Z) : option (list Z * list Z) :=
  match n, s with
  | 0%nat, _ => Some ([], s)
  | S n, c :: s =>
      if int8 c =? 10 then Some ([uint8 c], s)
      else option_map (λ r, (uint8 c :: r.1, r.2)) (line n s)
  | S _, [] => None
  end.

Lemma get_string_solo n T s l s' w :
  winv w → holds (soloJ M T 1 0 s) w → cur_frames (rest w) = [] → line n s = Some (l, s') →
  ∃ m w' T', runs m (get_string (E := E) n) w (Done l) w' ∧ winv w' ∧ holds (soloJ M T' 1 0 s') w' ∧ cur_frames (rest w') = [].
Proof.
  revert T s l w. induction n as [|n IH]; intros T s l w Hw HJ Hf Hl; cbn [line get_string] in *.
  { injection Hl as <- <-. exists 0%nat, w, T. split; [apply runs_refl|done]. }
  destruct s as [|c s]; [done|].
  match goal with |- context [take_char ?k] =>
    destruct (take_char_solo T 0 c s k w Hw HJ Hf) as (m1 & w1 & T1 & R1 & Hw1 & HJ1 & Hf1) end.
  cbv beta in R1. destruct (int8 c =? 10).
  - injection Hl as <- <-. exists m1, w1, T1. split; [exact R1|done].
  - destruct (line n s) as [ [l1 s1]|] eqn:El; [|done]. injection Hl as <- <-.
    destruct (IH T1 s l1 w1 Hw1 HJ1 Hf1 El) as (m2 & w2 & T2 & R2 & Hw2 & HJ2 & Hf2).
    exists (m1 + m2)%nat, w2, T2. split; [|done]. eapply runs_trans; [exact R1|].
    exact (runs_bind (λ s, Done (uint8 c :: s)) _ _ _ _ _ R2).
Qed.

(** SynchGetString. *)
Lemma SynchGetString_solo {R} n T s l s' (k : list Z → prog devint Devs devop E R) w :
  winv w → holds (soloJ M T 1 1 s) w → cur_frames (rest w) = [] → line (Z.to_nat (n - 1)) s = Some (l, s') →
  ∃ m w' T', runs m (bind (SynchGetString n) k) w (k (l ++ [0])) w' ∧ winv w' ∧ holds (soloJ M T' 1 1 s') w' ∧
    cur_frames (rest w') = [].
Proof.
  intros Hw HJ Hf Hl. unfold SynchGetString.
  set (got := call* s := get_string (Z.to_nat (n - 1)) in do* RV m_readLock; Done (s ++ [0]) : prog devint Devs devop E (list Z)).
  destruct (lock_solo F M T 1 s got w Hw HJ Hf) as (w1 & R1 & Hw1 & HJ1 & Hf1).
  destruct (get_string_solo _ T s l s' w1 Hw1 HJ1 Hf1 Hl) as (m & w2 & T2 & R2 & Hw2 & HJ2 & Hf2).
  destruct (unlock_solo F M T2 1 s' (Done (l ++ [0]) : prog devint Devs devop E (list Z)) w2 Hw2 HJ2 Hf2)
    as (w3 & R3 & Hw3 & HJ3 & Hf3).
  exists (2 + (m + 1))%nat, w3, T2. split; [|done].
  pose proof (runs_bind (λ s, do* RV m_readLock; Done (s ++ [0])) _ _ _ _ _ R2) as R4.
  exact (runs_bind k _ _ _ _ _ (runs_trans _ _ _ _ _ _ _ _ R1 (runs_trans _ _ _ _ _ _ _ _ R4 R3))).
Qed.
End Reading.

(** ** The calls that read *)

(** What a call answers: a register, or bytes of memory. *)
Inductive answer := InRegister (v : Z) | InMemory (pas bs : list Z).

(** [reads m type s a s']: on a machine [m] a call of type [type] answers [a] when [s] is to
    be read, and leaves [s']. A line of SC_GetString goes to the program up to its newline or
    its NUL; of the pages it goes to, [pas] are the physical addresses. *)
Inductive reads (m : Machine) : Z → list Z → answer → list Z → Prop :=
  | reads_char ch s : reads m SC_GetChar (ch :: s) (InRegister (int8 ch)) s
  | reads_int s l s' v :
      line (Z.to_nat (MAX_STRING_SIZE - 1)) s = Some (l, s') → scan_int (l ++ [0]) = Some v → reads m SC_GetInt s (InRegister v) s'
  | reads_string s l s' to pas :
      line (Z.to_nat (MAX_STRING_SIZE - 1)) s = Some (l, s') → registers m !! 4%nat = Some to → is_int32 to → is_int32 (to + 14) →
      (∀ i pa, pas !! i = Some pa → writable m (to + Z.of_nat i) pa) → (length (ended (l ++ [0%Z])) ≤ length pas)%nat →
      reads m SC_GetString s (InMemory pas (ended (l ++ [0]))) s'.

Definition answered (a : answer) (m m' : Machine) : Prop :=
  match a with
  | InRegister v => m' = set_registers (<[2%nat := v]> (registers m)) m
  | InMemory pas bs =>
      evolves m m' ∧ registers m' = registers m ∧ mainMemory m' = write_bytes pas bs (mainMemory m)
  end.

Lemma answered_table a m m' : answered a m m' → pageTable m ≠ None → pageTable m' ≠ None.
Proof.
  destruct a as [v|pas bs]; cbn [answered]; [by intros ->|]. intros ([_ _ Ht _ _] & _) Hm.
  by destruct (pageTable m), (pageTable m').
Qed.

Lemma line_bytes n s l s' : line n s = Some (l, s') → Forall is_byte l ∧ (length l ≤ n)%nat.
Proof.
  revert s l s'. induction n as [|n IH]; intros [|c s] l s' E; cbn [line] in E; try done;
    try (injection E as <- _; split; [constructor|cbn; lia]).
  destruct (int8 c =? 10); [injection E as <- _; split; [constructor; [apply uint8_range|constructor]|cbn; lia]|].
  destruct (line n s) as [ [l1 s1]|] eqn:El; [|done]. injection E as <- _. destruct (IH _ _ _ El) as [H1 H2].
  split; [constructor; [apply uint8_range|done]|cbn; lia].
Qed.

Lemma int8_int32 v : is_int32 (int8 v).
Proof. unfold is_int32, int8. pose proof (Z.mod_pos_bound (v + 128) 256). lia. Qed.

Lemma scan_int_int32 l v : scan_int l = Some v → is_int32 v.
Proof.
  induction l as [|c l IH]; [done|]. cbn [scan_int]. destruct (is_blank c); [done|].
  intros E. repeat match type of E with
    | context [if ?b then _ else _] => destruct b
    | context [match ?x with [] => _ | _ :: _ => _ end] => destruct x
    end; try done; injection E as <-; apply int32_range.
Qed.

Lemma answer_register m v :
  regs_ok (registers m) → settled (registers m) → is_int32 v →
  WriteRegister 2 v m = Ok (tt, set_registers (<[2%nat := v]> (registers m)) m) ∧
  regs_ok (<[2%nat := v]> (registers m)) ∧ settled (<[2%nat := v]> (registers m)).
Proof.
  intros (Hl & Hi & l & El & Hlr) (S1 & S2 & S3) Hv. split; [exact (WriteRegister_set m 2 v Hl ltac:(done))|]. split.
  - split; [by rewrite length_insert|]. split; [by apply Forall_insert|]. exists l. by rewrite list_lookup_insert_ne.
  - unfold settled. by rewrite !list_lookup_insert_ne.
Qed.

Section Calls.
Context (thread_int : tid → Z) (garbage : nat → Z) (junk : Z) (registers_garbage : list Z).
Context (F : list (Z * PendingInterrupt devint) → KState Devs → Prop) {frame : Frame keyboard_duty F}.
Context (apart : undisturbed F ConsoleGetChar).
Abbreviation soloJ := (soloJ F).

(** A register written at the end of a call. *)
Lemma answer_solo {R} m T s v (k : unit → prog devint Devs devop entry R) w :
  winv w → holds (soloJ (Some m) T 1 1 s) w → cur_frames (rest w) = [] → is_int32 v →
  ∃ w', runs 2 (On_machine (WriteRegister 2 v) k) w (k tt) w' ∧ winv w' ∧
    holds (soloJ (Some (set_registers (<[2%nat := v]> (registers m)) m)) T 1 1 s) w' ∧ cur_frames (rest w') = [].
Proof.
  intros Hw HJ Hf Hv. destruct (so_machine _ _ _ _ _ _ _ _ _ HJ m eq_refl) as [_ Hset].
  destruct (answer_register m v (soloJ_registers _ _ _ _ _ _ _ Hw HJ) Hset Hv) as (E & Hr & Hs).
  by apply registers_solo.
Qed.

Lemma Syscall_reads T type s a s' m :
  reads m type s a s' →
  call_works F thread_int garbage junk registers_garbage type m T 1 s s' (λ _ m', answered a m m').
Proof.
  intros Hp k w Hw HJ Hf. destruct Hp as [ch s|s l s' v Hl Hv|s l s' to pas Hl H4 Hto Hto' Hpas Hlen].
  - destruct (SynchGetChar_solo (E := entry) F apart (Some m) T ch s (λ c, On_machine (WriteRegister 2 (int8 c)) Done) w Hw HJ Hf)
      as (n & w1 & T1 & R1 & Hw1 & HJ1 & Hf1).
    destruct (answer_solo m T1 s (int8 ch) (Done (R := unit)) w1 Hw1 HJ1 Hf1 (int8_int32 ch)) as (w2 & R2 & Hw2 & HJ2 & Hf2).
    exists (n + 2)%nat, w2, T1, (set_registers (<[2%nat := int8 ch]> (registers m)) m). split; [done|].
    split; [exact (runs_bind k _ _ _ _ _ (runs_trans _ _ _ _ _ _ _ _ R1 R2))|done].
  - destruct (SynchGetString_solo (E := entry) F apart (Some m) 15 T s l s' (λ st, On_machine (WriteRegister 2 (default junk (scan_int st))) Done)
      w Hw HJ Hf Hl) as (n & w1 & T1 & R1 & Hw1 & HJ1 & Hf1). rewrite Hv in R1. cbn [default from_option id] in R1.
    destruct (answer_solo m T1 s' v (Done (R := unit)) w1 Hw1 HJ1 Hf1 (scan_int_int32 _ _ Hv)) as (w2 & R2 & Hw2 & HJ2 & Hf2).
    exists (n + 2)%nat, w2, T1, (set_registers (<[2%nat := v]> (registers m)) m). split; [done|].
    split; [exact (runs_bind k _ _ _ _ _ (runs_trans _ _ _ _ _ _ _ _ R1 R2))|done].
  - pose proof (ReadRegister_get _ 4 to H4 ltac:(done)) as E4.
    match goal with |- context [Syscall ?a ?b ?c ?d SC_GetString] => change (Syscall a b c d SC_GetString) with
      (On_machine (ReadRegister 4) (λ reg, call* st := SynchGetString MAX_STRING_SIZE in
         On_machine (copyStringToMachine st reg MAX_STRING_SIZE) (λ _, Done tt)) : prog devint Devs devop entry unit) end.
    match goal with |- context [On_machine (ReadRegister 4) ?k1] =>
      destruct (ask_solo F T 1 1 s m (ReadRegister 4) to k1 w Hw HJ Hf E4) as (w1 & R1 & Hw1 & HJ1 & Hf1) end. cbv beta in R1.
    destruct (SynchGetString_solo F apart (Some m) 15 T s l s' (λ st, On_machine (copyStringToMachine st to MAX_STRING_SIZE)
      (λ _, Done tt) : prog devint Devs devop entry unit) w1 Hw1 HJ1 Hf1 Hl) as (n & w2 & T2 & R2 & Hw2 & HJ2 & Hf2).
    destruct (so_machine _ _ _ _ _ _ _ _ _ HJ2 m eq_refl) as [Em Hset].
    pose proof (kI_m _ (ri_k _ (proj1 Hw2))) as Hm. destruct (line_bytes _ _ _ _ Hl) as [Hb Hn].
    change (Z.to_nat (MAX_STRING_SIZE - 1)) with 14%nat in Hn.
    destruct (ended_split l) as (str & e & tl & El & He & Hs & Eend). rewrite Eend in *.
    assert (Hlen' : (length str ≤ 14)%nat).
    { apply (f_equal length) in El. rewrite !length_app in El. cbn in El. lia. }
    assert (Hbs : Forall is_byte str).
    { assert (H0 : Forall is_byte (l ++ [0])) by (apply Forall_app; split; [done|by repeat constructor]).
      rewrite El in H0. by apply Forall_app in H0 as [? _]. }
    destruct (copy_to_loop_ok str e tl 15 to 0 m pas He Hs Hbs) as (m' & Ec & Hmem);
      [lia|rewrite length_app in Hlen; cbn in Hlen; lia|done|unfold is_int32 in *; lia|done|].
    rewrite <- El in Ec. rewrite <- Em in Ec, Hpas.
    assert (Howner : is_Some (pt_owner (rest w2))).
    { destruct pas as [|pa pas]; [rewrite length_app in Hlen; cbn in Hlen; lia|].
      destruct (Hpas 0%nat pa eq_refl) as (t & ? & _ & Ept & _). rewrite Em in Ept.
      apply (soloJ_owner F T2 1 1 s' m w2 Hw2 HJ2). by rewrite Ept. }
    destruct Howner as [sp Hsp]. pose proof (minv_machine_wf _ sp Hm Hsp) as Hwf.
    destruct (copy_to_loop_evolves _ _ _ _ _ _ _ Hwf Ec) as [Hev Hregs].
    pose proof (evolves_kept _ sp m' Hm Hsp (ev_wf _ _ Hev Hwf) Hev) as Hk.
    destruct (on_machine_solo F (Some m) (Some m') T2 1 1 s' (copyStringToMachine (l ++ [0]) to MAX_STRING_SIZE) _ m'
      (λ _, Done tt : prog devint Devs devop entry unit) w2 Hw2 HJ2 Hf2 Ec Hk) as (w3 & R3 & Hw3 & HJ3 & Hf3 & _);
      [intros ? [= <-]; split; [done|congruence]|].
    rewrite Em in Hev, Hregs. exists (2 + (n + 2))%nat, w3, T2, m'. split; [done|]. split; [|done].
    exact (runs_bind k _ _ _ _ _ (runs_trans _ _ _ _ _ _ _ _ R1 (runs_trans _ _ _ _ _ _ _ _ R2 R3))).
Qed.
End Calls.

(** ** Both ways *)

(** What one direction keeps of the other. *)
Abbreviation keyboard_kept := (dutyJ (du := keyboard_duty)).
Abbreviation display_kept := (dutyJ (du := console_duty)).

#[export] Instance keyboard_frame T c L S : Frame console_duty (keyboard_kept T c L S).
Proof. apply dutyJ_frame; [apply _|compute_done..]. Qed.
#[export] Instance display_frame T c L S : Frame keyboard_duty (display_kept T c L S).
Proof. apply dutyJ_frame; [apply _|compute_done..]. Qed.

Lemma keyboard_undisturbed T c L S ch : undisturbed (keyboard_kept T c L S) (ConsolePutChar ch).
Proof.
  intros t d acts p k E [Hd Hs Hl Hv]. cbn [dev_op nachos_devices] in E. apply res_bind_Ok_inv in E as ([ [c' tm] a] & E & E').
  injection E' as <- <-. unfold PutChar in E. apply res_bind_Ok_inv in E as (u & _ & E). injection E as <- <- <-.
  split; [|exact Hs|exact Hl|exact Hv]. rewrite filter_app. exact Hd.
Qed.

Lemma display_undisturbed T c L S : undisturbed (display_kept T c L S) ConsoleGetChar.
Proof. intros t d acts p k [= <- <-] [Hd Hs Hl Hv]. by split. Qed.

(** One direction or the other may be the one at work. *)
Lemma swap_solo M T c L S T' c' L' S' w :
  holds (soloJ (du := console_duty) (keyboard_kept T' c' L' S') M T c L S) w ↔
  holds (soloJ (du := keyboard_duty) (display_kept T c L S) M T' c' L' S') w.
Proof. split; intros []; by split. Qed.

(** One thread, in code of its own, both locks of the console free; [out] has been displayed,
    and [s] is to be read. *)
Definition at_console (M : option Machine) (out : list Z) (u : bool) (s : list Z) (w : nachos) : Prop :=
  winv w ∧ cur_frames (rest w) = [] ∧ ∃ T T', holds (soloJ (keyboard_kept T' 1 1 s) M T 0 1 (out, u)) w.

Lemma at_console_shown M out u s w : at_console M out u s w → shown w = out ∧ to_read (dev (rest w)) = s.
Proof.
  intros (_ & _ & T & T' & HJ). pose proof (soloJ_view _ _ _ _ _ _ _ _ _ HJ) as HS. cbn in HS. injection HS as H1 _.
  split; [done|]. exact (dj_view _ _ _ _ _ _ (so_frame _ _ _ _ _ _ _ _ _ HJ)).
Qed.

(** A character read, and one written. *)
Lemma get_char_at {E R} M out u ch s (k : Z → prog devint Devs devop E R) w :
  at_console M out u (ch :: s) w →
  ∃ n w', runs n (bind SynchGetChar k) w (k ch) w' ∧ at_console M out u s w'.
Proof.
  intros (Hw & Hf & T & T' & HJ%swap_solo).
  destruct (SynchGetChar_solo _ (display_undisturbed T 0 1 (out, u)) M T' ch s k w Hw HJ Hf) as (n & w' & T1 & R1 & Hw' & HJ' & Hf').
  exists n, w'. split; [done|]. split; [done|]. split; [done|]. exists T, T1. by apply swap_solo.
Qed.

Lemma put_char_at {E R} M out u s ch (k : unit → prog devint Devs devop E R) w :
  at_console M out u s w →
  ∃ n w', runs n (bind (SynchPutChar ch) k) w (k tt) w' ∧ at_console M (out ++ put_bytes u ch) u s w'.
Proof.
  intros (Hw & Hf & T & T' & HJ).
  destruct (SynchPutChar_solo _ (keyboard_undisturbed T' 1 1 s) M T out u ch k w Hw HJ Hf) as (n & w' & T1 & _ & R1 & Hw' & HJ' & Hf').
  exists n, w'. split; [done|]. split; [done|]. split; [done|]. by exists T1, T'.
Qed.

Section Whole.
Context (thread_int : tid → Z) (garbage : nat → Z) (junk : Z) (registers_garbage : list Z).
Abbreviation sys_runs := (sys_run (body thread_int garbage junk registers_garbage)).

(** A call that prints, the keyboard as it was. *)
Lemma print_at (type v : Z) (o : list Z) (M : option Machine) (m : Machine) (out : list Z) (u : bool) (s : list Z) (w : nachos) :
  at_console M out u s w → is_Some (pt_owner (rest w)) →
  traps (machine (rest w)) SyscallException m → registers m !! 2%nat = Some type →
  registers m !! 4%nat = Some v → prints garbage m u type v o →
  ∃ n w' m', sys_runs n (mkSys w {[main_thread := Goto ERun]}) = Ok (mkSys w' {[main_thread := Goto ERun]}) ∧
    registers m' = next_pc (registers m) ∧ same_memory m m' ∧
    at_console (Some m') (out ++ o) u s w' ∧ is_Some (pt_owner (rest w')).
Proof.
  intros (Hw & Hf & T & T' & HJ) Ho Ht H2 H4 Hp. pose proof (soloJ_view _ _ _ _ _ _ _ _ _ HJ) as HS. cbn in HS. injection HS as HS Hu.
  destruct (print_call (keyboard_kept T' 1 1 s) thread_int garbage junk registers_garbage type v o M m w
    (keyboard_undisturbed T' 1 1 s)) as (n & w' & m' & _ & ER & (Hw' & Hf' & T1 & S & HJ') & Ho' & Hr' & Hsm & Hs' & Hu');
    [split; [done|split; [done|eauto] ]|done|done|done|done|unfold in_utf8; by rewrite Hu|].
  exists n, w', m'. split; [exact ER|]. split; [done|]. split; [done|]. split; [|done].
  split; [done|]. split; [done|]. exists T1, T'. pose proof (soloJ_view _ _ _ _ _ _ _ _ _ HJ') as HS'. cbn in HS'. subst S.
  unfold shown, in_utf8 in Hs', Hu'. by rewrite Hs', Hu', HS, Hu in HJ'.
Qed.

(** A call that reads, from its instruction to the next. *)
Lemma read_call (type : Z) (M : option Machine) (m : Machine) (out : list Z) (u : bool) (s : list Z)
    (a : answer) (s' : list Z) (w : nachos) :
  at_console M out u s w → is_Some (pt_owner (rest w)) →
  traps (machine (rest w)) SyscallException m → registers m !! 2%nat = Some type → reads m type s a s' →
  ∃ n w' m', sys_runs n (mkSys w {[main_thread := Goto ERun]}) = Ok (mkSys w' {[main_thread := Goto ERun]}) ∧
    answered a m m' ∧ at_console (Some (next_machine m')) out u s' w' ∧ is_Some (pt_owner (rest w')).
Proof.
  intros (Hw & Hf & T & T' & HJ%swap_solo) Ho Ht H2 Hr.
  pose proof (Syscall_reads thread_int garbage junk registers_garbage (display_kept T 0 1 (out, u)) (display_undisturbed _ _ _ _)
    T' type s a s' m Hr) as Hcall.
  destruct (call_solo (display_kept T 0 1 (out, u)) thread_int garbage junk registers_garbage type m T' 1 s s' _ M w Hw HJ Hf Ho Ht H2 Hcall)
    as (n & w' & T1 & m' & Ha & E & Hw' & HJ' & Hf' & Hpt).
  exists (n + 8)%nat, w', m'. split; [exact E|]. split; [done|].
  split; [split; [done|split; [done|exists T, T1; by apply swap_solo] ]|].
  apply (soloJ_owner _ _ _ _ _ _ _ Hw' HJ'), (answered_table a m m' Ha Hpt).
Qed.

(** C13. What a system call that reads does, from the instruction of the user program to the
    next. A program runs alone under Machine::Run, nobody else uses the console, and what
    has been typed or will be is Latin-1. The next instruction is SYSCALL. Then the program
    gets back to the instruction after: with the next character typed in register 2 for
    SC_GetChar, with the number that the next line says for SC_GetInt, and for SC_GetString
    with the next line in its memory, up to the newline or to 14 characters, the newline
    not followed by a NUL. It waits as long as the typing takes. What it has not taken is
    still to be read, in order; the display has not changed, and no other register. *)
Theorem reading_calls (type : Z) (M : option Machine) (m : Machine) (out : list Z) (u : bool) (s : list Z)
    (a : answer) (s' : list Z) (w : nachos) :
  at_console M out u s w → is_Some (pt_owner (rest w)) →
  traps (machine (rest w)) SyscallException m → registers m !! 2%nat = Some type → reads m type s a s' →
  ∃ n w' m', sys_runs n (mkSys w {[main_thread := Goto ERun]}) = Ok (mkSys w' {[main_thread := Goto ERun]}) ∧
    answered a m m' ∧ at_console (Some (next_machine m')) out u s' w' ∧ is_Some (pt_owner (rest w')).
Proof. by apply read_call. Qed.

(** A line short enough is taken whole, its newline included. *)
Lemma line_whole n l s :
  Forall (λ b, 45 ≤ b < 58) l → (length l < n)%nat → line n (l ++ 10 :: s) = Some (l ++ [10], s).
Proof.
  intros Hl. revert n. induction Hl as [|b l Hb Hl IH]; intros [|n] Hn; cbn [length] in Hn; try lia; [done|].
  cbn [app line]. unfold int8, uint8. rewrite !Z.mod_small by lia.
  rewrite (proj2 (Z.eqb_neq _ _)) by lia. rewrite (IH n) by lia. done.
Qed.

(** The number on a line of its own. *)
Lemma reads_printed m v l s :
  is_int32 v → print_int MAX_STRING_SIZE v = l ++ [0] →
  reads m SC_GetInt (l ++ 10 :: s) (InRegister v) s.
Proof.
  intros Hv El. rewrite print_int_whole in El by done. apply app_inj_tail in El as [<- _].
  apply (reads_int m _ (dec v ++ [10])).
  - apply line_whole; [apply dec_printable|]. pose proof (dec_length v).
    change (Z.to_nat (MAX_STRING_SIZE - 1)) with 14%nat. lia.
  - rewrite <- app_assoc. by apply scan_printed.
Qed.

(** C14. What SC_PutInt shows of any [int], the least one included, SC_GetInt reads back as
    that [int], through the arrays of MAX_STRING_SIZE characters of the handler. A program
    which calls PutInt(v) is taken to its next instruction with the decimal notation of v,
    nothing cut off, added to the display. A program which calls GetInt() when that text and
    a newline are what is typed next, however slowly, is taken to its next instruction with
    v in register 2, the text and its newline taken and what follows still to be read. The programs run alone under Machine::Run, on
    the same machine or on two, whatever else has been shown and typed. *)
Theorem PutInt_GetInt (v : Z) :
  is_int32 v →
  (∀ M m out u s w, at_console M out u s w → is_Some (pt_owner (rest w)) →
     traps (machine (rest w)) SyscallException m →
     registers m !! 2%nat = Some SC_PutInt → registers m !! 4%nat = Some v →
     ∃ n w' m', sys_runs n (mkSys w {[main_thread := Goto ERun]}) = Ok (mkSys w' {[main_thread := Goto ERun]}) ∧
       registers m' = next_pc (registers m) ∧ same_memory m m' ∧
       at_console (Some m') (out ++ dec v) u s w' ∧ is_Some (pt_owner (rest w'))) ∧
  (∀ M m out u s w, at_console M out u (dec v ++ 10 :: s) w → is_Some (pt_owner (rest w)) →
     traps (machine (rest w)) SyscallException m → registers m !! 2%nat = Some SC_GetInt →
     ∃ n w', sys_runs n (mkSys w {[main_thread := Goto ERun]}) = Ok (mkSys w' {[main_thread := Goto ERun]}) ∧
       at_console (Some (next_machine (set_registers (<[2%nat := v]> (registers m)) m))) out u s w' ∧
       is_Some (pt_owner (rest w'))).
Proof.
  intros Hv. pose proof (print_int_whole MAX_STRING_SIZE v ltac:(done)) as Ep.
  split.
  - intros M m out u s w Hw Ho Ht H2 H4. apply (print_at SC_PutInt v (dec v) M); try done.
    by apply prints_int.
  - intros M m out u s w Hw Ho Ht H2.
    destruct (read_call SC_GetInt M m out u _ (InRegister v) s w Hw Ho Ht H2) as (n & w' & m' & E & Ha & Hw' & Ho').
    { by apply reads_printed. }
    cbn [answered] in Ha. subst m'. by exists n, w'.
Qed.
End Whole.

(** ** A keyboard at which something is typed *)

Lemma console_at_boot (kb : list (Z * Z)) s :
  typed true kb.*2 = Some s →
  ∃ w, at_console None [] true s w ∧ spaces (rest w) = ∅ ∧
    ∀ (E R : Type) (k : unit → prog devint Devs devop E R),
      runs 3 (bind (new_SynchConsole None None) k) (nachos_typing kb) (k tt) w.
Proof.
  intros Hs. destruct (console_booted kb) as (w & Hw & Hf & Hb & Hrun). exists w.
  split; [|split; [exact (bo_spaces _ _ Hb)|exact Hrun] ].
  split; [done|]. split; [done|]. exists 0, (match kb with (t, _) :: _ => Z.max ConsoleTime (t + ConsoleTime) | [] => 0 end).
  apply (booted_solo kb); [done|..].
  - apply (booted_duty kb 0 0 ([], true) w Hb); done || set_solver.
  - apply (booted_duty kb _ 1 s w Hb); try (done || set_solver).
    + cbn. unfold to_read. cbn. by rewrite Hs.
    + split; [done|]. split; [done|]. split; [cbn; by rewrite Hs|]. eexists. split; [reflexivity|].
      intros _ t b kb' Hk. cbn in Hk. rewrite Hk. cbn. lia.
Qed.

Lemma program_at_console a mem r (kb : list (Z * Z)) s :
  space_ok a → map_Forall (λ _ b, is_byte b) mem → regs_ok r → settled r → typed true kb.*2 = Some s →
  ∃ w, at_console None [] true s w ∧ is_Some (pt_owner (rest w)) ∧
    ∃ ss t, machine (rest w) = mkMachine mem r None (Some (as_pageTable a)) (numPages a) ss t.
Proof.
  intros Ha Hmem Hr Hs Hk. destruct (console_at_boot kb s Hk) as (w0 & (Hw & Hf & T & T' & HJ) & Hsp & _).
  destruct (program_placed _ T 0 1 ([], true) a mem r w0 Ha Hmem Hr Hs Hw HJ Hf Hsp) as (w & Hw' & HJ' & Hf' & Ho & ss & t & Em).
  exists w. split; [split; [done|split; [done|eauto] ]|]. split; [done|eauto].
Qed.

(** SC_GetChar of an e with an acute accent, typed in UTF-8 before a B. *)
Definition getchar_regs : list Z :=
  <[2%nat := SC_GetChar]> (<[34%nat := 100]> (<[35%nat := 104]> (replicate 40 0))).

Lemma reading_calls_witness :
  ∃ n w w', at_console None [] true [0xe9; 66] w ∧
    sys_run (body (λ t, Zpos t) (λ _, 33) 5 (replicate 40 0)) n (mkSys w {[main_thread := Goto ERun]}) =
      Ok (mkSys w' {[main_thread := Goto ERun]}) ∧
    registers (machine (rest w')) !! 2%nat = Some (-23) ∧ registers (machine (rest w')) !! 34%nat = Some 104 ∧
    to_read (dev (rest w')) = [66].
Proof.
  destruct (program_at_console putint_space putint_memory getchar_regs [(5000, 0xc3); (5000, 0xa9); (6000, 66)] [0xe9; 66])
    as (w & Hw & Ho & ss & t & Em).
  - split; [reflexivity|]. by repeat constructor.
  - by apply map_Forall_singleton.
  - split; [reflexivity|]. split; [|exists 0; by split]. repeat constructor; done.
  - done.
  - reflexivity.
  - set (m := mkMachine putint_memory getchar_regs None (Some (as_pageTable putint_space)) 1 ss t).
    destruct (reading_calls (λ t, Zpos t) (λ _, 33) 5 (replicate 40 0) SC_GetChar None m [] true [0xe9; 66] (InRegister (-23)) [66] w Hw Ho)
      as (n & w' & m' & E & Ha & (_ & _ & T & T' & HJ) & _); [|reflexivity|exact (reads_char m 0xe9 [66])|].
    { rewrite Em. exists 0, m. split; vm_compute; reflexivity. }
    exists n, w, w'. split; [done|]. split; [exact E|].
    destruct (so_machine _ _ _ _ _ _ _ _ _ HJ _ eq_refl) as [-> _]. cbn in Ha. subst m'. do 2 (split; [reflexivity|]).
    exact (dj_view _ _ _ _ _ _ (so_frame _ _ _ _ _ _ _ _ _ HJ)).
Defined.

(** The least int: a program that prints it, and one that reads what was printed, typed with
    a newline and a B after it. *)
Definition int_regs (type : Z) : list Z :=
  <[2%nat := type]> (<[4%nat := -2147483648]> (<[34%nat := 100]> (<[35%nat := 104]> (replicate 40 0)))).

Lemma PutInt_GetInt_witness :
  let calls := sys_run (body (λ t, Zpos t) (λ _, 33) 5 (replicate 40 0)) in
  let num := [45; 50; 49; 52; 55; 52; 56; 51; 54; 52; 56] in
  (∃ n w w', at_console None [] true [] w ∧
     calls n (mkSys w {[main_thread := Goto ERun]}) = Ok (mkSys w' {[main_thread := Goto ERun]}) ∧
     shown w' = num) ∧
  (∃ n w w', at_console None [] true (num ++ [10; 66]) w ∧
     calls n (mkSys w {[main_thread := Goto ERun]}) = Ok (mkSys w' {[main_thread := Goto ERun]}) ∧
     registers (machine (rest w')) !! 2%nat = Some (-2147483648) ∧ to_read (dev (rest w')) = [66]).
Proof.
  intros calls num.
  destruct (PutInt_GetInt (λ t, Zpos t) (λ _, 33) 5 (replicate 40 0) (-2147483648) ltac:(by split)) as [Hput Hget].
  change (dec (-2147483648)) with num in Hput, Hget.
  assert (Hspace : space_ok putint_space) by (split; [reflexivity|by repeat constructor]).
  assert (Hmem : map_Forall (λ _ b, is_byte b) putint_memory) by (by apply map_Forall_singleton).
  assert (Hregs : ∀ type, is_int32 type → regs_ok (int_regs type) ∧ settled (int_regs type)).
  { intros type Ht. split; [|done]. split; [reflexivity|]. split; [|exists 0; by split].
    unfold int_regs. repeat (apply Forall_insert; [|done || by split]). by repeat constructor. }
  split.
  - destruct (Hregs SC_PutInt ltac:(by split)) as [Hr Hs].
    destruct (program_at_console putint_space putint_memory _ [] [] Hspace Hmem Hr Hs eq_refl) as (w & Hw & Ho & ss & t & Em).
    set (m := mkMachine putint_memory (int_regs SC_PutInt) None (Some (as_pageTable putint_space)) 1 ss t).
    destruct (Hput None m [] true [] w Hw Ho) as (n & w' & m' & E & _ & _ & Hc & _); [|reflexivity|reflexivity|].
    { rewrite Em. exists 0, m. split; vm_compute; reflexivity. }
    exists n, w, w'. split; [done|]. split; [exact E|]. by apply (at_console_shown _ _ _ _ _ Hc).
  - destruct (Hregs SC_GetInt ltac:(by split)) as [Hr Hs].
    destruct (program_at_console putint_space putint_memory _
      [(500, 45); (50, 50); (50, 49); (70, 52); (9000, 55); (50, 52); (50, 56); (50, 51); (50, 54); (50, 52); (50, 56); (500, 10); (50, 66)]
      [45; 50; 49; 52; 55; 52; 56; 51; 54; 52; 56; 10; 66] Hspace Hmem Hr Hs eq_refl) as (w & Hw & Ho & ss & t & Em).
    set (m := mkMachine putint_memory (int_regs SC_GetInt) None (Some (as_pageTable putint_space)) 1 ss t).
    destruct (Hget None m [] true [66] w Hw Ho) as (n & w' & E & Hc & _); [|reflexivity|].
    { rewrite Em. exists 0, m. split; vm_compute; reflexivity. }
    exists n, w, w'. split; [done|]. split; [exact E|]. pose proof Hc as (_ & _ & T & T' & HJ).
    destruct (so_machine _ _ _ _ _ _ _ _ _ HJ _ eq_refl) as [-> _]. split; [reflexivity|].
    by apply (at_console_shown _ _ _ _ _ Hc).
Defined.
