(* ===== verification/Closing.v ===== *)
(** * How the console is closed (machine/console.cc, userprog/exception.cc)

    The destructor of the console waits for its last interrupts: it yields until the poll
    has found that the console is closed. What interrupts keep while a thread on its own
    does so is [quietJ]: nobody else is about, no timer, and nothing is being written; [P]
    is what is known of the poll. *)
From S2P Require Import Prelude Words LinkedList BitMap Interrupt Pending Disk Console Network Machine MipsSim.
From S2P Require Import Threads SchedInv AddrSpace Kernel KernelSteps Programs Devices Solo SynchConsole UserThread.
From S2P Require Import Exception Calls Output Input.

(** ** A machine on which nothing but the poll goes on *)

Definition polls (p : list (Z * PendingInterrupt devint)) : list (Z * PendingInterrupt devint) :=
  filter (λ e, handler e.2 = ConsoleReadPoll) p.

(** Known of the outstanding polls and the devices, whatever interrupts come. *)
Class Poll (P : list (Z * PendingInterrupt devint) → Devs → Prop) : Prop := {
  poll_perm l l' d : l ≡ₚ l' → P l d → P l' d;
  poll_fire e l t d d' vs acts :
    P (e :: l) d → fire ConsoleReadPoll t d = Ok (d', vs, acts) → P (news t acts ++ l) d';
  poll_other h l d d' vs acts : fire_frame h d d' vs acts → h ≠ ConsoleReadPoll → P l d → P l d';
}.

Lemma V_all_some l (k k' : KState Devs) s : V_all l k = Ok k' → is_Some (sems k !! s) → is_Some (sems k' !! s).
Proof.
  revert k. induction l as [|s0 l IH]; intros k E Hs; cbn [V_all] in E; [by injection E as <-|].
  apply res_bind_Ok_inv in E as (k1 & E1 & E). apply (IH k1 E).
  destruct (V_body_signals s0 k k1 E1) as [ [So _ _ _ _ _] (sm & q & _ & E0)].
  destruct (decide (s = s0)) as [->|Hne]; [eauto|]. by rewrite So by set_solver.
Qed.

Section Quiet.
Context (P : list (Z * PendingInterrupt devint) → Devs → Prop) {laws : Poll P}.

Record quietJ (p : list (Z * PendingInterrupt devint)) (y : bool) (k : KState Devs) : Prop := {
  qu_yield : y = false;
  qu_calm : Forall (λ e, handler e.2 ≠ TimerHandler ∧ type e.2 ≠ TimerInt) p;
  qu_alone : ∀ t th, threads k !! t = Some th → t = main_thread;
  qu_locks s : s ∈ [m_readLock; m_writeLock] → is_Some (sems k !! s);
  qu_written : putBusy (console (dev k)) = false;
  qu_poll : P (polls p) (dev k);
}.

#[export] Instance quietJ_joint : Joint quietJ.
Proof.
  split.
  - intros p p' y x Hp []. split; try done; [by rewrite <- Hp|].
    apply (poll_perm (polls p)); [|done]. unfold polls. by rewrite Hp.
  - intros e p y k t k' acts [Hy Hcalm Ha Hq Hw HP] E. cbn [run_handler kernel_handlers] in E.
    apply res_bind_Ok_inv in E as ([ [d vs] acts'] & Ef & E). apply res_bind_Ok_inv in E as (k1 & Ev & E). injection E as <- <-.
    apply Forall_cons in Hcalm as [ [Ht _] Hcalm]. pose proof (fire_frame_ok _ _ _ _ _ _ Ef Ht) as Hff.
    destruct (V_all_signals _ _ _ Ev) as [_ St _ _ Sd _]. cbn [set_dev dev threads] in *.
    destruct (news_own ConsoleReadPoll _ t acts' (ff_acts _ _ _ _ _ Hff) Ht) as [Hn Hn'].
    split; rewrite ?Sd; [|by apply Forall_app|..].
    + rewrite Hy. by apply (own_quiet (handler e.2)), (ff_acts _ _ _ _ _ Hff).
    + intros t' th Et. destruct (St _ _ Et) as [th0 E0]. by apply (Ha t' th0).
    + intros s Hs. apply (V_all_some _ _ _ _ Ev). by apply Hq.
    + destruct (decide (handler e.2 = ConsoleWriteDone)) as [Hh|Hh]; [|by rewrite (ff_busy _ _ _ _ _ Hff)].
      rewrite Hh in Ef. cbn [fire nachos_devices] in Ef. by injection Ef as <- _ _.
    + unfold polls in *. rewrite filter_app, Hn. case_decide as Hh.
      * rewrite filter_cons_True in HP by done. rewrite Hh in Ef. by eapply poll_fire.
      * rewrite filter_cons_False in HP by done. by eapply poll_other.
  - intros p y k k' [] E. cbn [delayed_load kernel_handlers] in E.
    apply res_bind_Ok_inv in E as ([ [] m] & Ed & E). injection E as <-. by split.
Qed.

(** What is pending is still to come. *)
Definition late (w : nachos) : Prop := Forall (λ e, now w < e.1) (pending (interrupt w)).

Implicit Types (w : nachos).

Lemma tick_quiet w w' :
  rinv w → holds quietJ w → OneTick w = Ok (tt, w') →
  rinv w' ∧ holds quietJ w' ∧ cur_frames (rest w') = cur_frames (rest w) ∧ level (interrupt w') = IntOn ∧
  late w' ∧ now w < now w'.
Proof.
  intros Hr HJ E'. unfold OneTick in E'. destruct (tick_rinv w Hr) as (w1 & E1 & Hr1 & Hn & Hl & Hnow & _).
  rewrite E1 in E'. cbn [res_bind snd] in E'.
  assert (HJ1 : holds quietJ w1) by (by apply (OneTick_holds quietJ w)).
  rewrite (qu_yield _ _ _ HJ1) in E'. injection E' as <-.
  split; [done|]. split; [done|]. split; [exact (nudged_frames _ _ Hn)|]. split; [done|].
  pose proof Hr as [Hk Ht Hn0 Hh Hs].
  destruct (OneTick_ok (laws := kernel_handler_laws (rest w)) w) as (w2 & _ & E2 & _ & _ & _ & _ & _ & Hlate);
    [split; [done|apply nudged_refl]|done|done|].
  rewrite E1 in E2. injection E2 as ->. unfold late. rewrite Hnow. split.
  - change (pending (interrupt (set_level IntOn (put_back w2)))) with (pending (interrupt (put_back w2))).
    by rewrite put_back_pending.
  - unfold tick, now. cbn. rewrite (proj1 (spend_ticks _ _ _)). case_bool_decide; unfold SystemTick, UserTick; lia.
Qed.

Lemma quiet_frames p y k k' :
  quietJ p y k → dev k' = dev k → (∀ s, is_Some (sems k !! s) → is_Some (sems k' !! s)) → (∀ t, is_Some (threads k' !! t) → is_Some (threads k !! t)) → quietJ p y k'.
Proof.
  intros [] Ed Es Et. split; rewrite ?Ed; try done; [|by auto]. intros t th E. destruct (Et t) as [th0 E0]; [eauto|]. by apply (qu_alone0 t th0).
Qed.

Lemma SetLevel_quiet w w' l :
  rinv w → holds quietJ w → cur_frames (rest w) = [] → SetLevel l w = Ok (tt, w') →
  holds quietJ w' ∧ cur_frames (rest w') = [] ∧ level (interrupt w') = l.
Proof.
  intros Hr HJ Hf E. unfold SetLevel in E. apply res_bind_Ok_inv in E as (u & _ & E).
  destruct (bool_decide_reflect (l = IntOn)) as [->|Hl]; cbn [andb] in E.
  - case_bool_decide as Hold; [|injection E as <-; by split].
    destruct (tick_quiet (ChangeLevel IntOn w) w') as (_ & HJ' & Hf' & Hl' & _); [by apply rinv_level|done|done|]. by rewrite Hf'.
  - injection E as <-. by split.
Qed.

(** ** Requests *)
Section Requests.
Context {E R : Type} (p : prog devint Devs devop E R).

Lemma quiet_current w : winv w → holds quietJ w → currentThread (rest w) = main_thread.
Proof.
  intros Hw HJ. destruct (kI_current _ (ri_k _ (proj1 Hw))) as (th & Et & _). by apply (qu_alone _ _ _ HJ _ th).
Qed.

Lemma runs_quiet r w w' :
  winv w → holds quietJ w → cur_frames (rest w) = [] → request_do r w = Ok (tt, w') → runs 1 (Do r p) w p w'.
Proof. intros Hw HJ Hf Hr. apply runs_one, goes_do; [by apply quiet_current|done..]. Qed.

Lemma ready_none w :
  winv w → holds quietJ w → cur_frames (rest w) = [] → readyList (rest w) = [].
Proof.
  intros Hw HJ Hf. pose proof (kI_k _ (ri_k _ (proj1 Hw))) as Hk. destruct (readyList (rest w)) as [|t l] eqn:El; [done|].
  destruct (proj1 (ki_ready _ _ Hk t)) as (_ & th & Et & Hst); [rewrite El; set_solver|].
  pose proof (qu_alone _ _ _ HJ t th Et) as Ht. rewrite <- (quiet_current w Hw HJ) in Ht. subst t.
  destruct (ki_cur _ _ Hk) as (th' & Et' & Hc). pose proof (cur_frames_eq _ _ Et') as Ec. rewrite Hf in Ec.
  unfold cur_ok in Hc. rewrite <- Ec in Hc. cbn in Hc. congruence.
Qed.

(** A thread with nobody to yield to waits for a tick. *)
Lemma yield_quiet w :
  winv w → holds quietJ w → cur_frames (rest w) = [] → level (interrupt w) = IntOn →
  ∃ w', runs 2 (do* RYield; p) w p w' ∧ winv w' ∧ holds quietJ w' ∧ cur_frames (rest w') = [] ∧
    level (interrupt w') = IntOn ∧ late w' ∧ now w < now w'.
Proof.
  intros Hw HJ Hf Hl. pose proof (ready_none w Hw HJ Hf) as Hnone. pose proof (quiet_current w Hw HJ) as Hcur.
  destruct (request_ok (DI := devs_wf) (irq := signalled) w RYield Hw Hf I) as (w1 & E1 & Hw1 & _).
  assert (Ew1 : w1 = set_rest (push (FYield IntOn) (rest w)) (ChangeLevel IntOff w)).
  { enough (EY : Yield w = Ok (tt, set_rest (push (FYield IntOn) (rest w)) (ChangeLevel IntOff w)))
      by (cbn [request_do] in E1; rewrite EY in E1; by injection E1 as <-).
    unfold Yield. rewrite (st_bind_Ok _ _ _ _ _ (eq_refl (DisableInterrupts w))). unfold mod_k, st_bind.
    cbv beta. unfold FindNextToRun. rewrite Hl. cbn [set_rest rest push upd_thread set_threads readyList halted].
    change (rest (ChangeLevel IntOff w)) with (rest w). rewrite Hnone. by destruct (halted (rest w)). }
  assert (Hf1 : cur_frames (rest w1) = [FYield IntOn]).
  { rewrite Ew1. cbn [set_rest rest]. rewrite push_eq, Hf. apply cur_frames_set.
    destruct (kI_current _ (ri_k _ (proj1 Hw))) as (th & Et & _). eauto. }
  assert (HJ1 : holds quietJ w1).
  { rewrite Ew1. unfold holds. cbn [set_rest interrupt rest]. apply (quiet_frames _ _ (rest w)); [exact HJ|done|done|].
    intros t. apply upd_thread_dom. }
  assert (Hl1 : level (interrupt w1) = IntOff) by by rewrite Ew1.
  destruct (resume_awake_ok w1 Hw1) as (w2 & E2 & Hw2 & _); [by rewrite Hf1..|].
  pose proof E2 as E2'. unfold resume in E2'. rewrite Hf1 in E2'. set (w1' := set_rest (pop (rest w1)) w1) in *.
  unfold SetLevel in E2'. apply res_bind_Ok_inv in E2' as (u & _ & E2').
  assert (Hpop : cur_frames (rest w1') = []).
  { cbn [w1' set_rest rest]. rewrite pop_eq, Hf1. apply cur_frames_set.
    destruct (kI_current _ (ri_k _ (proj1 Hw1))) as (th & Et & _). eauto. }
  change (interrupt w1') with (interrupt w1) in E2'. rewrite Hl1 in E2'. cbn [bool_decide andb] in E2'.
  rewrite !bool_decide_true in E2' by done. cbn [andb] in E2'.
  destruct (pop_ok w1 (FYield IntOn) [] (proj1 Hw1) Hf1) as (HI1 & _); [done..|].
  destruct (tick_quiet (ChangeLevel IntOn w1') w2) as (Hr2 & HJ2 & Hf2 & Hl2 & Hlate & Hn); [| |done|].
  - apply rinv_level. apply rinv_rest; [apply Hw1|exact HI1].
  - unfold holds. cbn. apply (quiet_frames _ _ (rest w1)); [exact HJ1|done|done|]. intros t. apply upd_thread_dom.
  - change (rest (ChangeLevel IntOn w1')) with (rest w1') in Hf2. rewrite Hpop in Hf2.
    change (now (ChangeLevel IntOn w1')) with (now w1) in Hn.
    replace (now w1) with (now w) in Hn by by rewrite Ew1.
    exists w2. split; [|done]. apply (runs_trans 1 1 _ p p w w1); [by apply runs_quiet|].
    apply runs_one, goes_resume; [by apply quiet_current|by rewrite Hf1|exact E2].
Qed.

Lemma V_quiet s w :
  winv w → holds quietJ w → cur_frames (rest w) = [] → level (interrupt w) = IntOn → s ∈ [m_readLock; m_writeLock] →
  ∃ w', runs 1 (do* RV s; p) w p w' ∧ winv w' ∧ holds quietJ w' ∧ cur_frames (rest w') = [] ∧ level (interrupt w') = IntOn.
Proof.
  intros Hw HJ Hf Hl Hin. pose proof (qu_locks _ _ _ HJ s Hin) as Hs.
  destruct (V_body_kI (rest w) s (ri_k _ (proj1 Hw)) Hs) as (k1 & EV & HI & Hn & Hd).
  destruct (request_ok (DI := devs_wf) (irq := signalled) w (RV s) Hw Hf Hs) as (w' & E1 & Hw' & _).
  exists w'. pose proof E1 as E1'. cbn [request_do] in E1'. unfold V in E1'.
  rewrite (st_bind_Ok _ _ _ _ _ (eq_refl (DisableInterrupts w))) in E1'.
  unfold lift_k, st_bind in E1'. change (rest (ChangeLevel IntOff w)) with (rest w) in E1'. rewrite EV in E1'.
  cbn [res_bind] in E1'. rewrite Hl in E1'.
  assert (Hr1 : rinv (set_rest k1 (ChangeLevel IntOff w))) by (apply rinv_rest; [apply rinv_level, Hw|done]).
  destruct (V_body_signals _ _ _ EV) as [ [] _].
  assert (HJ1 : holds quietJ (set_rest k1 (ChangeLevel IntOff w))).
  { unfold holds. cbn. apply (quiet_frames _ _ (rest w)); [exact HJ|done|apply Hn|]. intros t [th Et]. eauto. }
  destruct (SetLevel_quiet _ w' IntOn Hr1 HJ1) as (HJ' & Hf' & Hl'); [|exact E1'|].
  { cbn [set_rest rest]. by rewrite (nudged_frames _ _ Hn). }
  split; [by apply runs_quiet|done].
Qed.
End Requests.
End Quiet.

(** ** The poll of an open console, and of one that is being closed *)

Definition open_poll (l : list (Z * PendingInterrupt devint)) (d : Devs) : Prop := ∃ T, polling T d l.

#[export] Instance open_poll_laws : Poll open_poll.
Proof.
  split.
  - intros l l' d Hp [T HT]. exists T. by apply (du_perm (du := keyboard_duty) T d l).
  - intros e l t d d' vs acts [T HT] E. exists T. by apply (polling_fire T e l t d d' vs acts).
  - intros h l d d' vs acts Hff Hh [T HT]. exists T. by apply (du_other (du := keyboard_duty) h d d' vs acts).
Qed.

(** The poll that will find the console closed comes by [T], or has come. *)
Definition closing_poll (T : Z) (l : list (Z * PendingInterrupt devint)) (d : Devs) : Prop :=
  readFileNo (console d) = -2 ∨ readFileNo (console d) = -1 ∧ ∃ e, l = [e] ∧ e.1 ≤ T.

Lemma closed_stays t c tm c' tm' called acts :
  readFileNo c = -2 → CheckCharAvail ConsoleReadPoll t c tm = (c', tm', called, acts) → readFileNo c' = -2.
Proof.
  intros Hc. unfold CheckCharAvail. intros E.
  repeat match type of E with
    | context [ReadPartial ?x] => destruct (ReadPartial x) as [ [?|] ?]
    | context [if ?b then _ else _] => destruct b
    end; by injection E as <- _ _ _.
Qed.

#[export] Instance closing_poll_laws T : Poll (closing_poll T).
Proof.
  split.
  - intros l l' d Hp [H|(H & e & -> & He)]; [by left|right]. split; [done|]. exists e. split; [|done].
    by apply Permutation_singleton_l in Hp as ->.
  - intros e l t d d' vs acts HP E. cbn [fire nachos_devices] in E.
    destruct (CheckCharAvail _ t _ _) as [ [ [c tm] called] a] eqn:Ec. injection E as <- <- <-. left. cbn [console set_console].
    destruct HP as [H|(H & _)]; [by eapply closed_stays|]. unfold CheckCharAvail in Ec. rewrite H in Ec. by injection Ec as <- _ _ _.
  - intros h l d d' vs acts Hff Hh HP. pose proof (ff_read _ _ _ _ _ Hff Hh) as Hk. unfold keyboard_side in Hk.
    injection Hk as Hk _ _ _. unfold closing_poll in *. by rewrite Hk.
Qed.

(** Alone at the console, the poll goes on and nothing is being written. *)
Lemma at_console_quiet M T T' out u s w :
  winv w → holds (soloJ (du := console_duty) (keyboard_kept T' 1 1 s) M T 0 1 (out, u)) w → holds (quietJ open_poll) w.
Proof.
  intros Hw HJ. destruct (soloJ_idle _ _ _ _ _ _ Hw HJ) as [Hi _].
  pose proof (soloJ_lock _ _ _ _ _ _ _ _ _ HJ) as (sm & Es & _).
  destruct (dj_lock _ _ _ _ _ _ (so_frame _ _ _ _ _ _ _ _ _ HJ)) as (sm' & Es' & _).
  split; try (by destruct HJ).
  - intros x Hx. rewrite !elem_of_cons in Hx. destruct Hx as [-> |[-> |Hx] ]; [eauto..|by apply not_elem_of_nil in Hx].
  - exists T'. exact (dj_due _ _ _ _ _ _ (so_frame _ _ _ _ _ _ _ _ _ HJ)).
Qed.

(** Console::~Console up to its loops. *)
Lemma close_quiet {E R} (p : prog devint Devs devop E R) w :
  winv w → holds (quietJ open_poll) w → cur_frames (rest w) = [] → level (interrupt w) = IntOn →
  ∃ w' T, runs 1 (do* RDev ConsoleClose; p) w p w' ∧ winv w' ∧ holds (quietJ (closing_poll T)) w' ∧
    cur_frames (rest w') = [] ∧ level (interrupt w') = IntOn.
Proof.
  intros Hw HJ Hf Hl. destruct (qu_poll _ _ _ _ HJ) as (T & _ & _ & _ & e & He & _).
  destruct (request_ok (DI := devs_wf) (irq := signalled) w (RDev ConsoleClose) Hw Hf) as (w' & E1 & Hw' & _);
    [cbn [req_ok dev_op nachos_devices]; destruct (close_Console _ _); eauto|].
  exists w', e.1. split; [by eapply runs_quiet|]. split; [done|].
  cbn [request_do] in E1. unfold do_dev in E1. cbn [dev_op nachos_devices] in E1.
  destruct (close_Console (console (dev (rest w))) (stdin_busy (dev (rest w)))) as [c b] eqn:Ec. cbn [res_bind fst snd run_acts] in E1.
  injection E1 as <-. unfold close_Console in Ec. injection Ec as <- _. split; [|done].
  destruct HJ as [H1 H2 H3 H4 H5 H6]. split; try done. right. split; [done|]. exists e. done.
Qed.

(** ** The loops *)
Section Loop.
Context {E : Type} (body : E → prog devint Devs devop E unit) (e : E) (done_ : prog devint Devs devop E unit).
Context (Hbody : body e = wait_console (Goto e) done_) (T : Z).
Abbreviation J := (quietJ (closing_poll T)).
Implicit Types (w : nachos).

(** [w] is at the top of the loops, or past them. *)
Definition at_loops w : Prop :=
  winv w ∧ holds J w ∧ cur_frames (rest w) = [] ∧ level (interrupt w) = IntOn.

Lemma loops_enter w : at_loops w →
  sys_run body 2 (mkSys w {[main_thread := Goto e]}) =
    Ok (mkSys w {[main_thread := if still_open (console (dev (rest w))) then do* RYield; Goto e else done_]}).
Proof.
  intros (Hw & HJ & Hf & _). pose proof (quiet_current _ w Hw HJ) as Hcur. rewrite <- !insert_empty.
  rewrite (sys_run_app body 1 1 _ (mkSys w (<[main_thread := body e]> ∅))).
  - rewrite Hbody. apply runs_sys, runs_one.
    exact (goes_ask (λ w, if still_open (console (dev (rest w))) then do* RYield; Goto e else done_) w Hcur Hf).
  - cbn [sys_run]. unfold sys_step. cbn [sys_world progs]. by rewrite Hf, Hcur, lookup_insert_eq, insert_insert_eq.
Qed.

Lemma loops_turn w :
  at_loops w → still_open (console (dev (rest w))) = true →
  ∃ w', sys_run body 4 (mkSys w {[main_thread := Goto e]}) = Ok (mkSys w' {[main_thread := Goto e]}) ∧ at_loops w' ∧
    now w < now w' ∧ (still_open (console (dev (rest w'))) = true → now w' < T).
Proof.
  intros Hat Ho. pose proof (loops_enter w Hat) as E1. rewrite Ho in E1. destruct Hat as (Hw & HJ & Hf & Hl).
  destruct (yield_quiet _ (Goto e : prog devint Devs devop E unit) w Hw HJ Hf Hl) as (w' & R & Hw' & HJ' & Hf' & Hl' & Hlate & Hn).
  exists w'. split; [|split; [done|split; [done|] ] ].
  - etrans; [exact (sys_run_app body 2 2 _ _ E1)|]. rewrite <- !insert_empty. by apply runs_sys.
  - intros Ho'. unfold still_open in Ho'. rewrite (qu_written _ _ _ _ HJ'), orb_false_r in Ho'.
    apply negb_true_iff, Z.eqb_neq in Ho'. destruct (qu_poll _ _ _ _ HJ') as [H|(_ & x & Hx & HT)]; [done|].
    assert (Hin : x ∈ polls (pending (interrupt w'))) by (rewrite Hx; set_solver).
    apply list_elem_of_filter in Hin as [_ Hin]. unfold late in Hlate. rewrite Forall_forall in Hlate. specialize (Hlate x Hin). lia.
Qed.

(** They end: at the latest when the poll has come. *)
Lemma loops_end w :
  at_loops w →
  ∃ n w', sys_run body n (mkSys w {[main_thread := Goto e]}) = Ok (mkSys w' {[main_thread := done_]}) ∧ at_loops w' ∧
    still_open (console (dev (rest w'))) = false.
Proof.
  remember (Z.to_nat (T - now w)) as n eqn:Hn. revert w Hn. induction (lt_wf n) as [n _ IH]. intros w Hn Hat.
  pose proof (loops_enter w Hat) as E1. destruct (still_open (console (dev (rest w)))) eqn:Ho; [|by exists 2%nat, w].
  destruct (loops_turn w Hat Ho) as (w1 & E4 & Hat1 & Hlt & Hopen).
  destruct (still_open (console (dev (rest w1)))) eqn:Ho1.
  - destruct (IH (Z.to_nat (T - now w1))) with (w := w1) as (m & w' & E2 & H2); [specialize (Hopen eq_refl); lia|done|done|].
    exists (4 + m)%nat, w'. split; [|done]. etrans; [exact (sys_run_app body 4 m _ _ E4)|exact E2].
  - exists (4 + 2)%nat, w1. split; [|done]. etrans; [exact (sys_run_app body 4 2 _ _ E4)|].
    pose proof (loops_enter w1 Hat1) as E5. by rewrite Ho1 in E5.
Qed.
End Loop.
