(* ===== verification/ConsoleTest.v ===== *)
(** * The tests of the console (userprog/progtest.cc)

    ConsoleTest and SynchConsoleTest echo what is typed, a character other than a newline
    between angle brackets. Each makes a console of its own, and the model of the machine
    has one. Nachos as it is never gets past that when the test is to read the standard
    input: Initialize has already made a console that does, and the test fails its
    assertion ([second_console_fails]). The loops are shown to echo by themselves, on a
    machine where nobody has made that console. *)
From S2P Require Import Prelude Words LinkedList BitMap Interrupt Pending Disk Console Network Machine MipsSim Threads SchedInv.
From S2P Require Import Kernel KernelSteps Programs Devices Solo SynchConsole UserThread System Exception SynchDisk Calls Booted Output Input Closing.

(** Where the tests loop. *)
Inductive console_entry := ESynchEcho | EEcho | ECloseConsoleTest.

#[local] Abbreviation program := (prog devint Devs devop console_entry).

(** ** SynchConsoleTest *)

(** The loop; [ch] is a [char]. The messages of the tests go to the host. *)
Definition synch_echo : program unit :=
  call* c := SynchGetChar in
  let ch := int8 c in
  if ch =? EOF then Done tt
  else
    call* _ := (if negb (ch =? 10) then SynchPutChar 60 else Done tt) in
    call* _ := SynchPutChar ch in
    call* _ := (if negb (ch =? 10) then SynchPutChar 62 else Done tt) in
    Goto ESynchEcho.

Definition SynchConsoleTest (in_ out : option Z) : program unit :=
  call* _ := new_SynchConsole in_ out in
  Goto ESynchEcho.

(** ** ConsoleTest *)

(** [console->PutChar (ch); writeDone->P ();] *)
Definition put_wait (ch : Z) : program unit :=
  do* RDev (ConsolePutChar ch);
  do* RP writeDone;
  Done tt.

Definition echo : program unit :=
  do* RP readAvail;
  take_char (λ c,
  let ch := int8 c in
  call* _ := (if negb (ch =? 10) then put_wait 60 else Done tt) in
  call* _ := put_wait ch in
  call* _ := (if negb (ch =? 10) then put_wait 62 else Done tt) in
  if ch =? 113 then do* RDev ConsoleClose; Goto ECloseConsoleTest
  else Goto EEcho).

(** Its semaphores are those its handlers V. *)
Definition ConsoleTest (in_ out : option Z) : program unit :=
  do* RSemaphore readAvail 0;
  do* RSemaphore writeDone 0;
  do* RDev (ConsoleOpen in_ out);
  Goto EEcho.

Definition console_body (e : console_entry) : program unit :=
  match e with
  | ESynchEcho => synch_echo
  | EEcho => echo
  | ECloseConsoleTest => wait_console (Goto ECloseConsoleTest) (Done tt)
  end.

(** ** What is echoed *)

(** A character typed, on the display. *)
Definition echo_of (ch : Z) : list Z :=
  if int8 ch =? 10 then [10] else [60; uint8 ch; 62].

Lemma echo_newline ch : int8 ch = 10 → uint8 ch = 10.
Proof.
  unfold int8, uint8. intros H. pose proof (Z.mod_pos_bound (ch + 128) 256). pose proof (Z.div_mod (ch + 128) 256).
  symmetry. apply (Z.mod_unique _ _ ((ch + 128) / 256)); lia.
Qed.

(** A way to write a character and wait. *)
Definition writes (put : Z → program unit) : Prop :=
  ∀ M out u s ch (k : unit → program unit) w, at_console M out u s w →
  ∃ n w', runs n (bind (put ch) k) w (k tt) w' ∧ at_console M (out ++ put_bytes u ch) u s w'.

Lemma SynchPutChar_writes : writes SynchPutChar.
Proof. intros M out u s ch k w. apply put_char_at. Qed.

Lemma put_wait_writes : writes put_wait.
Proof.
  intros M out u s ch k w (Hw & Hf & T & T' & HJ). unfold put_wait. cbn [bind].
  destruct (put_char_solo _ (keyboard_undisturbed T' 1 1 s) M T 1 out u ch (k tt) w Hw HJ Hf) as (n & w' & T1 & _ & R1 & Hw' & HJ' & Hf').
  exists n, w'. split; [done|]. split; [done|]. split; [done|]. by exists T1, T'.
Qed.

(** The three characters, or the one. *)
Lemma bracketed_at put M out u s ch (p : program unit) w :
  writes put → at_console M out u s w →
  ∃ n w', runs n (call* _ := (if negb (int8 ch =? 10) then put 60 else Done tt) in
                  call* _ := put (int8 ch) in
                  call* _ := (if negb (int8 ch =? 10) then put 62 else Done tt) in p) w p w' ∧
    at_console M (out ++ echo_of ch) u s w'.
Proof.
  intros Hput Hw. unfold echo_of. destruct (Z.eqb_spec (int8 ch) 10) as [H10|H10]; cbn [negb bind].
  - destruct (Hput M out u s (int8 ch) (λ _, p) w Hw) as (n & w1 & R1 & Hw1).
    rewrite put_bytes_char, (echo_newline ch H10) in Hw1. by exists n, w1.
  - match goal with |- context [bind (put 60) ?k] => destruct (Hput M out u s 60 k w Hw) as (n1 & w1 & R1 & Hw1) end.
    match goal with |- context [bind (put (int8 ch)) ?k] => destruct (Hput M _ u s (int8 ch) k w1 Hw1) as (n2 & w2 & R2 & Hw2) end.
    match goal with |- context [bind (put 62) ?k] => destruct (Hput M _ u s 62 k w2 Hw2) as (n3 & w3 & R3 & Hw3) end.
    rewrite put_bytes_char, <- !app_assoc in Hw3. exists (n1 + (n2 + n3))%nat, w3. split; [|exact Hw3].
    eapply runs_trans; [exact R1|]. by eapply runs_trans.
Qed.

(** A turn of each loop. *)
Lemma synch_echo_turn M out u ch s w :
  at_console M out u (ch :: s) w →
  ∃ n w', runs n synch_echo w (if int8 ch =? EOF then Done tt else Goto ESynchEcho) w' ∧
    at_console M (if int8 ch =? EOF then out else out ++ echo_of ch) u s w'.
Proof.
  intros Hw. unfold synch_echo.
  match goal with |- context [bind SynchGetChar ?k] => destruct (get_char_at M out u ch s k w Hw) as (n & w1 & R1 & Hw1) end.
  cbv beta zeta in R1. destruct (int8 ch =? EOF); [by exists n, w1|].
  destruct (bracketed_at _ M out u s ch (Goto ESynchEcho) w1 SynchPutChar_writes Hw1) as (n2 & w2 & R2 & Hw2).
  exists (n + n2)%nat, w2. split; [|done]. by eapply runs_trans.
Qed.

Lemma echo_turn M out u ch s w :
  at_console M out u (ch :: s) w →
  ∃ n w', runs n echo w (if int8 ch =? 113 then do* RDev ConsoleClose; Goto ECloseConsoleTest else Goto EEcho) w' ∧
    at_console M (out ++ echo_of ch) u s w'.
Proof.
  intros (Hw & Hf & T & T' & HJ%swap_solo). unfold echo.
  match goal with |- context [take_char ?k] =>
    destruct (take_char_solo _ (display_undisturbed T 0 1 (out, u)) M T' 1 ch s k w Hw HJ Hf) as (n & w1 & T1 & R1 & Hw1 & HJ1%swap_solo & Hf1) end.
  cbv beta zeta in R1.
  match type of R1 with runs _ _ _ (bind _ (λ _, bind _ (λ _, bind _ (λ _, ?p)))) _ =>
    destruct (bracketed_at _ M out u s ch p w1 put_wait_writes) as (n2 & w2 & R2 & Hw2) end; [by split; [|split; [|eauto] ]|].
  exists (n + n2)%nat, w2. split; [|done]. by eapply runs_trans.
Qed.

(** ** The loops *)

(** [n] steps of the system, the test its only thread. *)
Definition console_runs (n : nat) (p : program unit) (w : nachos) (p' : program unit) (w' : nachos) : Prop :=
  sys_run console_body n (mkSys w {[main_thread := p]}) = Ok (mkSys w' {[main_thread := p']}).

Lemma console_runs_trans n m p1 w1 p2 w2 p3 w3 :
  console_runs n p1 w1 p2 w2 → console_runs m p2 w2 p3 w3 → console_runs (n + m) p1 w1 p3 w3.
Proof. intros E1 E2. unfold console_runs. by rewrite (sys_run_app _ _ _ _ _ E1). Qed.

Lemma console_runs_turn n e p' w w' :
  currentThread (rest w) = main_thread → cur_frames (rest w) = [] →
  runs n (console_body e) w p' w' → console_runs (1 + n) (Goto e) w p' w'.
Proof.
  intros Hc Hf HR. unfold console_runs. cbn [sys_run Nat.add]. unfold sys_step. cbn [sys_world progs].
  rewrite Hf, Hc, <- !insert_empty, lookup_insert_eq, insert_insert_eq. cbn [res_bind]. by apply runs_sys.
Qed.

Lemma at_console_main M out u s w :
  at_console M out u s w → currentThread (rest w) = main_thread ∧ cur_frames (rest w) = [].
Proof. intros (Hw & Hf & T & T' & HJ). split; [|done]. by apply (solo_current _ _ _ _ _ _ w Hw HJ). Qed.

Lemma loop_echoes e (goes_on : Z → Prop) M u :
  (∀ out ch s w, goes_on ch → at_console M out u (ch :: s) w →
     ∃ n w', runs n (console_body e) w (Goto e) w' ∧ at_console M (out ++ echo_of ch) u s w') →
  ∀ s t out w, Forall goes_on s → at_console M out u (s ++ t) w →
  ∃ n w', console_runs n (Goto e) w (Goto e) w' ∧ at_console M (out ++ (s ≫= echo_of)) u t w'.
Proof.
  intros Hturn s. induction s as [|ch s IH]; intros t out w Hs Hw.
  { exists 0%nat, w. cbn. by rewrite app_nil_r. }
  apply Forall_cons in Hs as [Hch Hs]. destruct (Hturn out ch (s ++ t) w Hch Hw) as (n & w1 & R1 & Hw1).
  destruct (IH t _ w1 Hs Hw1) as (m & w2 & R2 & Hw2). destruct (at_console_main _ _ _ _ _ Hw) as [Hc Hf].
  exists (1 + n + m)%nat, w2. split; [|cbn [mbind list_bind] in *; by rewrite <- app_assoc in Hw2].
  eapply console_runs_trans; [by apply console_runs_turn|exact R2].
Qed.

(** SynchConsoleTest by itself, on a machine without the console of Initialize, in a UTF-8
    locale, [kb] being the bytes that will be typed and when: whatever the times, if the bytes say
    Latin-1 characters [s] and then [t], and no [char] of [s] is EOF, the test gets to the
    top of its loop with every character of [s] on the display in the order they were
    typed, each but a newline between angle brackets, and [t] still to be read. It ends at
    the first character that as a [char] is EOF, which a y with a diaeresis is. *)
Lemma SynchConsoleTest_echoes (kb : list (Z * Z)) (s t : list Z) :
  typed true kb.*2 = Some (s ++ t) → Forall (λ ch, int8 ch ≠ EOF) s →
  (∃ n w, console_runs n (SynchConsoleTest None None) (nachos_typing kb) (Goto ESynchEcho) w ∧
     winv w ∧ shown w = s ≫= echo_of ∧ to_read (dev (rest w)) = t) ∧
  ∀ ch t', t = ch :: t' → int8 ch = EOF →
  ∃ n w, console_runs n (SynchConsoleTest None None) (nachos_typing kb) (Done tt) w ∧
     winv w ∧ shown w = s ≫= echo_of ∧ to_read (dev (rest w)) = t'.
Proof.
  intros Hk Hs. destruct (console_at_boot kb _ Hk) as (w0 & Hw0 & _ & R0).
  assert (E0 : console_runs 3 (SynchConsoleTest None None) (nachos_typing kb) (Goto ESynchEcho) w0).
  { unfold console_runs. rewrite <- !insert_empty. apply runs_sys. apply (R0 console_entry unit (λ _, Goto ESynchEcho)). }
  destruct (loop_echoes ESynchEcho (λ ch, int8 ch ≠ EOF) None true) with (s := s) (t := t) (out := @nil Z) (w := w0)
    as (n & w1 & E1 & Hw1); [|done|done|].
  { intros out ch s1 w Hch Hw. destruct (synch_echo_turn None out true ch s1 w Hw) as (m & w' & R & Hw').
    rewrite (proj2 (Z.eqb_neq _ _) Hch) in R, Hw'. by exists m, w'. }
  pose proof (console_runs_trans _ _ _ _ _ _ _ _ E0 E1) as E2. split.
  - destruct (at_console_shown _ _ _ _ _ Hw1) as [H1 H2]. exists (3 + n)%nat, w1. split; [exact E2|]. split; [apply Hw1|done].
  - intros ch t' -> Hch. destruct (synch_echo_turn _ _ _ _ _ _ Hw1) as (m & w2 & R2 & Hw2).
    rewrite Hch in R2, Hw2. cbn [Z.eqb Pos.eqb] in R2, Hw2. destruct (at_console_main _ _ _ _ _ Hw1) as [Hc Hf].
    destruct (at_console_shown _ _ _ _ _ Hw2) as [H1 H2]. exists (3 + n + (1 + m))%nat, w2. split; [|split; [apply Hw2|done] ].
    eapply console_runs_trans; [exact E2|]. by apply console_runs_turn.
Qed.

Lemma SynchConsoleTest_echoes_typed :
  ∃ n w, console_runs n (SynchConsoleTest None None) (nachos_typing [(50, 72); (9000, 10); (400, 0xc3); (400, 0xa9); (500, 0xc3); (500, 0xbf)])
    (Done tt) w ∧ shown w = [60; 72; 62; 10; 60; 0xe9; 62].
Proof.
  destruct (SynchConsoleTest_echoes [(50, 72); (9000, 10); (400, 0xc3); (400, 0xa9); (500, 0xc3); (500, 0xbf)] [72; 10; 0xe9] [0xff])
    as [_ H]; [reflexivity|repeat constructor; done|].
  destruct (H 0xff [] eq_refl eq_refl) as (n & w & E & _ & Hs & _). exists n, w. split; [exact E|exact Hs].
Defined.

(** ConsoleTest echoes too, from the top of its loop and until a q has been echoed. *)
Lemma ConsoleTest_echoes s out u t w :
  Forall (λ ch, int8 ch ≠ 113) s → at_console None out u (s ++ 113 :: t) w →
  ∃ n w', console_runs n (Goto EEcho) w (do* RDev ConsoleClose; Goto ECloseConsoleTest) w' ∧
    at_console None (out ++ (s ≫= echo_of) ++ [60; 113; 62]) u t w'.
Proof.
  intros Hs Hw. destruct (loop_echoes EEcho (λ ch, int8 ch ≠ 113) None u) with (s := s) (t := 113 :: t) (out := out) (w := w)
    as (n & w1 & E1 & Hw1); [|done|done|].
  { intros out' ch s1 w2 Hch Hw2. destruct (echo_turn None out' u ch s1 w2 Hw2) as (m & w' & R & Hw').
    rewrite (proj2 (Z.eqb_neq _ _) Hch) in R. by exists m, w'. }
  destruct (echo_turn _ _ _ _ _ _ Hw1) as (m & w2 & R2 & Hw2). destruct (at_console_main _ _ _ _ _ Hw1) as [Hc Hf].
  exists (n + (1 + m))%nat, w2. split; [|by rewrite <- app_assoc in Hw2].
  eapply console_runs_trans; [exact E1|]. by apply console_runs_turn.
Qed.

(** And then [delete console] comes to its end, with interrupts on. *)
Lemma ConsoleTest_ends out u t w :
  at_console None out u t w → level (interrupt w) = IntOn →
  ∃ n w', console_runs n (do* RDev ConsoleClose; Goto ECloseConsoleTest) w (Done tt) w' ∧ winv w'.
Proof.
  intros (Hw & Hf & T & T' & HJ) Hl.
  destruct (close_quiet (Goto ECloseConsoleTest : program unit) w Hw (at_console_quiet _ _ _ _ _ _ _ Hw HJ) Hf Hl)
    as (w1 & T1 & R1 & Hat).
  destruct (loops_end console_body ECloseConsoleTest (Done tt) eq_refl T1 w1) as (n & w2 & E2 & (Hw2 & _) & _); [exact Hat|].
  exists (1 + n)%nat, w2. split; [|done]. apply (console_runs_trans 1 n _ _ (Goto ECloseConsoleTest) w1); [|exact E2].
  unfold console_runs. rewrite <- !insert_empty. by apply runs_sys.
Qed.

(** On a machine whose console already reads the standard input, as the one of Initialize
    does, a test without file names fails its assertion. *)
Lemma second_console_fails ft w :
  currentThread (rest w) = main_thread → cur_frames (rest w) = [] → stdin_busy (dev (rest w)) = true →
  sys_run console_body (S ft) (mkSys w {[main_thread := SynchConsoleTest None None]}) = Fail AssertFailure.
Proof.
  intros Hc Hf Hb. cbn [sys_run]. unfold sys_step. cbn [sys_world progs]. rewrite Hf, Hc, lookup_singleton_eq.
  cbn [SynchConsoleTest new_SynchConsole bind request_do]. unfold do_dev. cbn [dev_op nachos_devices]. unfold new_Console. by rewrite Hb.
Qed.
