(* ===== verification/UserProgram.v ===== *)
(** * What a user program sees

    A program alone on the machine sees registers, memory, a display and what is typed: the
    machine of Machine.v with three kinds of step, [user_step]. The kernel, with its
    handler, its locks, interrupts, idle loop and page tables, implements it. *)
From S2P Require Import Prelude Words LinkedList BitMap SectorIO Interrupt Pending Disk Console Network Machine MipsSim.
From S2P Require Import Threads SchedInv AddrSpace Kernel KernelSteps Programs Devices Solo SynchConsole UserThread System.
From S2P Require Import Exception SynchDisk Calls Booted Output Input Closing.

(** ** The machine of a program *)

Record config := mkConfig {
  c_machine : Machine;
  c_shown : list Z;           (** on the display *)
  c_input : list Z }.         (** to be read *)

(** A delayed load may be over before the next instruction: an interrupt ends it. *)
Definition may_load (m m' : Machine) : Prop := m' = m ∨ DelayedLoad 0 0 m = Ok (tt, m').

Section Steps.
Context (garbage : nat → Z) (u : bool).

Inductive user_step : config → config → Prop :=
  | us_instruction m m1 m2 out s :
      OneInstruction m = Ok (None, m1) → may_load m1 m2 → user_step (mkConfig m out s) (mkConfig m2 out s)
  | us_prints m m1 m2 type v o out s :
      traps m SyscallException m1 → registers m1 !! 2%nat = Some type → registers m1 !! 4%nat = Some v →
      prints garbage m1 u type v o → same_memory m1 m2 → registers m2 = next_pc (registers m1) →
      user_step (mkConfig m out s) (mkConfig m2 (out ++ o) s)
  | us_reads m m1 m2 type a out s s' :
      traps m SyscallException m1 → registers m1 !! 2%nat = Some type → reads m1 type s a s' →
      answered a m1 m2 → user_step (mkConfig m out s) (mkConfig (next_machine m2) out s').
End Steps.

(** The thread main is at the top of Machine::Run with the program of [c]. *)
Definition running (u : bool) (c : config) (w : nachos) : Prop :=
  at_console None (c_shown c) u (c_input c) w ∧ machine (rest w) = c_machine c ∧ is_Some (pt_owner (rest w)).

#[export] Instance may_load_joint m : Joint (λ (_ : list (Z * PendingInterrupt devint)) (_ : bool) (k : KState Devs), may_load m (machine k)).
Proof.
  split.
  - done.
  - intros e p y k t k' acts HJ E. cbn [run_handler kernel_handlers] in E.
    apply res_bind_Ok_inv in E as ([ [d vs] acts'] & Ef & E).
    apply res_bind_Ok_inv in E as (k1 & Ev & E). injection E as <- <-.
    destruct (V_all_signals _ _ _ Ev) as [_ _ _ _ _ ->]. exact HJ.
  - intros p y k k' HJ E. cbn [delayed_load kernel_handlers] in E.
    apply res_bind_Ok_inv in E as ([ [] m1] & Ed & E). injection E as <-. cbn [machine set_machine snd].
    destruct HJ as [HJ|HJ]; [rewrite HJ in Ed; by right|].
    right. rewrite HJ. do 2 f_equal. symmetry. exact (DelayedLoad_settled _ _ (DelayedLoad_settles _ _ HJ) Ed).
Qed.

Lemma owner_table (k : KState Devs) : minv k → is_Some (pt_owner k) ↔ pageTable (machine k) ≠ None.
Proof.
  intros Hm. pose proof (mi_owner _ Hm) as Ho. destruct (pt_owner k) as [sp|].
  - destruct Ho as (a & _ & -> & _). split; [done|eauto].
  - rewrite Ho. split; [by intros []|done].
Qed.

Lemma may_load_table m m' : may_load m m' → pageTable m' = pageTable m.
Proof.
  intros [->|E]; [done|]. unfold DelayedLoad in E.
  apply st_bind_Ok_inv in E as (r & m1 & [-> _]%reg_inv & E). apply st_bind_Ok_inv in E as (v & m2 & [-> _]%reg_inv & E).
  assert (Hs : ∀ n v m u m', set_reg n v m = Ok (u, m') → pageTable m' = pageTable m).
  { intros n v0 m0 u m1 E1. unfold set_reg in E1. by apply res_bind_Ok_inv in E1 as (? & _ & [= _ <-]). }
  apply st_bind_Ok_inv in E as (? & m3 & E1%Hs & E). apply st_bind_Ok_inv in E as (? & m4 & E2%Hs & E).
  apply st_bind_Ok_inv in E as (? & m5 & E3%Hs & E%Hs). congruence.
Qed.

Section Running.
Context (thread_int : tid → Z) (garbage : nat → Z) (junk : Z) (registers_garbage : list Z).
Abbreviation sys_runs := (sys_run (body thread_int garbage junk registers_garbage)).

(** An instruction that does not trap. *)
Lemma instruction_turn M out u s m' w :
  at_console M out u s w → is_Some (pt_owner (rest w)) → OneInstruction (machine (rest w)) = Ok (None, m') →
  ∃ n w', sys_runs n (mkSys w {[main_thread := Goto ERun]}) = Ok (mkSys w' {[main_thread := Goto ERun]}) ∧
    at_console None out u s w' ∧ may_load m' (machine (rest w')) ∧ is_Some (pt_owner (rest w')).
Proof.
  intros (Hw & Hf & T & T' & HJ) Ho E. pose proof Ho as [sp Hsp].
  pose proof (solo_current _ _ _ _ _ _ w Hw HJ) as Hcur. pose proof Hw as [Hr _]. pose proof (ri_k _ Hr) as HI.
  pose proof (kI_m _ HI) as Hm. pose proof (minv_machine_wf _ sp Hm Hsp) as Hwf.
  pose proof (OneInstruction_ok _ Hwf) as Hpost. rewrite E in Hpost. destruct Hpost as (Hwf' & Hev & _).
  destruct (put_machine_ok (rest w) m' HI (evolves_kept _ sp m' Hm Hsp Hwf' Hev)) as (HI' & _ & Hc).
  destruct (put_machine_side m' (rest w)) as [Hside Hpm].
  set (w1 := set_rest (put_machine m' (rest w)) w).
  assert (Hr1 : rinv w1) by (by apply rinv_rest).
  assert (Hq : req_ok (O := devop) w RUser) by (split; [done|congruence]).
  destruct (request_ok (DI := devs_wf) (irq := signalled) w RUser Hw Hf Hq) as (w2 & E2 & Hw2 & _).
  pose proof E2 as E2'. cbn [request_do] in E2'. apply st_bind_Ok_inv in E2' as (r & w3 & E3 & [= <-]).
  unfold user_turn in E3. rewrite E in E3. cbn [res_bind fst snd] in E3. apply res_bind_Ok_inv in E3 as ([ [] w4] & E4 & [= <- <-]).
  fold w1 in E4. cbn [snd] in *.
  assert (HJ1 : holds (soloJ (keyboard_kept T' 1 1 s) None T 0 1 (out, u)) w1).
  { unfold holds in *. cbn [w1 set_rest interrupt rest]. destruct HJ as [H1 H2 H3 H4 H5 H6 _], Hside. split; rewrite ?sd_halted; try done.
    - by apply (dutyJ_same _ _ _ _ _ (rest w)); rewrite ?sd_sems.
    - apply (fr_same _ (rest w)); [|done|done]. intros x _ _. by rewrite sd_sems.
    - intros t th Et. destruct (sd_dom t) as [th0 E0]; [eauto|]. by apply (H5 t th0). }
  destruct (tick_holds _ _ _ _ _ _ w1 w4 Hr1 HJ1) as [HJ4 Hf4]; [cbn; by rewrite Hc|exact E4|].
  assert (Hml : may_load m' (machine (rest w4))).
  { apply (tick_keeps _ _ _ _ _ _ (λ _ _ k, may_load m' (machine k)) w1 w4 Hr1 HJ1); [|exact E4].
    unfold holds. cbn [w1 set_rest rest]. rewrite Hpm. by left. }
  exists 3%nat, w4. split; [|split; [split; [done|split; [done|eauto] ]|split; [done|] ] ].
  - cbn [sys_run]. unfold sys_step at 1. cbn [sys_world progs]. rewrite <- !insert_empty.
    rewrite Hf, Hcur, lookup_insert_eq, insert_insert_eq. cbn [res_bind].
    apply (runs_sys (body thread_int garbage junk registers_garbage) 2). apply (runs_trans 1 1 _ (do* RUser; Goto ERun) _ w w).
    + cbn [body]. unfold run_turn. apply runs_one.
      match goal with |- goes (Ask ?f) _ _ _ => pose proof (goes_ask f w Hcur Hf) as Hg end. cbv beta in Hg. rewrite E in Hg. exact Hg.
    + by apply runs_one, goes_do.
  - apply (owner_table _ (kI_m _ (ri_k _ (proj1 Hw2)))). rewrite (may_load_table _ _ Hml).
    destruct Hev as [_ _ Ht _ _]. apply (owner_table _ Hm) in Ho. by destruct (pageTable m'), (pageTable (machine (rest w))).
Qed.

Lemma at_console_machine m out u s w : at_console (Some m) out u s w → machine (rest w) = m ∧ at_console None out u s w.
Proof.
  intros (Hw & Hf & T & T' & HJ). split; [by apply (so_machine _ _ _ _ _ _ _ _ _ HJ)|]. split; [done|]. split; [done|].
  exists T, T'. destruct HJ. by split.
Qed.

(** The kernel takes a step the program may take. *)
Lemma user_step_simulated u c c1 w :
  running u c w → user_step garbage u c c1 →
  ∃ n w' c', sys_runs n (mkSys w {[main_thread := Goto ERun]}) = Ok (mkSys w' {[main_thread := Goto ERun]}) ∧
    user_step garbage u c c' ∧ running u c' w'.
Proof.
  intros (Hw & Em & Ho) Hs.
  destruct Hs as [m m1 m2 out s E _|m m1 m2 type v o out s Ht H2 H4 Hp _ _|m m1 m2 type a out s s' Ht H2 Hr _];
    cbn [c_machine c_shown c_input] in *; subst m.
  - destruct (instruction_turn None out u s m1 w Hw Ho E) as (n & w' & ER & Hw' & Hm & Ho').
    exists n, w', (mkConfig (machine (rest w')) out s). split; [exact ER|]. split; [by apply us_instruction with m1|done].
  - destruct (print_at thread_int garbage junk registers_garbage type v o None m1 out u s w Hw Ho Ht H2 H4 Hp)
      as (n & w' & m' & ER & Hr' & Hsm & Hc & Ho').
    destruct (at_console_machine _ _ _ _ _ Hc) as [Em' Hc'].
    exists n, w', (mkConfig m' (out ++ o) s). split; [exact ER|]. split; [by eapply us_prints|done].
  - destruct (read_call thread_int garbage junk registers_garbage type None m1 out u s a s' w Hw Ho Ht H2 Hr)
      as (n & w' & m' & ER & Ha & Hc & Ho'). destruct (at_console_machine _ _ _ _ _ Hc) as [Em' Hc'].
    exists n, w', (mkConfig (next_machine m') out s'). split; [exact ER|]. split; [by eapply us_reads|done].
Qed.

Lemma kernel_takes (u : bool) (I : nat → config → Prop) :
  (∀ k c, I (S k) c → ∃ c', user_step garbage u c c') → (∀ k c c', I (S k) c → user_step garbage u c c' → I k c') →
  ∀ k c w, I k c → running u c w →
  ∃ n w' c', sys_runs n (mkSys w {[main_thread := Goto ERun]}) = Ok (mkSys w' {[main_thread := Goto ERun]}) ∧
    nsteps (user_step garbage u) k c c' ∧ I 0%nat c' ∧ running u c' w'.
Proof.
  intros Hstep Hkeep k. induction k as [|k IH]; intros c w HI Hw.
  { exists 0%nat, w, c. split; [done|]. split; [constructor|done]. }
  destruct (Hstep k c HI) as [c0 H0]. destruct (user_step_simulated u c c0 w Hw H0) as (n & w1 & c1 & E1 & H1 & Hw1).
  destruct (IH c1 w1 (Hkeep _ _ _ HI H1) Hw1) as (m & w2 & c2 & E2 & H2 & HI2 & Hw2).
  exists (n + m)%nat, w2, c2. split; [by rewrite (sys_run_app _ _ _ _ _ E1)|]. split; [by apply nsteps_l with c1|done].
Qed.

(** C3. The kernel implements the machine a user program sees. Let [I k] hold of the
    configurations from which the program has [k] steps of [user_step] to take, whichever
    way they go: instructions, and calls that print and read, with something to read.
    Then, on the machine with its kernel, alone and without a timer, the program takes
    them: some steps of the system lead back to the top of Machine::Run, with registers,
    memory, display and what is still to be read those of a configuration that [k] steps
    reach. Interrupts, sleeping in the kernel, switching out and in, and the page table
    never show, save that a delayed load may be over early. *)
Theorem kernel_runs_program (u : bool) (I : nat → config → Prop) :
  (∀ k c, I (S k) c → ∃ c', user_step garbage u c c') → (∀ k c c', I (S k) c → user_step garbage u c c' → I k c') →
  ∀ k c w, I k c → running u c w →
  ∃ n w' c', sys_runs n (mkSys w {[main_thread := Goto ERun]}) = Ok (mkSys w' {[main_thread := Goto ERun]}) ∧
    nsteps (user_step garbage u) k c c' ∧ I 0%nat c' ∧ running u c' w'.
Proof. apply kernel_takes. Qed.

(** ** The end of a program *)

(** The next instruction of [m] ends the program: Exit with a status, or Halt. *)
Inductive ends (m : Machine) : Z → Prop :=
  | ends_exit m1 v :
      traps m SyscallException m1 → registers m1 !! 2%nat = Some SC_Exit → registers m1 !! 4%nat = Some v → ends m v
  | ends_halt m1 :
      traps m SyscallException m1 → registers m1 !! 2%nat = Some SC_Halt → ends m 0.

Lemma stop_sys n f w :
  winv w → currentThread (rest w) = main_thread → cur_frames (rest w) = [] →
  sys_runs (S n) (mkSys w {[main_thread := Stop f]}) = Fail f.
Proof.
  intros _ Hcur Hf. cbn [sys_run]. unfold sys_step. cbn [sys_world progs]. by rewrite Hf, Hcur, lookup_singleton_eq.
Qed.

Lemma Cleanup_ends (w : nachos) :
  winv w → holds (quietJ open_poll) w → cur_frames (rest w) = [] →
  ∃ n, sys_runs n (mkSys w {[main_thread := Cleanup]}) = Fail (Exited 0).
Proof.
  intros Hw HJ Hf. unfold Cleanup, delete_SynchConsole.
  set (p1 := do* RSetLevel IntOn; do* RV m_readLock; do* RV m_writeLock; do* RDev ConsoleClose; Goto ECloseConsole : prog devint Devs devop entry unit).
  set (w1 := set_rest (Scheduler_Halt (rest w)) w).
  assert (Hw1 : winv w1).
  { destruct (request_ok (DI := devs_wf) (irq := signalled) w RHalt Hw Hf I) as (w' & E & Hw' & _). by injection E as <-. }
  assert (HJ1 : holds (quietJ open_poll) w1) by (by apply (quiet_frames _ _ _ (rest w))).
  pose proof (runs_quiet open_poll p1 RHalt w w1 Hw HJ Hf eq_refl) as R1.
  destruct (request_ok (DI := devs_wf) (irq := signalled) w1 (RSetLevel IntOn) Hw1 Hf I) as (w2 & E2 & Hw2 & _).
  destruct (SetLevel_quiet _ w1 w2 IntOn (proj1 Hw1) HJ1 Hf E2) as (HJ2 & Hf2 & Hl2).
  pose proof (runs_quiet open_poll (do* RV m_readLock; do* RV m_writeLock; do* RDev ConsoleClose; Goto ECloseConsole : prog devint Devs devop entry unit)
    (RSetLevel IntOn) w1 w2 Hw1 HJ1 Hf E2) as R2.
  destruct (V_quiet open_poll (do* RV m_writeLock; do* RDev ConsoleClose; Goto ECloseConsole : prog devint Devs devop entry unit)
    m_readLock w2 Hw2 HJ2 Hf2 Hl2) as (w3 & R3 & Hw3 & HJ3 & Hf3 & Hl3); [set_solver|].
  destruct (V_quiet open_poll (do* RDev ConsoleClose; Goto ECloseConsole : prog devint Devs devop entry unit)
    m_writeLock w3 Hw3 HJ3 Hf3 Hl3) as (w4 & R4 & Hw4 & HJ4 & Hf4 & Hl4); [set_solver|].
  destruct (close_quiet (Goto ECloseConsole : prog devint Devs devop entry unit) w4 Hw4 HJ4 Hf4 Hl4)
    as (w5 & T & R5 & Hw5 & HJ5 & Hf5 & Hl5).
  destruct (loops_end (body thread_int garbage junk registers_garbage) ECloseConsole (Stop (Exited 0)) eq_refl T w5)
    as (n & w6 & E6 & (Hw6 & HJ6 & Hf6 & _) & _); [done|].
  exists (1 + (1 + (1 + (1 + 1))) + (n + 1))%nat.
  pose proof (runs_sys (body thread_int garbage junk registers_garbage) _ _ _ _ _ ∅
    (runs_trans _ _ _ _ _ _ _ _ R1 (runs_trans _ _ _ _ _ _ _ _ R2 (runs_trans _ _ _ _ _ _ _ _ R3
      (runs_trans _ _ _ _ _ _ _ _ R4 R5))))) as E5. rewrite !insert_empty in E5.
  rewrite (sys_run_app _ _ _ _ _ E5), (sys_run_app _ _ _ _ _ E6). apply stop_sys; [done| |done].
  by apply (quiet_current _ w6 Hw6 HJ6).
Qed.

Lemma program_ends u c st w : running u c w → ends (c_machine c) st →
  ∃ n, sys_runs n (mkSys w {[main_thread := Goto ERun]}) = Fail (Exited st).
Proof.
  intros ((Hw & Hf & T & T' & HJ) & <- & Ho) He.
  assert (Hsys : ∀ type m1, traps (machine (rest w)) SyscallException m1 → registers m1 !! 2%nat = Some type → ∃ w',
    sys_runs 5 (mkSys w {[main_thread := Goto ERun]}) =
      Ok (mkSys w' {[main_thread := call* _ := (call* _ := Syscall thread_int garbage junk registers_garbage type in
                                                On_machine UpdatePC Done) in do* RReturn; Goto ERun]}) ∧
    winv w' ∧ holds (soloJ (du := console_duty) (keyboard_kept T' 1 1 (c_input c)) (Some m1) T 0 1 (c_shown c, u)) w' ∧ cur_frames (rest w') = []).
  { intros type m1 Ht H2. destruct (enter_solo (keyboard_kept T' 1 1 (c_input c)) thread_int garbage junk registers_garbage type m1
      T 0 (c_shown c, u) None w Hw HJ Hf Ho Ht H2) as (w' & E & Hw' & HJ' & Hf' & _). by exists w'. }
  destruct He as [m1 v Ht H2 H4|m1 Ht H2]; destruct (Hsys _ m1 Ht H2) as (w1 & E1 & Hw1 & HJ1 & Hf1).
  - set (q := Stop (Exited v) : prog devint Devs devop entry unit).
    destruct (ask_solo (E := entry) (R := unit) (keyboard_kept T' 1 1 (c_input c)) T 0 1 (c_shown c, u) m1 (ReadRegister 4) v (λ v, Stop (Exited v)) w1 Hw1 HJ1 Hf1
      (ReadRegister_get _ 4 v H4 ltac:(done))) as (w2 & R2 & Hw2 & HJ2 & Hf2).
    exists (5 + (2 + 1))%nat. rewrite (sys_run_app _ _ _ _ _ E1).
    rewrite (sys_run_app _ 2 1 _ (mkSys w2 {[main_thread := q]})).
    + apply stop_sys; [done| |done]. by apply (solo_current _ _ _ _ _ _ w2 Hw2 HJ2).
    + rewrite <- !insert_empty. apply runs_sys.
      exact (runs_bind (λ _, do* RReturn; Goto ERun) _ _ _ _ _ (runs_bind (λ _, On_machine UpdatePC Done) _ _ _ _ _ R2)).
  - destruct (Cleanup_ends w1 Hw1 (at_console_quiet _ _ _ _ _ _ _ Hw1 HJ1) Hf1) as [n En].
    exists (5 + n)%nat. rewrite (sys_run_app _ _ _ _ _ E1). exact En.
Qed.

(** C4. A user program that ends ends Nachos. As for [kernel_runs_program], let [I k]
    hold of the configurations from which the program has [k] steps to take, whichever way
    they go; and let the next instruction of every configuration of [I 0] be the call Exit,
    or Halt. Then the kernel takes the program there and stops: with the status given to
    Exit, or with 0 for Halt, once the destructor of the console has waited for its poll,
    which comes. What is on the display then, the program has printed. *)
Theorem program_completes (u : bool) (I : nat → config → Prop) (status : config → Z) :
  (∀ k c, I (S k) c → ∃ c', user_step garbage u c c') → (∀ k c c', I (S k) c → user_step garbage u c c' → I k c') →
  (∀ c, I 0%nat c → ends (c_machine c) (status c)) →
  ∀ k c w, I k c → running u c w →
  ∃ n m w' c', sys_runs n (mkSys w {[main_thread := Goto ERun]}) = Ok (mkSys w' {[main_thread := Goto ERun]}) ∧
    nsteps (user_step garbage u) k c c' ∧ I 0%nat c' ∧ shown w' = c_shown c' ∧
    sys_runs (n + m) (mkSys w {[main_thread := Goto ERun]}) = Fail (Exited (status c')).
Proof.
  intros Hstep Hkeep Hend k c w HI Hw. destruct (kernel_takes u I Hstep Hkeep k c w HI Hw) as (n & w' & c' & E & Hs & H0 & Hr).
  destruct (program_ends u c' (status c') w' Hr (Hend c' H0)) as [m Em].
  exists n, m, w', c'. split; [exact E|]. split; [done|]. split; [done|].
  split; [exact (proj1 (at_console_shown _ _ _ _ _ (proj1 Hr)))|]. by rewrite (sys_run_app _ _ _ _ _ E).
Qed.
End Running.

(** ** Steps there is one of *)

Lemma traps_inj m which which' m1 m1' : traps m which m1 → traps m which' m1' → m1' = m1.
Proof.
  intros (b & x & E1 & E2) (b' & x' & E1' & E2'). rewrite E1 in E1'. injection E1' as _ <- <-. rewrite E2 in E2'. by injection E2'.
Qed.

Lemma may_load_settled m m' : settled (registers m) → may_load m m' → m' = m.
Proof. intros Hs [->|E]; [done|]. exact (DelayedLoad_settled _ _ Hs E). Qed.

Lemma instruction_step garbage u m m1 out s c :
  OneInstruction m = Ok (None, m1) → settled (registers m1) → user_step garbage u (mkConfig m out s) c →
  c = mkConfig m1 out s.
Proof.
  intros E Hset Hs. inversion Hs as [? m1' m2 ? ? E' Hm| ? ? ? ? ? ? ? ? (b & x & E' & _)|? ? ? ? ? ? ? ? (b & x & E' & _)]; subst;
    rewrite E in E'; [|done..]. injection E' as <-. by rewrite (may_load_settled _ _ Hset Hm).
Qed.

Lemma getchar_step garbage u m m1 out ch s c :
  traps m SyscallException m1 → registers m1 !! 2%nat = Some SC_GetChar →
  user_step garbage u (mkConfig m out (ch :: s)) c →
  c = mkConfig (next_machine (set_registers (<[2%nat := int8 ch]> (registers m1)) m1)) out s.
Proof.
  intros Ht H2 Hs. inversion Hs as [? ? ? ? ? E _|? x ? type ? ? ? ? Ht' H2' _ Hp _ _|? x ? type ? ? ? ? Ht' H2' Hr Ha]; subst.
  - destruct Ht as (b & y & E' & _). by rewrite E in E'.
  - pose proof (traps_inj _ _ _ _ _ Ht Ht'). subst x. rewrite H2 in H2'. injection H2' as <-. by inversion Hp.
  - pose proof (traps_inj _ _ _ _ _ Ht Ht'). subst x. rewrite H2 in H2'. injection H2' as <-.
    inversion Hr; subst. cbn in Ha. by subst.
Qed.

Lemma putchar_step garbage u m m1 ch out s c :
  traps m SyscallException m1 → registers m1 !! 2%nat = Some SC_PutChar → registers m1 !! 4%nat = Some ch →
  user_step garbage u (mkConfig m out s) c →
  c_shown c = out ++ put_bytes u ch ∧ c_input c = s ∧ registers (c_machine c) = next_pc (registers m1) ∧
  same_memory m1 (c_machine c).
Proof.
  intros Ht H2 H4 Hs. inversion Hs as [? ? ? ? ? E _|? x ? type ? ? ? ? Ht' H2' H4' Hp Hsm Hr|? x ? type ? ? ? ? Ht' H2' Hr Ha]; subst.
  - destruct Ht as (b & y & E' & _). by rewrite E in E'.
  - pose proof (traps_inj _ _ _ _ _ Ht Ht'). subst x. rewrite H2 in H2'. injection H2' as <-. rewrite H4 in H4'. injection H4' as <-.
    inversion Hp; subst. done.
  - pose proof (traps_inj _ _ _ _ _ Ht Ht'). subst x. rewrite H2 in H2'. injection H2' as <-. by inversion Hr.
Qed.

(** A program of one page: SYSCALL; addu r4,r2,r0; addiu r2,r0,n; SYSCALL. It reads a
    character and shows it when [n] is SC_PutChar, exits with it when [n] is SC_Exit. *)
Definition echo_memory (n : Z) : gmap Z Z :=
  list_to_map [(100, 12); (104, 0x21); (105, 0x20); (106, 0x40); (108, n); (110, 2); (111, 0x24); (112, 12)].
Definition echo_machine (n : Z) (ss : bool) (t : Z) (r : list Z) : Machine :=
  mkMachine (echo_memory n) r None (Some (as_pageTable putint_space)) 1 ss t.
(** Registers 2 and 4, and the place in the program. *)
Definition echo_regs (r2 r4 prev pc : Z) : list Z :=
  <[2%nat := r2]> (<[4%nat := r4]> (<[34%nat := pc]> (<[35%nat := pc + 4]> (<[36%nat := prev]> (replicate 40 0))))).

Definition echo_at (ss : bool) (t : Z) (k : nat) (c : config) : Prop :=
  match k with
  | 4%nat => c = mkConfig (echo_machine SC_PutChar ss t (echo_regs SC_GetChar 0 0 100)) [] [65]
  | 3%nat => c = mkConfig (echo_machine SC_PutChar ss t (echo_regs 65 0 100 104)) [] []
  | 2%nat => c = mkConfig (echo_machine SC_PutChar ss t (echo_regs 65 65 104 108)) [] []
  | 1%nat => c = mkConfig (echo_machine SC_PutChar ss t (echo_regs SC_PutChar 65 108 112)) [] []
  | 0%nat => c_shown c = [65] ∧ c_input c = [] ∧ registers (c_machine c) = echo_regs SC_PutChar 65 112 116
  | _ => False
  end.

Lemma echo_getchar n ss t :
  traps (echo_machine n ss t (echo_regs SC_GetChar 0 0 100)) SyscallException (echo_machine n ss t (echo_regs SC_GetChar 0 0 100)).
Proof. exists 0. eexists. split; vm_compute; reflexivity. Qed.
Lemma echo_call n ss t :
  traps (echo_machine n ss t (echo_regs n 65 108 112)) SyscallException (echo_machine n ss t (echo_regs n 65 108 112)).
Proof. exists 0. eexists. split; vm_compute; reflexivity. Qed.
Lemma echo_move n ss t :
  OneInstruction (echo_machine n ss t (echo_regs 65 0 100 104)) = Ok (None, echo_machine n ss t (echo_regs 65 65 104 108)).
Proof. vm_compute. reflexivity. Qed.
Lemma echo_number n ss t :
  n ∈ [SC_PutChar; SC_Exit] →
  OneInstruction (echo_machine n ss t (echo_regs 65 65 104 108)) = Ok (None, echo_machine n ss t (echo_regs n 65 108 112)).
Proof. rewrite !elem_of_cons. intros [->|[->|H%not_elem_of_nil] ]; [vm_compute; reflexivity..|done]. Qed.

Lemma echo_goes_on g ss t k c : echo_at ss t (S k) c → ∃ c', user_step g true c c'.
Proof.
  destruct k as [|[|[|[|k] ] ] ]; [intros -> ..|done].
  - eexists. eapply (us_prints g true _ _ (next_machine _)); [apply echo_call|reflexivity|reflexivity|apply prints_char| |reflexivity].
    apply same_memory_registers, next_pc_ok. split; [reflexivity|]. split; [repeat constructor; done|by exists 0].
  - eexists. eapply us_instruction; [by apply echo_number; set_solver|by left].
  - eexists. eapply us_instruction; [apply echo_move|by left].
  - eexists. eapply us_reads; [apply echo_getchar|reflexivity|apply reads_char|reflexivity].
Qed.

Lemma echo_step g ss t k c c' : echo_at ss t (S k) c → user_step g true c c' → echo_at ss t k c'.
Proof.
  destruct k as [|[|[|[|k] ] ] ]; [intros -> Hs..|done].
  - destruct (putchar_step _ _ _ _ _ _ _ _ (echo_call SC_PutChar ss t) eq_refl eq_refl Hs) as (H1 & H2 & H3 & _). by split.
  - exact (instruction_step _ _ _ _ _ _ _ (echo_number SC_PutChar ss t ltac:(set_solver)) ltac:(by split) Hs).
  - exact (instruction_step _ _ _ _ _ _ _ (echo_move SC_PutChar ss t) ltac:(by split) Hs).
  - exact (getchar_step _ _ _ _ _ _ _ _ (echo_getchar SC_PutChar ss t) eq_refl Hs).
Qed.

Lemma kernel_runs_program_witness :
  ∃ n w w' c', shown w = [] ∧ to_read (dev (rest w)) = [65] ∧
    sys_run (body (λ t, Zpos t) (λ _, 33) 5 (replicate 40 0)) n (mkSys w {[main_thread := Goto ERun]}) =
      Ok (mkSys w' {[main_thread := Goto ERun]}) ∧
    running true c' w' ∧ c_shown c' = [65] ∧ c_input c' = [].
Proof.
  destruct (program_at_console putint_space (echo_memory SC_PutChar) (echo_regs SC_GetChar 0 0 100) [(7000, 65)] [65]) as (w & Hw & Ho & ss & t & Em).
  - split; [reflexivity|]. by repeat constructor.
  - unfold echo_memory. cbn [list_to_map foldr fst snd]. repeat (apply map_Forall_insert_2; [done|]). apply map_Forall_empty.
  - split; [reflexivity|]. split; [repeat constructor; done|by exists 0].
  - done.
  - reflexivity.
  - pose proof (at_console_shown _ _ _ _ _ Hw) as [H1 H2].
    destruct (kernel_runs_program (λ t, Zpos t) (λ _, 33) 5 (replicate 40 0) true (echo_at ss t) (echo_goes_on (λ _, 33) ss t)
      (echo_step (λ _, 33) ss t) 4 (mkConfig (echo_machine SC_PutChar ss t (echo_regs SC_GetChar 0 0 100)) [] [65]) w eq_refl)
      as (n & w' & c' & E & _ & (H3 & H4 & _) & Hr); [by split|].
    exists n, w, w', c'. split; [done|]. split; [done|]. split; [exact E|]. done.
Defined.

(** The other: three steps, and Exit. *)
Definition exit_at (ss : bool) (t : Z) (k : nat) (c : config) : Prop :=
  match k with
  | 3%nat => c = mkConfig (echo_machine SC_Exit ss t (echo_regs SC_GetChar 0 0 100)) [] [65]
  | 2%nat => c = mkConfig (echo_machine SC_Exit ss t (echo_regs 65 0 100 104)) [] []
  | 1%nat => c = mkConfig (echo_machine SC_Exit ss t (echo_regs 65 65 104 108)) [] []
  | 0%nat => c = mkConfig (echo_machine SC_Exit ss t (echo_regs SC_Exit 65 108 112)) [] []
  | _ => False
  end.

Lemma exit_goes_on g ss t k c : exit_at ss t (S k) c → ∃ c', user_step g true c c'.
Proof.
  destruct k as [|[|[|k] ] ]; [intros -> ..|done].
  - eexists. eapply us_instruction; [apply echo_number; set_solver|by left].
  - eexists. eapply us_instruction; [apply echo_move|by left].
  - eexists. eapply us_reads; [apply echo_getchar|reflexivity|apply reads_char|reflexivity].
Qed.

Lemma exit_step g ss t k c c' : exit_at ss t (S k) c → user_step g true c c' → exit_at ss t k c'.
Proof.
  destruct k as [|[|[|k] ] ]; [intros -> Hs..|done].
  - exact (instruction_step _ _ _ _ _ _ _ (echo_number SC_Exit ss t ltac:(set_solver)) ltac:(by split) Hs).
  - exact (instruction_step _ _ _ _ _ _ _ (echo_move SC_Exit ss t) ltac:(by split) Hs).
  - exact (getchar_step _ _ _ _ _ _ _ _ (echo_getchar SC_Exit ss t) eq_refl Hs).
Qed.

Lemma program_completes_witness :
  ∃ n w, to_read (dev (rest w)) = [65] ∧
    sys_run (body (λ t, Zpos t) (λ _, 33) 5 (replicate 40 0)) n (mkSys w {[main_thread := Goto ERun]}) = Fail (Exited 65).
Proof.
  destruct (program_at_console putint_space (echo_memory SC_Exit) (echo_regs SC_GetChar 0 0 100) [(7000, 65)] [65])
    as (w & Hw & Ho & ss & t & Em).
  - split; [reflexivity|]. by repeat constructor.
  - unfold echo_memory. cbn [list_to_map foldr fst snd]. repeat (apply map_Forall_insert_2; [done|]). apply map_Forall_empty.
  - split; [reflexivity|]. split; [repeat constructor; done|by exists 0].
  - done.
  - reflexivity.
  - pose proof (at_console_shown _ _ _ _ _ Hw) as [_ H2].
    destruct (program_completes (λ t, Zpos t) (λ _, 33) 5 (replicate 40 0) true (exit_at ss t) (λ _, 65) (exit_goes_on (λ _, 33) ss t)
      (exit_step (λ _, 33) ss t)) with (k := 3%nat) (c := mkConfig (echo_machine SC_Exit ss t (echo_regs SC_GetChar 0 0 100)) [] [65]) (w := w)
      as (n & m & w' & c' & _ & _ & _ & _ & E); [|done|by split|].
    + intros c ->. eapply ends_exit; [apply echo_call|reflexivity|reflexivity].
    + exists (n + m)%nat, w. split; [done|exact E].
Defined.
