(* ===== verification/TestPrograms.v ===== *)
(** * The user programs (test/sort.c, matmult.c, halt.c, putchar.c, makethreads.c, shell.c)

    What the test programs compute, and the system calls they make. An access past the end
    of an array of theirs fails. Their compilation for the simulated machine is not here:
    UserProgram.v starts from instructions. *)
From stdpp Require Import strings list sorting.
From S2P Require Import Prelude Words Directory Machine AddrSpace Programs Devices UserThread Exception.

(** ** Programs and their calls *)

(** What a call is given; a string is the bytes before its NUL, a function its name. *)
Inductive uarg := AInt (v : Z) | AString (s : list Z) | AFun (f : string).

(** [k] goes on from what the call answers. [UReturn] is the end of main, for which start.S
    calls Exit(0), or of a thread's function. *)
Inductive uprog :=
  | UCall (type : Z) (args : list uarg) (k : Z → uprog)
  | UReturn.

Definition UExit (v : Z) : uprog := UCall SC_Exit [AInt v] (λ _, UReturn).
Definition UHalt : uprog := UCall SC_Halt [] (λ _, UReturn).
Definition UPutChar (ch : Z) (p : uprog) : uprog := UCall SC_PutChar [AInt (int8 ch)] (λ _, p).
Definition UPutString (s : string) (p : uprog) : uprog :=
  UCall SC_PutString [AString (Z.of_N ∘ Ascii.N_of_ascii <$> String.list_ascii_of_string s)] (λ _, p).
Definition UGetChar (k : Z → uprog) : uprog := UCall SC_GetChar [] k.

(** The calls after which the program does not go on. *)
Definition last_call (type : Z) : bool := (type =? SC_Exit) || (type =? SC_Halt) || (type =? SC_ThreadExit).

(** The calls made when they answer [answers], in order. *)
Fixpoint calls (p : uprog) (answers : list Z) : list (Z * list uarg) :=
  match p, answers with
  | UReturn, _ => []
  | UCall type args k, [] => [(type, args)]
  | UCall type args k, a :: answers =>
      (type, args) :: if last_call type then [] else calls (k a) answers
  end.

(** ** sort.c *)
Module Sort.

Definition N : Z := 1024.

(** [for (i = 0; i < N; i++) A[i] = N - i] *)
Definition init (n : Z) : ST (list Z) unit :=
  st_for 0 n (λ i A, let? A := arr_set A i (int32 (n - i)) in Ok (tt, A)).

(** The body of the inner loop. *)
Definition compare (j : Z) : ST (list Z) unit := λ A,
  let? x := arr_get A j in
  let? y := arr_get A (j + 1) in
  if x >? y then
    let? tmp := arr_get A j in
    let? A := arr_set A j y in
    let? A := arr_set A (j + 1) tmp in
    Ok (tt, A)
  else Ok (tt, A).

(** [for (i = 1; i < N; i++) for (j = 0; j < N - i; j++)] *)
Definition pass (n i : Z) : ST (list Z) unit := st_for 0 (n - i) compare.
Definition bubble (n : Z) : ST (list Z) unit := st_for 1 n (pass n).

(** main, from the array of the bss. *)
Definition main (n : Z) : res uprog :=
  let? r := (let* _ := init n in bubble n) (replicate (Z.to_nat n) 0) in
  let? a := arr_get r.2 0 in
  Ok (UExit a).

(** The elements from [m] on are in order, and none before them is larger. *)
Definition settled_from (m : Z) (A : list Z) : Prop :=
  ∀ a b, 0 ≤ a < b → b < Z.of_nat (length A) → m ≤ b → A !!! Z.to_nat a ≤ A !!! Z.to_nat b.

(** The element at [j] is the largest so far. *)
Definition largest_at (j : Z) (A : list Z) : Prop :=
  ∀ a, 0 ≤ a < j → A !!! Z.to_nat a ≤ A !!! Z.to_nat j.

Lemma arr_get_total (A : list Z) i : 0 ≤ i < Z.of_nat (length A) → arr_get A i = Ok (A !!! Z.to_nat i).
Proof.
  intros Hi. destruct (lookup_lt_is_Some_2 A (Z.to_nat i)) as [x E]; [lia|].
  rewrite (arr_get_lookup _ _ x) by (done || lia). by rewrite (list_lookup_total_correct _ _ _ E).
Qed.

Lemma swap_permutes (A : list Z) (j : nat) :
  (S j < length A)%nat → <[S j := A !!! j]> (<[j := A !!! S j]> A) ≡ₚ A.
Proof.
  intros Hj. destruct (lookup_lt_is_Some_2 A j) as [x Ex]; [lia|]. destruct (lookup_lt_is_Some_2 A (S j)) as [y Ey]; [lia|].
  rewrite (list_lookup_total_correct _ _ _ Ex), (list_lookup_total_correct _ _ _ Ey).
  assert (EA : A = take j A ++ x :: y :: drop (S (S j)) A).
  { by rewrite <- (drop_S _ _ _ Ey), <- (drop_S _ _ _ Ex), take_drop. }
  assert (Hl : length (take j A) = j) by (rewrite length_take; lia).
  rewrite EA. clear EA Ex Ey. generalize (drop (S (S j)) A). intros l. set (p := take j A) in *. clearbody p.
  rewrite (insert_app_r_alt p _ j y), Hl, Nat.sub_diag by lia. cbn [insert list_insert].
  rewrite (insert_app_r_alt p _ (S j) x), Hl, Nat.sub_succ_l, Nat.sub_diag by lia. cbn [insert list_insert].
  apply Permutation_app_head, perm_swap.
Qed.

Lemma compare_ok n i j A :
  1 ≤ i → 0 ≤ j < n - i → Z.of_nat (length A) = n → settled_from (n - i + 1) A → largest_at j A →
  ∃ A', compare j A = Ok (tt, A') ∧ A' ≡ₚ A ∧ settled_from (n - i + 1) A' ∧ largest_at (j + 1) A'.
Proof.
  intros Hi Hj Hl Hs Hm. unfold compare. rewrite !arr_get_total by lia. cbn [res_bind].
  replace (Z.to_nat (j + 1)) with (S (Z.to_nat j)) by lia. set (k := Z.to_nat j).
  assert (Hk : (S k < length A)%nat) by lia.
  destruct (Z.gtb_spec (A !!! k) (A !!! S k)) as [Hgt|Hle].
  - rewrite arr_set_in by lia. cbn [res_bind]. rewrite arr_set_in by (rewrite length_insert; lia). cbn [res_bind].
    replace (Z.to_nat (j + 1)) with (S k) by lia. fold k. set (A' := <[S k := _]> _).
    assert (HA : ∀ a, A' !!! a = if decide (a = S k) then A !!! k else if decide (a = k) then A !!! S k else A !!! a).
    { intros a. unfold A'. destruct (decide (a = S k)) as [->|H1]; [by rewrite list_lookup_total_insert_eq by (rewrite length_insert; lia)|].
      rewrite list_lookup_total_insert_ne by done.
      destruct (decide (a = k)) as [->|H2]; [by rewrite list_lookup_total_insert_eq by lia|by rewrite list_lookup_total_insert_ne]. }
    exists A'. split; [done|]. split; [by apply swap_permutes|].
    assert (Hl' : length A' = length A) by (unfold A'; by rewrite !length_insert). split.
    + intros a b Ha Hb Hmb. rewrite Hl' in Hb. rewrite !HA. rewrite (decide_False (P := Z.to_nat b = _)), (decide_False (P := Z.to_nat b = _)) by lia.
      destruct (decide (Z.to_nat a = S k)); [apply (Hs j b); lia|]. destruct (decide (Z.to_nat a = k)).
      * replace (S k) with (Z.to_nat (j + 1)) by lia. apply Hs; lia.
      * by apply Hs.
    + intros a Ha. rewrite !HA. rewrite (decide_True (P := Z.to_nat (j + 1) = _)) by lia.
      rewrite decide_False by lia. destruct (decide (Z.to_nat a = k)); [lia|]. apply Hm. lia.
  - exists A. split; [done|]. split; [done|]. split; [done|]. intros a Ha.
    replace (Z.to_nat (j + 1)) with (S k) by lia. destruct (decide (a = j)) as [->|Hne]; [exact Hle|].
    etrans; [apply Hm; lia|exact Hle].
Qed.

(** A pass carries the largest of the first elements to its place. *)
Lemma pass_ok n i A :
  1 ≤ i < n → Z.of_nat (length A) = n → settled_from (n - i + 1) A →
  ∃ A', pass n i A = Ok (tt, A') ∧ A' ≡ₚ A ∧ settled_from (n - (i + 1) + 1) A'.
Proof.
  intros Hi Hl Hs. unfold pass.
  destruct (st_for_inv (λ j A', A' ≡ₚ A ∧ settled_from (n - i + 1) A' ∧ largest_at j A') 0 (n - i) compare A)
    as (A' & E & Hp & Hs' & Hm); [lia|by split; [|split; [|intros ? ?; lia] ]| |].
  - intros j A1 Hj (Hp & H1 & H2). destruct (compare_ok n i j A1) as (A2 & E & Hp2 & ?); [lia..|by rewrite Hp|done|done|].
    exists A2. split; [done|]. split; [by rewrite Hp2|done].
  - exists A'. split; [done|]. split; [done|]. intros a b Ha Hb Hmb.
    destruct (decide (n - i + 1 ≤ b)); [by apply Hs'|]. replace b with (n - i) by lia. apply Hm. lia.
Qed.

Lemma settled_sorted A : settled_from 1 A → StronglySorted Z.le A.
Proof.
  induction A as [|x A IH]; intros H; constructor.
  - apply IH. intros a b Ha Hb Hm. specialize (H (a + 1) (b + 1)). cbn [length] in H.
    replace (Z.to_nat (a + 1)) with (S (Z.to_nat a)) in H by lia. replace (Z.to_nat (b + 1)) with (S (Z.to_nat b)) in H by lia.
    apply H; lia.
  - apply Forall_lookup. intros b y Ey. specialize (H 0 (Z.of_nat b + 1)). cbn [length] in H.
    replace (Z.to_nat (Z.of_nat b + 1)) with (S b) in H by lia. change ((x :: A) !!! S b) with (A !!! b) in H.
    rewrite (list_lookup_total_correct _ _ _ Ey) in H.
    apply H; [lia| |lia]. apply lookup_lt_Some in Ey. lia.
Qed.

Lemma bubble_ok n A :
  0 ≤ n → Z.of_nat (length A) = n →
  ∃ A', bubble n A = Ok (tt, A') ∧ A' ≡ₚ A ∧ StronglySorted Z.le A'.
Proof.
  intros Hn Hl. unfold bubble. destruct (decide (n ≤ 1)) as [H1|H1].
  { rewrite st_for_done by lia. exists A. split; [done|]. split; [done|]. apply settled_sorted. intros a b ? ? ?. lia. }
  destruct (st_for_inv (λ i A', A' ≡ₚ A ∧ settled_from (n - i + 1) A') 1 n (pass n) A) as (A' & E & Hp & Hs).
  - lia.
  - split; [done|]. intros a b ? ? ?. lia.
  - intros i A1 Hi (Hp & H2). destruct (pass_ok n i A1) as (A2 & E & Hp2 & ?); [lia|by rewrite Hp|done|].
    exists A2. split; [done|]. split; [by rewrite Hp2|done].
  - exists A'. split; [done|]. split; [done|]. apply settled_sorted. by replace (n - n + 1) with 1 in Hs by lia.
Qed.

(** C36. The loops of sort.c sort: whatever is in an array of [n] elements, they end with
    its elements in increasing order, and never leave the array. *)
Theorem bubble_sorts n A :
  0 ≤ n → Z.of_nat (length A) = n →
  ∃ A', bubble n A = Ok (tt, A') ∧ A' ≡ₚ A ∧ StronglySorted Z.le A'.
Proof. apply bubble_ok. Qed.

Lemma bubble_sorts_witness :
  ∃ A', bubble 5 [3; -1; 7; 3; 0] = Ok (tt, A') ∧ StronglySorted Z.le A'.
Proof. destruct (bubble_sorts 5 [3; -1; 7; 3; 0]) as (A' & E & _ & Hs); [lia|done|]. by exists A'. Defined.

Lemma init_ok n :
  0 ≤ n < 2 ^ 31 → init n (replicate (Z.to_nat n) 0) = Ok (tt, (λ i, n - Z.of_nat i) <$> seq 0 (Z.to_nat n)).
Proof.
  intros Hn. unfold init.
  match goal with |- st_for 0 n ?b ?s = _ =>
    destruct (st_for_inv (λ i A, length A = Z.to_nat n ∧ ∀ k, (k < Z.to_nat i)%nat → A !! k = Some (n - Z.of_nat k)) 0 n b s)
      as (A' & -> & Hl & HA) end.
  - lia.
  - rewrite length_replicate. split; [done|]. intros k Hk. lia.
  - intros i A Hi [Hl HA]. rewrite arr_set_in by lia. cbn [res_bind]. eexists. split; [done|].
    rewrite length_insert. split; [done|]. intros k Hk. destruct (decide (k = Z.to_nat i)) as [->|Hne].
    + rewrite list_lookup_insert_eq by lia. rewrite int32_id by (unfold is_int32; lia). f_equal. lia.
    + rewrite list_lookup_insert_ne by done. apply HA. lia.
  - do 2 f_equal. apply list_eq. intros k. rewrite list_lookup_fmap. destruct (decide (k < Z.to_nat n)%nat).
    + rewrite HA by done. by rewrite lookup_seq_lt.
    + rewrite lookup_ge_None_2 by lia. by rewrite lookup_seq_ge by lia.
Qed.

(** The program exits with the least of the numbers 1 to N. *)
Theorem main_exits n : 1 ≤ n < 2 ^ 31 → main n = Ok (UExit 1).
Proof.
  intros Hn. unfold main. rewrite (st_bind_Ok _ _ _ _ _ (init_ok n ltac:(lia))).
  destruct (bubble_ok n ((λ i, n - Z.of_nat i) <$> seq 0 (Z.to_nat n))) as (A' & -> & Hp & Hs);
    [lia|rewrite length_fmap, length_seq; lia|].
  cbn [res_bind snd]. rewrite arr_get_total by (rewrite Hp, length_fmap, length_seq; lia). cbn [res_bind].
  assert (Hin : ∀ x, x ∈ A' ↔ 1 ≤ x ≤ n).
  { intros x. rewrite Hp, list_elem_of_fmap. setoid_rewrite elem_of_seq. split; [intros (k & -> & Hk); lia|].
    intros Hx. exists (Z.to_nat (n - x)). lia. }
  destruct A' as [|x A']; [by destruct (proj1 (elem_of_nil 1) (proj2 (Hin 1) ltac:(lia)))|].
  cbn. do 2 f_equal. apply StronglySorted_inv in Hs as [_ Hall]. rewrite Forall_forall in Hall.
  pose proof (proj1 (Hin x) ltac:(set_solver)) as Hx. destruct (decide (x = 1)); [done|].
  assert (1 ∈ x :: A') as [H|H]%elem_of_cons by (apply Hin; lia); [congruence|]. specialize (Hall 1 H). lia.
Qed.

Lemma main_exits_witness : main N = Ok (UExit 1).
Proof. apply main_exits. split; unfold N; lia. Defined.
End Sort.

(** ** matmult.c *)
Module MatMult.

Definition Dim : Z := 20.

(** [M[i][j]] and [M[i][j] = v] *)
Definition get2 (M : list (list Z)) (i j : Z) : res Z := let? r := arr_get M i in arr_get r j.
Definition set2 (M : list (list Z)) (i j v : Z) : res (list (list Z)) :=
  let? r := arr_get M i in let? r := arr_set r j v in arr_set M i r.

Record Arrays := mkArrays { arr_A : list (list Z); arr_B : list (list Z); arr_C : list (list Z) }.

(** The matrices are initialised, *)
Definition init (d : Z) : ST Arrays unit :=
  st_for 0 d (λ i, st_for 0 d (λ j s,
    let? A := set2 (arr_A s) i j i in
    let? B := set2 (arr_B s) i j j in
    let? C := set2 (arr_C s) i j 0 in
    Ok (tt, mkArrays A B C))).

(** and multiplied: [C[i][j] += A[i][k] * B[k][j]]. *)
Definition accumulate (i j k : Z) : ST Arrays unit := λ s,
  let? c := get2 (arr_C s) i j in
  let? a := get2 (arr_A s) i k in
  let? b := get2 (arr_B s) k j in
  let? C := set2 (arr_C s) i j (int32 (c + int32 (a * b))) in
  Ok (tt, mkArrays (arr_A s) (arr_B s) C).
Definition multiply (d : Z) : ST Arrays unit :=
  st_for 0 d (λ i, st_for 0 d (λ j, st_for 0 d (λ k, accumulate i j k))).

Definition zeros (d : Z) : list (list Z) := replicate (Z.to_nat d) (replicate (Z.to_nat d) 0).

(** main, from the arrays of the bss. *)
Definition main (d : Z) : res uprog :=
  let? r := (let* _ := init d in multiply d) (mkArrays (zeros d) (zeros d) (zeros d)) in
  let? c := get2 (arr_C r.2) (d - 1) (d - 1) in
  Ok (UExit c).

(** A square array, and the element of a row and a column. *)
Definition square (d : Z) (M : list (list Z)) : Prop :=
  Z.of_nat (length M) = d ∧ ∀ i r, M !! i = Some r → Z.of_nat (length r) = d.
Definition cell (M : list (list Z)) (i j : Z) : Z := (M !!! Z.to_nat i) !!! Z.to_nat j.

Lemma square_row d M i : square d M → 0 ≤ i < d → ∃ r, arr_get M i = Ok r ∧ M !! Z.to_nat i = Some r ∧ Z.of_nat (length r) = d.
Proof. intros [Hl Hr] Hi. destruct (arr_get_in M i) as (r & E & El); [lia|]. exists r. eauto. Qed.

Lemma get2_ok d M i j : square d M → 0 ≤ i < d → 0 ≤ j < d → get2 M i j = Ok (cell M i j).
Proof.
  intros HM Hi Hj. destruct (square_row d M i HM Hi) as (r & E & El & Hl). unfold get2, cell. rewrite E. cbn [res_bind].
  rewrite (list_lookup_total_correct _ _ _ El). apply Sort.arr_get_total. lia.
Qed.

Lemma set2_ok d M i j v :
  square d M → 0 ≤ i < d → 0 ≤ j < d →
  ∃ M', set2 M i j v = Ok M' ∧ square d M' ∧
    ∀ i' j', 0 ≤ i' → 0 ≤ j' → cell M' i' j' = if decide (i' = i ∧ j' = j) then v else cell M i' j'.
Proof.
  intros HM Hi Hj. destruct (square_row d M i HM Hi) as (r & E & El & Hl). unfold set2. rewrite E. cbn [res_bind].
  rewrite arr_set_in by lia. cbn [res_bind]. destruct HM as [HlM HrM]. rewrite arr_set_in by lia.
  eexists. split; [done|]. split; [split|].
  - by rewrite length_insert.
  - intros i' r'. destruct (decide (i' = Z.to_nat i)) as [->|Hne].
    + rewrite list_lookup_insert_eq by lia. intros [= <-]. by rewrite length_insert.
    + rewrite list_lookup_insert_ne by done. apply HrM.
  - intros i' j' Hi' Hj'. unfold cell. destruct (decide (i' = i)) as [->|Hne].
    + rewrite list_lookup_total_insert_eq by lia. rewrite (list_lookup_total_correct _ _ _ El).
      destruct (decide (j' = j)) as [->|Hne]; [by rewrite decide_True, list_lookup_total_insert_eq by lia|].
      rewrite decide_False by naive_solver. by rewrite list_lookup_total_insert_ne by lia.
    + rewrite decide_False by naive_solver. by rewrite list_lookup_total_insert_ne by lia.
Qed.

(** The first [n] terms of the product's element. *)
Definition dot (A B : list (list Z)) (i j : Z) (n : nat) : Z :=
  foldr Z.add 0 ((λ k, cell A i (Z.of_nat k) * cell B (Z.of_nat k) j) <$> seq 0 n).

Lemma dot_S A B i j n : dot A B i j (S n) = dot A B i j n + cell A i (Z.of_nat n) * cell B (Z.of_nat n) j.
Proof.
  unfold dot. rewrite seq_S, fmap_app, foldr_app. cbn [foldr fmap list_fmap Nat.add].
  induction ((λ k, cell A i (Z.of_nat k) * cell B (Z.of_nat k) j) <$> seq 0 n); cbn [foldr]; lia.
Qed.

Lemma int32_add_wrap a b : int32 (int32 a + int32 b) = int32 (a + b).
Proof.
  destruct (int32_cong a) as [k ->], (int32_cong b) as [l ->]. unfold int32.
  replace (a + k * 4294967296 + (b + l * 4294967296) + 2147483648) with (a + b + 2147483648 + (k + l) * 4294967296) by lia.
  by rewrite Z.mod_add.
Qed.

Section Multiply.
Context (d : Z) (A B : list (list Z)) (HA : square d A) (HB : square d B).

(** What the elements up to that of row [i] and column [j] are; of that one, [n] terms. *)
Definition so_far (i j : Z) (n : nat) (C : list (list Z)) : Prop :=
  square d C ∧ ∀ i' j', 0 ≤ i' < d → 0 ≤ j' < d →
    cell C i' j' = if decide (i' < i ∨ i' = i ∧ j' < j) then int32 (dot A B i' j' (Z.to_nat d))
                   else if decide (i' = i ∧ j' = j) then int32 (dot A B i j n) else 0.

Lemma accumulate_ok i j k C :
  0 ≤ i < d → 0 ≤ j < d → 0 ≤ k < d → so_far i j (Z.to_nat k) C →
  ∃ C', accumulate i j k (mkArrays A B C) = Ok (tt, mkArrays A B C') ∧ so_far i j (Z.to_nat (k + 1)) C'.
Proof.
  intros Hi Hj Hk [HC Hc]. unfold accumulate. cbn [arr_A arr_B arr_C].
  rewrite (get2_ok d C), (get2_ok d A), (get2_ok d B) by done. cbn [res_bind].
  set (v := int32 _). destruct (set2_ok d C i j v HC Hi Hj) as (C' & -> & HC' & Hc'). cbn [res_bind].
  exists C'. split; [done|]. split; [done|]. intros i' j' Hi' Hj'. rewrite Hc' by lia.
  destruct (decide (i' = i ∧ j' = j)) as [ [-> ->]|Hne].
  - rewrite decide_False by lia. unfold v. rewrite Hc, decide_False, decide_True by (done || lia).
    rewrite int32_add_wrap. replace (Z.to_nat (k + 1)) with (S (Z.to_nat k)) by lia.
    by rewrite dot_S, Z2Nat.id by lia.
  - rewrite Hc by done. by rewrite (decide_False (P := i' = i ∧ j' = j)).
Qed.

Lemma element_ok i j C :
  0 ≤ i < d → 0 ≤ j < d → so_far i j 0 C →
  ∃ C', st_for 0 d (λ k, accumulate i j k) (mkArrays A B C) = Ok (tt, mkArrays A B C') ∧ so_far i (j + 1) 0 C'.
Proof.
  intros Hi Hj HC.
  destruct (st_for_inv (λ k s, ∃ C', s = mkArrays A B C' ∧ so_far i j (Z.to_nat k) C') 0 d (λ k, accumulate i j k) (mkArrays A B C))
    as (s & E & C' & -> & HC' & Hc').
  - lia.
  - by exists C.
  - intros k s Hk (C1 & -> & H1). destruct (accumulate_ok i j k C1 Hi Hj Hk H1) as (C2 & E & H2). eauto.
  - exists C'. split; [done|]. split; [done|]. intros i' j' Hi' Hj'. rewrite Hc' by done.
    destruct (decide (i' < i ∨ i' = i ∧ j' < j)); [by rewrite decide_True by lia|].
    destruct (decide (i' = i ∧ j' = j)) as [ [-> ->]|]; [by rewrite decide_True by lia|].
    rewrite decide_False by lia. destruct (decide _); [|done]. by unfold dot.
Qed.

Lemma row_ok i C :
  0 ≤ i < d → so_far i 0 0 C →
  ∃ C', st_for 0 d (λ j, st_for 0 d (λ k, accumulate i j k)) (mkArrays A B C) = Ok (tt, mkArrays A B C') ∧ so_far (i + 1) 0 0 C'.
Proof.
  intros Hi HC.
  destruct (st_for_inv (λ j s, ∃ C', s = mkArrays A B C' ∧ so_far i j 0 C') 0 d
    (λ j, st_for 0 d (λ k, accumulate i j k)) (mkArrays A B C)) as (s & E & C' & -> & HC' & Hc').
  - lia.
  - by exists C.
  - intros j s Hj (C1 & -> & H1). destruct (element_ok i j C1 Hi Hj H1) as (C2 & E & H2). eauto.
  - exists C'. split; [done|]. split; [done|]. intros i' j' Hi' Hj'. rewrite Hc' by done.
    destruct (decide (i' < i ∨ i' = i ∧ j' < d)); [by rewrite decide_True by lia|].
    rewrite decide_False by lia. rewrite decide_False by lia. destruct (decide _); [|done]. by unfold dot.
Qed.
End Multiply.

(** The loops compute the product, in the arithmetic of the machine. *)
Theorem multiply_product d A B :
  0 ≤ d → square d A → square d B →
  ∃ C, multiply d (mkArrays A B (zeros d)) = Ok (tt, mkArrays A B C) ∧ square d C ∧
    ∀ i j, 0 ≤ i < d → 0 ≤ j < d → cell C i j = int32 (dot A B i j (Z.to_nat d)).
Proof.
  intros Hd HA HB.
  destruct (st_for_inv (λ i s, ∃ C, s = mkArrays A B C ∧ so_far d A B i 0 0 C) 0 d
    (λ i, st_for 0 d (λ j, st_for 0 d (λ k, accumulate i j k))) (mkArrays A B (zeros d))) as (s & E & C & -> & HC & Hc).
  - done.
  - exists (zeros d). split; [done|]. split; [split|].
    + unfold zeros. rewrite length_replicate. lia.
    + intros i r [-> _]%lookup_replicate. rewrite length_replicate. lia.
    + intros i j Hi Hj. unfold cell, zeros. rewrite decide_False by lia.
      rewrite (lookup_total_replicate_2 _ _ (Z.to_nat i)) by lia. rewrite lookup_total_replicate_2 by lia.
      destruct (decide _); [by unfold dot|done].
  - intros i s Hi (C1 & -> & H1). destruct (row_ok d A B HA HB i C1 Hi H1) as (C2 & E & H2). eauto.
  - exists C. split; [exact E|]. split; [done|]. intros i j Hi Hj. rewrite Hc by done. by rewrite decide_True by lia.
Qed.

Lemma multiply_product_witness :
  ∃ C, multiply 2 (mkArrays [[1; 2]; [3; 4]] [[5; 6]; [7; 2147483647]] (zeros 2)) =
      Ok (tt, mkArrays [[1; 2]; [3; 4]] [[5; 6]; [7; 2147483647]] C) ∧ cell C 0 0 = 19 ∧ cell C 0 1 = 4.
Proof.
  destruct (multiply_product 2 [[1; 2]; [3; 4]] [[5; 6]; [7; 2147483647]]) as (C & E & _ & Hc); [lia| | |].
  - split; [done|]. intros [|[|i] ] r; cbn; intros [= <-]; done.
  - split; [done|]. intros [|[|i] ] r; cbn; intros [= <-]; done.
  - exists C. split; [exact E|]. rewrite !Hc by lia. split; vm_compute; reflexivity.
Defined.

(** 20 times 19 times 19. *)
Lemma main_exit_status : main Dim = Ok (UExit 7220).
Proof. vm_compute. reflexivity. Qed.
End MatMult.

(** ** halt.c *)
Module HaltProgram.
Definition g_num1 : Z := 10.
Definition g_num2 : Z := 20.

(** The result is computed and not used. *)
Definition result : Z := int32 (int32 (g_num1 + g_num2) * int32 (g_num2 + 1)).
Definition main : uprog := UHalt.
End HaltProgram.

(** ** putchar.c *)
Module PutCharProgram.

(** [for (i = 0; i < n; i++) PutChar(c + i)], [i] turns done; the argument is a [char]. *)
Fixpoint print_loop (fuel : nat) (c i n : Z) (p : uprog) : uprog :=
  match fuel with
  | 0%nat => p
  | S fuel => if i <? n then UPutChar (c + i) (print_loop fuel c (i + 1) n p) else p
  end.
Definition print (c n : Z) (p : uprog) : uprog := print_loop (Z.to_nat n) c 0 n (UPutChar 10 p).

Definition greeting : string := "1234567890abcdefg" +:+ String (Ascii.ascii_of_nat 10) "".
Definition main : uprog :=
  UPutString greeting (UGetChar (λ n,
  if negb (n =? 10) then UPutChar n (UPutChar 10 (UExit 2)) else UExit 2)).

(** The calls of print: the characters from [c] on, as [char]s, and a newline. *)
Lemma print_calls c n p answers :
  0 ≤ n → length answers = Z.to_nat (n + 1) →
  calls (print c n p) answers =
    ((λ i, (SC_PutChar, [AInt (int8 (c + i))])) <$> seqZ 0 n) ++ (SC_PutChar, [AInt 10]) :: calls p [].
Proof.
  intros Hn Hl. unfold print.
  enough (Hgen : ∀ fuel i answers, 0 ≤ i ≤ n → fuel = Z.to_nat (n - i) → length answers = S fuel →
    calls (print_loop fuel c i n (UPutChar 10 p)) answers =
      ((λ i, (SC_PutChar, [AInt (int8 (c + i))])) <$> seqZ i (n - i)) ++ (SC_PutChar, [AInt 10]) :: calls p []).
  { rewrite Hgen by lia. by rewrite Z.sub_0_r. }
  clear. induction fuel as [|fuel IH]; intros i answers Hi Hf Hl; destruct answers as [|a answers]; try done; cbn [print_loop].
  - rewrite seqZ_nil by lia. destruct answers; [done|done].
  - rewrite (proj2 (Z.ltb_lt i n)) by lia. cbn [UPutChar calls]. change (last_call SC_PutChar) with false. cbn iota.
    rewrite IH by (cbn in Hl; lia). rewrite (seqZ_cons i (n - i)) by lia. cbn [fmap list_fmap app].
    replace (Z.pred (n - i)) with (n - (i + 1)) by lia. by replace (Z.succ i) with (i + 1) by lia.
Qed.

(** After its greeting main echoes one character, unless it is a newline, and exits with 2. *)
Lemma main_calls a1 n a2 a3 :
  calls main [a1; n; a2; a3] =
    (SC_PutString, [AString [49; 50; 51; 52; 53; 54; 55; 56; 57; 48; 97; 98; 99; 100; 101; 102; 103; 10]]) ::
    (SC_GetChar, []) ::
    (if n =? 10 then [] else [(SC_PutChar, [AInt (int8 n)]); (SC_PutChar, [AInt 10])]) ++ [(SC_Exit, [AInt 2])].
Proof. cbn [calls main UPutString UGetChar last_call]. cbn. by destruct (n =? 10). Qed.
End PutCharProgram.

(** ** makethreads.c *)
Module MakeThreads.
Definition N_THREADS : Z := 10.

Definition newline : string := String (Ascii.ascii_of_nat 10) "".

(** A thread of main. The counter is volatile: each turn reads it again. *)
Fixpoint test_loop_from (fuel : nat) (i : Z) : uprog :=
  match fuel with
  | 0%nat => UPutChar 10 UReturn
  | S fuel => if i <? 100 then UPutChar 97 (test_loop_from fuel (i + 1)) else UPutChar 10 UReturn
  end.
Definition test_loop (arg : Z) : uprog := UPutChar 10 (test_loop_from 100 0).

(** Not started by main. *)
Definition test (arg : string) : uprog :=
  UPutString ("Test PutChar():" +:+ newline) (UPutChar 97 (UPutChar 10 (UPutChar 10
  (UPutString ("Test PutString():" +:+ newline) (UPutString ("arg:" +:+ newline)
  (UPutString arg (UPutChar 10 (UPutString ("Thread ended!" +:+ newline) UReturn)))))))).

Fixpoint main_loop (fuel : nat) (i : Z) : uprog :=
  match fuel with
  | 0%nat => UCall SC_ThreadExit [] (λ _, UReturn)
  | S fuel =>
      if i <? N_THREADS then
        UCall SC_ThreadCreate [AFun "test_loop"; AInt i] (λ tid,
        if tid =? -1 then UPutString ("Reached thread limit" +:+ newline) (main_loop fuel (i + 1))
        else main_loop fuel (i + 1))
      else UCall SC_ThreadExit [] (λ _, UReturn)
  end.
Definition main : uprog := main_loop (Z.to_nat N_THREADS) 0.

(** Each thread shows a hundred letters between two newlines, whatever the calls answer. *)
Lemma test_loop_calls arg answers :
  length answers = 102%nat →
  calls (test_loop arg) answers =
    (SC_PutChar, [AInt 10]) :: replicate 100 (SC_PutChar, [AInt 97]) ++ [(SC_PutChar, [AInt 10])].
Proof.
  assert (Hgen : ∀ fuel i answers, i + Z.of_nat fuel = 100 → length answers = S fuel →
    calls (test_loop_from fuel i) answers = replicate fuel (SC_PutChar, [AInt 97]) ++ [(SC_PutChar, [AInt 10])]).
  { induction fuel as [|fuel IH]; intros i [|a l] Hi Hl; try done; cbn [test_loop_from].
    rewrite (proj2 (Z.ltb_lt i 100)) by lia. cbn [UPutChar calls replicate app]. change (last_call SC_PutChar) with false.
      cbn iota. rewrite IH by (cbn in Hl; lia). done. }
  intros Hl. destruct answers as [|a l]; [done|]. unfold test_loop. cbn [UPutChar calls]. change (last_call SC_PutChar) with false.
  cbn iota. rewrite Hgen by (cbn in Hl; lia). done.
Qed.

(** main asks for ten threads, complains of those it does not get, and leaves. *)
Fixpoint asked (i : Z) (tids : list Z) : list (Z * list uarg) :=
  match tids with
  | [] => [(SC_ThreadExit, [])]
  | tid :: tids =>
      (SC_ThreadCreate, [AFun "test_loop"; AInt i]) ::
      (if tid =? -1 then calls (UPutString ("Reached thread limit" +:+ newline) UReturn) [] else []) ++ asked (i + 1) tids
  end.
(** The answers main gets: a PutString answers whatever is in the register. *)
Definition with_puts (junk : Z) (tids : list Z) : list Z :=
  tids ≫= λ tid, if tid =? -1 then [tid; junk] else [tid].

Lemma makethreads_calls junk tids :
  length tids = 10%nat → calls main (with_puts junk tids) = asked 0 tids.
Proof.
  enough (Hgen : ∀ tids fuel i, i + Z.of_nat fuel = 10 → length tids = fuel →
    calls (main_loop fuel i) (with_puts junk tids) = asked i tids) by (intros Hl; by apply (Hgen tids 10%nat 0)).
  induction tids0 as [|tid l IH]; intros fuel i Hi Hl; destruct fuel as [|fuel]; try done.
  cbn [main_loop]. rewrite (proj2 (Z.ltb_lt i N_THREADS)) by (unfold N_THREADS; lia).
  unfold with_puts. cbn [mbind list_bind asked]. destruct (Z.eqb_spec tid (-1)) as [->|Hne]; cbn [app calls].
  - change (last_call SC_ThreadCreate) with false. cbn iota. cbn [Z.eqb Pos.eqb UPutString calls].
    change (last_call SC_PutString) with false. cbn iota. by rewrite <- (IH fuel (i + 1)) by (cbn in Hl; lia).
  - change (last_call SC_ThreadCreate) with false. cbn iota. rewrite (proj2 (Z.eqb_neq _ _) Hne).
    by rewrite <- (IH fuel (i + 1)) by (cbn in Hl; lia).
Qed.
End MakeThreads.

(** ** shell.c *)
Module Shell.
Definition SC_Exec : Z := 2.
Definition SC_Join : Z := 3.
Definition SC_Read : Z := 6.
Definition SC_Write : Z := 7.
Definition ConsoleOutput : Z := 1.

Definition prompt : list Z := [45; 45].

(** The do-while loop; [input] is what the Reads give, a byte each. *)
Fixpoint read_line (input : list Z) (i : Z) (buffer : list Z) : res (Z * list Z * list Z) :=
  match input with
  | [] => Fail OutOfFuel
  | c :: input =>
      let? buffer := arr_set buffer i (uint8 c) in
      let? b := arr_get buffer i in
      if negb (b =? 10) then read_line input (i + 1) buffer else Ok (i + 1, buffer, input)
  end.

(** A turn of the loop of main: the calls other than Read, [newProc] being what Exec
    answers, and the input that is left. *)
Definition turn (buffer : list Z) (newProc : Z) (input : list Z) : res (list (Z * list uarg) * list Z) :=
  let? r := read_line input 0 buffer in
  let '(i, buffer, input) := r in
  let i := i - 1 in
  let? buffer := arr_set buffer i 0 in
  let write := (SC_Write, [AString prompt; AInt 2; AInt ConsoleOutput]) in
  if i >? 0 then
    let? name := c_string buffer in
    Ok ([write; (SC_Exec, [AString name]); (SC_Join, [AInt newProc])], input)
  else Ok ([write], input).

Lemma read_line_ok s input i buffer :
  Forall (λ c, is_byte c ∧ c ≠ 10) s → 0 ≤ i → i + Z.of_nat (length s) < Z.of_nat (length buffer) →
  read_line (s ++ 10 :: input) i buffer =
    Ok (i + Z.of_nat (length s) + 1, take (Z.to_nat i) buffer ++ s ++ 10 :: drop (Z.to_nat i + length s + 1) buffer, input).
Proof.
  intros Hs. revert i buffer. induction Hs as [|c s [Hb Hc] _ IH]; intros i buffer Hi Hl; cbn [app read_line length] in *.
  - rewrite arr_set_in by lia. cbn [res_bind]. rewrite (arr_get_lookup _ _ 10) by (lia || by apply list_lookup_insert_eq; lia).
    cbn. rewrite Z.add_0_r, Nat.add_0_r. do 3 f_equal. by rewrite insert_take_drop, Nat.add_1_r by lia.
  - assert (Hu : uint8 c = c) by by apply Z.mod_small.
    rewrite arr_set_in by lia. cbn [res_bind]. rewrite (arr_get_lookup _ _ c) by (lia || by rewrite Hu; apply list_lookup_insert_eq; lia).
    cbn [res_bind]. rewrite (proj2 (Z.eqb_neq _ _) Hc), Hu. cbn [negb].
    rewrite IH by (rewrite ?length_insert; lia). replace (Z.to_nat (i + 1)) with (S (Z.to_nat i)) by lia.
    do 3 f_equal; [lia|].
    rewrite (take_S_r _ _ c) by (apply list_lookup_insert_eq; lia). rewrite take_insert_ge, drop_insert_lt by lia.
    rewrite <- !app_assoc. cbn [app]. by replace (Z.to_nat i + S (length s) + 1)%nat with (S (Z.to_nat i) + length s + 1)%nat by lia.
Qed.

Lemma c_string_nul l t : Forall (λ b, b ≠ 0) l → c_string (l ++ 0 :: t) = Ok l.
Proof. induction 1 as [|b l Hb _ IH]; [done|]. cbn [app c_string]. by rewrite (proj2 (Z.eqb_neq _ _) Hb), IH. Qed.

(** A line of fewer than sixty characters is the name of what is executed, *)
Lemma turn_executes buffer newProc s input :
  length buffer = 60%nat → Forall (λ c, is_byte c ∧ c ≠ 10) s → Forall (λ c, c ≠ 0) s → s ≠ [] → (length s < 60)%nat →
  turn buffer newProc (s ++ 10 :: input) =
    Ok ([(SC_Write, [AString prompt; AInt 2; AInt ConsoleOutput]); (SC_Exec, [AString s]); (SC_Join, [AInt newProc])], input).
Proof.
  intros Hb Hs Hz Hne Hl. unfold turn. rewrite read_line_ok by (done || lia). cbn [res_bind].
  rewrite take_0. cbn [app]. rewrite Z.add_0_l. replace (Z.of_nat (length s) + 1 - 1) with (Z.of_nat (length s)) by lia.
  rewrite arr_set_in by (rewrite length_app; cbn [length]; lia). cbn [res_bind]. rewrite Nat2Z.id.
  rewrite insert_app_r_alt, Nat.sub_diag by lia. cbn [insert list_insert].
  destruct (Z.gtb_spec (Z.of_nat (length s)) 0) as [_|Hle]; [by rewrite c_string_nul|destruct s; [done|cbn in Hle; lia] ].
Qed.

(** an empty one is not, *)
Lemma turn_empty buffer newProc input :
  length buffer = 60%nat → turn buffer newProc (10 :: input) = Ok ([(SC_Write, [AString prompt; AInt 2; AInt ConsoleOutput])], input).
Proof.
  intros Hb. unfold turn. change (10 :: input) with ([] ++ 10 :: input). rewrite read_line_ok by (done || (cbn; lia)). cbn [res_bind length].
  rewrite arr_set_in by (rewrite !length_app; cbn; lia). reflexivity.
Qed.

(** and a longer one is written past the end of the buffer. *)
Lemma turn_overflows buffer newProc s c input :
  length buffer = 60%nat → Forall (λ c, is_byte c ∧ c ≠ 10) s → length s = 60%nat →
  turn buffer newProc (s ++ c :: input) = Fail MemoryFault.
Proof.
  intros Hb Hs Hl. unfold turn.
  enough (Hgen : ∀ i buffer, 0 ≤ i → Z.of_nat (length buffer) = i + Z.of_nat (length s) →
    read_line (s ++ c :: input) i buffer = Fail MemoryFault) by (rewrite Hgen by (done || lia); done).
  clear Hb Hl buffer. induction Hs as [|x s [Hb Hc] _ IH]; intros i buffer Hi Hl; cbn [app read_line length] in *.
  { by rewrite arr_set_out by lia. }
  assert (Hu : uint8 x = x) by by apply Z.mod_small.
  rewrite arr_set_in by lia. cbn [res_bind]. rewrite (arr_get_lookup _ _ x) by (lia || by rewrite Hu; apply list_lookup_insert_eq; lia).
  cbn [res_bind]. rewrite (proj2 (Z.eqb_neq _ _) Hc). cbn [negb]. apply IH; rewrite ?length_insert; lia.
Qed.

(** The handler of exception.cc has no case for its first call. *)
Lemma Write_unsupported thread_int garbage junk registers_garbage :
  Syscall thread_int garbage junk registers_garbage SC_Write = Stop AssertFailure.
Proof. reflexivity. Qed.
End Shell.
