(* ===== verification/Tests.v ===== *)
(** * The tests the kernel starts (threads/threadtest.cc, network/nettest.cc, threads/main.cc)

    The thread test, the mail test, and the loop of main that runs what the arguments ask
    for. What printf shows on the host is a trace beside the state. *)
From stdpp Require Import strings.
From S2P Require Import Prelude Words LinkedList BitMap SectorIO Interrupt Machine MipsSim Threads.
From S2P Require Import SchedInv Kernel KernelSteps Programs Disk Console Network Devices SynchConsole.
From S2P Require Import UserThread Post System Exception SynchDisk.

(** ** threadtest.cc *)

(** SimpleThread(which), and the top of its loop. *)
Inductive test_entry := ESimple (which : Z) | ELoop (which num : Z).

Section ThreadTest.
Context (registers_garbage : list Z).
Abbreviation program := (prog devint Devs devop test_entry).

(** One turn; the printf is [shows] below. *)
Definition SimpleThread_turn (which num : Z) : program unit :=
  if num <? 10 then do* RYield; Goto (ELoop which (num + 1)) else Done tt.
Definition test_body (e : test_entry) : program unit :=
  match e with ESimple which => Goto (ELoop which 0) | ELoop which num => SimpleThread_turn which num end.

(** new Thread("forked thread") and Start(SimpleThread, which) *)
Definition fork_simple (which : Z) (p : program unit) : program unit :=
  Ask (λ w,
  let t := fresh (dom (threads (rest w))) in
  do* RNew t registers_garbage;
  StartAt t (ESimple which) p).

Definition ThreadTest : program unit :=
  fork_simple 1 (fork_simple 2 (Goto (ESimple 0))).

(** "*** thread [which] looped [num] times", as the next step shows it. *)
Definition shows (s : Sys (H := devint) (D := Devs) (O := devop) (E := test_entry)) : list (Z * Z) :=
  match cur_frames (rest (sys_world s)), progs s !! currentThread (rest (sys_world s)) with
  | [], Some (Goto (ELoop which num)) => if num <? 10 then [(which, num)] else []
  | _, _ => []
  end.

(** What is shown until the machine stops. *)
Fixpoint trace (fuel : nat) (s : Sys (H := devint) (D := Devs) (O := devop) (E := test_entry)) : res (list (Z * Z)) :=
  match fuel with
  | 0%nat => Fail OutOfFuel
  | S fuel =>
      match sys_step test_body s with
      | Ok s' => let? l := trace fuel s' in Ok (shows s ++ l)
      | Fail (Exited 0) => Ok []
      | Fail f => Fail f
      end
  end.
End ThreadTest.

(** The machine of the threads assignment: no console, no disk requests. *)
Definition threads_build : Build := mkBuild false false false.
Definition test_sys (o : Options) (d : Devs) (m : Machine) : Sys (H := devint) (D := Devs) (O := devop) (E := test_entry) :=
  mkSys (booted boot_sems (replicate 40 0) m d)
    {[main_thread := call* _ := Initialize threads_build o in ThreadTest (replicate 40 0)]}.

(** With no random switches the three threads take turns, and the machine stops when all
    have finished. *)
Lemma ThreadTest_takes_turns :
  trace 400 (test_sys default_options (devs0 (mkDisk mem_blank false 0 0))
    (mkMachine ∅ (replicate 40 0) None None 0 false 0)) =
  Ok (seqZ 0 10 ≫= λ num, [(0, num); (1, num); (2, num)]).
Proof. vm_compute. reflexivity. Qed.

(** ** nettest.cc *)

Section MailTest.
Context (garbage : nat → Z) (junk : Z).     (** what the headers and the buffer hold at first *)
Abbreviation program := (prog devint Devs devop entry).

(** The characters of a literal and its NUL. *)
Definition literal (s : string) : list Z :=
  ((λ a, Z.of_N (Ascii.N_of_ascii a)) <$> String.list_ascii_of_string s) ++ [0].

(** The names of the boxes and the machine come back through the headers that arrive; the
    printfs and flushes are left out. *)
Definition MailTest (farAddr : Z) : program unit :=
  let data := literal "Hello there!" in
  let ack := literal "Got it!" in
  let buffer := char_array garbage MaxMailSize in
  let outPktHdr := mkHeader farAddr junk junk in
  let outMailHdr := mkHeader 0 1 (Z.of_nat (length data)) in
  call* _ := PostOffice_Send garbage outPktHdr outMailHdr data in
  call* r := PostOffice_Receive 0 buffer in
  let '(inPktHdr, inMailHdr, buffer) := r in
  let outPktHdr := mkHeader (from inPktHdr) junk junk in
  let outMailHdr := mkHeader (from inMailHdr) (from outMailHdr) (Z.of_nat (length ack)) in
  call* _ := PostOffice_Send garbage outPktHdr outMailHdr ack in
  call* _ := PostOffice_Receive 1 buffer in
  Halt.
End MailTest.

(** ** main.cc *)

(** What main starts. *)
Record Commands (P : Type) := mkCommands {
  c_StartProcess : string → P;
  c_ConsoleTest : option (string * string) → P;
  c_SynchConsoleTest : option (string * string) → P;
  c_Copy : string → string → P;
  c_Print : string → P;
  c_Remove : string → P;
  c_List : P;
  c_PrintAll : P;
  c_PerformanceTest : P;
  c_MailTest : string → P }.
Arguments c_StartProcess {P} c _.
Arguments c_ConsoleTest {P} c _.
Arguments c_SynchConsoleTest {P} c _.
Arguments c_Copy {P} c _ _.
Arguments c_Print {P} c _.
Arguments c_Remove {P} c _.
Arguments c_List {P} c.
Arguments c_PrintAll {P} c.
Arguments c_PerformanceTest {P} c.
Arguments c_MailTest {P} c _.

Section Main.
Context {H D O E : Type} (build : Build) (cs : Commands (prog H D O E unit)).
Abbreviation program := (prog H D O E).

(** One of the three chains of ifs for the argument [arg]: what is started, and [argCount],
    if a flag of the chain is given. [more] are the arguments that follow. *)
Definition user_flags (arg : string) (more : list string) : option (program unit * nat) :=
  let console test :=
    match more with
    | [] => (test None, 1%nat)
    | [_] => (Stop AssertFailure, 1%nat)
    | in_ :: out :: _ => (test (Some (in_, out)), 3%nat)
    end in
  if bool_decide (arg = "-x") then
    match more with [] => Some (Stop AssertFailure, 1%nat) | name :: _ => Some (c_StartProcess cs name, 2%nat) end
  else if bool_decide (arg = "-c") then Some (console (c_ConsoleTest cs))
  else if bool_decide (arg = "-sc") then Some (console (c_SynchConsoleTest cs))
  else None.

Definition file_flags (arg : string) (more : list string) : option (program unit * nat) :=
  let on_name f := match more with [] => (Stop AssertFailure, 1%nat) | name :: _ => (f name, 2%nat) end in
  if bool_decide (arg = "-cp") then
    match more with unix :: name :: _ => Some (c_Copy cs unix name, 3%nat) | _ => Some (Stop AssertFailure, 1%nat) end
  else if bool_decide (arg = "-p") then Some (on_name (c_Print cs))
  else if bool_decide (arg = "-r") then Some (on_name (c_Remove cs))
  else if bool_decide (arg = "-l") then Some (c_List cs, 1%nat)
  else if bool_decide (arg = "-D") then Some (c_PrintAll cs, 1%nat)
  else if bool_decide (arg = "-t") then Some (c_PerformanceTest cs, 1%nat)
  else None.

Definition network_flags (arg : string) (more : list string) : option (program unit * nat) :=
  if bool_decide (arg = "-o") then
    match more with [] => Some (Stop AssertFailure, 1%nat) | x :: _ => Some (c_MailTest cs x, 2%nat) end
  else None.

(** The chains one after the other, each when it is compiled in, then the rest. *)
Fixpoint chains (l : list (option (program unit * nat))) (argCount : nat) (k : nat → program unit) : program unit :=
  match l with
  | [] => k argCount
  | None :: l => chains l argCount k
  | Some (p, n) :: l => call* _ := p in chains l n k
  end.

Definition compiled {A} (b : bool) (x : option A) : option A := if b then x else None.

(** The loop over the arguments after the program's name; [skip] are those a flag has used. *)
Fixpoint main_loop (skip : nat) (argv : list string) : program unit :=
  match argv, skip with
  | [], _ => Do RFinish (Done tt)
  | _ :: more, S skip => main_loop skip more
  | arg :: more, 0%nat =>
      chains [compiled (user_program build) (user_flags arg more); compiled (filesys build) (file_flags arg more);
              compiled (with_network build) (network_flags arg more)] 1
        (λ argCount, main_loop (argCount - 1) more)
  end.
End Main.

(** main: [-h], when it comes first, prints and returns; Initialize reads the arguments
    before main does; [test] is ThreadTest in the build of the threads. *)
Definition main {E} (atoi : string → Z) (atof : string → Q) (build : Build) (test : option (prog devint Devs devop E unit))
    (cs : Commands (prog devint Devs devop E unit)) (argv : list string) : prog devint Devs devop E unit :=
  if bool_decide (head argv = Some "-h"%string) then Stop (Exited 0)
  else
    match parse_args build atoi atof (S (length argv)) argv default_options with
    | Fail f => Stop f
    | Ok o =>
        call* _ := Initialize build o in
        call* _ := default (Done tt) test in
        main_loop build cs 0 argv
    end.

(** The fuel of Initialize's loop is enough: a turn uses an argument at least. *)
Lemma parse_args_fuel atoi atof build fuel argv o :
  (length argv < fuel)%nat → parse_args build atoi atof fuel argv o ≠ Fail OutOfFuel.
Proof.
  revert argv o. induction fuel as [|fuel IH]; intros argv o Hf; [lia|].
  destruct argv as [|arg more]; [done|]. cbn [parse_args length] in *.
  repeat (case_match; try done); cbn [res_bind fst snd] in *; simplify_eq;
    apply IH; cbn [drop]; rewrite ?length_drop; cbn [length] in *; lia.
Qed.

(** A flag whose arguments are missing stops main; in the build with files and user
    programs "-x a -l" runs [a] and then lists the directory. *)
Example main_two_flags {H D O E} (cs : Commands (prog H D O E unit)) (s : semid) :
  c_StartProcess cs "a" = Do (RP s) (Done tt) → c_List cs = Do (RV s) (Done tt) →
  main_loop (mkBuild true true false) cs 0 ["-x"; "a"; "-l"]%string =
    (do* RP s; do* RV s; do* RFinish; Done tt).
Proof. intros E1 E2. vm_compute in E1, E2 |- *. by rewrite E1, E2. Qed.
