(* ===== verification/Dump.v ===== *)
(** * The disassembler (bin/d.c, bin/opstrings.c, bin/disasm.c)

    One line of text for an instruction word. Text is a list of character codes. The
    disassembler is compared with the simulator: two words with the same name and operands do
    the same, save for the five operations whose registers are left out. *)
From stdpp Require Import strings.
From S2P Require Import Prelude Words Text Machine MipsSim MipsArith Execute.

Module Dump.
Import Execute.

(** ** The tables *)

Definition regstrings : list text :=
  str <$> ["0"; "r1"; "r2"; "r3"; "r4"; "r5"; "r6"; "r7"; "r8"; "r9";
           "r10"; "r11"; "r12"; "r13"; "r14"; "r15"; "r16"; "r17"; "r18"; "r19";
           "r20"; "r21"; "r22"; "r23"; "r24"; "r25"; "r26"; "r27"; "gp"; "sp";
           "r30"; "r31"]%string.

Definition R (i : Z) : res text := arr_get regstrings i.

Definition normalops : list text :=
  str <$> ["special"; "bcond"; "j"; "jal"; "beq"; "bne"; "blez"; "bgtz";
           "addi"; "addiu"; "slti"; "sltiu"; "andi"; "ori"; "xori"; "lui";
           "cop0"; "cop1"; "cop2"; "cop3"; "024"; "025"; "026"; "027";
           "030"; "031"; "032"; "033"; "034"; "035"; "036"; "037";
           "lb"; "lh"; "lwl"; "lw"; "lbu"; "lhu"; "lwr"; "047";
           "sb"; "sh"; "swl"; "sw"; "054"; "055"; "swr"; "057";
           "lwc0"; "lwc1"; "lwc2"; "lwc3"; "064"; "065"; "066"; "067";
           "swc0"; "swc1"; "swc2"; "swc3"; "074"; "075"; "076"; "077"]%string.

Definition specialops : list text :=
  str <$> ["sll"; "001"; "srl"; "sra"; "sllv"; "005"; "srlv"; "srav";
           "jr"; "jalr"; "012"; "013"; "syscall"; "break"; "016"; "017";
           "mfhi"; "mthi"; "mflo"; "mtlo"; "024"; "025"; "026"; "027";
           "mult"; "multu"; "div"; "divu"; "034"; "035"; "036"; "037";
           "add"; "addu"; "sub"; "subu"; "and"; "or"; "xor"; "nor";
           "050"; "051"; "slt"; "sltu"; "054"; "055"; "056"; "057";
           "060"; "061"; "062"; "063"; "064"; "065"; "066"; "067";
           "070"; "071"; "072"; "073"; "074"; "075"; "076"; "077"]%string.

(** ** Fields of whole instructions (instr.h, encode.h) *)

Definition off26 (i : Z) : Z := Z.shiftl (Z.land i (2 ^ 26 - 1)) 2.
Definition top4 (i : Z) : Z := Z.land i (Z.lnot (2 ^ 28 - 1)).
Definition off16 (i : Z) : Z := Z.shiftl (immed i) 2.
Definition I_NOP : Z := 0.

(** ** dump_ascii *)

Definition one_of (l : list Z) (op : Z) : bool := existsb (Z.eqb op) l.

(** [printf("%s,%s", ...)] and [printf("%s,%s,%s", ...)] of registers *)
Definition two_regs (a b : Z) : res (list text) :=
  let? ra := R a in let? rb := R b in Ok [ra ++ comma ++ rb].
Definition three_regs (a b c : Z) : res (list text) :=
  let? ra := R a in let? rb := R b in let? rc := R c in Ok [ra ++ comma ++ rb ++ comma ++ rc].

(** The first switch; what each printf puts out. *)
Definition special_operands (instruction opcode : Z) : res (list text) :=
  if one_of [I_SLL; I_SRL; I_SRA] opcode then
    let? d := R (rd instruction) in
    let? t := R (rt instruction) in
    Ok [d ++ comma ++ t ++ comma ++ str "0x" ++ hex (shamt instruction)]
  else if one_of [I_SLLV; I_SRLV; I_SRAV] opcode then
    three_regs (rd instruction) (rt instruction) (rs instruction)
  else if one_of [I_JR; I_JALR; I_MFLO; I_MTLO] opcode then
    let? s := R (rs instruction) in Ok [s]
  else if one_of [I_SYSCALL; I_BREAK] opcode then Ok []
  else if one_of [I_MFHI; I_MTHI] opcode then
    let? d := R (rd instruction) in Ok [d]
  else if one_of [I_MULT; I_MULTU; I_DIV; I_DIVU] opcode then
    two_regs (rs instruction) (rt instruction)
  else if one_of [I_ADD; I_ADDU; I_SUB; I_SUBU; I_AND; I_OR; I_XOR; I_NOR; I_SLT; I_SLTU] opcode then
    three_regs (rd instruction) (rs instruction) (rt instruction)
  else Ok [].

(** The switch on the operation of a BCOND. *)
Definition bcond_name (op : Z) : text :=
  if op =? I_BLTZ then str "bltz"
  else if op =? I_BGEZ then str "bgez"
  else if op =? I_BLTZAL then str "bltzal"
  else if op =? I_BGEZAL then str "bgezal"
  else str "BCOND".

(** The last switch. *)
Definition normal_operands (instruction pc opcode : Z) : res (list text) :=
  if one_of [I_J; I_JAL] opcode then Ok [hex8 (Z.lor (top4 pc) (off26 instruction))]
  else if one_of [I_BEQ; I_BNE] opcode then
    let? t := R (rt instruction) in
    let? s := R (rs instruction) in
    Ok [t ++ comma ++ s ++ comma ++ hex8 (off16 instruction + pc + 4)]
  else if one_of [I_ADDI; I_ADDIU; I_SLTI; I_SLTIU; I_ANDI; I_ORI; I_XORI] opcode then
    let? t := R (rt instruction) in
    let? s := R (rs instruction) in
    Ok [t ++ comma ++ s ++ comma ++ str "0x" ++ hex (immed instruction)]
  else if one_of [I_LUI] opcode then
    let? t := R (rt instruction) in
    Ok [t ++ comma ++ str "0x" ++ hex (immed instruction)]
  else if one_of I_COP opcode then Ok []
  else if one_of ([I_LB; I_LH; I_LWL; I_LW; I_LBU; I_LHU; I_LWR; I_SB; I_SH; I_SWL; I_SW; I_SWR] ++ I_LWC ++ I_SWC) opcode then
    let? t := R (rt instruction) in
    let? s := R (rs instruction) in
    Ok [t ++ comma ++ str "0x" ++ hex (immed instruction) ++ str "(" ++ s ++ str ")"]
  else Ok [].

Definition special_ascii (instruction : Z) : res (list text) :=
  let opcode := Z.land instruction 0x3f in
  let? name := arr_get specialops opcode in
  let? operands := special_operands instruction opcode in
  Ok ((name ++ tab) :: operands).

Definition bcond_ascii (instruction pc : Z) : res (list text) :=
  let? s := R (rs instruction) in
  Ok [bcond_name (rt instruction); tab ++ s ++ comma ++ hex8 (off16 instruction + pc + 4)].

Definition normal_ascii (instruction pc opcode : Z) : res (list text) :=
  let? name := arr_get normalops opcode in
  let? operands := normal_operands instruction pc opcode in
  Ok ((name ++ tab) :: operands).

(** What each printf puts out after the address and the word, in order. *)
Definition dump_text (instruction pc : Z) : res (list text) :=
  let opcode := Z.shiftr (uint32 instruction) 26 in
  let? line :=
    (if instruction =? I_NOP then Ok [str "nop"]
     else if opcode =? I_SPECIAL then special_ascii instruction
     else if opcode =? I_BCOND then bcond_ascii instruction pc
     else normal_ascii instruction pc opcode) in
  Ok (tab :: line).

(** The address and the word, which are shown if [longdis], and nothing sets that to 0. *)
Definition longdis : Z := 1.
Definition heading (instruction pc : Z) : text := hex8 pc ++ str ": " ++ hex8 instruction ++ str "  ".

Definition dump_ascii (instruction pc : Z) : res (list text) :=
  let? line := dump_text instruction pc in
  Ok ((if negb (longdis =? 0) then [heading instruction pc] else []) ++ line).

(** ** Which operations a line tells apart *)

(** The number of the operation, and what chooses among those that share it. *)
Definition op_of (w : Z) : Z := Z.land (Z.shiftr w 26) 0x3f.
Definition sub_of (w : Z) : Z :=
  if op_of w =? I_SPECIAL then Z.land w 0x3f else if op_of w =? I_BCOND then rt w else 0.
Definition keys : list (Z * Z) :=
  (pair 0 <$> seqZ 0 64) ++ (pair 1 <$> seqZ 0 32) ++ ((λ op, (op, 0)) <$> seqZ 2 62).

Definition mnemonic (k : Z * Z) : text :=
  if k.1 =? I_SPECIAL then default [] (specialops !! Z.to_nat k.2)
  else if k.1 =? I_BCOND then bcond_name k.2
  else default [] (normalops !! Z.to_nat k.1).

Definition opcode_at (k : Z * Z) : Opcode :=
  if k.1 =? I_SPECIAL then default OP_RES (specialTable !! Z.to_nat k.2)
  else if k.1 =? I_BCOND then decode_bcond (Z.shiftl k.2 16)
  else default OP_RES (op_code <$> opTable !! Z.to_nat k.1).

(** The operations whose line shows every register and number they use: all but five. *)
Definition printed_in_full (o : Opcode) : bool :=
  negb (bool_decide (o ∈ [OP_JALR; OP_MFLO; OP_MTHI; OP_BLEZ; OP_BGTZ])).

(** Those that do something, and those that trap whatever their fields. *)
Definition has_effect (o : Opcode) : bool := negb (bool_decide (o ∈ [OP_UNIMP; OP_RES])).

Lemma mnemonics_differ :
  forallb (λ k1, negb (printed_in_full (opcode_at k1)) ||
    forallb (λ k2, negb (bool_decide (mnemonic k1 = mnemonic k2)) || bool_decide (k1 = k2) ||
      negb (has_effect (opcode_at k1)) && negb (has_effect (opcode_at k2))) keys) keys = true.
Proof. vm_compute. reflexivity. Qed.

Lemma mnemonics_clean : forallb (λ k, bool_decide (9 ∉ mnemonic k)) keys = true.
Proof. vm_compute. reflexivity. Qed.

(** A name is that of one operation, or of operations without effect. *)
Lemma mnemonic_inj k1 k2 :
  k1 ∈ keys → k2 ∈ keys → printed_in_full (opcode_at k1) = true → mnemonic k1 = mnemonic k2 →
  k1 = k2 ∨ has_effect (opcode_at k1) = false ∧ has_effect (opcode_at k2) = false.
Proof.
  intros H1%list_elem_of_In H2%list_elem_of_In Hp E. pose proof mnemonics_differ as H.
  rewrite forallb_forall in H. specialize (H k1 H1). rewrite Hp in H. cbn [negb orb] in H.
  rewrite forallb_forall in H. specialize (H k2 H2).
  rewrite bool_decide_true in H by done. cbn [negb orb] in H.
  apply orb_true_iff in H as [H|[H3 H4]%andb_true_iff]; [left; by apply bool_decide_eq_true in H|].
  apply negb_true_iff in H3, H4. by right.
Qed.

Lemma mnemonic_clean k : k ∈ keys → 9 ∉ mnemonic k.
Proof.
  intros Hk%list_elem_of_In. pose proof mnemonics_clean as H. rewrite forallb_forall in H.
  specialize (H k Hk). by apply bool_decide_eq_true in H.
Qed.

(** ** Reading a line back *)

Lemma break_at (c : Z) a a' b b' :
  c ∉ a → c ∉ a' → a ++ [c] ++ b = a' ++ [c] ++ b' → a = a' ∧ b = b'.
Proof.
  revert a'. induction a as [|x a IH]; intros [|x' a'] Ha Ha' E; cbn in E.
  - by injection E.
  - injection E as -> _. set_solver.
  - injection E as -> _. set_solver.
  - injection E as -> E. destruct (IH a') as [-> ->]; [set_solver..|exact E|done].
Qed.

Definition is_hex (c : Z) : bool := (48 <=? c) && (c <=? 57) || (97 <=? c) && (c <=? 102).
Definition unhex (c : Z) : Z := if c <? 58 then c - 48 else c - 87.
Definition hex_value (n : Z) (l : text) : Z := foldl (λ n c, n * 16 + unhex c) n l.

Lemma hex_digit_ok d : 0 ≤ d < 16 → is_hex (hex_digit d) = true ∧ unhex (hex_digit d) = d.
Proof.
  intros Hd. unfold hex_digit, is_hex, unhex. destruct (Z.ltb_spec d 10).
  - destruct (Z.ltb_spec (48 + d) 58); [|lia].
    rewrite (proj2 (Z.leb_le _ _)), (proj2 (Z.leb_le _ _)) by lia. split; [done|lia].
  - destruct (Z.ltb_spec (87 + d) 58); [lia|].
    rewrite (proj2 (Z.leb_le 97 _)), (proj2 (Z.leb_le _ 102)) by lia. rewrite orb_true_r. split; [done|lia].
Qed.

Lemma hex_digits_value fuel n l :
  0 ≤ n < 16 ^ Z.of_nat fuel → hex_value 0 (hex_digits fuel n l) = hex_value n l.
Proof.
  revert n l. induction fuel as [|fuel IH]; intros n l Hn.
  { change (16 ^ Z.of_nat 0) with 1 in Hn. by replace n with 0 by lia. }
  rewrite Nat2Z.inj_succ, Z.pow_succ_r in Hn by lia. cbn [hex_digits].
  pose proof (Z.mod_pos_bound n 16 ltac:(lia)) as Hm. pose proof (Z.div_mod n 16 ltac:(lia)) as Hd.
  destruct (hex_digit_ok _ Hm) as [_ Hu].
  destruct (Z.ltb_spec n 16) as [Hlt|Hge].
  - unfold hex_value. cbn [foldl]. rewrite Hu, Z.mod_small by lia. done.
  - rewrite IH by (split; [apply Z.div_pos|apply Z.div_lt_upper_bound]; lia).
    unfold hex_value. cbn [foldl]. rewrite Hu. f_equal. lia.
Qed.

Lemma hex_digits_hex fuel n l : 0 ≤ n → Forall (λ c, is_hex c = true) l → Forall (λ c, is_hex c = true) (hex_digits fuel n l).
Proof.
  revert n l. induction fuel as [|fuel IH]; intros n l Hn Hl; [done|]. cbn [hex_digits].
  assert (Hl' : Forall (λ c, is_hex c = true) (hex_digit (n mod 16) :: l)).
  { constructor; [|done]. apply hex_digit_ok, Z.mod_pos_bound. lia. }
  destruct (n <? 16); [done|]. apply IH; [by apply Z.div_pos|done].
Qed.

Lemma hex_hex z : Forall (λ c, is_hex c = true) (hex z).
Proof. apply hex_digits_hex; [apply uint32_range|constructor]. Qed.

Lemma value_hex z : hex_value 0 (hex z) = uint32 z.
Proof. unfold hex. rewrite hex_digits_value; [done|]. apply uint32_range. Qed.

Lemma hex_inj a b : hex a = hex b → uint32 a = uint32 b.
Proof. intros E. by rewrite <- !value_hex, E. Qed.

Lemma hex8_inj a b : hex8 a = hex8 b → uint32 a = uint32 b.
Proof.
  intros E. rewrite <- !value_hex. assert (H : ∀ z, hex_value 0 (hex8 z) = hex_value 0 (hex z)).
  { intros z. unfold hex8, hex_value. rewrite foldl_app. f_equal.
    induction (8 - length (hex z))%nat as [|n IH]; [done|exact IH]. }
  by rewrite <- !H, E.
Qed.

Lemma hex_no z c : is_hex c = false → c ∉ hex z.
Proof. intros Hc Hin. pose proof (proj1 (Forall_forall _ _) (hex_hex z) c Hin). congruence. Qed.

Lemma Ok_inj {A} (a b : A) : Ok a = Ok b → a = b.
Proof. congruence. Qed.

(** *** Registers *)

Definition reg_text (i : Z) : text := default [] (regstrings !! Z.to_nat i).

Lemma R_reg i : 0 ≤ i < 32 → R i = Ok (reg_text i).
Proof.
  intros Hi. destruct (arr_get_in regstrings i) as (t & E & Hl); [exact Hi|].
  unfold R, reg_text. by rewrite E, Hl.
Qed.

Lemma reg_text_inj i j : 0 ≤ i < 32 → 0 ≤ j < 32 → reg_text i = reg_text j → i = j.
Proof.
  assert (Hd : NoDup regstrings) by (eapply bool_decide_unpack; vm_compute; exact I).
  intros Hi Hj E. destruct (arr_get_in regstrings i) as (t & _ & Hti); [exact Hi|].
  destruct (arr_get_in regstrings j) as (t' & _ & Htj); [exact Hj|].
  unfold reg_text in E. rewrite Hti, Htj in E. cbn in E. subst t'.
  pose proof (NoDup_lookup _ _ _ _ Hd Hti Htj). lia.
Qed.

Lemma reg_text_no c i : c ∈ [9; 40; 44] → c ∉ reg_text i.
Proof.
  intros Hc Hin. assert (H : Forall (Forall (λ x, x ∉ [9; 40; 44])) regstrings)
    by (eapply bool_decide_unpack; vm_compute; exact I).
  unfold reg_text in Hin. destruct (regstrings !! Z.to_nat i) as [t|] eqn:E; cbn in Hin; [|by apply not_elem_of_nil in Hin].
  pose proof (Forall_lookup_1 _ _ _ _ H E) as Ht. rewrite Forall_forall in Ht. by apply (Ht c).
Qed.

Lemma reg_comma a a' x x' :
  0 ≤ a < 32 → 0 ≤ a' < 32 → reg_text a ++ comma ++ x = reg_text a' ++ comma ++ x' → a = a' ∧ x = x'.
Proof.
  intros Ha Ha' E. apply break_at in E as [E ->]; [|apply reg_text_no; set_solver..].
  split; [by apply reg_text_inj|done].
Qed.

Lemma hex_paren a a' x x' :
  hex a ++ str "(" ++ x = hex a' ++ str "(" ++ x' → uint32 a = uint32 a' ∧ x = x'.
Proof.
  intros E. change (str "(") with [40] in E. apply break_at in E as [E ->]; [|by apply hex_no..].
  split; [by apply hex_inj|done].
Qed.

(** *** The line of a word *)

Definition key_of (w : Z) : Z * Z := (op_of w, sub_of w).

Definition line_operands (w pc : Z) (k : Z * Z) : res (list text) :=
  if k.1 =? I_SPECIAL then special_operands w k.2
  else if k.1 =? I_BCOND then let? s := R (rs w) in Ok [s ++ comma ++ hex8 (off16 w + pc + 4)]
  else normal_operands w pc k.1.

Lemma op_range w : 0 ≤ op_of w < 64.
Proof. apply (land_ones_range _ 6). done. Qed.

Lemma key_in w : key_of w ∈ keys.
Proof.
  pose proof (op_range w) as Ho. unfold key_of, sub_of, keys, I_SPECIAL, I_BCOND.
  destruct (Z.eqb_spec (op_of w) 0) as [->|H0].
  { apply elem_of_app. left. apply list_elem_of_fmap. eexists. split; [done|]. apply elem_of_seqZ.
    apply (land_ones_range w 6). done. }
  apply elem_of_app. right. destruct (Z.eqb_spec (op_of w) 1) as [->|H1]; apply elem_of_app.
  - left. apply list_elem_of_fmap. eexists. split; [done|]. apply elem_of_seqZ. apply rt_range.
  - right. apply list_elem_of_fmap. eexists. split; [done|]. apply elem_of_seqZ. lia.
Qed.

Lemma key_rt w : (key_of w).1 = I_BCOND → (key_of w).2 = rt w.
Proof. cbn [key_of fst snd]. intros H. unfold sub_of. by rewrite H. Qed.

Lemma opcode_field w : is_int32 w → Z.shiftr (uint32 w) 26 = op_of w.
Proof.
  intros Hw. unfold op_of. rewrite <- (int32_id w Hw) at 2. rewrite <- int32_uint32.
  change 0x3f with (Z.ones 6). rewrite field_int32, Z.land_ones by done. symmetry. apply Z.mod_small.
  rewrite Z.shiftr_div_pow2 by done. pose proof (uint32_range w) as [H1 H2].
  split; [by apply Z.div_pos|by apply Z.div_lt_upper_bound].
Qed.

Lemma arr_get_default (l : list text) i :
  0 ≤ i < Z.of_nat (length l) → arr_get l i = Ok (default [] (l !! Z.to_nat i)).
Proof. intros Hi. destruct (arr_get_in l i Hi) as (x & E & Hl). by rewrite E, Hl. Qed.

Lemma regs_read w : R (rs w) = Ok (reg_text (rs w)) ∧ R (rt w) = Ok (reg_text (rt w)) ∧ R (rd w) = Ok (reg_text (rd w)).
Proof. split; [|split]; apply R_reg; [apply rs_range|apply rt_range|apply rd_range]. Qed.

Lemma line_operands_ok w pc k : ∃ ops, line_operands w pc k = Ok ops.
Proof.
  destruct (regs_read w) as (Es & Et & Ed).
  unfold line_operands, special_operands, normal_operands, two_regs, three_regs. rewrite Es, Et, Ed. cbn [res_bind].
  destruct (k.1 =? I_SPECIAL); [|destruct (k.1 =? I_BCOND); [by eexists|] ];
    repeat (match goal with |- context [one_of ?l ?o] => destruct (one_of l o) end; [by eexists|]); by eexists.
Qed.

(** Every word has a line; what it says is the mnemonic and the operands. *)
Lemma dump_line w pc :
  is_int32 w → w ≠ 0 →
  ∃ l ops, dump_text w pc = Ok l ∧ line_operands w pc (key_of w) = Ok ops ∧
    concat l = tab ++ mnemonic (key_of w) ++ tab ++ concat ops.
Proof.
  intros Hw Hne. destruct (line_operands_ok w pc (key_of w)) as [ops Eo].
  unfold dump_text. rewrite (proj2 (Z.eqb_neq w I_NOP)), opcode_field by done.
  pose proof (op_range w) as Ho. pose proof Eo as El. unfold line_operands, mnemonic, key_of, sub_of in *. cbn [fst snd] in *.
  destruct (Z.eqb_spec (op_of w) I_SPECIAL) as [H0|H0]; [|destruct (Z.eqb_spec (op_of w) I_BCOND) as [H1|H1] ].
  - unfold special_ascii. rewrite arr_get_default, El by (apply (land_ones_range w 6); done). cbn [res_bind].
    eexists _, ops. split; [done|]. split; [done|]. cbn [app concat]. by rewrite <- !app_assoc.
  - unfold bcond_ascii. destruct (regs_read w) as (Es & _). rewrite Es in El |- *.
    apply Ok_inj in El. subst ops.
    eexists _, _. split; [done|]. split; [done|]. cbn [app concat]. by rewrite !app_nil_r.
  - unfold normal_ascii. rewrite arr_get_default, El by exact Ho. cbn [res_bind].
    eexists _, ops. split; [done|]. split; [done|]. cbn [app concat]. by rewrite <- !app_assoc.
Qed.

Lemma dump_text_total w pc : is_int32 w → ∃ l, dump_text w pc = Ok l.
Proof.
  intros Hw. destruct (decide (w = 0)) as [->|Hne]; [by eexists|].
  destruct (dump_line w pc Hw Hne) as (l & _ & E & _). by exists l.
Qed.

Lemma dump_ascii_text w pc t : dump_text w pc = Ok t → dump_ascii w pc = Ok (heading w pc :: t).
Proof. unfold dump_ascii. by intros ->. Qed.

Lemma dump_total w pc : is_int32 w → ∃ l, dump_ascii w pc = Ok l.
Proof. intros Hw. destruct (dump_text_total w pc Hw) as [t E]. eexists. by apply dump_ascii_text. Qed.

(** Two words with one text have one name and the same operands in print. *)
Lemma same_line_key w1 w2 pc l1 l2 :
  is_int32 w1 → is_int32 w2 → w1 ≠ w2 →
  dump_text w1 pc = Ok l1 → dump_text w2 pc = Ok l2 → concat l1 = concat l2 →
  mnemonic (key_of w1) = mnemonic (key_of w2) ∧
  ∃ ops1 ops2, line_operands w1 pc (key_of w1) = Ok ops1 ∧ line_operands w2 pc (key_of w2) = Ok ops2 ∧
    concat ops1 = concat ops2.
Proof.
  intros H1 H2 Hne E1 E2 E.
  assert (Hnop : ∀ w l, is_int32 w → w ≠ 0 → dump_text w pc = Ok l → concat l ≠ tab ++ str "nop").
  { intros w l Hw Hw0 El Ec. destruct (dump_line w pc Hw Hw0) as (l' & ops & El' & _ & Ec').
    rewrite El in El'. injection El' as <-. rewrite Ec in Ec'. apply app_inv_head in Ec'.
    assert (Hin : 9 ∈ str "nop") by (rewrite Ec'; apply elem_of_app; right; apply list_elem_of_here).
    revert Hin. vm_compute. intros Hin. repeat (apply elem_of_cons in Hin as [?|Hin]; [done|]). by apply not_elem_of_nil in Hin. }
  assert (Enop : ∀ l, dump_text 0 pc = Ok l → concat l = tab ++ str "nop") by (by intros l [= <-]).
  destruct (decide (w1 = 0)) as [->|Hw1].
  { destruct (Hnop w2 l2); [done..|]. rewrite <- E. by apply Enop. }
  destruct (decide (w2 = 0)) as [->|Hw2].
  { destruct (Hnop w1 l1); [done..|]. rewrite E. by apply Enop. }
  destruct (dump_line w1 pc H1 Hw1) as (l1' & ops1 & El1 & Eo1 & Ec1). rewrite E1 in El1. injection El1 as <-.
  destruct (dump_line w2 pc H2 Hw2) as (l2' & ops2 & El2 & Eo2 & Ec2). rewrite E2 in El2. injection El2 as <-.
  rewrite Ec1, Ec2 in E. apply app_inv_head, break_at in E as [Em Eops]; [|apply mnemonic_clean, key_in..].
  split; [done|]. by exists ops1, ops2.
Qed.

(** ** What Decode makes of the same fields *)

Definition extra_at (k : Z * Z) (w : Z) : Z :=
  if k.1 =? I_SPECIAL then shamt w
  else if one_of [I_J; I_JAL] k.1 then Z.land w 0x3ffffff else uint32 (immed w).

Lemma formats_ok :
  forallb (λ op, match opTable !! Z.to_nat op with
                 | Some p => bool_decide (op_format p = (if one_of [I_J; I_JAL] op then JFMT else IFMT)) &&
                             bool_decide (op_code p ≠ SPECIAL) &&
                             bool_decide (op_code p = BCOND ↔ op = I_BCOND)
                 | None => false
                 end) (seqZ 1 63) = true.
Proof. vm_compute. reflexivity. Qed.

Lemma decoded w i :
  is_int32 w → Decode (uint32 w) = Ok i →
  opCode i = opcode_at (key_of w) ∧ fields w i ∧ extra i = extra_at (key_of w) w.
Proof.
  intros Hw E. assert (Ew : int32 (uint32 w) = w) by (by rewrite int32_uint32, int32_id).
  pose proof (decode_fields _ _ E) as F. rewrite Ew in F.
  assert (Eop : Z.land (Z.shiftr (uint32 w) 26) 0x3f = op_of w).
  { by rewrite <- (op_field (uint32 w)), Ew. }
  pose proof (op_range w) as Ho. unfold opcode_at, extra_at, key_of, sub_of. cbn [fst snd].
  destruct (Z.eqb_spec (op_of w) I_SPECIAL) as [H0|H0].
  { rewrite H0 in Eop. destruct (decode_special _ _ Eop E) as [Ho' Hx]. rewrite Ew in Ho', Hx.
    apply arr_get_Ok_inv in Ho' as [_ ->]. done. }
  unfold I_SPECIAL in H0. pose proof formats_ok as Hf. rewrite forallb_forall in Hf.
  specialize (Hf (op_of w)). destruct (opTable !! Z.to_nat (op_of w)) as [p|] eqn:Ep.
  2: { exfalso. discriminate Hf. apply list_elem_of_In, elem_of_seqZ. lia. }
  assert (Hin : In (op_of w) (seqZ 1 63)) by (apply list_elem_of_In, elem_of_seqZ; lia).
  specialize (Hf Hin). apply andb_true_iff in Hf as [Hf H3]. apply andb_true_iff in Hf as [H1 H2].
  apply bool_decide_eq_true in H1, H2, H3.
  rewrite <- Eop in Ep. destruct (decode_other (uint32 w) i p) as [Ho' Hx]; [|done..|].
  { apply arr_get_lookup; [rewrite Eop; lia|done]. }
  rewrite Ho', Hx, H1. split; [|split; [done|] ].
  - destruct (Z.eqb_spec (op_of w) I_BCOND) as [Hb|Hb].
    + rewrite bool_decide_true by (by apply H3).
      assert (Hk : Z.shiftl (rt w) 16 = Z.land (uint32 w) 0x1f0000) by (by rewrite bcond_field, Ew).
      unfold decode_bcond. by rewrite Hk, <- Z.land_assoc.
    + rewrite bool_decide_false by (by rewrite H3). done.
  - destruct (one_of [I_J; I_JAL] (op_of w)).
    + change (decode_extra JFMT (uint32 w)) with (Z.land (uint32 w) (Z.ones 26)).
      rewrite <- (low_int32 (uint32 w)), Ew by done. done.
    + by rewrite extra_immed, Ew.
Qed.

(** ** What the operands in print say *)

Lemma immed_uint32 w1 w2 : uint32 (immed w1) = uint32 (immed w2) → immed w1 = immed w2.
Proof. intros E. by rewrite <- (int32_immed w1), <- (int32_immed w2), E. Qed.

Lemma off16_pc w1 w2 pc : uint32 (off16 w1 + pc + 4) = uint32 (off16 w2 + pc + 4) → immed w1 = immed w2.
Proof.
  unfold off16. rewrite !Z.shiftl_mul_pow2 by done. unfold uint32. intros E.
  pose proof (immed_range w1). pose proof (immed_range w2).
  pose proof (Z.div_mod (immed w1 * 2 ^ 2 + pc + 4) 4294967296 ltac:(lia)).
  pose proof (Z.div_mod (immed w2 * 2 ^ 2 + pc + 4) 4294967296 ltac:(lia)). lia.
Qed.

Lemma off26_pc w1 w2 pc :
  uint32 (Z.lor (top4 pc) (off26 w1)) = uint32 (Z.lor (top4 pc) (off26 w2)) →
  Z.land w1 0x3ffffff = Z.land w2 0x3ffffff.
Proof.
  intros E. change 0x3ffffff with (Z.ones 26). apply Z.bits_inj'. intros j Hj.
  destruct (decide (j < 26)) as [Hlt|]; [|by rewrite !Z.land_spec, !(Z.ones_spec_high 26), !andb_false_r by lia].
  assert (H : ∀ w, Z.testbit (uint32 (Z.lor (top4 pc) (off26 w))) (j + 2) = Z.testbit (Z.land w (Z.ones 26)) j).
  { intros w. rewrite testbit_uint32, Z.lor_spec by lia. unfold top4, off26.
    change (2 ^ 28 - 1) with (Z.ones 28). change (2 ^ 26 - 1) with (Z.ones 26).
    rewrite (Z.land_spec pc), Z.lnot_spec, Z.ones_spec_low, andb_false_r by lia. cbn [orb negb].
    rewrite Z.shiftl_spec by lia. f_equal. lia. }
  by rewrite <- !H, E.
Qed.

Section Operands.
Context (w1 w2 pc : Z) (ops1 ops2 : list text) (E : concat ops1 = concat ops2).

(** Reduce both lists of operands to the text of one printf. *)
Ltac printed H1 H2 :=
  destruct (regs_read w1) as (Es1 & Et1 & Ed1); destruct (regs_read w2) as (Es2 & Et2 & Ed2);
  unfold two_regs, three_regs in H1, H2; rewrite ?Es1, ?Et1, ?Ed1 in H1; rewrite ?Es2, ?Et2, ?Ed2 in H2;
  cbn [res_bind] in H1, H2; apply Ok_inj in H1, H2; rewrite <- H1, <- H2 in E; cbn [concat] in E;
  rewrite ?app_nil_r in E.

Ltac ranges :=
  lazymatch goal with
  | |- _ ≤ rs ?w < _ => apply (rs_range w)
  | |- _ ≤ rt ?w < _ => apply (rt_range w)
  | |- _ ≤ rd ?w < _ => apply (rd_range w)
  end.
Ltac next_reg := apply reg_comma in E as [? E]; [|ranges..].

Lemma read_shift :
  (let? d := R (rd w1) in let? t := R (rt w1) in Ok [d ++ comma ++ t ++ comma ++ str "0x" ++ hex (shamt w1)]) = Ok ops1 →
  (let? d := R (rd w2) in let? t := R (rt w2) in Ok [d ++ comma ++ t ++ comma ++ str "0x" ++ hex (shamt w2)]) = Ok ops2 →
  rd w1 = rd w2 ∧ rt w1 = rt w2 ∧ shamt w1 = shamt w2.
Proof.
  intros H1 H2. printed H1 H2. do 2 next_reg. apply app_inv_head, hex_inj in E.
  assert (Hs : ∀ w, uint32 (shamt w) = shamt w).
  { intros w. apply uint32_id. pose proof (field_range (Z.shiftr w 6)). unfold shamt, is_uint32. lia. }
  rewrite !Hs in E. done.
Qed.

Lemma read_one (f : Z → Z) (Hf : ∀ w, 0 ≤ f w < 32) :
  (let? s := R (f w1) in Ok [s]) = Ok ops1 → (let? s := R (f w2) in Ok [s]) = Ok ops2 → f w1 = f w2.
Proof.
  rewrite !R_reg by done. cbn [res_bind]. intros H1%Ok_inj H2%Ok_inj. rewrite <- H1, <- H2 in E.
  cbn [concat] in E. rewrite !app_nil_r in E. by apply reg_text_inj.
Qed.

Lemma read_two :
  two_regs (rs w1) (rt w1) = Ok ops1 → two_regs (rs w2) (rt w2) = Ok ops2 → rs w1 = rs w2 ∧ rt w1 = rt w2.
Proof.
  intros H1 H2. printed H1 H2. next_reg. apply reg_text_inj in E; [done|ranges..].
Qed.

Lemma read_three (f g h : Z → Z) :
  (∀ w, 0 ≤ f w < 32) → (∀ w, 0 ≤ g w < 32) → (∀ w, 0 ≤ h w < 32) →
  three_regs (f w1) (g w1) (h w1) = Ok ops1 → three_regs (f w2) (g w2) (h w2) = Ok ops2 →
  f w1 = f w2 ∧ g w1 = g w2 ∧ h w1 = h w2.
Proof.
  intros Hf Hg Hh. unfold three_regs. rewrite !R_reg by done. cbn [res_bind]. intros H1%Ok_inj H2%Ok_inj.
  rewrite <- H1, <- H2 in E. cbn [concat] in E. rewrite !app_nil_r in E.
  apply reg_comma in E as [? E]; [|done..]. apply reg_comma in E as [? E]; [|done..].
  apply reg_text_inj in E; done.
Qed.

Lemma read_bcond :
  (let? s := R (rs w1) in Ok [s ++ comma ++ hex8 (off16 w1 + pc + 4)]) = Ok ops1 →
  (let? s := R (rs w2) in Ok [s ++ comma ++ hex8 (off16 w2 + pc + 4)]) = Ok ops2 →
  rs w1 = rs w2 ∧ immed w1 = immed w2.
Proof. intros H1 H2. printed H1 H2. next_reg. apply hex8_inj, off16_pc in E. done. Qed.

Lemma read_jump :
  Ok [hex8 (Z.lor (top4 pc) (off26 w1))] = Ok ops1 → Ok [hex8 (Z.lor (top4 pc) (off26 w2))] = Ok ops2 →
  Z.land w1 0x3ffffff = Z.land w2 0x3ffffff.
Proof. intros H1 H2. printed H1 H2. by apply hex8_inj, off26_pc in E. Qed.

Lemma read_branch :
  (let? t := R (rt w1) in let? s := R (rs w1) in Ok [t ++ comma ++ s ++ comma ++ hex8 (off16 w1 + pc + 4)]) = Ok ops1 →
  (let? t := R (rt w2) in let? s := R (rs w2) in Ok [t ++ comma ++ s ++ comma ++ hex8 (off16 w2 + pc + 4)]) = Ok ops2 →
  rt w1 = rt w2 ∧ rs w1 = rs w2 ∧ immed w1 = immed w2.
Proof. intros H1 H2. printed H1 H2. do 2 next_reg. apply hex8_inj, off16_pc in E. done. Qed.

Lemma read_immediate :
  (let? t := R (rt w1) in let? s := R (rs w1) in Ok [t ++ comma ++ s ++ comma ++ str "0x" ++ hex (immed w1)]) = Ok ops1 →
  (let? t := R (rt w2) in let? s := R (rs w2) in Ok [t ++ comma ++ s ++ comma ++ str "0x" ++ hex (immed w2)]) = Ok ops2 →
  rt w1 = rt w2 ∧ rs w1 = rs w2 ∧ immed w1 = immed w2.
Proof. intros H1 H2. printed H1 H2. do 2 next_reg. apply app_inv_head, hex_inj, immed_uint32 in E. done. Qed.

Lemma read_lui :
  (let? t := R (rt w1) in Ok [t ++ comma ++ str "0x" ++ hex (immed w1)]) = Ok ops1 →
  (let? t := R (rt w2) in Ok [t ++ comma ++ str "0x" ++ hex (immed w2)]) = Ok ops2 →
  rt w1 = rt w2 ∧ immed w1 = immed w2.
Proof. intros H1 H2. printed H1 H2. next_reg. apply app_inv_head, hex_inj, immed_uint32 in E. done. Qed.

Lemma read_memory :
  (let? t := R (rt w1) in let? s := R (rs w1) in
   Ok [t ++ comma ++ str "0x" ++ hex (immed w1) ++ str "(" ++ s ++ str ")"]) = Ok ops1 →
  (let? t := R (rt w2) in let? s := R (rs w2) in
   Ok [t ++ comma ++ str "0x" ++ hex (immed w2) ++ str "(" ++ s ++ str ")"]) = Ok ops2 →
  rt w1 = rt w2 ∧ rs w1 = rs w2 ∧ immed w1 = immed w2.
Proof.
  intros H1 H2. printed H1 H2. next_reg. apply app_inv_head, hex_paren in E as [Ei%immed_uint32 E].
  apply app_inv_tail, reg_text_inj in E; [done|ranges..].
Qed.
End Operands.

(** ** Two words with one line *)

(** The keys of the operations printed in full, by the registers and numbers in print. *)
Definition shift_keys : list (Z * Z) := [(0, 0); (0, 2); (0, 3)].
Definition shiftv_keys : list (Z * Z) := [(0, 4); (0, 6); (0, 7)].
Definition rs_keys : list (Z * Z) := [(0, 8); (0, 19)].
Definition rd_keys : list (Z * Z) := [(0, 16)].
Definition none_keys : list (Z * Z) := [(0, 12)].
Definition rs_rt_keys : list (Z * Z) := [(0, 24); (0, 25); (0, 26); (0, 27)].
Definition rd_rs_rt_keys : list (Z * Z) :=
  [(0, 32); (0, 33); (0, 34); (0, 35); (0, 36); (0, 37); (0, 38); (0, 39); (0, 42); (0, 43)].
Definition bcond_keys : list (Z * Z) := [(1, 0); (1, 1); (1, 16); (1, 17)].
Definition jump_keys : list (Z * Z) := [(2, 0); (3, 0)].
Definition branch_keys : list (Z * Z) := [(4, 0); (5, 0)].
Definition immediate_keys : list (Z * Z) := [(8, 0); (9, 0); (10, 0); (11, 0); (12, 0); (13, 0); (14, 0)].
Definition lui_keys : list (Z * Z) := [(15, 0)].
Definition memory_keys : list (Z * Z) :=
  [(32, 0); (33, 0); (34, 0); (35, 0); (36, 0); (37, 0); (38, 0); (40, 0); (41, 0); (42, 0); (43, 0); (46, 0)].

Lemma full_keys_all :
  forallb (λ k, negb (printed_in_full (opcode_at k) && has_effect (opcode_at k)) || bool_decide (k ∈ shift_keys ++ shiftv_keys ++ rs_keys ++
    rd_keys ++ none_keys ++ rs_rt_keys ++ rd_rs_rt_keys ++ bcond_keys ++ jump_keys ++ branch_keys ++
    immediate_keys ++ lui_keys ++ memory_keys)) keys = true.
Proof. vm_compute. reflexivity. Qed.

Lemma full_keys k :
  k ∈ keys → printed_in_full (opcode_at k) = true → has_effect (opcode_at k) = true →
  k ∈ shift_keys ++ shiftv_keys ++ rs_keys ++ rd_keys ++ none_keys ++ rs_rt_keys ++ rd_rs_rt_keys ++
    bcond_keys ++ jump_keys ++ branch_keys ++ immediate_keys ++ lui_keys ++ memory_keys.
Proof.
  intros Hk%list_elem_of_In Hp He. pose proof full_keys_all as H. rewrite forallb_forall in H. specialize (H k Hk).
  rewrite Hp, He in H. cbn [andb negb orb] in H. by apply bool_decide_eq_true in H.
Qed.

(** A shift by a number reads [rs] and drops it. *)
Lemma rd_of_any i1 i2 p f m :
  machine_wf m → 0 ≤ MipsSim.rs i1 < 32 → 0 ≤ MipsSim.rs i2 < 32 →
  MipsSim.rt i1 = MipsSim.rt i2 → MipsSim.rd i1 = MipsSim.rd i2 →
  rd_of i1 p (λ _ b, f b) m = rd_of i2 p (λ _ b, f b) m.
Proof.
  intros Hm H1 H2 Et Ed. unfold rd_of.
  destruct (reg_ok m (MipsSim.rs i1) Hm) as (a1 & E1 & _); [unfold NumTotalRegs; lia|].
  destruct (reg_ok m (MipsSim.rs i2) Hm) as (a2 & E2 & _); [unfold NumTotalRegs; lia|].
  st_step E1. st_step E2. by rewrite Et, Ed.
Qed.

Section Alike.
Context (w1 w2 pc : Z) (k : Z * Z) (i1 i2 : Instruction) (ops1 ops2 : list text).
Context (O1 : opCode i1 = opcode_at k) (O2 : opCode i2 = opcode_at k).
Context (F1 : fields w1 i1) (F2 : fields w2 i2).
Context (X1 : extra i1 = extra_at k w1) (X2 : extra i2 = extra_at k w2).
Context (L1 : line_operands w1 pc k = Ok ops1) (L2 : line_operands w2 pc k = Ok ops2).
Context (E : concat ops1 = concat ops2).
Context (Hsub : k.1 = I_BCOND → rt w1 = rt w2).

Ltac cases_of Hin :=
  repeat (apply elem_of_cons in Hin as [Hin|Hin]); [.. | by apply not_elem_of_nil in Hin].

Lemma exec_alike p m :
  k ∈ keys → printed_in_full (opcode_at k) = true → has_effect (opcode_at k) = true →
  machine_wf m → exec i1 p m = exec i2 p m.
Proof.
  intros Hk Hp He Hm. pose proof (full_keys k Hk Hp He) as Hin. clear He.
  destruct i1 as [v1 o1 s1 t1 d1 x1], i2 as [v2 o2 s2 t2 d2 x2]. destruct F1 as [S1 T1 D1], F2 as [S2 T2 D2].
  cbn [opCode extra MipsSim.rs MipsSim.rt MipsSim.rd] in *. 
  rewrite !elem_of_app in Hin. subst.
  destruct Hin as [Hin|[Hin|[Hin|[Hin|[Hin|[Hin|[Hin|[Hin|[Hin|[Hin|[Hin|[Hin|Hin] ] ] ] ] ] ] ] ] ] ] ].
  - cases_of Hin; subst k; destruct (read_shift w1 w2 ops1 ops2 E L1 L2) as (Ed & Et & Ex);
      unfold extra_at; cbn [fst Z.eqb I_SPECIAL]; rewrite Ed, Et, Ex;
      (apply rd_of_any; [done|apply rs_range..|done|done]).
  - cases_of Hin; subst k;
      destruct (read_three w1 w2 ops1 ops2 E rd rt rs rd_range rt_range rs_range L1 L2) as (Ed & Et & Es);
      rewrite Ed, Et, Es; reflexivity.
  - cases_of Hin; subst k; rewrite (read_one w1 w2 ops1 ops2 E rs rs_range L1 L2); reflexivity.
  - cases_of Hin; subst k; rewrite (read_one w1 w2 ops1 ops2 E rd rd_range L1 L2); reflexivity.
  - cases_of Hin; subst k; reflexivity.
  - cases_of Hin; subst k; destruct (read_two w1 w2 ops1 ops2 E L1 L2) as (Es & Et); rewrite Es, Et; reflexivity.
  - cases_of Hin; subst k;
      destruct (read_three w1 w2 ops1 ops2 E rd rs rt rd_range rs_range rt_range L1 L2) as (Ed & Es & Et);
      rewrite Ed, Es, Et; reflexivity.
  - cases_of Hin; subst k; destruct (read_bcond w1 w2 pc ops1 ops2 E L1 L2) as (Es & Ex);
      unfold extra_at; rewrite Es, Ex, (Hsub eq_refl); reflexivity.
  - cases_of Hin; subst k; pose proof (read_jump w1 w2 pc ops1 ops2 E L1 L2) as Ex;
      unfold extra_at; rewrite Ex; reflexivity.
  - cases_of Hin; subst k; destruct (read_branch w1 w2 pc ops1 ops2 E L1 L2) as (Et & Es & Ex);
      unfold extra_at; rewrite Et, Es, Ex; reflexivity.
  - cases_of Hin; subst k; destruct (read_immediate w1 w2 ops1 ops2 E L1 L2) as (Et & Es & Ex);
      unfold extra_at; rewrite Et, Es, Ex; reflexivity.
  - cases_of Hin; subst k; destruct (read_lui w1 w2 ops1 ops2 E L1 L2) as (Et & Ex);
      unfold extra_at; rewrite Et, Ex; reflexivity.
  - cases_of Hin; subst k; destruct (read_memory w1 w2 ops1 ops2 E L1 L2) as (Et & Es & Ex);
      unfold extra_at; rewrite Et, Es, Ex; reflexivity.
Qed.
End Alike.

(** An operation without effect traps, whatever its fields and whichever it is. *)
Lemma exec_traps i1 i2 p m :
  has_effect (opCode i1) = false → has_effect (opCode i2) = false → exec i1 p m = exec i2 p m.
Proof.
  unfold has_effect. intros H1%negb_false_iff%bool_decide_eq_true H2%negb_false_iff%bool_decide_eq_true.
  assert (H : ∀ i, opCode i ∈ [OP_UNIMP; OP_RES] → exec i p m = Ok (Raise IllegalInstrException 0, m)).
  { intros i Hi. unfold exec. apply elem_of_cons in Hi as [-> | ->%list_elem_of_singleton]; reflexivity. }
  by rewrite !H.
Qed.

(** C37. The disassembler's names and operands tell instructions apart. Every word has a
    line: its address, the word in hexadecimal, and then a text. Two words with one such
    text at one address do the same on the simulated machine, whatever its state, when the
    first is any operation but five: JALR and MFLO, of which only [rs] is printed, MTHI, of
    which [rd] is, BLEZ and BGTZ, printed without operands. Words that mean no operation
    share names, and all of them trap. *)
Theorem same_line_same_effect (w1 w2 pc : Z) (i1 i2 : Instruction) :
  is_int32 w1 → is_int32 w2 → Decode (uint32 w1) = Ok i1 → Decode (uint32 w2) = Ok i2 →
  opCode i1 ∉ [OP_JALR; OP_MFLO; OP_MTHI; OP_BLEZ; OP_BGTZ] →
  ∃ t1 t2,
    dump_ascii w1 pc = Ok ((hex8 pc ++ str ": " ++ hex8 w1 ++ str "  ") :: t1) ∧
    dump_ascii w2 pc = Ok ((hex8 pc ++ str ": " ++ hex8 w2 ++ str "  ") :: t2) ∧
    (concat t1 = concat t2 → ∀ pcAfter m, machine_wf m → exec i1 pcAfter m = exec i2 pcAfter m).
Proof.
  intros H1 H2 D1 D2 Hp.
  destruct (dump_text_total w1 pc H1) as [t1 E1]. destruct (dump_text_total w2 pc H2) as [t2 E2].
  exists t1, t2. split; [by apply dump_ascii_text|]. split; [by apply dump_ascii_text|].
  intros E p m Hm. destruct (decide (w1 = w2)) as [->|Hne]; [by rewrite D1 in D2; injection D2 as ->|].
  destruct (decoded w1 i1 H1 D1) as (O1 & F1 & X1). destruct (decoded w2 i2 H2 D2) as (O2 & F2 & X2).
  assert (Hp' : printed_in_full (opcode_at (key_of w1)) = true).
  { unfold printed_in_full. rewrite <- O1. by rewrite bool_decide_false. }
  destruct (same_line_key w1 w2 pc t1 t2) as (Em & ops1 & ops2 & L1 & L2 & Eo); [done..|].
  destruct (mnemonic_inj _ _ (key_in w1) (key_in w2) Hp' Em) as [Ek|[N1 N2] ].
  2: { apply exec_traps; congruence. }
  destruct (has_effect (opcode_at (key_of w1))) eqn:He.
  2: { apply exec_traps; [congruence|]. by rewrite O2, <- Ek. }
  rewrite <- Ek in O2, X2, L2. eapply (exec_alike w1 w2 pc (key_of w1) i1 i2 ops1 ops2); try done; [|apply key_in].
  intros Hb. rewrite <- (key_rt w1 Hb), <- (key_rt w2); by rewrite <- Ek.
Qed.

(** ADD with different bits in the field it does not use, and two words that are no
    operation, with one name. *)
Lemma same_line_same_effect_witness :
  (∃ i1 i2, Decode 0x00221820 = Ok i1 ∧ Decode 0x00221860 = Ok i2 ∧ exec i1 8 full_regs = exec i2 8 full_regs) ∧
  (∃ i1 i2, Decode 0x00000014 = Ok i1 ∧ Decode 0x50000000 = Ok i2 ∧ exec i1 8 full_regs = exec i2 8 full_regs).
Proof.
  assert (Hnot : ∀ o, bool_decide (o ∈ [OP_JALR; OP_MFLO; OP_MTHI; OP_BLEZ; OP_BGTZ]) = false →
    o ∉ [OP_JALR; OP_MFLO; OP_MTHI; OP_BLEZ; OP_BGTZ]) by (by intros o H%bool_decide_eq_false).
  split; eexists _, _; (split; [reflexivity|]); (split; [reflexivity|]).
  - edestruct (same_line_same_effect 0x00221820 0x00221860 0) as (t1 & t2 & E1 & E2 & H);
      [by split|by split|reflexivity|reflexivity|by apply Hnot|].
    apply H; [|apply full_regs_wf]. vm_compute in E1, E2. congruence.
  - edestruct (same_line_same_effect 0x00000014 0x50000000 0) as (t1 & t2 & E1 & E2 & H);
      [by split|by split|reflexivity|reflexivity|by apply Hnot|].
    apply H; [|apply full_regs_wf]. vm_compute in E1, E2. congruence.
Defined.

(** The lines that are not complete: MFLO to register 1 and to register 2. *)
Example MFLO_loses_rd : dump_text 0x00000812 0 = dump_text 0x00001012 0.
Proof. reflexivity. Qed.

(** ** Loading and listing (disasm.c) *)

(** What the listing uses of the host's struct scnhdr. *)
Record SCNHDR := mkSCNHDR { s_vaddr : Z; s_size : Z; s_scnptr : Z }.

Section Disasm.
Context (TYPE : option Z).                   (** ldopen: the magic number of the file, if it can be read *)
Context (ldnshread : text → option SCNHDR).  (** the header of a section, by name *)
(** What [getc(fp)] gives for byte [i] of a section. main has closed fp by then, and FSEEK
    moves another stream: C leaves open what comes, and nothing is assumed of it. *)
Context (getc : text → nat → res Z).

(** From byte [i] on; the store keeps the low byte of what getc gives. *)
Fixpoint load_bytes (getc : nat → res Z) (n i : nat) (pc : Z) : ST Cpu unit :=
  match n with
  | 0%nat => st_ret tt
  | S n =>
      if pc - memoffset >=? MEMSIZE then st_fail (Exited 1)
      else
        let* b := st_lift (getc i) in
        let* _ := cstore pc b in
        load_bytes getc n (S i) (int32 (pc + 1))
  end.

Definition load_section (getc : nat → res Z) (hd : SCNHDR) : ST Cpu unit :=
  if negb (s_scnptr hd =? 0)
  then load_bytes getc (Z.to_nat (s_size hd)) 0 (s_vaddr hd)
  else st_ret tt.

Definition section_names : list text :=
  str <$> [".text"; ".rdata"; ".data"; ".sdata"; ".sbss"; ".bss"]%string.

(** The static headers start as zeros; the one of the text comes first. *)
Definition no_header : SCNHDR := mkSCNHDR 0 0 0.

Fixpoint load_sections (names : list text) : ST Cpu (list text * list SCNHDR) :=
  match names with
  | [] => st_ret ([], [])
  | name :: names =>
      match ldnshread name with
      | None =>
          let* r := load_sections names in
          st_ret ((drop 1 name ++ str " section header missing" ++ [10]) :: r.1, no_header :: r.2)
      | Some head =>
          let* _ := load_section (getc name) head in
          let* r := load_sections names in
          st_ret (r.1, head :: r.2)
      end
  end.

Definition load_program : ST Cpu (list text * SCNHDR) :=
  match TYPE with
  | None => st_fail (Exited 0)
  | Some type =>
      if negb (type =? 0x162) then st_fail (Exited 0)
      else
        let* r := load_sections section_names in
        st_ret (r.1, hd no_header r.2)
  end.

Definition dis1 (pc : Z) : ST Cpu (list text) :=
  let* instr := fetch pc in
  let* line := st_lift (dump_ascii instr pc) in
  st_ret (line ++ [[10]]).

Fixpoint disasm_loop (n : nat) (pc : Z) : ST Cpu (list text) :=
  match n with
  | 0%nat => st_ret []
  | S n =>
      let* line := dis1 pc in
      let* rest := disasm_loop n (int32 (pc + 4)) in
      st_ret (line ++ rest)
  end.

(** [for (i = 0; i < s_size; i += 4)] has a turn for each word begun. *)
Definition disasm (texthead : SCNHDR) : ST Cpu (list text) :=
  disasm_loop (Z.to_nat ((s_size texthead + 3) / 4)) memoffset.
End Disasm.

(** [while (argc > 1 && argv[1][0] == '-')]: no letter of an option does anything. *)
Fixpoint skip_options (args : list text) : list text :=
  match args with
  | (c :: _) :: more => if c =? 45 then skip_options more else args
  | _ => args
  end.

(** strcpy to an array of [size] characters, the NUL included *)
Definition strcpy (size : Z) (s : text) : res text :=
  if Z.of_nat (length s) + 1 <=? size then Ok s else Fail MemoryFault.

Section Main.
Context (fopen : text → bool) (TYPE : text → option Z) (ldnshread : text → text → option SCNHDR).
Context (getc : text → text → nat → res Z).

(** main: the lines about missing sections, and the listing. [disasm] uses none of the
    arguments main makes for it. *)
Definition main (self : text) (args : list text) : ST Cpu (list text * list text) :=
  let* _ := st_lift (strcpy 256 self) in
  let* filename := st_lift (match skip_options args with [] => Ok (str "a.out") | f :: _ => strcpy 1000 f end) in
  if negb (fopen filename) then st_fail (Exited 0)
  else
    let* r := load_program (TYPE filename) (ldnshread filename) (getc filename) in
    let* lines := disasm r.2 in
    st_ret (r.1, lines).
End Main.

(** The word at an address. *)
Definition word_at (c : Cpu) (a : Z) : Z :=
  int32 (le_val ((λ i, default 0 (mem c !! i)) <$> seqZ (a - memoffset) 4)).

(** A text inside the memory is listed to its end, a line for each word. *)
Lemma disasm_loop_lists n pc c :
  memoffset ≤ pc → pc + 4 * Z.of_nat n ≤ memoffset + MEMSIZE →
  ∃ lines, disasm_loop n pc c = Ok (lines ≫= (λ l, l ++ [[10]]), c) ∧
    Forall2 (λ j l, dump_ascii (word_at c (pc + 4 * j)) (pc + 4 * j) = Ok l) (seqZ 0 (Z.of_nat n)) lines.
Proof.
  revert pc. induction n as [|n IH]; intros pc H1 H2; [by exists []|]. unfold memoffset, MEMSIZE in *.
  destruct (dump_total (word_at c pc) pc (int32_range _)) as [l El].
  destruct (IH (pc + 4)) as (lines & E & Hl); [lia..|]. exists (l :: lines). split.
  - assert (Ef : fetch pc c = Ok (word_at c pc, c)).
    { unfold fetch, fetch_bytes, st_bind. unfold memoffset, MEMSIZE.
      rewrite (proj2 (Z.leb_le 0 _)), (proj2 (Z.leb_le _ _)) by lia. done. }
    cbn [disasm_loop]. unfold dis1. unfold st_bind at 1 2. rewrite Ef. unfold st_bind at 1, st_lift. rewrite El.
    cbn [st_ret]. unfold st_bind. rewrite int32_id by (unfold is_int32; lia). by rewrite E.
  - rewrite seqZ_cons by lia. replace (Z.pred (Z.of_nat (S n) - 0)) with (Z.of_nat n) by lia. constructor.
    { by replace (pc + 4 * 0) with pc by lia. }
    replace (Z.pred (Z.of_nat (S n))) with (Z.of_nat n) by lia.
    change (Z.succ 0) with (1 + 0). rewrite <- fmap_add_seqZ. apply Forall2_fmap_l.
    eapply Forall2_impl; [exact Hl|]. intros j l'. cbn.
    by replace (pc + 4 * (1 + j)) with (pc + 4 + 4 * j) by lia.
Qed.
End Dump.
