(* ===== verification/Interp.v ===== *)
(** * The program around the stand-alone interpreter (bin/main.c, bin/system.c, the printing
    of bin/execute.c)

    Its options, the loading of a program, the loop with its traces, and the system calls,
    which go to the host. The host's object file library, its <syscall.h> numbers, its calls
    and what it gives a reader of a closed file are parameters. *)
From stdpp Require Import strings.
From S2P Require Import Prelude Words Text Machine MipsSim Execute Dump.

Module Interp.
Import Execute Dump.

(** ** What execute.c prints *)

(** dump_reg: a row of eight registers. *)
Definition reg_row (name : string) (regs : list Z) : text :=
  str name ++ (regs ≫= λ r, str " " ++ hex8 r) ++ newline.
Definition dump_reg (c : Cpu) : text :=
  reg_row " 0:" (take 8 (Reg c)) ++ reg_row " 8:" (take 8 (drop 8 (Reg c))) ++
  reg_row "16:" (take 8 (drop 16 (Reg c))) ++ reg_row "24:" (take 8 (drop 24 (Reg c))).

(** henters and henter: a histogram and what is outside it. *)
Record Histogram := mkHistogram { bins : list Z; oflo : Z; total : Z }.
Definition henters (n : Z) (h : Histogram) : Histogram :=
  let inside := (0 <=? n) && (n <? Z.of_nat (length (bins h))) in
  mkHistogram (if inside then <[Z.to_nat n := default 0 (bins h !! Z.to_nat n) + 1]> (bins h) else bins h)
    (if inside then oflo h else oflo h + 1) (total h + 1).
Definition henter (n : Z) (hist : list Z) : list Z :=
  if (0 <=? n) && (n <? 64) then <[Z.to_nat n := default 0 (hist !! Z.to_nat n) + 1]> hist else hist.

Definition numbered {A} (l : list A) : list (nat * A) := zip (seq 0 (length l)) l.
Definition printhist (hist : list Z) : text :=
  numbered hist ≫= λ '(i, n), dec (Z.of_nat i) ++ str " " ++ dec n ++ newline.

(** patable: rows and columns with their numbers. *)
Definition patable (tab : list (list Z)) : text :=
  str "  |" ++ (seqZ 0 33 ≫= λ j, pad 6 (dec j)) ++ newline ++
  str "  |" ++ (seqZ 0 33 ≫= λ _, str "------") ++ newline ++
  (numbered tab ≫= λ '(i, row), pad 2 (dec (Z.of_nat i)) ++ str "|" ++ (row ≫= λ n, pad 6 (dec n)) ++ newline).

(** Its body is a comment. *)
Definition printstatistics : text := [].

(** ** The options (main) *)

Record Options := mkOptions {
  TRACE : bool; Traptrace : bool; Regtrace : bool;
  NROWS : Z; ASSOC : Z; LINESIZE : Z; RAND : bool; LRD : bool }.
Definition default_options : Options := mkOptions false false false 64 1 4 false false.

Section Options.
Context (atoi : text → Z).

(** The characters of an option; [more] are the arguments after it, of which [m] takes
    four, or runs past the end of argv. *)
Fixpoint option_chars (s : text) (more : list text) (o : Options) : res (Options * list text) :=
  match s with
  | [] => Ok (o, more)
  | c :: s =>
      if c =? 116 then option_chars s more (mkOptions true (Traptrace o) (Regtrace o) (NROWS o) (ASSOC o) (LINESIZE o) (RAND o) (LRD o))
      else if c =? 84 then option_chars s more (mkOptions (TRACE o) true (Regtrace o) (NROWS o) (ASSOC o) (LINESIZE o) (RAND o) (LRD o))
      else if c =? 114 then option_chars s more (mkOptions (TRACE o) (Traptrace o) true (NROWS o) (ASSOC o) (LINESIZE o) (RAND o) (LRD o))
      else if c =? 109 then
        match more with
        | rows :: assoc :: linesize :: kind :: more =>
            option_chars s more (mkOptions (TRACE o) (Traptrace o) (Regtrace o) (atoi rows) (atoi assoc) (atoi linesize)
              (bool_decide (head kind = Some 114)) (bool_decide (take 3 kind = str "lrd")))
        | _ => Fail MemoryFault
        end
      else option_chars s more o
  end.

(** [while (argc > 1 && argv[1][0] == '-')]; [args] are the arguments from argv[1] on. *)
Fixpoint read_options (fuel : nat) (args : list text) (o : Options) : res (Options * list text) :=
  match fuel, args with
  | S fuel, (c :: s) :: more =>
      if c =? 45 then let? r := option_chars s more o in read_options fuel r.2 r.1 else Ok (o, args)
  | _, _ => Ok (o, args)
  end.

(** What main makes of its arguments: the options, the file to load, and the arguments of
    the program. *)
Record Setup := mkSetup { options : Options; filename : text; program_args : list text }.
Definition read_args (self : text) (args : list text) : res Setup :=
  let? _ := strcpy 256 self in
  let? r := read_options (length args) args default_options in
  let? filename := match r.2 with [] => Ok (str "a.out") | f :: _ => strcpy 1000 f end in
  Ok (mkSetup r.1 filename (match r.2 with [] => [str "a.out"] | args => args end)).
End Options.

(** ** Loading (load_program) *)

Section Load.
Context (fopen : text → bool).                        (** whether the file can be opened *)
Context (TYPE : text → option Z).                     (** ldopen: its magic number *)
Context (ldnshread : text → text → option SCNHDR).    (** the header of a section of the file *)
(** What [getc(fp)] gives, asked for byte [i] of a section of a file. main has closed fp by
    then, and FSEEK moves another stream: C leaves open what comes, a byte of that file or
    of another, EOF, or a fault. Nothing is assumed of it. *)
Context (getc : text → text → nat → res Z).

(** The loop of LOADSECTION, from byte [i] on: what getc gives at each address. The result
    is [pc]. *)
Fixpoint load_loop (getc : nat → res Z) (n i : nat) (pc : Z) : ST Cpu Z :=
  match n with
  | 0%nat => st_ret pc
  | S n =>
      let* b := st_lift (getc i) in
      let* _ := cstore pc b in
      load_loop getc n (S i) (int32 (pc + 1))
  end.

(** The macro LOADSECTION: the size of the memory is looked at afterwards. *)
Definition LOADSECTION (getc : nat → res Z) (head : SCNHDR) : ST Cpu unit :=
  if negb (s_scnptr head =? 0) then
    let* pc := load_loop getc (Z.to_nat (s_size head)) 0 (s_vaddr head) in
    if pc - memoffset >=? MEMSIZE then st_fail (Exited 1) else st_ret tt
  else st_ret tt.

(** The sections in turn; the text is what is printed of those that are missing. *)
Fixpoint load_all (name : text) (sections : list text) : ST Cpu text :=
  match sections with
  | [] => st_ret []
  | section :: sections =>
      match ldnshread name section with
      | None =>
          let* out := load_all name sections in
          st_ret (drop 1 section ++ str " section header missing" ++ newline ++ out)
      | Some head =>
          let* _ := LOADSECTION (getc name section) head in
          load_all name sections
      end
  end.

Definition load_program (name : text) : ST Cpu text :=
  match TYPE name with
  | None => st_fail (Exited 0)
  | Some type => if negb (type =? 0x162) then st_fail (Exited 0) else load_all name section_names
  end.

(** main, up to the call of runprogram and with its beginning: the memory and the registers
    the program starts with. *)
Definition main_start (atoi : text → Z) (self : text) (args : list text) : ST Cpu (Options * text) :=
  let* s := st_lift (read_args atoi self args) in
  if negb (fopen (filename s)) then st_fail (Exited 0)
  else
    let* out := load_program (filename s) in
    let* _ := runprogram_start memoffset (program_args s) in
    st_ret (options s, out).
End Load.

(** ** System calls (system.c) *)

(** The numbers of the host's <syscall.h>. *)
Record Numbers := mkNumbers {
  SYS_exit : Z; SYS_read : Z; SYS_write : Z; SYS_open : Z; SYS_close : Z; SYS_lseek : Z;
  SYS_ioctl : Z; SYS_fstat : Z; SYS_getpagesize : Z }.

(** The processor, the host, and what has been printed. *)
Record Sim {H : Type} := mkSim { cpu : Cpu; host : H; printed : text }.
Arguments Sim H : clear implicits.
Arguments mkSim {H} cpu host printed.

(** The calls of the host: they may change its state and the memory of the program. A pointer
    of the program comes as a place in [mem]. *)
Record HostCalls (H : Type) := mkHostCalls {
  h_read : Z → Z → Z → ST (Cpu * H) Z;
  h_write : Z → Z → Z → ST (Cpu * H) Z;
  h_open : Z → Z → Z → ST (Cpu * H) Z;
  h_lseek : Z → Z → Z → ST (Cpu * H) Z;
  h_ioctl : Z → Z → Z → ST (Cpu * H) Z;
  h_fstat : Z → Z → ST (Cpu * H) Z;              (** the second is no pointer of the program *)
  h_getpagesize : Z }.
Arguments h_read {H}. Arguments h_write {H}. Arguments h_open {H}. Arguments h_lseek {H}.
Arguments h_ioctl {H}. Arguments h_fstat {H}. Arguments h_getpagesize {H}.

Definition u_to_int_addr (ptr : Z) : Z := ptr - memoffset.
Definition u_to_int_fd (fd : Z) : Z := fd.

Section Calls.
Context {H : Type} (no : Numbers) (hc : HostCalls H) (o : Options).
Abbreviation sim := (Sim H).

Definition on_cpu {A} (f : ST Cpu A) : ST sim A := λ s,
  let? r := f (cpu s) in Ok (r.1, mkSim r.2 (host s) (printed s)).
Definition on_host {A} (f : ST (Cpu * H) A) : ST sim A := λ s,
  let? r := f (cpu s, host s) in Ok (r.1, mkSim r.2.1 r.2.2 (printed s)).
Definition print (t : text) : ST sim unit := λ s, Ok (tt, mkSim (cpu s) (host s) (printed s ++ t)).
Definition print_regs : ST sim unit := λ s, print (dump_reg (cpu s)) s.
Definition when (b : bool) (x : ST sim unit) : ST sim unit := if b then x else st_ret tt.

(** Reg[1] = ... *)
Definition answer (f : ST (Cpu * H) Z) : ST sim unit :=
  let* v := on_host f in on_cpu (put_reg 1 (int32 v)).
Definition answer_const (v : Z) : ST sim unit := on_cpu (put_reg 1 (int32 v)).

(** What SYS_ioctl makes of its request. *)
Definition ioctl_request (o1 : Z) : Z :=
  let size := Z.land (Z.shiftr o1 16) 0x7f in
  let ioctl_group := int8 (Z.land (Z.shiftr o1 8) 0xff) in
  if (ioctl_group =? 116) && (size =? 8)
  then int32 (Z.lor (Z.land o1 (Z.lnot (Z.shiftl 0x7f 16))) (Z.shiftl 6 16)) else o1.

Definition system_call (syscallno o0 o1 o2 : Z) : ST sim unit :=
  if syscallno =? SYS_exit no then let* _ := print printstatistics in st_fail (Exited 0)
  else if syscallno =? SYS_read no then answer (h_read hc (u_to_int_fd o0) (u_to_int_addr o1) o2)
  else if syscallno =? SYS_write no then answer (h_write hc (u_to_int_fd o0) (u_to_int_addr o1) o2)
  else if syscallno =? SYS_open no then answer (h_open hc (u_to_int_addr o0) o1 o2)
  else if syscallno =? SYS_close no then answer_const 0
  else if syscallno =? 17 then answer_const ((Z.quot o0 8192 + 1) * 8192)
  else if syscallno =? SYS_lseek no then answer (h_lseek hc (u_to_int_fd o0) o1 o2)
  else if syscallno =? SYS_ioctl no then
    let* _ := answer (h_ioctl hc (u_to_int_fd o0) (ioctl_request o1) (u_to_int_addr o2)) in
    answer_const 0
  else if syscallno =? SYS_fstat no then answer (h_fstat hc o1 o2)
  else if syscallno =? SYS_getpagesize no then answer_const (h_getpagesize hc)
  else
    let* _ := print (str "Unknown System call " ++ dec syscallno ++ newline) in
    let* _ := when (negb (Traptrace o)) print_regs in
    st_fail (Exited 2).

Definition system_trap : ST sim unit := λ s,
  (let* _ := when (Traptrace o)
       (let* n := on_cpu (get_reg 2) in
        let* _ := print (str "**System call " ++ dec n ++ newline) in print_regs) in
   let* syscallno := on_cpu (get_reg 2) in
   let* o0 := on_cpu (get_reg 4) in
   let* o1 := on_cpu (get_reg 5) in
   let* o2 := on_cpu (get_reg 6) in
   let* _ := system_call syscallno o0 o1 o2 in
   when (Traptrace o) (let* _ := print (str "**Afterwards:" ++ newline) in print_regs)) s.

Definition system_break : ST sim unit :=
  let* _ := when (Traptrace o) (print (str "**breakpoint ")) in system_trap.

(** ** The loop (runprogram) *)

(** The instructions that call system.c. *)
Definition is_special (funct instr : Z) : bool :=
  (Z.land (Z.shiftr instr 26) 0x3f =? I_SPECIAL) && (Z.land instr 0x3f =? funct).

(** The switch; [u] stands for the two cases that are taken before. *)
Definition sim_switch (xpc instr : Z) : ST sim unit :=
  if is_special I_SYSCALL instr then system_trap
  else if is_special I_BREAK instr then system_break
  else on_cpu (switch u u xpc instr).

(** [if (TRACE) ...] *)
Definition trace (xpc instr : Z) : ST sim unit :=
  when (TRACE o)
    (let* line := st_lift (dump_ascii instr xpc) in
     let* _ := print (concat line ++ newline) in
     when (Regtrace o) print_regs).

(** One turn. *)
Definition sim_turn : ST sim unit := λ s,
  let xpc := pc (cpu s) in
  (let* _ := on_cpu (λ c, Ok (tt, set_npc (int32 (npc c + 4)) (set_pc (npc c) c))) in
   let* instr := on_cpu (ifetch xpc) in
   let* _ := on_cpu (put_reg 0 0) in
   let* _ := when (negb (instr =? 0)) (sim_switch xpc instr) in
   trace xpc instr) s.

Fixpoint sim_run (fuel : nat) : ST sim unit :=
  match fuel with
  | 0%nat => st_fail OutOfFuel
  | S fuel => let* _ := sim_turn in sim_run fuel
  end.
End Calls.

(** ** What is loaded *)

(** [c'] is [c] with the bytes of [input] from the address [pc] on. *)
Record filled (pc : Z) (input : list Z) (c c' : Cpu) : Prop := {
  fi_mem a : mem c' !! a =
    if decide (0 ≤ a - (pc - memoffset) < Z.of_nat (length input))
    then uint8 <$> input !! Z.to_nat (a - (pc - memoffset)) else mem c !! a;
  fi_rest : c' = set_mem (mem c') c;
}.

Lemma cstore_in pc v c :
  0 ≤ pc - memoffset < MEMSIZE → cstore pc v c = Ok (tt, set_mem (<[pc - memoffset := uint8 v]> (mem c)) c).
Proof.
  intros Hpc. unfold cstore, store_bytes. cbn [le_bytes length]. rewrite (proj2 (Z.leb_le _ _)), (proj2 (Z.leb_le _ _)) by lia.
  cbn [andb]. change (seqZ (pc - memoffset) (Z.of_nat 1)) with (seqZ (pc - memoffset) 1).
  rewrite seqZ_cons, seqZ_nil by done. cbn [zip zip_with list_to_map foldr fst snd].
  by rewrite insert_empty, <- insert_union_singleton_l.
Qed.

Lemma cstore_out pc v c : ¬ (0 ≤ pc - memoffset < MEMSIZE) → cstore pc v c = Fail MemoryFault.
Proof.
  intros Hpc. unfold cstore, store_bytes. cbn [le_bytes length].
  destruct (Z.leb_spec 0 (pc - memoffset)); [|done]. destruct (Z.leb_spec (pc - memoffset + Z.of_nat 1) MEMSIZE); [lia|done].
Qed.

Lemma load_loop_fills getc input i pc c :
  (∀ j b, input !! j = Some b → getc (i + j)%nat = Ok b) →
  0 ≤ pc - memoffset → pc - memoffset + Z.of_nat (length input) ≤ MEMSIZE →
  ∃ c', load_loop getc (length input) i pc c = Ok (pc + Z.of_nat (length input), c') ∧ filled pc input c c'.
Proof.
  revert i pc c. induction input as [|b input IH]; intros i pc c Hg H1 H2; cbn [length load_loop] in *.
  { exists c. cbn. rewrite Z.add_0_r. split; [done|]. split; [|by destruct c]. intros a. by rewrite decide_False by (cbn; lia). }
  pose proof (Hg 0%nat b eq_refl) as Hb. rewrite Nat.add_0_r in Hb. st_step (f_equal (λ r, let? x := r in Ok (x, c)) Hb).
  unfold st_bind. rewrite cstore_in by lia. unfold memoffset, MEMSIZE in *.
  rewrite int32_id by (unfold is_int32; lia). set (c1 := set_mem _ c).
  destruct (IH (S i) (pc + 1) c1) as (c' & -> & [Hm Hr]); [|lia..|].
  { intros j b' Hj. rewrite <- (Hg (S j) b' Hj). f_equal. lia. }
  exists c'. split; [do 2 f_equal; lia|]. split.
  - intros a. rewrite Hm. unfold memoffset. cbn [length]. set (d := a - (pc - 268435456)). replace (a - (pc + 1 - 268435456)) with (d - 1) by lia.
    destruct (decide (0 ≤ d - 1 < Z.of_nat (length input))) as [Hd|Hd].
    + rewrite decide_True by lia. by replace (Z.to_nat d) with (S (Z.to_nat (d - 1))) by lia.
    + cbn [c1 set_mem mem]. destruct (decide (d = 0)) as [Hd0|Hd0].
      * rewrite decide_True by lia. replace a with (pc - 268435456) by lia. by rewrite lookup_insert_eq, Hd0.
      * rewrite decide_False by lia. by rewrite lookup_insert_ne by lia.
  - rewrite Hr. by destruct c.
Qed.

(** Past the end of the memory the loop writes. *)
Lemma load_loop_overruns getc n i pc c :
  (∀ j, ∃ b, getc j = Ok b) →
  0 ≤ pc - memoffset ≤ MEMSIZE → MEMSIZE < pc - memoffset + Z.of_nat n → load_loop getc n i pc c = Fail MemoryFault.
Proof.
  intros Hg. revert i pc c. induction n as [|n IH]; intros i pc c H1 H2; [lia|]. cbn [load_loop].
  destruct (Hg i) as [b Hb]. unfold st_lift. rewrite Hb. unfold st_bind.
  destruct (decide (pc - memoffset < MEMSIZE)); [|by rewrite cstore_out by lia]. rewrite cstore_in by lia.
  unfold memoffset, MEMSIZE in *. rewrite int32_id by (unfold is_int32; lia). apply IH; lia.
Qed.

(** What LOADSECTION would make of a section whose bytes getc did give: below the end of the
    memory they are put at its addresses; one that ends just there, so that it fits, is
    refused; a longer one is written past the end first. *)
Lemma LOADSECTION_given getc h input c :
  s_scnptr h ≠ 0 → Z.of_nat (length input) = s_size h → 0 ≤ s_vaddr h - memoffset ≤ MEMSIZE →
  (∀ j, getc j = Ok (default (-1) (input !! j))) →
  let place := s_vaddr h - memoffset + s_size h in
  (place < MEMSIZE → ∃ c', LOADSECTION getc h c = Ok (tt, c') ∧ filled (s_vaddr h) input c c') ∧
  (place = MEMSIZE → LOADSECTION getc h c = Fail (Exited 1)) ∧
  (MEMSIZE < place → LOADSECTION getc h c = Fail MemoryFault).
Proof.
  intros Hp Hs Hv Hg place. unfold LOADSECTION. rewrite (proj2 (Z.eqb_neq _ _) Hp), <- Hs, Nat2Z.id. cbn [negb].
  split_and!; intros Hplace; unfold st_bind.
  3: { rewrite load_loop_overruns; [done | eauto | lia..]. }
  all: destruct (load_loop_fills getc input 0 (s_vaddr h) c) as (c' & -> & Hf);
    [intros j b Hj; rewrite Hg; cbn [Nat.add]; by rewrite Hj|lia..|].
  - exists c'. destruct (Z.geb_spec (s_vaddr h + Z.of_nat (length input) - memoffset) MEMSIZE); [lia|done].
  - destruct (Z.geb_spec (s_vaddr h + Z.of_nat (length input) - memoffset) MEMSIZE); [done|lia].
Qed.

Definition empty_cpu : Cpu := mkCpu (replicate 32 0) 0 0 ∅ 0 0.

(** *** The two loaders *)

(** The loop moves to the end of the section, if it comes to its end. *)
Lemma load_loop_pc getc n i pc c pc' c' :
  0 ≤ pc - memoffset → pc - memoffset + Z.of_nat n ≤ MEMSIZE →
  load_loop getc n i pc c = Ok (pc', c') → pc' = pc + Z.of_nat n.
Proof.
  revert i pc c. induction n as [|n IH]; intros i pc c H1 H2; cbn [load_loop].
  { intros [= <- _]. lia. }
  unfold st_lift, st_bind. destruct (getc i) as [b|f]; [|done]. cbn [res_bind]. rewrite cstore_in by lia.
  unfold memoffset, MEMSIZE in *. rewrite int32_id by (unfold is_int32; lia). intros ->%IH; lia.
Qed.

(** The disassembler's loader looks at the size before each byte. *)
Lemma load_bytes_loop getc n i pc c :
  0 ≤ pc - memoffset → pc - memoffset + Z.of_nat n ≤ MEMSIZE →
  load_bytes getc n i pc c = let? r := load_loop getc n i pc c in Ok (tt, r.2).
Proof.
  revert i pc c. induction n as [|n IH]; intros i pc c H1 H2; [done|]. cbn [load_bytes load_loop].
  destruct (Z.geb_spec (pc - memoffset) MEMSIZE); [lia|]. unfold st_lift, st_bind.
  destruct (getc i) as [b|f]; [|done]. cbn [res_bind]. rewrite cstore_in by lia.
  unfold memoffset, MEMSIZE in *. rewrite int32_id by (unfold is_int32; lia). apply IH; lia.
Qed.

(** A section that ends below the end of the memory. *)
Definition fits_memory (h : SCNHDR) : Prop :=
  0 ≤ s_size h ∧ 0 ≤ s_vaddr h - memoffset ∧ s_vaddr h - memoffset + s_size h < MEMSIZE.

Lemma load_section_agrees getc h c :
  s_scnptr h = 0 ∨ fits_memory h → load_section getc h c = LOADSECTION getc h c.
Proof.
  unfold load_section, LOADSECTION. destruct (Z.eqb_spec (s_scnptr h) 0) as [|Hp]; [done|].
  intros [|(Hs & Hv & Hplace)]; [done|]. cbn [negb]. rewrite load_bytes_loop by lia. unfold st_bind.
  destruct (load_loop getc (Z.to_nat (s_size h)) 0 (s_vaddr h) c) as [ [pc c']|f] eqn:E; [|done].
  apply load_loop_pc in E as ->; [|lia..]. cbn [res_bind snd].
  destruct (Z.geb_spec (s_vaddr h + Z.of_nat (Z.to_nat (s_size h)) - memoffset) MEMSIZE); [lia|done].
Qed.

Section Loaders.
Context (TYPE : text → option Z) (ldnshread : text → text → option SCNHDR).
Context (getc : text → text → nat → res Z) (name : text).

(** Every section with bytes in the file ends below the end of the memory. *)
Definition sections_fit : Prop :=
  ∀ section h, ldnshread name section = Some h → s_scnptr h = 0 ∨ fits_memory h.

Lemma load_all_agrees sections c :
  sections_fit →
  load_all ldnshread getc name sections c =
    let? r := load_sections (ldnshread name) (getc name) sections c in Ok (concat r.1.1, r.2).
Proof.
  intros Hfit. revert c. induction sections as [|section sections IH]; intros c; [done|]. cbn [load_all load_sections].
  destruct (ldnshread name section) as [h|] eqn:Eh; unfold st_bind.
  - rewrite (load_section_agrees _ _ c (Hfit section h Eh)).
    destruct (LOADSECTION (getc name section) h c) as [ [ [] c1]|f]; [|done]. rewrite IH.
    destruct (load_sections _ _ sections c1) as [ [ [l hs] c2]|f]; done.
  - rewrite IH. destruct (load_sections _ _ sections c) as [ [ [l hs] c2]|f]; [|done].
    cbn [res_bind st_ret fst snd concat]. unfold newline. by rewrite <- !app_assoc.
Qed.

(** On a file whose sections fit, the interpreter and the disassembler load the same memory
    and complain of the same sections, whatever getc gives them, the same for both. *)
Theorem loaders_agree c :
  sections_fit →
  load_program TYPE ldnshread getc name c =
    let? r := Dump.load_program (TYPE name) (ldnshread name) (getc name) c in Ok (concat r.1.1, r.2).
Proof.
  intros Hfit. unfold load_program, Dump.load_program. destruct (TYPE name) as [type|]; [|done].
  destruct (negb (type =? 0x162)); [done|]. rewrite load_all_agrees by done. unfold st_bind.
  by destruct (load_sections _ _ _ c) as [ [ [l hs] c1]|f].
Qed.
End Loaders.

(** ** The options that are read *)

(** Without an [m] the options are letters that each set a flag. *)
Definition plain (s : text) : Prop := 109 ∉ s.
Definition with_flags (s : text) (o : Options) : Options :=
  mkOptions (TRACE o || bool_decide (116 ∈ s)) (Traptrace o || bool_decide (84 ∈ s)) (Regtrace o || bool_decide (114 ∈ s))
    (NROWS o) (ASSOC o) (LINESIZE o) (RAND o) (LRD o).

Lemma option_chars_plain atoi s more o : plain s → option_chars atoi s more o = Ok (with_flags s o, more).
Proof.
  revert o. induction s as [|c s IH]; intros o Hs; cbn [option_chars].
  { unfold with_flags. destruct o. cbn. by rewrite !orb_false_r. }
  apply not_elem_of_cons in Hs as [Hc Hs].
  assert (Hcons : ∀ x, bool_decide (x ∈ c :: s) = (x =? c) || bool_decide (x ∈ s)).
  { intros x. apply eq_true_iff_eq. by rewrite orb_true_iff, !bool_decide_eq_true, elem_of_cons, Z.eqb_eq. }
  unfold with_flags. rewrite !Hcons.
  destruct (Z.eqb_spec c 116) as [->|H1]; [rewrite IH by done; unfold with_flags; cbn; by rewrite !orb_true_r|].
  destruct (Z.eqb_spec c 84) as [->|H2]; [rewrite IH by done; unfold with_flags; cbn; by rewrite !orb_true_r|].
  destruct (Z.eqb_spec c 114) as [->|H3]; [rewrite IH by done; unfold with_flags; cbn; by rewrite !orb_true_r|].
  rewrite (proj2 (Z.eqb_neq c 109)), (proj2 (Z.eqb_neq 116 c)), (proj2 (Z.eqb_neq 84 c)), (proj2 (Z.eqb_neq 114 c)) by congruence.
  rewrite IH by done. done.
Qed.

(** Options before the file, in any number. *)
Lemma read_options_plain atoi opts rest o fuel :
  Forall plain opts → (length opts + length rest <= fuel)%nat → (∀ s, head rest ≠ Some (45 :: s)) →
  read_options atoi fuel (((45 ::.) <$> opts) ++ rest) o = Ok (with_flags (concat opts) o, rest).
Proof.
  intros Ho. revert o fuel. induction Ho as [|s opts Hs _ IH]; intros o fuel Hf Hr; cbn [fmap list_fmap app concat].
  - assert (E : with_flags [] o = o) by (unfold with_flags; destruct o; cbn; by rewrite !orb_false_r). rewrite E.
    destruct fuel, rest as [|[|c t] rest]; try done. destruct (decide (c = 45)) as [->|Hc]; [by destruct (Hr t)|].
    cbn [read_options]. by rewrite (proj2 (Z.eqb_neq _ _) Hc).
  - destruct fuel as [|fuel]; cbn [length] in Hf; [lia|]. cbn [read_options]. change (45 =? 45) with true. cbn iota. rewrite option_chars_plain by done. cbn [res_bind fst snd].
    rewrite IH by (done || lia). do 2 f_equal. unfold with_flags. cbn [TRACE Traptrace Regtrace NROWS ASSOC LINESIZE RAND LRD].
    f_equal; rewrite <- orb_assoc; f_equal; apply eq_true_iff_eq; by rewrite orb_true_iff, !bool_decide_eq_true, elem_of_app.
Qed.

(** ** What the system calls do *)
Section Traps.
Context {H : Type} (no : Numbers) (hc : HostCalls H) (o : Options).

(** What system_trap reads of the registers. *)
Definition call_registers (c : Cpu) (n a0 a1 a2 : Z) : Prop :=
  Reg c !! 2%nat = Some n ∧ Reg c !! 4%nat = Some a0 ∧ Reg c !! 5%nat = Some a1 ∧ Reg c !! 6%nat = Some a2.

Lemma get_reg_get i v c (s : Sim H) :
  0 ≤ i → cpu s = c → Reg c !! Z.to_nat i = Some v → on_cpu (get_reg i) s = Ok (v, s).
Proof.
  intros Hi <- E. unfold on_cpu, get_reg. rewrite (arr_get_lookup _ _ v) by done. cbn [res_bind fst snd]. by destruct s.
Qed.

Lemma system_trap_call s n a0 a1 a2 :
  Traptrace o = false → call_registers (cpu s) n a0 a1 a2 →
  system_trap no hc o s = let? r := system_call no hc o n a0 a1 a2 s in Ok (tt, r.2).
Proof.
  intros Ht (H2 & H4 & H5 & H6). unfold system_trap. rewrite Ht. cbn [when]. st_step (eq_refl (st_ret tt s)).
  st_step (get_reg_get 2 n _ s ltac:(done) eq_refl H2). st_step (get_reg_get 4 a0 _ s ltac:(done) eq_refl H4).
  st_step (get_reg_get 5 a1 _ s ltac:(done) eq_refl H5). st_step (get_reg_get 6 a2 _ s ltac:(done) eq_refl H6).
  unfold st_bind. by destruct (system_call no hc o n a0 a1 a2 s) as [ [ [] s']|f].
Qed.

(** The numbers that are cases of the switch. *)
Definition known (n : Z) : Prop :=
  n ∈ [SYS_exit no; SYS_read no; SYS_write no; SYS_open no; SYS_close no; 17; SYS_lseek no; SYS_ioctl no; SYS_fstat no; SYS_getpagesize no].

(** A number that is none stops the interpreter with status 2, and SYS_exit with 0, whatever
    status it is given. *)
Lemma unknown_call n a0 a1 a2 s : ¬ known n → system_call no hc o n a0 a1 a2 s = Fail (Exited 2).
Proof.
  intros Hn. unfold known in Hn. rewrite !not_elem_of_cons in Hn. destruct Hn as (? & ? & ? & ? & ? & ? & ? & ? & ? & ? & _).
  unfold system_call. repeat (rewrite (proj2 (Z.eqb_neq _ _)) by done). unfold st_bind, print, when, print_regs, print.
  by destruct (negb (Traptrace o)).
Qed.

Lemma exit_call a0 a1 a2 s : system_call no hc o (SYS_exit no) a0 a1 a2 s = Fail (Exited 0).
Proof. unfold system_call. by rewrite Z.eqb_refl. Qed.

(** Read and write get a pointer of the program as a place in its memory, and their answer is
    register 1. *)
Lemma read_syscall a0 a1 a2 s v c h :
  SYS_read no ≠ SYS_exit no → h_read hc a0 (a1 - memoffset) a2 (cpu s, host s) = Ok (v, (c, h)) → length (Reg c) = 32%nat →
  system_call no hc o (SYS_read no) a0 a1 a2 s =
    Ok (tt, mkSim (set_Reg (<[1%nat := int32 v]> (Reg c)) c) h (printed s)).
Proof.
  intros Hne E Hl. unfold system_call. rewrite (proj2 (Z.eqb_neq _ _) Hne), Z.eqb_refl.
  unfold answer, on_host, on_cpu, st_bind, u_to_int_fd, u_to_int_addr. rewrite E. cbn [res_bind fst snd cpu host printed].
  unfold put_reg. by rewrite arr_set_in by lia.
Qed.

(** The break: the next multiple of 8192 above an address that is not negative. *)
Lemma break_call a0 a1 a2 s :
  ¬ 17 ∈ [SYS_exit no; SYS_read no; SYS_write no; SYS_open no; SYS_close no] → 0 ≤ a0 < 2 ^ 31 - 8192 → length (Reg (cpu s)) = 32%nat →
  ∃ v, system_call no hc o 17 a0 a1 a2 s = Ok (tt, mkSim (set_Reg (<[1%nat := v]> (Reg (cpu s))) (cpu s)) (host s) (printed s)) ∧
    a0 < v ≤ a0 + 8192 ∧ v mod 8192 = 0.
Proof.
  intros Hn Ha Hl. rewrite !not_elem_of_cons in Hn. destruct Hn as (? & ? & ? & ? & ? & _).
  unfold system_call. repeat (rewrite (proj2 (Z.eqb_neq _ _)) by done). cbn [Z.eqb Pos.eqb].
  unfold answer_const, on_cpu, put_reg. rewrite arr_set_in by lia. cbn [res_bind fst snd]. eexists. split; [done|].
  rewrite Z.quot_div_nonneg by lia. pose proof (Z.div_mod a0 8192 ltac:(lia)). pose proof (Z.mod_pos_bound a0 8192 ltac:(lia)).
  rewrite int32_id by (unfold is_int32; lia). split; [lia|]. by apply Z.mod_mul.
Qed.

(** A turn on an instruction that calls nothing is the turn of Execute.v. *)
Lemma sim_turn_turn x y s :
  TRACE o = false →
  (∀ instr c', ifetch (pc (cpu s)) (set_npc (int32 (npc (cpu s) + 4)) (set_pc (npc (cpu s)) (cpu s))) = Ok (instr, c') →
     is_special I_SYSCALL instr = false ∧ is_special I_BREAK instr = false) →
  sim_turn no hc o s = on_cpu (turn x y) s.
Proof.
  intros Htr Hcalls. unfold sim_turn, turn, on_cpu at 1. unfold on_cpu. unfold st_bind. cbn [res_bind fst snd cpu host printed].
  set (c1 := set_npc _ _) in *. destruct (ifetch (pc (cpu s)) c1) as [ [instr c2]|f]; [|done]. cbn [res_bind fst snd cpu host printed].
  destruct (Hcalls instr c2 eq_refl) as [H1 H2].
  destruct (put_reg 0 0 c2) as [ [ [] c3]|f]; [|done]. cbn [res_bind fst snd cpu host printed].
  unfold trace. rewrite Htr. cbn [when]. destruct (negb (instr =? 0)); cbn [when]; [|done].
  unfold sim_switch. rewrite H1, H2. unfold on_cpu. cbn [cpu host printed].
  assert (Hsw : switch x y (pc (cpu s)) instr = switch u u (pc (cpu s)) instr).
  { unfold switch. unfold is_special in H1, H2. destruct (_ =? I_SPECIAL); [|done]. cbn [andb] in H1, H2. unfold special.
    by rewrite H1, H2. }
  rewrite Hsw. by destruct (switch u u (pc (cpu s)) instr c3) as [ [ [] c4]|f].
Qed.
End Traps.

(** A program of three words: addiu r4,r0,7; addiu r2,r0,1; SYSCALL. It exits, if getc
    gives its bytes. *)
Definition exit_text : list Z :=
  [7; 0; 4; 0x24; 1; 0; 2; 0x24; 12; 0; 0; 0].
Definition exit_sections (file section : text) : option SCNHDR :=
  if bool_decide (section = str ".text") then Some (mkSCNHDR memoffset 12 4) else None.
Definition unix_numbers : Numbers := mkNumbers 1 3 4 5 6 19 54 62 64.
Definition no_host : HostCalls unit :=
  let none : ST (Cpu * unit) Z := st_ret (-1) in
  mkHostCalls unit (λ _ _ _, none) (λ _ _ _, none) (λ _ _ _, none) (λ _ _ _, none) (λ _ _ _, none) (λ _ _, none) 4096.

Example exit_runs :
  (let? r := main_start (λ _, true) (λ _, Some 0x162) exit_sections (λ _ _ i, Ok (default (-1) (exit_text !! i))) (λ _, 0) (str "interp") [str "-tr"; str "prog"] empty_cpu in
  let? _ := ASSERT (TRACE r.1.1 && Regtrace r.1.1) in
  sim_run unix_numbers no_host r.1.1 5 (mkSim r.2 tt [])) = Fail (Exited 0).
Proof. vm_compute. reflexivity. Qed.
End Interp.
