(* ===== verification/Out.v ===== *)
(** * The lister of object files (bin/out.c)

    What out.c prints of the sections, the relocations and the external symbols it has read:
    lines in columns, with the disassembler's lines for the text. How it reads them is in
    the structs of the host's headers and is left out; the sections, relocations and
    symbols are records with the fields that are printed. *)
From stdpp Require Import strings.
From S2P Require Import Prelude Words Text Machine MipsSim Execute Dump.

Module Out.
Import Execute Dump.

(** ** Output in columns *)

(** The static [column], and what the file has received. *)
Record Term := mkTerm { column : Z; written : text }.

Definition char_column (col c : Z) : Z :=
  if c =? 10 then 1 else if c =? 9 then Z.land (col + 7) (Z.lnot 7) + 1 else col + 1.

(** The text goes through [buf[100]], with its NUL. *)
Definition myprintf (buf : text) : ST Term unit := λ t,
  if Z.of_nat (length buf) + 1 <=? 100
  then Ok (tt, mkTerm (foldl char_column (column t) buf) (written t ++ buf)) else Fail MemoryFault.

Fixpoint mytab_loop (fuel : nat) (n : Z) : ST Term unit :=
  match fuel with
  | 0%nat => st_ret tt
  | S fuel => λ t,
      if column t <? n then mytab_loop fuel n (mkTerm (column t + 1) (written t ++ [32])) else Ok (tt, t)
  end.
Definition mytab (n : Z) : ST Term bool := λ t,
  (let* _ := mytab_loop (Z.to_nat (n - column t)) n in
   λ t, Ok (column t =? n, t)) t.

(** [%s]: an array is read up to its NUL. *)
Fixpoint c_string (l : list Z) : res text :=
  match l with
  | [] => Fail MemoryFault
  | c :: l => if c =? 0 then Ok [] else let? s := c_string l in Ok (c :: s)
  end.

(** ** The contents of the file *)

Definition MAXSYMS : Z := 300.

Record reloc := mkReloc { r_vaddr : Z; r_symndx : Z; r_extern : bool; r_type : Z }.
Record section := mkSection { s_name : list Z; s_vaddr : Z; s_size : Z; data : list Z; relocs : list reloc }.
Record symbol := mkSymbol { iss : Z; value : Z; st : Z; sc : Z }.

Definition symbol_type : list text :=
  str <$> ["Nil"; "Global"; "Static"; "Param"; "Local"; "Label"; "Proc"; "Block";
           "End"; "Member"; "Type"; "File"; "Register"; "Forward"; "StaticProc"; "Constant"]%string.
Definition storage_class : list text :=
  str <$> ["Nil"; "Text"; "Data"; "Bss"; "Register"; "Abs"; "Undefined"; "CdbLocal";
           "Bits"; "CdbSystem"; "RegImage"; "Info"; "UserStruct"; "SData"; "SBss";
           "RData"; "Var"; "Common"; "SCommon"; "VarRegister"; "Variant"; "SUndefined"; "Init"]%string.
Definition section_name : list text :=
  str <$> ["(null)"; ".text"; ".rdata"; ".data"; ".sdata"; ".sbss"; ".bss"; ".init"; ".lit8"; ".lit4"]%string.
Definition reloc_type : list text :=
  str <$> ["abs"; "16"; "32"; "26"; "hi16"; "lo16"; "gpdata"; "gplit"]%string.

Section Listing.
Context (symbols : list symbol) (sspace : list Z).
Context (scUndefined : Z).            (** a constant of the host's <syms.h> *)

(** [&sspace[i]] *)
Definition sym_name (i : Z) : res text := if i <? 0 then Fail MemoryFault else c_string (drop (Z.to_nat i) sspace).

Definition print_target (rp : reloc) : ST Term unit :=
  if r_extern rp then
    if r_symndx rp >=? MAXSYMS then myprintf (str "sym $" ++ dec (r_symndx rp))
    else
      let* sym := st_lift (arr_get symbols (r_symndx rp)) in
      let* name := st_lift (sym_name (iss sym)) in
      myprintf ([34] ++ name ++ [34])
  else
    let* name := st_lift (arr_get section_name (r_symndx rp)) in
    myprintf name.

(** The first relocation of the address, if there is one, and the end of the line. *)
Definition print_reloc (vaddr : Z) (s : section) : ST Term unit :=
  let* _ :=
    match list_find (λ rp, vaddr = r_vaddr rp) (relocs s) with
    | None => st_ret tt
    | Some (_, rp) =>
        let* _ := mytab 57 in
        let* _ := print_target rp in
        let* type := st_lift (arr_get reloc_type (r_type rp)) in
        myprintf (str " " ++ type)
    end in
  myprintf [10].

Definition printable (c : Z) : Z := if (32 <=? int8 c) && (int8 c <? 127) then c else 46.

Fixpoint print_all (pieces : list text) : ST Term unit :=
  match pieces with
  | [] => st_ret tt
  | p :: pieces => let* _ := myprintf p in print_all pieces
  end.

(** One turn of the loop of print_section. *)
Definition print_word (is_text : bool) (s : section) (j word : Z) : ST Term unit :=
  let pc := int32 (s_vaddr s + j * 4) in
  let* _ :=
    (if is_text then let* l := st_lift (dump_ascii word pc) in print_all l
     else
       let* _ := myprintf (hex8 pc ++ str ": " ++ hex8 word ++ str "  ") in
       let* _ := print_all ((λ c, [printable c]) <$> int_bytes word) in
       myprintf (tab ++ dec word)) in
  print_reloc pc s.

Fixpoint print_words (is_text : bool) (s : section) (j : Z) (words : list Z) : ST Term unit :=
  match words with
  | [] => st_ret tt
  | w :: words => let* _ := print_word is_text s j w in print_words is_text s (j + 1) words
  end.

Definition print_section (s : section) : ST Term unit :=
  let* name := st_lift (c_string (s_name s)) in
  let* _ := myprintf (str "Section: " ++ name ++ tab ++ dec (s_size s) ++ str "/" ++ dec (Z.of_nat (length (relocs s))) ++ [10]) in
  print_words (bool_decide (take 5 (s_name s) = str ".text")) s 0 (data s).

(** The line of an external symbol. *)
Definition print_symbol (sym : symbol) : ST Term unit :=
  let* _ := myprintf (if sc sym =? scUndefined then tab ++ str " " else hex8 (value sym) ++ str " ") in
  let* t := st_lift (arr_get symbol_type (st sym)) in
  let* _ := myprintf t in
  let* _ := mytab 25 in
  let* c := st_lift (arr_get storage_class (sc sym)) in
  let* _ := myprintf c in
  let* _ := mytab 41 in
  let* name := st_lift (sym_name (iss sym)) in
  myprintf (name ++ [10]).

Fixpoint print_each {A} (print : A → ST Term unit) (l : list A) : ST Term unit :=
  match l with
  | [] => st_ret tt
  | x :: l => let* _ := print x in print_each print l
  end.

(** The end of main. It is before the line that makes printf stand for myprintf, so its
    heading does not move the column. *)
Definition listing (sections : list section) : ST Term unit :=
  let* _ := print_each print_section sections in
  let* _ := (λ t, Ok (tt, mkTerm (column t)
    (written t ++ str "External Symbols:" ++ [10] ++ str "Value" ++ tab ++ str " Type" ++ tab ++ tab ++
     str "Storage Class" ++ tab ++ str "Name" ++ [10]))) in
  print_each print_symbol (take (Z.to_nat MAXSYMS) symbols).
End Listing.

(** ** Nothing of the disassembler overruns [buf] *)

Definition short (n : nat) (l : text) : Prop := (length l <= n)%nat.

Lemma hex_digits_short fuel n l : (length (hex_digits fuel n l) <= fuel + length l)%nat.
Proof.
  revert n l. induction fuel as [|fuel IH]; intros n l; [done|]. cbn [hex_digits].
  destruct (n <? 16); [cbn; lia|]. etrans; [apply IH|]. cbn. lia.
Qed.

Lemma hex_short z : short 8 (hex z).
Proof. unfold short, hex. etrans; [apply hex_digits_short|done]. Qed.

Lemma hex8_short z : short 8 (hex8 z).
Proof. pose proof (hex_short z). unfold short, hex8 in *. rewrite length_app, length_replicate. lia. Qed.

Lemma entry_short (l : list text) n i t : Forall (short n) l → arr_get l i = Ok t → short n t.
Proof. intros Hl [_ E]%arr_get_Ok_inv. by eapply Forall_lookup_1. Qed.

Lemma R_short i t : R i = Ok t → short 3 t.
Proof. apply entry_short. vm_compute. repeat constructor. Qed.

Lemma name_short i t : arr_get specialops i = Ok t ∨ arr_get normalops i = Ok t → short 7 t.
Proof. intros [H|H]; (eapply entry_short; [|exact H]; vm_compute; repeat constructor). Qed.

(** Collect the lengths of the pieces of a printf, and add them up. *)
Ltac lengths :=
  repeat match goal with
  | H : R ?i = Ok ?t |- _ => apply R_short in H
  | H : arr_get specialops ?i = Ok ?t |- _ => apply (or_introl (B := arr_get normalops i = Ok t)), name_short in H
  | H : arr_get normalops ?i = Ok ?t |- _ => apply (or_intror (A := arr_get specialops i = Ok t)), name_short in H
  end.
Ltac fits :=
  lengths; repeat (apply Forall_cons; split); try apply Forall_nil; unfold short in *;
  repeat first [rewrite length_app | rewrite length_cons];
  repeat match goal with
  | |- context [length (hex ?z)] => let H := fresh in pose proof (hex_short z) as H; unfold short in H; generalize dependent (length (hex z)); intros
  | |- context [length (hex8 ?z)] => let H := fresh in pose proof (hex8_short z) as H; unfold short in H; generalize dependent (length (hex8 z)); intros
  end; cbn [length str fmap list_fmap String.list_ascii_of_string tab comma]; lia.

Lemma special_operands_short w op ops : special_operands w op = Ok ops → Forall (short 30) ops.
Proof.
  unfold special_operands, two_regs, three_regs. intros E.
  repeat (match goal with E : context [one_of ?l op] |- _ => destruct (one_of l op) end; [inv_binds; fits|]).
  inv_binds. fits.
Qed.

Lemma normal_operands_short w pc op ops : normal_operands w pc op = Ok ops → Forall (short 30) ops.
Proof.
  unfold normal_operands. intros E.
  repeat (match goal with E : context [one_of ?l op] |- _ => destruct (one_of l op) end; [inv_binds; fits|]).
  inv_binds. fits.
Qed.

Lemma bcond_name_short op : short 6 (bcond_name op).
Proof. unfold bcond_name. repeat case_match; vm_compute; lia. Qed.

Lemma dump_short w pc l : dump_ascii w pc = Ok l → Forall (short 30) l.
Proof.
  unfold dump_ascii. intros E. apply res_bind_Ok_inv in E as (text & Et & <-%Ok_inj).
  unfold dump_text in Et. apply res_bind_Ok_inv in Et as (line & E & <-%Ok_inj).
  apply Forall_app. split; [unfold heading; cbn [longdis Z.eqb negb]; fits|]. apply Forall_cons. split; [unfold short; cbn; lia|].
  destruct (w =? I_NOP); [apply Ok_inj in E as <-; fits|].
  destruct (_ =? I_SPECIAL); [|destruct (_ =? I_BCOND)].
  - unfold special_ascii in E. apply res_bind_Ok_inv in E as (name & En & E).
    apply res_bind_Ok_inv in E as (ops & Eo & <-%Ok_inj). apply special_operands_short in Eo.
    apply Forall_cons. split; [|done]. lengths. unfold short in *. rewrite length_app. cbn. lia.
  - unfold bcond_ascii in E. apply res_bind_Ok_inv in E as (s & Es & <-%Ok_inj).
    pose proof (bcond_name_short (rt w)). fits.
  - unfold normal_ascii in E. apply res_bind_Ok_inv in E as (name & En & E).
    apply res_bind_Ok_inv in E as (ops & Eo & <-%Ok_inj). apply normal_operands_short in Eo.
    apply Forall_cons. split; [|done]. lengths. unfold short in *. rewrite length_app. cbn. lia.
Qed.

(** The line of an instruction comes out whole. *)
Lemma dump_printed w pc t :
  is_int32 w →
  ∃ l t', dump_ascii w pc = Ok l ∧ print_all l t = Ok (tt, t') ∧ written t' = written t ++ concat l.
Proof.
  intros Hw. destruct (dump_total w pc Hw) as [l E].
  cut (∃ t', print_all l t = Ok (tt, t') ∧ written t' = written t ++ concat l); [by intros (t' & ?); exists l, t'|].
  pose proof (dump_short w pc l E) as Hl. clear E. revert t.
  induction Hl as [|p l Hp _ IH]; intros t; [exists t; by rewrite app_nil_r|].
  cbn [print_all]. unfold st_bind, myprintf. unfold short in Hp. rewrite (proj2 (Z.leb_le _ _)) by lia.
  destruct (IH (mkTerm (foldl char_column (column t) p) (written t ++ p))) as (t' & E & Ht).
  exists t'. split; [exact E|]. rewrite Ht. cbn [written concat]. by rewrite app_assoc.
Qed.
End Out.
